(* ===== verification/_CoqProject ===== *)
-Q . S2P
Prelude.v
GoStrings.v
GoSlices.v
GoParse.v
KubeTypes.v
AtomicCache.v
Subjects.v
AccessMetrics.v
AccessSync.v
Samples.v
AccessSpec.v
NamespaceLister.v
SyncMachine.v
Fairness.v
GoHTTP.v
Authn.v
Middleware.v
ApiServer.v
EndToEnd.v
Rbac.v
Transform.v
Config.v
AccessChain.v
Startup.v
Lifecycle.v
MetricsUtil.v
AcceptContext.v
AcceptSteps.v
AcceptSpec.v
AcceptScenario.v
