(* ===== verification/Prelude.v ===== *)
(** * namespace-lister: a verification development

    namespace-lister is an HTTP service in Go.  It answers
    GET /api/v1/namespaces with the Kubernetes namespaces the caller may get,
    from an in-memory index that is recomputed whenever namespaces, roles or
    bindings change.  This library models the program as executable
    definitions and proves what makes it correct.

    ** The program and its parts

    A request goes through a chain of middlewares (metrics, logger,
    correlation ID, authentication, request log) to the handler, which asks
    the lister, which turns the user and the groups into RBAC subjects and looks
    them up in the access cache.  The access cache is an atomic pointer to a map
    from subjects to namespaces.  A scheduler goroutine recomputes the map: it
    lists the namespaces from the resource cache (the informers), asks the
    Kubernetes subject locator who may get each of them, labels a copy of the
    namespace for each subject, and swaps the pointer.  Informer events and a
    timer ask for a recomputation through a channel of capacity one.  At
    startup the process builds the caches, runs one synchronization, and then
    serves.

    ** Files

    - Prelude.v: outcomes of Go calls ([GoRes]: return or panic), errors and
      [errors.Is]/[errors.As], [cmp.Or], 64-bit wrap-around, slices, the
      unspecified order of ranging over a map ([MapRange]), deduplication; the
      automation of the library ([go_simp], the database [golib]).
    - GoStrings.v, GoSlices.v, GoParse.v, GoHTTP.v: the parts of Go's standard
      library the program uses (strings, slices, [Atoi] and [ParseDuration]
      with their overflow tests and float64 fractions, headers, response
      writers, contexts, [http.Error], the routing of [ServeMux]).
    - KubeTypes.v: subjects and namespaces; label and annotation maps are
      references into a store of maps ([heap]), so that sharing between the
      resource cache and the access cache is visible; [DeepCopy] as a class.
    - AtomicCache.v: pkg/auth/cache/atomiclistrestockcache.go, access_cache.go.
    - Subjects.v, AccessSync.v: pkg/auth/cache/synchronized_access_cache.go with
      its options and events; AccessMetrics.v: metrics_accesscache.go.
    - AccessSpec.v: the abstract specification of a synchronization
      ([access_spec]) and its refinement.
    - SyncMachine.v: the goroutines of [Start] and of startup as a step
      relation on program points, with invariants by rule induction; each
      iteration of the loop of [synch] is a step, so that the resources can
      change between two of them.
    - Fairness.v: infinite runs of that relation that are fair to the scheduler
      and to the informers: every call of [Synch] returns, and the cache
      converges.
    - NamespaceLister.v: namespacelister_subject.go, and the identities of
      acceptance/pkg/context/user_info.go.
    - Authn.v: authenticator.go.  Middleware.v: internal/http/middleware and the
      context part of internal/log.  ApiServer.v: http_api_handler_list.go,
      http_api_server.go, env.go, and the TLS callback of main.go.
    - EndToEnd.v: the request, the cache and the locator put together.
    - Rbac.v: rbac_authorizer.go and pkg/auth/cache/mocks/staticroles.go behind
      one interface.  Transform.v: internal/resourcecache/internal/transform.
    - Config.v: internal/resourcecache (config.go, access_cache.go,
      cache_build.go) and the log level.  Startup.v: main.go, metrics.go,
      access_cache_startup.go, internal/resourcecache/cache.go.
    - AccessChain.v: the options of the resource cache, the retriever, the
      synchronization and the lister put together, from the roles and bindings
      of a cluster to the answer of a user.
    - Lifecycle.v: the goroutines of the running process (API server, shutdown,
      metrics server, resource cache), signals and exit, as a step relation.
    - MetricsUtil.v: pkg/metricsutil.
    - AcceptContext.v: acceptance/pkg/context/context.go, acceptance/pkg/rest and
      acceptance/pkg/suite/env.go.  AcceptSteps.v: the hooks and steps of
      acceptance/pkg/suite in a state monad over the cluster.  AcceptSpec.v: what
      they check.  AcceptScenario.v: the steps composed with the program.
    - Samples.v: concrete values the witnesses evaluate.

    ** How state and effects are modelled

    Pure functions are functions; a method that changes its receiver returns
    the new record; calls that can panic are in [GoRes]; errors are values.  The
    JSON body, the headers, the status and the log records of a response are
    fields of the response writer that handlers pass along.  Interfaces of the
    program are classes ([SubjectNamespacesLister], [NamespaceLister],
    [RoleSource], [Reader]), and clients are proved against them.  [Synch] is
    given twice: as a function that runs alone (AccessSync.v) and as atomic
    steps that interleave (SyncMachine.v), which share the body of the loop
    ([synch_iteration]); convergence states the outcome of the steps in terms
    of the function.

    ** What the theorems show

    - Listing: a synchronization refines its specification; listing after it
      returns exactly the allowed namespaces, each once, labelled for the first
      allowed subject; end to end, so does a request; failures leave the cache
      as it was; List on several keys deduplicates.
    - Access: a user is listed exactly the namespaces in which a role binding,
      or a cluster role binding with the use-for-access label, binds the user or
      a group to a role with an explicit rule; stated on the cluster's objects,
      through every component in between.
    - Sharing: a synchronization writes nothing reachable before but the
      visibility label, and what it caches is reachable from nowhere else.
    - Concurrency: mutual exclusion, no lost update as long as no
      synchronization is refused or fails, a queued request can always be
      served, in every fair run every call of [Synch] returns and every change
      is eventually in the cache, when the resources stop changing the cache
      permanently equals what [synch] alone computes, a started cache always
      answers; and two races of startup, as reachable runs.
    - HTTP: the endpoint refines an abstract answer, an unauthenticated request
      learns nothing about the lister, routing is exact, every log record
      carries the correlation ID.
    - Authentication: header identities are exact whatever the
      capitalisation; building the authenticator; service account names round
      trip; which names panic.
    - Resource cache: trimming rules keeps exactly the explicit grants and is
      idempotent, wildcard grants are lost; each cached kind has a total
      transform; the retriever and the test double agree.
    - Configuration and startup: every environment gives a positive resync
      period and a timeout of a minute or more; the API is served only when every
      earlier call that can fail succeeded; the first failure ends the process;
      no exit is clean, and a shutdown can cut requests off.
    - Acceptance suites: values put into the context are read back; the hooks
      log in an identity the program recognises; granting access keeps the
      expected namespaces exact, and so do namespaces of other tenants; the
      final comparison accepts exactly the correct answers, and accepts those
      of the program; two steps ignore refused bindings.

    ** Parameters and hypotheses

    Code outside the repository is a parameter: the namespace lister and the
    subject locator ([SynchEnv]), [DeepCopy] ([DeepCopyLaws]: equal value, fresh
    maps), lower-casing beyond ASCII ([UnicodeLower]), the delegating
    authenticator and its clients, [uuid.NewUUID], promhttp ([PrometheusLaws]:
    a wrapped handler answers as the handler), [json.Marshal] on the Kubernetes
    types, the metadata accessor and the strip function ([ObjectLaws]), the
    evaluation of one rule ([RuleAllows_spec]), [client.Reader] ([Holds]), label
    selectors, registries; in AccessChain.v the subject locator over a source of
    roles ([locator_spec]) and the storage of the informers (an object is kept
    when the selector of its kind matches and its transform returns one:
    [stored_objects]); in the acceptance files the clients ([ClientOps],
    [ClusterLaws]), the client library ([RestLib]) and polling ([PollLaws]).
    Every theorem with such a hypothesis has a witness with a concrete instance.

    ** Bounds

    The only fuel is that of [parseItems] (the length of the string, shown to be
    enough by [parseItems_fuel]).  Durations are 64-bit integers with explicit
    wrap-around; counters and metric values are unbounded integers.

    ** What is not modelled

    Sockets and TLS handshakes, the informers and the wait for their caches (only
    their answers, and in AccessChain.v what a freshly filled cache holds: an
    update of a cached object to one whose transform returns nil is not
    covered), the two-minute timeout of a shutdown beyond the error it leads to,
    the
    handler of the metrics server, log records of the access cache and of the
    acceptance steps, bodies of the mux's redirects, godog's matching of
    patterns, generated mocks. *)

From stdpp Require Import base gmap strings list sorting.

(** ** Go outcomes

    A Go call either returns or panics.  Errors are ordinary values of type
    [error], returned next to the result as the code does. *)

Inductive GoRes (A : Type) : Type :=
| Ret (a : A)
| Panic (why : string).
Arguments Ret {A} a.
Arguments Panic {A} why.

Definition go_bind {A B} (m : GoRes A) (k : A → GoRes B) : GoRes B :=
  match m with
  | Ret a => k a
  | Panic w => Panic w
  end.

Definition returns {A} (m : GoRes A) : bool :=
  match m with Ret _ => true | Panic _ => false end.

Declare Scope go_scope.
Delimit Scope go_scope with go.
Notation "'let!' x ':=' m 'in' k" := (go_bind m (λ x, k))
  (at level 10, x name, m at level 100, k at level 200) : go_scope.
Open Scope go_scope.

#[export] Instance GoRes_eq_dec {A} `{EqDecision A} : EqDecision (GoRes A).
Proof. solve_decision. Defined.

Lemma go_bind_ret {A B} (a : A) (k : A → GoRes B) : go_bind (Ret a) k = k a.
Proof. done. Qed.

Lemma go_bind_Ret_inv {A B} (m : GoRes A) (k : A → GoRes B) b :
  go_bind m k = Ret b → ∃ a, m = Ret a ∧ k a = Ret b.
Proof. destruct m; naive_solver. Qed.

(** ** Errors

    The error values the code creates, compares or inspects.  [errors.New] of
    a package variable is a constructor of its own (Go compares such values by
    identity); [ErrStatus] is a [kerrors.StatusError]; [ErrWrap] is the result
    of [fmt.Errorf] with one or more [%w] verbs. *)

Inductive error : Type :=
| ErrSynchAlreadyRunning
| ErrResourceCacheConfig
| ErrDeadlineExceeded
| ErrCanceled
| ErrStatus (code : Z) (msg : string)
| ErrNew (msg : string)
| ErrWrap (msg : string) (wrapped : list error).

Section error_ind.
Variable P : error → Prop.
Hypothesis HRun : P ErrSynchAlreadyRunning.
Hypothesis HCfg : P ErrResourceCacheConfig.
Hypothesis HDl : P ErrDeadlineExceeded.
Hypothesis HCan : P ErrCanceled.
Hypothesis HSt : ∀ c m, P (ErrStatus c m).
Hypothesis HNew : ∀ m, P (ErrNew m).
Hypothesis HWrap : ∀ m es, Forall P es → P (ErrWrap m es).

Fixpoint error_nested_ind (e : error) : P e :=
  match e with
  | ErrSynchAlreadyRunning => HRun
  | ErrResourceCacheConfig => HCfg
  | ErrDeadlineExceeded => HDl
  | ErrCanceled => HCan
  | ErrStatus c m => HSt c m
  | ErrNew m => HNew m
  | ErrWrap m es =>
      HWrap m es
        ((fix go (l : list error) : Forall P l :=
            match l with
            | [] => Forall_nil_2 P
            | x :: l' => Forall_cons_2 P x l' (error_nested_ind x) (go l')
            end) es)
  end.
End error_ind.

(** [err.Error()] *)
Definition error_Error (e : error) : string :=
  match e with
  | ErrSynchAlreadyRunning => "Synch operation already running"
  | ErrResourceCacheConfig => "error building resource cache configuration"
  | ErrDeadlineExceeded => "context deadline exceeded"
  | ErrCanceled => "context canceled"
  | ErrStatus _ m => m
  | ErrNew m => m
  | ErrWrap m _ => m
  end.

(** The sentinel errors of the program, by identity. *)
Inductive sentinel : Type := SentinelSynchAlreadyRunning | SentinelResourceCacheConfig.
#[export] Instance sentinel_eq_dec : EqDecision sentinel.
Proof. solve_decision. Defined.

Definition error_sentinel (e : error) : option sentinel :=
  match e with
  | ErrSynchAlreadyRunning => Some SentinelSynchAlreadyRunning
  | ErrResourceCacheConfig => Some SentinelResourceCacheConfig
  | _ => None
  end.

(** [errors.Is(err, target)] for a sentinel target: a depth-first search of
    the tree of wrapped errors. *)
Fixpoint errors_Is (e : error) (target : sentinel) : bool :=
  bool_decide (error_sentinel e = Some target) ||
  match e with
  | ErrWrap _ es => existsb (λ e', errors_Is e' target) es
  | _ => false
  end.

(** [errors.As(err, &serr)] for [serr : *kerrors.StatusError]: the first
    status error of a depth-first search. *)
Fixpoint errors_As_Status (e : error) : option (Z * string) :=
  match e with
  | ErrStatus c m => Some (c, m)
  | ErrWrap _ es =>
      (fix go (l : list error) : option (Z * string) :=
         match l with
         | [] => None
         | e' :: l' => match errors_As_Status e' with
                       | Some r => Some r
                       | None => go l'
                       end
         end) es
  | _ => None
  end.

(** ** [cmp.Or]: the first value that is not the zero value. *)
Definition cmp_Or {A} `{EqDecision A} (zero : A) (vs : list A) : A :=
  default zero (list_find (λ v, v ≠ zero) vs ≫= λ p, Some p.2).

Lemma cmp_Or_cons {A} `{EqDecision A} (zero x : A) l :
  cmp_Or zero (x :: l) = if decide (x = zero) then cmp_Or zero l else x.
Proof.
  unfold cmp_Or; simpl.
  destruct (decide (x = zero)) as [->|Hne].
  - rewrite decide_False by naive_solver.
    destruct (list_find _ l) as [[]|]; done.
  - by rewrite decide_True.
Qed.

Lemma cmp_Or_nil {A} `{EqDecision A} (zero : A) : cmp_Or zero [] = zero.
Proof. done. Qed.

(** ** [int64] arithmetic *)
Definition wrap64 (z : Z) : Z := (z + 2^63) `mod` 2^64 - 2^63.
Definition in64 (z : Z) : Prop := (- 2^63 ≤ z < 2^63)%Z.

Lemma wrap64_in64 z : in64 (wrap64 z).
Proof. unfold in64, wrap64. pose proof (Z.mod_pos_bound (z + 2^63) (2^64)). lia. Qed.

Lemma wrap64_id z : in64 z → wrap64 z = z.
Proof. unfold in64, wrap64. intros. rewrite Z.mod_small; lia. Qed.

(** ** Lists *)
Lemma existsb_elem_of {A} (f : A → bool) l :
  existsb f l = true ↔ ∃ x, x ∈ l ∧ f x = true.
Proof. rewrite existsb_exists. by setoid_rewrite list_elem_of_In. Qed.

Lemma existsb_Permutation {A} (f : A → bool) l k : l ≡ₚ k → existsb f l = existsb f k.
Proof.
  intros H. apply eq_bool_prop_intro. rewrite !Is_true_true, !existsb_elem_of.
  by setoid_rewrite H.
Qed.

Lemma NoDup_fmap_elem_of_eq {A B} (f : A → B) l x y :
  NoDup (f <$> l) → x ∈ l → y ∈ l → f x = f y → x = y.
Proof.
  induction l as [|z l IH]; simpl; [by intros ? ?%not_elem_of_nil|].
  rewrite NoDup_cons, !elem_of_cons, list_elem_of_fmap.
  intros [Hz Hl] [->|Hx] [->|Hy] Heq; naive_solver.
Qed.

(** ** Slices

    A Go slice with its elements; [None] is the nil slice, which the JSON
    encoder tells apart from an empty one. *)
Abbreviation slice A := (option (list A)).
Definition elems {A} (s : slice A) : list A := default [] s.
(** [append(s, x)] *)
Definition go_append {A} (s : slice A) (x : A) : slice A := Some (elems s ++ [x]).

(** ** Ranging over a map

    The order in which [for k, v := range m] visits a Go map is unspecified.
    The definitions that range over a map take the order from this class; the
    laws say the loop visits every entry once. *)
Class MapRange (K V : Type) `{Countable K} := map_range : gmap K V → list (K * V).
Class MapRangeLaws (K V : Type) `{MapRange K V} : Prop :=
  map_range_perm m : map_range m ≡ₚ map_to_list m.

(** One such order, for evaluation. *)
Definition sorted_range (K V : Type) `{Countable K} : MapRange K V := map_to_list.
Lemma sorted_range_laws (K V : Type) `{Countable K} : @MapRangeLaws K V _ _ (sorted_range K V).
Proof. by intros m. Qed.

(** ** Deduplication by an identifier, keeping first occurrences *)
Section dedup.
Context {E I : Type} `{Countable I} (idf : E → I).

Fixpoint dedup_from (seen : gset I) (l : list E) : list E :=
  match l with
  | [] => []
  | x :: l' => if decide (idf x ∈ seen) then dedup_from seen l'
               else x :: dedup_from ({[idf x]} ∪ seen) l'
  end.
Definition dedup_first : list E → list E := dedup_from ∅.

Lemma dedup_from_id seen l i :
  i ∈ idf <$> dedup_from seen l ↔ i ∈ idf <$> l ∧ i ∉ seen.
Proof.
  revert seen. induction l as [|x l IH]; intros seen; simpl; [set_solver|].
  case_decide; rewrite ?fmap_cons, ?elem_of_cons, IH; [set_solver|].
  destruct (decide (i = idf x)); set_solver.
Qed.

Lemma dedup_from_NoDup seen l : NoDup (idf <$> dedup_from seen l).
Proof.
  revert seen. induction l as [|x l IH]; intros seen; simpl; [constructor|].
  case_decide; [done|]. rewrite fmap_cons. apply NoDup_cons.
  split; [|done]. rewrite dedup_from_id. set_solver.
Qed.

Lemma dedup_from_subseteq seen l : dedup_from seen l ⊆ l.
Proof.
  revert seen. induction l as [|x l IH]; intros seen; simpl; [done|].
  case_decide; specialize (IH seen) as H1;
    specialize (IH ({[idf x]} ∪ seen)); set_solver.
Qed.

Lemma dedup_from_length seen l : length (dedup_from seen l) ≤ length l.
Proof.
  revert seen. induction l as [|x l IH]; intros seen; simpl; [lia|].
  case_decide; simpl.
  - specialize (IH seen). lia.
  - specialize (IH ({[idf x]} ∪ seen)). lia.
Qed.

Lemma dedup_from_NoDup_id seen l :
  NoDup (idf <$> l) → (∀ x, x ∈ l → idf x ∉ seen) → dedup_from seen l = l.
Proof.
  revert seen. induction l as [|x l IH]; intros seen Hnd Hs; simpl; [done|].
  rewrite fmap_cons, NoDup_cons in Hnd. destruct Hnd as [Hx Hnd].
  rewrite decide_False by (apply Hs; by left). f_equal. apply IH; [done|].
  intros y Hy. apply not_elem_of_union. split.
  - intros Heq%elem_of_singleton. apply Hx. rewrite <-Heq.
    apply list_elem_of_fmap. eauto.
  - apply Hs. by right.
Qed.

Lemma dedup_from_app seen l k :
  dedup_from seen (l ++ k) =
  dedup_from seen l ++ dedup_from (list_to_set (idf <$> l) ∪ seen) k.
Proof.
  revert seen. induction l as [|x l IH]; intros seen; csimpl.
  { by rewrite union_empty_l_L. }
  case_decide; rewrite IH; simpl.
  - do 2 f_equal. set_solver.
  - do 3 f_equal. set_solver.
Qed.

Lemma dedup_from_elem_of_NoDup seen l x :
  NoDup (idf <$> l) → x ∈ dedup_from seen l ↔ x ∈ l ∧ idf x ∉ seen.
Proof.
  revert seen. induction l as [|y l IH]; intros seen Hnd; csimpl; [set_solver|].
  rewrite fmap_cons, NoDup_cons, list_elem_of_fmap in Hnd. destruct Hnd as [Hy Hnd].
  assert (x ∈ l → idf x ≠ idf y) as Hne by naive_solver.
  case_decide; rewrite ?elem_of_cons, IH by done; set_solver.
Qed.
End dedup.

Lemma dedup_from_fmap {E F I : Type} `{Countable I} (idf : F → I) (f : E → F) seen l :
  f <$> dedup_from (idf ∘ f) seen l = dedup_from idf seen (f <$> l).
Proof.
  revert seen. induction l as [|x l IH]; intros seen; csimpl; [done|].
  by case_decide; csimpl; rewrite IH.
Qed.

(** [s[i]]: a Go index expression panics out of range. *)
Definition go_index {A} (l : list A) (i : nat) : GoRes A :=
  match l !! i with
  | Some x => Ret x
  | None => Panic "index out of range"
  end.

(** A quadruple whose last component is known. *)
Lemma quad_eta {A B C D} (r : A * B * C * D) d :
  r.2 = d → r = (r.1.1.1, r.1.1.2, r.1.2, d).
Proof. destruct r as [[[]]]. by intros <-. Qed.

(** ** Automation *)
Create HintDb golib.
Create Rewrite HintDb golib.
#[export] Hint Resolve wrap64_in64 : golib.
#[export] Hint Rewrite @go_bind_ret @cmp_Or_cons @cmp_Or_nil : golib.

(** [go_simp] inverts successful binds and computes the residual matches. *)
Ltac go_simp :=
  repeat match goal with
  | H : go_bind _ _ = Ret _ |- _ => apply go_bind_Ret_inv in H as (? & ? & ?)
  | H : Ret _ = Ret _ |- _ => injection H as H
  | H : Panic _ = Ret _ |- _ => discriminate H
  | H : Ret _ = Panic _ |- _ => discriminate H
  | _ => progress simplify_eq/=
  end.
