(* ===== verification/GoStrings.v ===== *)
(** * Go's [strings] and [net/textproto] functions on byte strings

    The parts of the Go standard library the program calls on strings:
    [strings.Compare], [strings.HasPrefix], [strings.Split], [strings.ToLower],
    [strings.TrimLeft] and the canonical form of HTTP header names.  A Go
    string is a [string] here, a list of 8-bit characters. *)

From Stdlib Require Import Ascii.
From stdpp Require Import base gmap strings list.
From S2P Require Import Prelude.

(** ** [strings.Compare] *)
Definition Compare (a b : string) : Z :=
  match String.compare a b with Lt => -1 | Eq => 0 | Gt => 1 end.

Lemma string_compare_refl s : String.compare s s = Eq.
Proof.
  induction s as [|c s IH]; simpl; [done|].
  unfold Ascii.compare. by rewrite N.compare_refl.
Qed.

Lemma Compare_eq a b : Compare a b = 0%Z ↔ a = b.
Proof.
  unfold Compare. split.
  - destruct (String.compare a b) eqn:E; try done. intros _. by apply String.compare_eq_iff.
  - intros ->. by rewrite string_compare_refl.
Qed.

Lemma Compare_opp a b : Compare b a = (- Compare a b)%Z.
Proof. unfold Compare. rewrite String.compare_antisym. by destruct (String.compare a b). Qed.

Lemma Compare_le a b : (Compare a b ≤ 0)%Z ↔ String.le a b.
Proof.
  unfold Compare, String.le, String.leb.
  destruct (String.compare a b); simpl; split; naive_solver lia.
Qed.

Lemma Compare_le_trans a b c :
  (Compare a b ≤ 0 → Compare b c ≤ 0 → Compare a c ≤ 0)%Z.
Proof. rewrite !Compare_le. intros. by trans b. Qed.

(** ** [strings.HasPrefix] *)
Definition HasPrefix (s p : string) : bool := String.prefix p s.

Lemma HasPrefix_app p s : HasPrefix (p +:+ s) p = true.
Proof.
  unfold HasPrefix. induction p as [|c p IH]; simpl; [by destruct s|].
  by destruct (ascii_dec c c).
Qed.

Lemma HasPrefix_inv s p : HasPrefix s p = true → ∃ r, s = p +:+ r.
Proof.
  unfold HasPrefix. revert s. induction p as [|c p IH]; intros s H; [by exists s|].
  destruct s as [|d s]; simpl in H; [done|].
  destruct (ascii_dec c d) as [->|]; [|done].
  destruct (IH s H) as [r ->]. by exists r.
Qed.

Lemma string_app_nil_r (s : string) : s +:+ "" = s.
Proof. induction s as [|c s IH]; [done|]. apply (f_equal (String c)), IH. Qed.

(** ** [strings.Split] on a one-byte separator *)
Fixpoint Split (sep : ascii) (s : string) : list string :=
  match s with
  | EmptyString => [""]
  | String c s' =>
      if decide (c = sep) then "" :: Split sep s'
      else match Split sep s' with
           | [] => [String c ""]
           | x :: xs => String c x :: xs
           end
  end.

(** The separator does not occur in [s]. *)
Fixpoint no_sep (sep : ascii) (s : string) : bool :=
  match s with
  | EmptyString => true
  | String c s' => negb (bool_decide (c = sep)) && no_sep sep s'
  end.

(** [strings.Join] on a one-byte separator. *)
Fixpoint Join (sep : ascii) (l : list string) : string :=
  match l with
  | [] => ""
  | [x] => x
  | x :: l' => x +:+ String sep (Join sep l')
  end.

Lemma Split_not_nil sep s : Split sep s ≠ [].
Proof. destruct s as [|c s]; simpl; [done|]. by repeat case_match. Qed.

Lemma Split_no_sep sep s : no_sep sep s = true → Split sep s = [s].
Proof.
  induction s as [|c s IH]; simpl; [done|].
  rewrite andb_true_iff, negb_true_iff, bool_decide_eq_false.
  intros [Hc Hs]. rewrite decide_False, IH; done.
Qed.

Lemma Split_app_sep sep s r :
  no_sep sep s = true → Split sep (s +:+ String sep r) = s :: Split sep r.
Proof.
  induction s as [|c s IH]; simpl.
  - by rewrite decide_True.
  - rewrite andb_true_iff, negb_true_iff, bool_decide_eq_false.
    intros [Hc Hs]. rewrite decide_False, IH; done.
Qed.

Lemma Split_parts sep s : Forall (λ x, no_sep sep x = true) (Split sep s).
Proof.
  induction s as [|c s IH]; simpl; [by constructor|].
  case_decide as Hc; [by constructor|].
  destruct (Split sep s) as [|x xs]; constructor; simpl; inversion IH; subst;
    rewrite ?bool_decide_false by done; done.
Qed.

Lemma Join_Split sep s : Join sep (Split sep s) = s.
Proof.
  induction s as [|c s IH]; simpl; [done|].
  pose proof (Split_not_nil sep s) as Hn.
  destruct (Split sep s) as [|x xs]; [done|].
  case_decide as Hc; subst; [done|]. by destruct xs.
Qed.

(** ** Character classes *)
Definition byte_in (lo hi : nat) (c : ascii) : bool :=
  (lo <=? nat_of_ascii c) && (nat_of_ascii c <=? hi).
Definition is_lower : ascii → bool := byte_in 97 122.
Definition is_upper : ascii → bool := byte_in 65 90.
Definition is_digit : ascii → bool := byte_in 48 57.
Definition is_ascii (c : ascii) : bool := nat_of_ascii c <? 128.
Definition lower_byte (c : ascii) : ascii :=
  if is_upper c then ascii_of_nat (nat_of_ascii c + 32) else c.
Definition upper_byte (c : ascii) : ascii :=
  if is_lower c then ascii_of_nat (nat_of_ascii c - 32) else c.

Fixpoint string_map (f : ascii → ascii) (s : string) : string :=
  match s with
  | EmptyString => ""
  | String c s' => String (f c) (string_map f s')
  end.
Fixpoint string_forallb (f : ascii → bool) (s : string) : bool :=
  match s with
  | EmptyString => true
  | String c s' => f c && string_forallb f s'
  end.

(** A statement about one byte is checked on all 256 of them. *)
Ltac all_bytes c := destruct c as [[] [] [] [] [] [] [] []]; vm_compute; try done.

(** ** [strings.ToLower]

    On a string of ASCII bytes the function maps byte by byte; on any other
    string it maps runes through the Unicode tables, which are a parameter. *)
Class UnicodeLower := unicode_lower : string → string.

Definition ToLower `{!UnicodeLower} (s : string) : string :=
  if string_forallb is_ascii s then string_map lower_byte s else unicode_lower s.

(** ** [strings.TrimLeft] with a one-byte cutset *)
Fixpoint TrimLeft (cut : ascii) (s : string) : string :=
  match s with
  | String c s' => if decide (c = cut) then TrimLeft cut s' else s
  | EmptyString => ""
  end.

(** ** [textproto.CanonicalMIMEHeaderKey] *)

(** The token bytes of RFC 7230. *)
Definition validHeaderFieldByte (c : ascii) : bool :=
  is_lower c || is_upper c || is_digit c ||
  existsb (λ n, n =? nat_of_ascii c)
    [33; 35; 36; 37; 38; 39; 42; 43; 45; 46; 94; 95; 96; 124; 126].

Definition is_dash (c : ascii) : bool := nat_of_ascii c =? 45.

Fixpoint canonical_go (upper : bool) (s : string) : string :=
  match s with
  | EmptyString => ""
  | String c s' =>
      let c' := if upper then upper_byte c else lower_byte c in
      String c' (canonical_go (is_dash c') s')
  end.

Definition CanonicalMIMEHeaderKey (s : string) : string :=
  if string_forallb validHeaderFieldByte s then canonical_go true s else s.

Lemma validHeaderFieldByte_case c :
  validHeaderFieldByte (upper_byte c) = validHeaderFieldByte c ∧
  validHeaderFieldByte (lower_byte c) = validHeaderFieldByte c.
Proof. all_bytes c. Qed.

Lemma case_idem c :
  upper_byte (upper_byte c) = upper_byte c ∧ lower_byte (lower_byte c) = lower_byte c ∧
  upper_byte (lower_byte c) = upper_byte c ∧ lower_byte (upper_byte c) = lower_byte c ∧
  is_dash (lower_byte c) = is_dash c ∧ is_dash (upper_byte c) = is_dash c.
Proof. all_bytes c. Qed.

Lemma canonical_go_valid b s :
  string_forallb validHeaderFieldByte (canonical_go b s) = string_forallb validHeaderFieldByte s.
Proof.
  revert b. induction s as [|c s IH]; intros b; simpl; [done|].
  rewrite IH. destruct (validHeaderFieldByte_case c) as [Hu Hl].
  destruct b; by rewrite ?Hu, ?Hl.
Qed.

Lemma string_map_lower_valid s :
  string_forallb validHeaderFieldByte (string_map lower_byte s) =
  string_forallb validHeaderFieldByte s.
Proof.
  induction s as [|c s IH]; simpl; [done|].
  by rewrite IH, (proj2 (validHeaderFieldByte_case c)).
Qed.

Lemma canonical_go_lower b s :
  canonical_go b (string_map lower_byte s) = canonical_go b s.
Proof.
  revert b. induction s as [|c s IH]; intros b; simpl; [done|].
  destruct (case_idem c) as (_ & Hll & Hul & _).
  destruct b; by rewrite ?Hll, ?Hul, IH.
Qed.

Lemma canonical_go_idem b s : canonical_go b (canonical_go b s) = canonical_go b s.
Proof.
  revert b. induction s as [|c s IH]; intros b; simpl; [done|].
  destruct (case_idem c) as (Huu & Hll & _).
  destruct b; by rewrite ?Huu, ?Hll, IH.
Qed.

(** Canonicalisation is idempotent, and blind to the case of the name. *)
Lemma CanonicalMIMEHeaderKey_idem s :
  CanonicalMIMEHeaderKey (CanonicalMIMEHeaderKey s) = CanonicalMIMEHeaderKey s.
Proof.
  unfold CanonicalMIMEHeaderKey.
  destruct (string_forallb validHeaderFieldByte s) eqn:E.
  - by rewrite canonical_go_valid, E, canonical_go_idem.
  - by rewrite E.
Qed.

Lemma CanonicalMIMEHeaderKey_case s t :
  string_forallb validHeaderFieldByte s = true →
  string_map lower_byte s = string_map lower_byte t →
  CanonicalMIMEHeaderKey s = CanonicalMIMEHeaderKey t.
Proof.
  intros Hs Heq. unfold CanonicalMIMEHeaderKey.
  assert (string_forallb validHeaderFieldByte t = true) as Ht.
  { by rewrite <-string_map_lower_valid, <-Heq, string_map_lower_valid. }
  by rewrite Hs, Ht, <-(canonical_go_lower true s), Heq, canonical_go_lower.
Qed.

#[export] Hint Resolve Compare_le_trans HasPrefix_app : golib.
#[export] Hint Rewrite CanonicalMIMEHeaderKey_idem : golib.
