(* ===== verification/GoSlices.v ===== *)
(** * Go's [slices] functions

    [slices.SortFunc], [slices.CompactFunc], [slices.ContainsFunc],
    [slices.IndexFunc] and the [append] loops built on them.  [slices.Clip]
    changes the capacity of a slice only, so it is the identity here. *)

From stdpp Require Import base gmap strings list sorting.
From S2P Require Import Prelude.

(** ** [slices.SortFunc]

    The Go sort is not stable and its algorithm is unspecified; the result is
    determined when the comparison is the sign of a total order
    ([SortFunc_unique]), which is how the program uses it. *)
Section sort.
Context {A : Type} (cmp : A → A → Z).

Definition cmp_le (a b : A) : Prop := (cmp a b ≤ 0)%Z.
#[global] Instance cmp_le_dec : RelDecision cmp_le.
Proof. intros a b. unfold cmp_le. apply _. Defined.

Definition SortFunc (l : list A) : list A := merge_sort cmp_le l.

Lemma SortFunc_perm l : SortFunc l ≡ₚ l.
Proof. apply merge_sort_Permutation. Qed.

(** What [SortFunc] needs of a comparison: the order it describes. *)
Class CmpOrder : Prop := {
  cmp_opp a b : cmp b a = (- cmp a b)%Z;
  cmp_eq a b : cmp a b = 0%Z → a = b;
  cmp_trans a b c : (cmp a b ≤ 0 → cmp b c ≤ 0 → cmp a c ≤ 0)%Z;
}.

Context `{!CmpOrder}.

#[global] Instance cmp_le_trans : Transitive cmp_le.
Proof. intros a b c. apply cmp_trans. Qed.
#[global] Instance cmp_le_antisym : AntiSymm (=) cmp_le.
Proof.
  intros a b Hab Hba. unfold cmp_le in *. rewrite cmp_opp in Hba.
  apply cmp_eq. lia.
Qed.
#[global] Instance cmp_le_total : Total cmp_le.
Proof. intros a b. unfold cmp_le. rewrite (cmp_opp a b). lia. Qed.

Lemma SortFunc_sorted l : StronglySorted cmp_le (SortFunc l).
Proof. apply StronglySorted_merge_sort; apply _. Qed.

(** Any sorting algorithm returns this list. *)
Lemma SortFunc_unique l k : k ≡ₚ l → Sorted cmp_le k → k = SortFunc l.
Proof.
  intros Hp Hs. apply (Sorted_unique cmp_le); [done| |].
  - apply StronglySorted_Sorted, SortFunc_sorted.
  - by rewrite Hp, SortFunc_perm.
Qed.
End sort.

(** ** [slices.CompactFunc]

    An element is dropped when it is equal to its predecessor in the slice. *)
Section compact.
Context {A : Type} (eqf : A → A → bool).

Fixpoint compact_after (prev : A) (l : list A) : list A :=
  match l with
  | [] => []
  | x :: l' => if eqf x prev then compact_after x l' else x :: compact_after x l'
  end.

Definition CompactFunc (l : list A) : list A :=
  match l with
  | [] => []
  | x :: l' => x :: compact_after x l'
  end.

Context (eqf_spec : ∀ a b, eqf a b = true ↔ a = b).

Lemma compact_after_elem_of p l x : x ∈ compact_after p l ∨ x = p ↔ x ∈ l ∨ x = p.
Proof.
  revert p. induction l as [|y l IH]; intros p; simpl; [done|].
  destruct (eqf y p) eqn:E.
  - apply eqf_spec in E as ->. rewrite IH, elem_of_cons. tauto.
  - rewrite !elem_of_cons. specialize (IH y). tauto.
Qed.

Lemma CompactFunc_elem_of l x : x ∈ CompactFunc l ↔ x ∈ l.
Proof.
  destruct l as [|y l]; simpl; [done|].
  rewrite !elem_of_cons. pose proof (compact_after_elem_of y l x). tauto.
Qed.

(** On a sorted slice the result has no duplicates. *)
Section sorted.
Context (R : relation A) `{!AntiSymm (=) R}.

Lemma compact_after_sorted p l :
  StronglySorted R (p :: l) →
  NoDup (p :: compact_after p l) ∧ StronglySorted R (p :: compact_after p l).
Proof.
  revert p. induction l as [|y l IH]; intros p Hs; simpl.
  { split; [apply NoDup_singleton|done]. }
  inversion_clear Hs as [|?? Hyl Hp]. inversion_clear Hp as [|?? Hpy Hpl].
  destruct (IH y Hyl) as [Hnd Hss].
  destruct (eqf y p) eqn:E; [apply eqf_spec in E as ->; done|].
  assert (y ≠ p) as Hne by (intros ->; by rewrite (proj2 (eqf_spec p p) eq_refl) in E).
  assert (Forall (R p) (y :: compact_after y l)) as Hall.
  { rewrite Forall_forall in Hpl |- *. intros z Hz.
    apply elem_of_cons in Hz as [->|Hz]; [done|].
    pose proof (proj1 (compact_after_elem_of y l z) (or_introl Hz)) as [Hzl| ->]; auto. }
  split; [|by constructor].
  apply NoDup_cons; split; [|done].
  intros [->|Hin]%elem_of_cons; [done|].
  (* p occurs after y, so y is both above and below p *)
  apply Hne, (anti_symm R); [|done].
  pose proof (proj1 (compact_after_elem_of y l p) (or_introl Hin)) as [Hpl'| ->]; [|done].
  inversion_clear Hyl as [|?? _ Hy]. rewrite Forall_forall in Hy. auto.
Qed.

Lemma CompactFunc_sorted l :
  StronglySorted R l → NoDup (CompactFunc l) ∧ StronglySorted R (CompactFunc l).
Proof.
  destruct l as [|x l]; simpl; [split; constructor|]. apply compact_after_sorted.
Qed.
End sorted.
End compact.

(** ** [slices.ContainsFunc], [slices.Contains], [slices.IndexFunc] *)
Definition ContainsFunc {A} (l : list A) (f : A → bool) : bool := existsb f l.
Definition Contains (l : list string) (s : string) : bool := existsb (λ x, bool_decide (x = s)) l.
Definition IndexFunc {A} (l : list A) (f : A → bool) : Z :=
  match list_find (λ x, f x = true) l with
  | Some (i, _) => Z.of_nat i
  | None => -1
  end.

Lemma Contains_elem_of l s : Contains l s = true ↔ s ∈ l.
Proof.
  unfold Contains. rewrite existsb_elem_of.
  setoid_rewrite bool_decide_eq_true. naive_solver.
Qed.
