(* ===== verification/GoParse.v ===== *)
(** * Parsing numbers and durations: Go's [strconv.Atoi] and [time.ParseDuration]

    Both as the standard library computes them, on bytes, with the 64-bit
    overflow tests written out.  The fraction of a duration goes through
    float64, as in Go. *)

From Stdlib Require Import Ascii SpecFloat.
From stdpp Require Import base strings list.
From S2P Require Import Prelude GoStrings.

Definition digit_val (c : ascii) : option Z :=
  let n := Z.of_nat (nat_of_ascii c) in
  if decide (48 ≤ n ≤ 57)%Z then Some (n - 48)%Z else None.

(** A leading sign and the rest; true for a minus. *)
Definition takeSign (s : string) : bool * string :=
  match s with
  | String "-" s' => (true, s')
  | String "+" s' => (false, s')
  | _ => (false, s)
  end.

(** ** [strconv.Atoi] *)
Fixpoint atoi_digits (x : Z) (s : string) : option Z :=
  match s with
  | EmptyString => Some x
  | String c s' => d ← digit_val c; atoi_digits (x * 10 + d) s'
  end.

(** [None] for a syntax error or a value that is not an [int]. *)
Definition Atoi (s : string) : option Z :=
  let '(neg, digits) := takeSign s in
  if decide (digits = "") then None
  else
    n ← atoi_digits 0 digits;
    let n := if neg then (- n)%Z else n in
    if decide (- 2^63 ≤ n < 2^63)%Z then Some n else None.

(** ** float64 *)
Definition f64 : Type := spec_float.
Definition f64_mul : f64 → f64 → f64 := SFmul 53 1024.
Definition f64_div : f64 → f64 → f64 := SFdiv 53 1024.
(** Conversion from an unsigned integer: to the nearest float. *)
Definition f64_of_Z (z : Z) : f64 := binary_normalize 53 1024 z 0 false.
(** Conversion to [uint64] truncates; what it gives for values that are not
    representable is of no use to the caller. *)
Definition f64_to_uint64 (f : f64) : Z :=
  match f with
  | S754_finite false m e =>
      (match e with
       | Z0 => Zpos m
       | Zpos p => Zpos m * 2 ^ Zpos p
       | Zneg p => Zpos m / 2 ^ Zpos p
       end `mod` 2^64)%Z
  | _ => 0
  end.

(** ** [time.ParseDuration] *)

(** [leadingInt]: the digits in front; [None] on overflow. *)
Fixpoint leadingInt (x : Z) (s : string) : option (Z * string) :=
  match s with
  | EmptyString => Some (x, s)
  | String c s' =>
      match digit_val c with
      | None => Some (x, s)
      | Some d =>
          if decide (2^63 `div` 10 < x)%Z then None
          else let x := (x * 10 + d)%Z in
               if decide (2^63 < x)%Z then None else leadingInt x s'
      end
  end.

(** [leadingFraction]: digits beyond the capacity of the value are skipped. *)
Fixpoint leadingFraction (x : Z) (scale : f64) (overflow : bool) (s : string) : Z * f64 * string :=
  match s with
  | EmptyString => (x, scale, s)
  | String c s' =>
      match digit_val c with
      | None => (x, scale, s)
      | Some d =>
          if overflow then leadingFraction x scale true s'
          else if decide ((2^63 - 1) `div` 10 < x)%Z then leadingFraction x scale true s'
          else let y := (x * 10 + d)%Z in
               if decide (2^63 < y)%Z then leadingFraction x scale true s'
               else leadingFraction y (f64_mul scale (f64_of_Z 10)) false s'
      end
  end.

(** The unit: everything up to the next digit or dot. *)
Fixpoint takeUnit (s : string) : string * string :=
  match s with
  | EmptyString => ("", "")
  | String c s' =>
      if decide (c = "."%char) then ("", s)
      else match digit_val c with
           | Some _ => ("", s)
           | None => let '(u, r) := takeUnit s' in (String c u, r)
           end
  end.

(** [unitMap], in nanoseconds; the two spellings of the microsecond are the
    UTF-8 bytes of the micro sign and of the letter mu. *)
Definition micro_sign : string := String "194" (String "181" "s").
Definition letter_mu : string := String "206" (String "188" "s").
Definition unitMap (u : string) : option Z :=
  if decide (u = "ns") then Some 1%Z
  else if decide (u = "us" ∨ u = micro_sign ∨ u = letter_mu) then Some 1000%Z
  else if decide (u = "ms") then Some 1000000%Z
  else if decide (u = "s") then Some 1000000000%Z
  else if decide (u = "m") then Some 60000000000%Z
  else if decide (u = "h") then Some 3600000000000%Z
  else None.

(** The fraction, when there is a dot; the flag tells whether it has digits. *)
Definition parseFraction (s : string) : Z * f64 * string * bool :=
  match s with
  | String "." s' =>
      let '(f, scale, r) := leadingFraction 0 (f64_of_Z 1) false s' in
      (f, scale, r, bool_decide (String.length s' ≠ String.length r))
  | _ => (0%Z, f64_of_Z 1, s, false)
  end.

(** One number with its unit: its value in nanoseconds and the rest; [None]
    for any error.  The sums are those of [uint64]. *)
Definition parseItem (s : string) : option (Z * string) :=
  match s with
  | EmptyString => None
  | String c _ =>
      if decide (c ≠ "."%char ∧ digit_val c = None) then None
      else
        '(v, s1) ← leadingInt 0 s;
        let pre := bool_decide (String.length s ≠ String.length s1) in
        let '(f, scale, s2, post) := parseFraction s1 in
        if negb pre && negb post then None
        else
          let '(u, s3) := takeUnit s2 in
          if decide (u = "") then None
          else
            unit ← unitMap u;
            if decide (2^63 `div` unit < v)%Z then None
            else
              let v := (v * unit)%Z in
              if decide (0 < f)%Z then
                let v := ((v + f64_to_uint64 (f64_mul (f64_of_Z f) (f64_div (f64_of_Z unit) scale)))
                            `mod` 2^64)%Z in
                if decide (2^63 < v)%Z then None else Some (v, s3)
              else Some (v, s3)
  end.

(** The loop; every item consumes at least one byte, so the length of the
    string is enough fuel. *)
Fixpoint parseItems (fuel : nat) (d : Z) (s : string) : option Z :=
  match s, fuel with
  | EmptyString, _ => Some d
  | _, O => None
  | _, S fuel' =>
      '(v, s') ← parseItem s;
      let d := ((d + v) `mod` 2^64)%Z in
      if decide (2^63 < d)%Z then None else parseItems fuel' d s'
  end.

Definition ParseDuration (s : string) : option Z :=
  let '(neg, s) := takeSign s in
  if decide (s = "0") then Some 0%Z
  else if decide (s = "") then None
  else
    d ← parseItems (String.length s) 0 s;
    if neg then Some (wrap64 (- wrap64 d))
    else if decide (2^63 - 1 < d)%Z then None
    else Some d.

Example ParseDuration_ex :
  ParseDuration "1h15m30.918s" = Some 4530918000000%Z ∧
  ParseDuration "-1.5h" = Some (-5400000000000)%Z ∧
  ParseDuration "10m" = Some 600000000000%Z ∧
  ParseDuration "3000h" = Some 10800000000000000%Z ∧
  ParseDuration "0" = Some 0%Z ∧
  ParseDuration "10" = None ∧ ParseDuration "" = None ∧ ParseDuration "." = None ∧
  ParseDuration "9223372036854775807ns" = Some (2^63 - 1)%Z ∧
  ParseDuration "9223372036854775808ns" = None ∧
  ParseDuration "-9223372036854775808ns" = Some (- 2^63)%Z ∧
  ParseDuration ".00000000000000000001h" = Some 0%Z ∧
  ParseDuration "0.3333333333333333333h" = Some 1200000000000%Z.
Proof. vm_compute. repeat split; reflexivity. Qed.

(** ** Lemmas *)

Lemma digit_val_range c d : digit_val c = Some d → (0 ≤ d ≤ 9)%Z.
Proof. unfold digit_val. case_decide; intros; simplify_eq; lia. Qed.

Lemma leadingInt_shorter s : ∀ x v s', leadingInt x s = Some (v, s') → String.length s' ≤ String.length s.
Proof.
  induction s as [|c s IH]; intros x v s' H; simpl in *; [by simplify_eq|].
  destruct (digit_val c) as [d|]; [|by simplify_eq].
  repeat case_decide; try done. apply IH in H. lia.
Qed.

Lemma leadingInt_bounds s : ∀ x v s',
  (0 ≤ x ≤ 2^63)%Z → leadingInt x s = Some (v, s') → (0 ≤ v ≤ 2^63)%Z.
Proof.
  induction s as [|c s IH]; intros x v s' Hx H; simpl in H; [by simplify_eq|].
  destruct (digit_val c) as [d|] eqn:Hd; [|by simplify_eq].
  apply digit_val_range in Hd. repeat case_decide; try done. eapply IH; [|done]. lia.
Qed.

Lemma leadingFraction_shorter s : ∀ x sc o f sc' s',
  leadingFraction x sc o s = (f, sc', s') → String.length s' ≤ String.length s.
Proof.
  induction s as [|c s IH]; intros x sc o f sc' s' H; simpl in *; [by simplify_eq|].
  destruct (digit_val c) as [d|]; [|by simplify_eq].
  destruct o; repeat case_decide; apply IH in H; lia.
Qed.

Lemma parseFraction_shorter s f sc r post :
  parseFraction s = (f, sc, r, post) → String.length r ≤ String.length s.
Proof.
  unfold parseFraction. intros H.
  destruct s as [|[[] [] [] [] [] [] [] []] s']; try (by simplify_eq).
  destruct (leadingFraction _ _ _ s') as [[? ?] ?] eqn:HF. apply leadingFraction_shorter in HF.
  simplify_eq/=. lia.
Qed.

Lemma takeUnit_length s u r : takeUnit s = (u, r) → String.length s = String.length u + String.length r.
Proof.
  revert u r. induction s as [|c s IH]; intros u r H; simpl in H; [by simplify_eq|].
  case_decide; [by simplify_eq|]. destruct (digit_val c); [by simplify_eq|].
  destruct (takeUnit s) as [u' r'] eqn:E. simplify_eq/=. by rewrite (IH u' r).
Qed.

Lemma unitMap_pos u n : unitMap u = Some n → (1 ≤ n ≤ 3600000000000)%Z.
Proof. unfold unitMap. repeat case_decide; intros; simplify_eq; lia. Qed.

(** An item consumes at least its unit and its value fits. *)
Lemma parseItem_spec s v s' :
  parseItem s = Some (v, s') → String.length s' < String.length s ∧ (0 ≤ v ≤ 2^63)%Z.
Proof.
  unfold parseItem. destruct s as [|c' s1]; [done|]. case_decide; [done|].
  destruct (leadingInt 0 (String c' s1)) as [[v0 r1]|] eqn:HL; [|done].
  pose proof (leadingInt_shorter _ _ _ _ HL) as Hlen.
  apply leadingInt_bounds in HL; [|lia]. cbn [mbind option_bind].
  destruct (parseFraction r1) as [[[f sc] r2] post] eqn:Hfr. apply parseFraction_shorter in Hfr.
  case_match; [done|].
  destruct (takeUnit r2) as [u r3] eqn:HU. apply takeUnit_length in HU.
  destruct (decide (u = "")) as [|Hu]; [done|].
  destruct (unitMap u) as [n|] eqn:Hn; [|done]. cbn [mbind option_bind].
  apply unitMap_pos in Hn. destruct (decide (2 ^ 63 `div` n < v0)%Z) as [|Hov]; [done|].
  assert (0 < String.length u) by (destruct u; [done|simpl; lia]).
  assert (v0 * n ≤ 2^63)%Z as Hmul.
  { pose proof (Z.mul_div_le (2^63) n). nia. }
  destruct (decide (0 < f)%Z); [set (m := (_ `mod` 2^64)%Z); destruct (decide (2^63 < m)%Z); [done|]|];
    intros; simplify_eq; (split; [simpl in *; lia|]).
  - split; [apply Z.mod_pos_bound; lia|lia].
  - nia.
Qed.

#[local] Arguments parseItem _ : simpl never.

Lemma parseItems_bounds fuel : ∀ d s r,
  (0 ≤ d ≤ 2^63)%Z → parseItems fuel d s = Some r → (0 ≤ r ≤ 2^63)%Z.
Proof.
  induction fuel as [|fuel IH]; intros d s r Hd H; destruct s as [|c s]; simpl in H; try (by simplify_eq).
  destruct (parseItem (String c s)) as [[v s']|] eqn:Hp; [|done]. simpl in H.
  case_decide as Hov; [done|]. eapply IH; [|done].
  split; [apply Z.mod_pos_bound; lia|lia].
Qed.

(** The length of the string is enough fuel: more changes nothing. *)
Lemma parseItems_fuel n : ∀ d s, String.length s ≤ n → parseItems n d s = parseItems (String.length s) d s.
Proof.
  induction n as [n IH] using lt_wf_ind. intros d s Hn.
  destruct s as [|c s]; [by destruct n|].
  destruct n as [|n]; [simpl in Hn; lia|]. cbn [parseItems String.length].
  destruct (parseItem (String c s)) as [[v s']|] eqn:Hp; [|done]. simpl.
  apply parseItem_spec in Hp as [Hlt _]. simpl in Hlt, Hn. case_decide; [done|].
  rewrite (IH n) by lia. destruct (decide (n = String.length s)) as [->|]; [|].
  - by rewrite <-(IH (String.length s)) by lia.
  - by rewrite <-(IH (String.length s)) by lia.
Qed.

Lemma ParseDuration_in64 s d : ParseDuration s = Some d → in64 d.
Proof.
  unfold ParseDuration.
  destruct (takeSign s) as [neg s0]. case_decide; [intros; simplify_eq; split; lia|]. case_decide; [done|].
  destruct (parseItems _ 0 s0) as [r|] eqn:Hr; [|done]. simpl.
  apply parseItems_bounds in Hr; [|lia]. destruct neg; [intros; simplify_eq; apply wrap64_in64|].
  case_decide; intros; simplify_eq; split; lia.
Qed.

(** ** Durations written as one integer and a unit *)
Fixpoint all_digits (s : string) : bool :=
  match s with
  | EmptyString => true
  | String c s' => bool_decide (is_Some (digit_val c)) && all_digits s'
  end.
(** The value of a digit string, after the digits worth [x]. *)
Fixpoint digits_value (x : Z) (s : string) : Z :=
  match s with
  | EmptyString => x
  | String c s' => digits_value (x * 10 + default 0 (digit_val c))%Z s'
  end.

Lemma digits_value_ge s : ∀ x, all_digits s = true → (0 ≤ x)%Z → (x ≤ digits_value x s)%Z.
Proof.
  induction s as [|c s IH]; intros x Hs Hx; simpl in *; [lia|].
  apply andb_true_iff in Hs as [[d Hd]%bool_decide_eq_true Hs]. rewrite Hd. simpl.
  apply digit_val_range in Hd. pose proof (IH (x * 10 + d)%Z Hs). lia.
Qed.

Lemma leadingInt_digits ds u : ∀ x,
  all_digits ds = true → (0 ≤ x)%Z → (digits_value x ds ≤ 2^63)%Z →
  (∀ c u', u = String c u' → digit_val c = None) →
  leadingInt x (ds +:+ u) = Some (digits_value x ds, u).
Proof.
  induction ds as [|c ds IH]; intros x Hs Hx Hv Hu; simpl in *.
  { destruct u as [|c u']; simpl; [done|]. by rewrite (Hu c u'). }
  apply andb_true_iff in Hs as [[d Hd]%bool_decide_eq_true Hs]. rewrite Hd in *. simpl in Hv |- *.
  apply digit_val_range in Hd as Hr.
  pose proof (digits_value_ge ds (x * 10 + d) Hs). pose proof (Z.mul_div_le (2^63) 10).
  rewrite decide_False by (apply Z.le_ngt, Z.div_le_lower_bound; lia).
  rewrite decide_False by lia. apply IH; [done|lia|lia|done].
Qed.

(** The unit names: no digit or dot in them. *)
Lemma unitMap_name u n :
  unitMap u = Some n →
  takeUnit u = (u, "") ∧ parseFraction u = (0%Z, f64_of_Z 1, u, false) ∧ u ≠ "" ∧
  ∀ c u', u = String c u' → digit_val c = None.
Proof.
  unfold unitMap. repeat case_decide; intros [= <-] || intros Hn; try done.
  all: destruct_or?; subst; split_and!; try done; intros c u' [= <- <-]; done.
Qed.

Lemma string_length_app s t : String.length (s +:+ t) = String.length s + String.length t.
Proof. induction s as [|c s IH]; simpl; [done|]. by f_equal. Qed.

Lemma parseItem_int ds u n :
  ds ≠ "" → all_digits ds = true → unitMap u = Some n → (digits_value 0 ds * n ≤ 2^63)%Z →
  parseItem (ds +:+ u) = Some ((digits_value 0 ds * n)%Z, "").
Proof.
  intros Hne Hd Hu Hv. pose proof (unitMap_pos u n Hu) as Hn.
  destruct (unitMap_name u n Hu) as (HT & HF & Hu0 & Hc).
  pose proof (digits_value_ge ds 0 Hd ltac:(lia)).
  pose proof (leadingInt_digits ds u 0 Hd ltac:(lia) ltac:(nia) Hc) as HL.
  destruct ds as [|c ds]; [done|]. unfold parseItem.
  change (String c ds +:+ u) with (String c (ds +:+ u)) in *. cbv beta iota.
  rewrite decide_False.
  2: { intros [_ Hc0]. simpl in Hd. rewrite Hc0 in Hd. done. }
  rewrite HL. cbn [mbind option_bind]. rewrite HF.
  rewrite bool_decide_true.
  2: { simpl. rewrite string_length_app. lia. }
  cbn [negb andb]. rewrite HT. rewrite decide_False by done. rewrite Hu. cbn [mbind option_bind].
  rewrite decide_False.
  2: { apply Z.le_ngt, Z.div_le_lower_bound; lia. }
  by rewrite decide_False by lia.
Qed.

(** A whole number of a unit parses to that many nanoseconds. *)
Lemma ParseDuration_int ds u n :
  ds ≠ "" → all_digits ds = true → unitMap u = Some n → (digits_value 0 ds * n < 2^63)%Z →
  ParseDuration (ds +:+ u) = Some (digits_value 0 ds * n)%Z.
Proof.
  intros Hne Hd Hu Hv. pose proof (parseItem_int ds u n Hne Hd Hu ltac:(lia)) as Hp.
  pose proof (unitMap_pos u n Hu). pose proof (digits_value_ge ds 0 Hd ltac:(lia)).
  destruct (unitMap_name u n Hu) as (_ & _ & Hu0 & _). unfold ParseDuration.
  assert (takeSign (ds +:+ u) = (false, ds +:+ u)) as ->.
  { destruct ds as [|[[] [] [] [] [] [] [] []] ds]; try done. }
  assert (1 < String.length (ds +:+ u)) as Hlen.
  { rewrite string_length_app. destruct ds, u; simpl in *; [done..|lia]. }
  rewrite decide_False by (intros E; rewrite E in Hlen; simpl in Hlen; lia).
  rewrite decide_False by (intros E; rewrite E in Hlen; simpl in Hlen; lia).
  destruct (ds +:+ u) as [|c s] eqn:E; [simpl in Hlen; lia|]. cbn [parseItems String.length].
  rewrite Hp. cbn [mbind option_bind]. rewrite Z.add_0_l, Z.mod_small by nia.
  rewrite decide_False by lia. destruct (String.length s); cbn [parseItems mbind option_bind];
    by rewrite decide_False by lia.
Qed.

Lemma Atoi_in64 s n : Atoi s = Some n → in64 n.
Proof.
  unfold Atoi. destruct (takeSign s) as [neg ds]. case_decide; [done|].
  destruct (atoi_digits 0 ds) as [m|]; [|done]. simpl.
  case_decide; intros; simplify_eq. unfold in64. lia.
Qed.

#[export] Hint Resolve ParseDuration_in64 Atoi_in64 : golib.
