(* ===== verification/KubeTypes.v ===== *)
(** * The Kubernetes data the program handles

    [rbacv1.Subject], [corev1.Namespace] and the other API types, with the
    fields the program reads or writes.  The label and annotation maps of a
    namespace are Go maps, that is references: a struct copy of a namespace
    shares them.  They are locations of an explicit store of maps ([heap]), so
    that aliasing between the resource cache and the copies is visible. *)

From stdpp Require Import base gmap strings list.
From S2P Require Import Prelude.

Abbreviation gomap := (gmap string string).
Abbreviation loc := nat.
(** The store: location [l] holds the [l]-th map.  Allocation appends. *)
Abbreviation heap := (list gomap).

Definition map_alloc (h : heap) (m : gomap) : heap * loc := (h ++ [m], length h).
(** [m[k] = v] on the map at [l]. *)
Definition map_store (h : heap) (l : loc) (k v : string) : heap := alter <[k:=v]> l h.

(** ** [rbacv1.Subject] *)
Record Subject := mkSubject {
  Kind : string;
  APIGroup : string;
  Name : string;
  Namespace_ : string;
}.

#[export] Instance Subject_eq_dec : EqDecision Subject.
Proof. solve_decision. Defined.
#[export] Instance Subject_countable : Countable Subject.
Proof.
  apply (inj_countable' (λ s, (Kind s, APIGroup s, Name s, Namespace_ s))
                        (λ '(k, a, n, ns), mkSubject k a n ns)).
  by intros [].
Defined.

Definition rbac_GroupName : string := "rbac.authorization.k8s.io".
Definition UserKind : string := "User".
Definition GroupKind : string := "Group".
Definition ServiceAccountKind : string := "ServiceAccount".

(** ** [corev1.Namespace]

    [ManagedFields], [Spec] and [Status] are carried as opaque encodings: no
    code of the program looks inside them. *)
Record Namespace := mkNamespace {
  ns_Name : string;
  ns_Labels : option loc;
  ns_Annotations : option loc;
  ns_ManagedFields : option string;
  ns_Spec : string;
  ns_Status : string;
}.
#[export] Instance Namespace_eq_dec : EqDecision Namespace.
Proof. solve_decision. Defined.

(** The value a namespace denotes in a store: what a reader (the JSON encoder,
    for one) sees. *)
Record NamespaceView := mkView {
  nv_Name : string;
  nv_Labels : option gomap;
  nv_Annotations : option gomap;
  nv_ManagedFields : option string;
  nv_Spec : string;
  nv_Status : string;
}.
#[export] Instance NamespaceView_eq_dec : EqDecision NamespaceView.
Proof. solve_decision. Defined.

Definition view_ref (h : heap) (o : option loc) : option gomap := o ≫= λ l, h !! l.

Definition view (h : heap) (ns : Namespace) : NamespaceView :=
  {| nv_Name := ns_Name ns;
     nv_Labels := view_ref h (ns_Labels ns);
     nv_Annotations := view_ref h (ns_Annotations ns);
     nv_ManagedFields := ns_ManagedFields ns;
     nv_Spec := ns_Spec ns;
     nv_Status := ns_Status ns |}.

(** The references of a namespace are allocated. *)
Definition ref_ok (h : heap) (o : option loc) : Prop := ∀ l, o = Some l → l < length h.
Definition ns_ok (h : heap) (ns : Namespace) : Prop :=
  ref_ok h (ns_Labels ns) ∧ ref_ok h (ns_Annotations ns).
(** The references of a namespace were allocated at or after [n]. *)
Definition ns_fresh (n : nat) (ns : Namespace) : Prop :=
  (∀ l, ns_Labels ns = Some l → n ≤ l) ∧ (∀ l, ns_Annotations ns = Some l → n ≤ l).
(** A namespace does not use one map as both labels and annotations. *)
Definition ns_sep (ns : Namespace) : Prop :=
  ∀ l, ns_Labels ns = Some l → ns_Annotations ns ≠ Some l.

(** ** [DeepCopy]

    [DeepCopy] of [*corev1.Namespace] is generated code of the Kubernetes API
    packages.  The program relies on what it documents: the copy denotes the
    same value, shares no map with anything that existed before, and leaves
    the existing maps alone. *)
Class DeepCopyNs := deep_copy : heap → Namespace → heap * Namespace.

Class DeepCopyLaws `{!DeepCopyNs} : Prop := {
  dc_prefix h ns : h `prefix_of` (deep_copy h ns).1;
  dc_view h ns : ns_ok h ns → view (deep_copy h ns).1 (deep_copy h ns).2 = view h ns;
  dc_fresh h ns : ns_fresh (length h) (deep_copy h ns).2;
  dc_ok h ns : ns_ok h ns → ns_ok (deep_copy h ns).1 (deep_copy h ns).2;
  dc_sep h ns : ns_sep (deep_copy h ns).2;
}.

(** An implementation, for witnesses: both maps are copied to new locations. *)
Definition copy_ref (h : heap) (o : option loc) : heap * option loc :=
  match o with
  | None => (h, None)
  | Some l => let '(h', l') := map_alloc h (default ∅ (h !! l)) in (h', Some l')
  end.

Definition simple_deep_copy (h : heap) (ns : Namespace) : heap * Namespace :=
  let '(h1, ll) := copy_ref h (ns_Labels ns) in
  let '(h2, aa) := copy_ref h1 (ns_Annotations ns) in
  (h2, {| ns_Name := ns_Name ns; ns_Labels := ll; ns_Annotations := aa;
          ns_ManagedFields := ns_ManagedFields ns; ns_Spec := ns_Spec ns;
          ns_Status := ns_Status ns |}).

(** ** Store lemmas *)

Lemma length_map_store h l k v : length (map_store h l k v) = length h.
Proof. apply length_alter. Qed.

Lemma lookup_map_store_eq h l k v m :
  h !! l = Some m → map_store h l k v !! l = Some (<[k:=v]> m).
Proof. intros H. unfold map_store. by rewrite list_lookup_alter, decide_True, H. Qed.

Lemma lookup_map_store_ne h l l' k v : l ≠ l' → map_store h l k v !! l' = h !! l'.
Proof. intros H. unfold map_store. by rewrite list_lookup_alter, decide_False. Qed.

Lemma view_ref_prefix h h' o : h `prefix_of` h' → ref_ok h o → view_ref h' o = view_ref h o.
Proof.
  intros [k ->] Hok. destruct o as [l|]; simpl; [|done].
  apply lookup_app_l. by apply Hok.
Qed.

Lemma ref_ok_mono h h' o : length h ≤ length h' → ref_ok h o → ref_ok h' o.
Proof. intros Hle Hok l Hl. specialize (Hok l Hl). lia. Qed.

Lemma ns_ok_mono h h' ns : length h ≤ length h' → ns_ok h ns → ns_ok h' ns.
Proof. intros Hle [? ?]. split; eauto using ref_ok_mono. Qed.

Lemma view_prefix h h' ns : h `prefix_of` h' → ns_ok h ns → view h' ns = view h ns.
Proof.
  intros Hp [Hl Ha]. unfold view.
  by rewrite (view_ref_prefix _ _ _ Hp Hl), (view_ref_prefix _ _ _ Hp Ha).
Qed.

Lemma copy_ref_spec h o h' o' :
  copy_ref h o = (h', o') →
  h `prefix_of` h' ∧ (∀ l, o' = Some l → length h ≤ l) ∧ ref_ok h' o' ∧
  (ref_ok h o → view_ref h' o' = view_ref h o).
Proof.
  destruct o as [l|]; simpl; intros [= <- <-].
  - split_and!.
    + by eexists.
    + intros l' [= <-]. lia.
    + intros l' [= <-]. rewrite length_app. simpl. lia.
    + intros Hok. specialize (Hok l eq_refl).
      destruct (lookup_lt_is_Some_2 h l Hok) as [m Hm]. simpl.
      rewrite Hm. by rewrite lookup_app_r, Nat.sub_diag by lia.
  - split_and!; [done|done|by intros l ?|done].
Qed.

Lemma simple_deep_copy_laws : @DeepCopyLaws simple_deep_copy.
Proof.
  assert (∀ h ns h' ns', simple_deep_copy h ns = (h', ns') →
    ∃ h1, copy_ref h (ns_Labels ns) = (h1, ns_Labels ns') ∧
          copy_ref h1 (ns_Annotations ns) = (h', ns_Annotations ns') ∧
          ns_Name ns' = ns_Name ns ∧ ns_ManagedFields ns' = ns_ManagedFields ns ∧
          ns_Spec ns' = ns_Spec ns ∧ ns_Status ns' = ns_Status ns) as Hinv.
  { intros h ns h' ns'. unfold simple_deep_copy.
    destruct (copy_ref h (ns_Labels ns)) as [h1 ll] eqn:E1.
    destruct (copy_ref h1 (ns_Annotations ns)) as [h2 aa] eqn:E2.
    intros [= <- <-]. eauto 10. }
  split; intros h ns; unfold deep_copy;
    destruct (simple_deep_copy h ns) as [h' ns'] eqn:E;
    apply Hinv in E as (h1 & (Hp1 & Hf1 & Hr1 & Hv1)%copy_ref_spec &
      (Hp2 & Hf2 & Hr2 & Hv2)%copy_ref_spec & Hn & Hm & Hs & Ht); simpl.
  - by trans h1.
  - intros [Hl Ha]. unfold view. rewrite Hn, Hm, Hs, Ht. f_equal.
    + rewrite (view_ref_prefix h1 h'), Hv1; done.
    + rewrite Hv2, (view_ref_prefix h h1); eauto using ref_ok_mono, prefix_length.
  - split; [done|]. intros l Hl. apply Hf2 in Hl.
    pose proof (prefix_length _ _ Hp1). lia.
  - intros _. split; [|done]. eauto using ref_ok_mono, prefix_length.
  - intros l Hl Ha. apply Hf2 in Ha. apply Hr1 in Hl. lia.
Qed.

#[export] Hint Resolve ref_ok_mono ns_ok_mono prefix_length : golib.
#[export] Hint Rewrite length_map_store : golib.
