(* ===== verification/AtomicCache.v ===== *)
(** * The atomic list/restock cache (pkg/auth/cache/atomiclistrestockcache.go)

    [AtomicListRestockCache] keeps a pointer to a map from keys to slices.
    [Restock] swaps the pointer, [List] reads it.  The reference definition is
    [dedup_first] on the concatenation of the slices of the requested keys. *)

From stdpp Require Import base gmap strings list.
From S2P Require Import Prelude KubeTypes.

Section AtomicListRestockCache.
Context {K E I : Type} `{Countable K} `{Countable I}.

(** [data] is the [atomic.Pointer]: [None] is the nil pointer. *)
Record AtomicListRestockCache := mkAtomicCache {
  data : option (gmap K (slice E));
  idFunc : E → I;
}.

Definition newAtomicListRestockCache (idf : E → I) : AtomicListRestockCache :=
  {| data := None; idFunc := idf |}.

Definition Restock (c : AtomicListRestockCache) (d : option (gmap K (slice E))) :
    AtomicListRestockCache :=
  {| data := d; idFunc := idFunc c |}.

(** A map read through a non-nil pointer: the zero value, nil, for a missing key. *)
Definition lookup_slice (m : gmap K (slice E)) (k : K) : slice E :=
  default None (m !! k).

Definition list_ (c : AtomicListRestockCache) (key : K) : slice E :=
  match data c with
  | None => None
  | Some m => lookup_slice m key
  end.

(** The inner loop of [listAll]: first resource per identifier wins. *)
Definition add_resources (idf : E → I) (d : gmap I E) (nn : list E) : gmap I E :=
  foldl (λ d n, match d !! idf n with
                | Some _ => d
                | None => <[idf n:=n]> d
                end) d nn.

(** The outer loop, over the keys: [maxSize] and the map [d].  Reading
    through the nil pointer panics. *)
Fixpoint collect (m : option (gmap K (slice E))) (idf : E → I) (keys : list K)
    (maxSize : Z) (d : gmap I E) : GoRes (Z * gmap I E) :=
  match keys with
  | [] => Ret (maxSize, d)
  | k :: ks =>
      match m with
      | None => Panic "nil pointer dereference"
      | Some mm =>
          match mm !! k with
          | None => collect m idf ks maxSize d
          | Some nn => collect m idf ks (maxSize + Z.of_nat (length (elems nn)))
                         (add_resources idf d (elems nn))
          end
      end
  end.

Context `{!MapRange I E}.

Definition listAll (c : AtomicListRestockCache) (keys : list K) : GoRes (slice E) :=
  let! r := collect (data c) (idFunc c) keys 0 ∅ in
  Ret (Some ((map_range r.2).*2)).

Definition List (c : AtomicListRestockCache) (keys : list K) : GoRes (slice E) :=
  match keys with
  | [] => Ret None
  | [k] => Ret (list_ c k)
  | _ => listAll c keys
  end.

(** ** Lemmas *)

(** The reference: everything stored under the keys, in order. *)
Definition stored (m : gmap K (slice E)) (keys : list K) : list E :=
  keys ≫= λ k, elems (lookup_slice m k).

Definition keyed (idf : E → I) (d : gmap I E) : Prop := ∀ i n, d !! i = Some n → idf n = i.

Lemma add_resources_app idf d l k :
  add_resources idf d (l ++ k) = add_resources idf (add_resources idf d l) k.
Proof. apply foldl_app. Qed.

Lemma add_resources_values idf d l :
  (map_to_list (add_resources idf d l)).*2 ≡ₚ
  (map_to_list d).*2 ++ dedup_from idf (dom d) l.
Proof.
  revert d. induction l as [|n l IH]; intros d; simpl.
  { by rewrite app_nil_r. }
  unfold add_resources in *. simpl. rewrite IH.
  destruct (d !! idf n) as [x|] eqn:HE.
  - rewrite decide_True by (apply elem_of_dom; eauto). done.
  - rewrite decide_False by (by apply not_elem_of_dom).
    rewrite dom_insert_L, map_to_list_insert by done. simpl.
    apply Permutation_middle.
Qed.

Lemma add_resources_keyed idf d l : keyed idf d → keyed idf (add_resources idf d l).
Proof.
  revert d. induction l as [|n l IH]; intros d Hd; [done|].
  apply IH. destruct (d !! idf n) eqn:HE; [done|].
  intros i x. rewrite lookup_insert. case_decide; naive_solver.
Qed.

Lemma collect_Some m idf keys z d :
  collect (Some m) idf keys z d =
  Ret ((z + Z.of_nat (length (stored m keys)))%Z, add_resources idf d (stored m keys)).
Proof.
  revert z d. induction keys as [|k ks IH]; intros z d; simpl.
  { do 2 f_equal. unfold stored. simpl. lia. }
  unfold stored, lookup_slice in *. simpl.
  destruct (m !! k) as [nn|] eqn:HE; simpl; [|by rewrite IH].
  rewrite IH, add_resources_app, length_app. do 2 f_equal. lia.
Qed.

Context `{!MapRangeLaws I E}.

Lemma listAll_dedup c m keys :
  data c = Some m →
  ∃ r, listAll c keys = Ret (Some r) ∧ r ≡ₚ dedup_first (idFunc c) (stored m keys).
Proof.
  intros Hm. unfold listAll. rewrite Hm, collect_Some. simpl.
  eexists; split; [done|].
  rewrite map_range_perm, add_resources_values.
  by rewrite map_to_list_empty, dom_empty_L.
Qed.

(** [List] on a stocked cache, for any number of keys. *)
Lemma List_lemma c m keys :
  data c = Some m →
  ∃ r, List c keys = Ret r ∧
       elems r ≡ₚ match keys with
                  | [k] => elems (lookup_slice m k)
                  | _ => dedup_first (idFunc c) (stored m keys)
                  end ∧
       (2 ≤ length keys → r ≠ None).
Proof.
  intros Hm. destruct keys as [|k [|k' ks]]; simpl.
  - exists None. split_and!; [done|done|lia].
  - unfold list_. rewrite Hm. eexists; split_and!; [done|done|lia].
  - destruct (listAll_dedup c m (k :: k' :: ks) Hm) as (r & -> & Hr).
    exists (Some r). done.
Qed.
End AtomicListRestockCache.
Arguments AtomicListRestockCache K E I {_ _}.
Arguments mkAtomicCache {K E I _ _} _ _.

(** ** The access cache (pkg/auth/cache/access_cache.go)

    The instance the program uses: namespaces by subject, identified by name. *)
Abbreviation AccessData := (gmap Subject (slice Namespace)).
Abbreviation AccessCache := (AtomicListRestockCache Subject Namespace string).

Definition NewAtomicListRestockAccessCache : AccessCache :=
  newAtomicListRestockCache ns_Name.

(** ** Properties *)

Section properties.
Context {K E I : Type} `{Countable K} `{Countable I}.
Context `{!MapRange I E}.

(** C10: [List] on a stocked cache never panics and agrees with the reference
    definition: for one key it is the stored slice, for several keys the
    concatenation of the stored slices without the resources whose
    identifier occurred before, up to the order in which Go ranges over a
    map.  Several keys never give the nil slice. *)
Theorem List_spec `{!MapRangeLaws I E} (c : AtomicListRestockCache K E I)
    (m : gmap K (slice E)) keys :
  data c = Some m →
  ∃ r, List c keys = Ret r ∧
       elems r ≡ₚ match keys with
                  | [k] => elems (lookup_slice m k)
                  | _ => dedup_first (idFunc c) (stored m keys)
                  end ∧
       (2 ≤ length keys → r ≠ None).
Proof. apply List_lemma. Qed.

(** C35: [List] on a cache that was never stocked returns nil for at most one
    key and dereferences the nil pointer for two keys or more. *)
Theorem List_unstocked (c : AtomicListRestockCache K E I) keys :
  data c = None →
  List c keys = if decide (length keys ≤ 1) then Ret None
                else Panic "nil pointer dereference".
Proof.
  intros Hd. destruct keys as [|k [|k' ks]]; simpl; [done| |].
  - unfold list_. by rewrite Hd.
  - unfold listAll. by rewrite Hd.
Qed.

(** The capacity [listAll] reserves is enough: at least one slot per
    resource it collects, so no append reallocates. *)
Theorem listAll_capacity (m : gmap K (slice E)) (idf : E → I) keys :
  ∃ maxSize d, collect (Some m) idf keys 0 ∅ = Ret (maxSize, d) ∧
               (Z.of_nat (length (map_to_list d)) ≤ maxSize)%Z.
Proof.
  rewrite collect_Some. do 2 eexists. split; [done|].
  rewrite <-(length_fmap snd (map_to_list _)), (add_resources_values idf ∅).
  rewrite map_to_list_empty, dom_empty_L. simpl.
  pose proof (dedup_from_length idf ∅ (stored m keys)). lia.
Qed.
End properties.

(** ** Witnesses *)

Definition sample_stock : gmap nat (slice nat) := {[1 := Some [10; 20]; 2 := Some [20; 30]]}.

Lemma List_spec_witness :
  ∃ r, @List nat nat nat _ _ _ _ (sorted_range _ _) (mkAtomicCache (Some sample_stock) id) [1; 2]
       = Ret r ∧ elems r ≡ₚ [10; 20; 30].
Proof.
  destruct (@List_spec nat nat nat _ _ _ _ (sorted_range _ _) (sorted_range_laws _ _)
    (mkAtomicCache (Some sample_stock) id) sample_stock [1; 2] eq_refl) as (r & Hr & Hp & _).
  exists r. split; [exact Hr|exact Hp].
Defined.

Lemma List_unstocked_witness :
  @List nat nat nat _ _ _ _ (sorted_range _ _) (newAtomicListRestockCache id) [1; 2] =
  Panic "nil pointer dereference".
Proof.
  exact (@List_unstocked nat nat nat _ _ _ _ (sorted_range _ _)
           (newAtomicListRestockCache id) [1; 2] eq_refl).
Defined.
