(* ===== verification/Subjects.v ===== *)
(** * Sorting and deduplicating subjects (synchronized_access_cache.go)

    [removeDuplicateSubjects] sorts the subjects returned by the locator with
    a four-field comparison and compacts the runs of equal ones. *)

From stdpp Require Import base gmap strings list sorting.
From S2P Require Import Prelude GoStrings GoSlices KubeTypes.

(** The comparison given to [slices.SortFunc]. *)
Definition compareSubjects (a b : Subject) : Z :=
  if decide (Compare (APIGroup a) (APIGroup b) ≠ 0)%Z then Compare (APIGroup a) (APIGroup b)
  else if decide (Compare (Kind a) (Kind b) ≠ 0)%Z then Compare (Kind a) (Kind b)
  else if decide (Compare (Namespace_ a) (Namespace_ b) ≠ 0)%Z
       then Compare (Namespace_ a) (Namespace_ b)
  else Compare (Name a) (Name b).

(** The equality given to [slices.CompactFunc]. *)
Definition equalSubjects (a b : Subject) : bool :=
  bool_decide (APIGroup a = APIGroup b) &&
  bool_decide (Kind a = Kind b) &&
  bool_decide (Namespace_ a = Namespace_ b) &&
  bool_decide (Name a = Name b).

Definition removeDuplicateSubjects (ss : list Subject) : list Subject :=
  CompactFunc equalSubjects (SortFunc compareSubjects ss).

(** The matcher of the [system:authenticated] group. *)
Definition isSystemAuthenticatedGroup (sub : Subject) : bool :=
  bool_decide (APIGroup sub = rbac_GroupName) &&
  bool_decide (Kind sub = GroupKind) &&
  bool_decide (Name sub = "system:authenticated").

(** ** Lemmas *)

Lemma equalSubjects_spec a b : equalSubjects a b = true ↔ a = b.
Proof.
  unfold equalSubjects. rewrite !andb_true_iff, !bool_decide_eq_true.
  destruct a, b; simpl; naive_solver.
Qed.

(** A lexicographic step: decide on the first field, else on the rest. *)
Lemma lex_trans (x y z : string) (r1 r2 r3 : Z) :
  (r1 ≤ 0 → r2 ≤ 0 → r3 ≤ 0)%Z →
  ((if decide (Compare x y ≠ 0) then Compare x y else r1) ≤ 0 →
   (if decide (Compare y z ≠ 0) then Compare y z else r2) ≤ 0 →
   (if decide (Compare x z ≠ 0) then Compare x z else r3) ≤ 0)%Z.
Proof.
  intros Hr H1 H2.
  assert (Compare x y ≤ 0)%Z as Hxy by (repeat case_decide; lia).
  assert (Compare y z ≤ 0)%Z as Hyz by (repeat case_decide; lia).
  destruct (decide (Compare x z ≠ 0)%Z) as [|Hxz]; [by apply Compare_le_trans with y|].
  apply dec_stable in Hxz. apply Compare_eq in Hxz as <-.
  assert (x = y) as <-.
  { apply (anti_symm String.le); by apply Compare_le. }
  rewrite decide_False in H1, H2 by (rewrite (proj2 (Compare_eq x x)); naive_solver). auto.
Qed.

Lemma lex_opp (x y : string) (r1 r2 : Z) :
  r2 = (- r1)%Z →
  (if decide (Compare y x ≠ 0) then Compare y x else r2)%Z =
  (- (if decide (Compare x y ≠ 0) then Compare x y else r1))%Z.
Proof. intros ->. rewrite (Compare_opp x y). repeat case_decide; lia. Qed.

#[export] Instance compareSubjects_order : CmpOrder compareSubjects.
Proof.
  split.
  - intros a b. unfold compareSubjects. repeat apply lex_opp. apply Compare_opp.
  - intros [] []. unfold compareSubjects; simpl.
    do 3 (case_decide as Hc; [congruence|]; apply Compare_eq in Hc as <-).
    intros <-%Compare_eq. done.
  - intros a b c. unfold compareSubjects. repeat apply lex_trans. apply Compare_le_trans.
Qed.

Lemma removeDuplicateSubjects_elem_of ss x : x ∈ removeDuplicateSubjects ss ↔ x ∈ ss.
Proof.
  unfold removeDuplicateSubjects.
  rewrite (CompactFunc_elem_of _ equalSubjects_spec). by rewrite SortFunc_perm.
Qed.

Lemma removeDuplicateSubjects_NoDup ss : NoDup (removeDuplicateSubjects ss).
Proof.
  eapply (CompactFunc_sorted _ equalSubjects_spec (cmp_le compareSubjects)),
    SortFunc_sorted, _.
Qed.

(** The visibility test gives the same answer before and after. *)
Lemma removeDuplicateSubjects_existsb f ss :
  existsb f (removeDuplicateSubjects ss) = existsb f ss.
Proof.
  apply eq_bool_prop_intro. rewrite !Is_true_true, !existsb_elem_of.
  by setoid_rewrite removeDuplicateSubjects_elem_of.
Qed.

(** ** Properties *)

(** C29: [removeDuplicateSubjects] returns the subjects of its input, each once,
    in the order of the comparison, whatever sorting algorithm is used: any
    sorted duplicate-free list with the same members is this list. *)
Theorem removeDuplicateSubjects_correct ss :
  (∀ x, x ∈ removeDuplicateSubjects ss ↔ x ∈ ss) ∧
  NoDup (removeDuplicateSubjects ss) ∧
  StronglySorted (cmp_le compareSubjects) (removeDuplicateSubjects ss) ∧
  (∀ l, NoDup l → (∀ x, x ∈ l ↔ x ∈ ss) → Sorted (cmp_le compareSubjects) l →
        l = removeDuplicateSubjects ss).
Proof.
  pose proof (CompactFunc_sorted _ equalSubjects_spec (cmp_le compareSubjects)
    (SortFunc compareSubjects ss) (SortFunc_sorted _ ss)) as [Hnd Hs].
  split_and!; [apply removeDuplicateSubjects_elem_of|done|done|].
  intros l Hl Hin Hsl. apply (Sorted_unique (cmp_le compareSubjects)); [done| |].
  - by apply StronglySorted_Sorted.
  - apply NoDup_Permutation; [done|done|].
    intros x. by rewrite Hin, removeDuplicateSubjects_elem_of.
Qed.

#[export] Hint Rewrite removeDuplicateSubjects_elem_of removeDuplicateSubjects_existsb : golib.
