(* ===== verification/AccessMetrics.v ===== *)
(** * Metrics of the access cache (pkg/auth/cache/metrics_accesscache.go)

    The calls the collector makes on the Prometheus vectors, as a trace of
    operations.  Numbers are the integers the code converts to [float64]. *)

From Stdlib Require Import Ascii.
From stdpp Require Import base gmap strings list sorting.
From S2P Require Import Prelude GoStrings KubeTypes AtomicCache.

(** ** Events (synchronized_access_cache_event.go) *)
Definition EventType := string.
Definition ResourceAddedEventType : EventType := "Add".
Definition ResourceUpdatedEventType : EventType := "Update".
Definition ResourceDeletedEventType : EventType := "Delete".

(** [Object] is an interface value: [None] is the nil interface, [Some o] an
    object, identified by [o]. *)
Record Event := mkEvent {
  Object : option string;
  Type_ : EventType;
  timeTriggered : bool;
}.
#[export] Instance Event_eq_dec : EqDecision Event.
Proof. solve_decision. Defined.

Definition timeTriggeredEvent : Event :=
  {| Object := None; Type_ := ""; timeTriggered := true |}.

(** ** The collector *)
Inductive AccessCacheVec :=
| subjectCounter
| subjectNamespacePairsCounter
| synchGauge
| synchDuration
| resourceRequestsGauge
| timeRequestsGauge.
#[export] Instance AccessCacheVec_eq_dec : EqDecision AccessCacheVec.
Proof. solve_decision. Defined.

Abbreviation Labels := (list (string * string)).

(** One call on a vector: [With(labels).Inc()], [.Observe(v)], [.Set(v)]. *)
Inductive PromOp :=
| OpInc (v : AccessCacheVec) (ll : Labels)
| OpObserve (v : AccessCacheVec) (ll : Labels) (x : Z)
| OpSet (v : AccessCacheVec) (ll : Labels) (x : Z).
#[export] Instance PromOp_eq_dec : EqDecision PromOp.
Proof. solve_decision. Defined.

(** The descriptors [NewAccessCacheMetrics] registers. *)
Record MetricDesc := mkDesc {
  md_Namespace : string;
  md_Subsystem : string;
  md_Name : string;
  md_labels : list string;
  md_Buckets : list Z;
}.

Definition NewAccessCacheMetrics (v : AccessCacheVec) : MetricDesc :=
  let d := mkDesc "namespace_lister" "accesscache" in
  match v with
  | subjectCounter => d "subjects" [] []
  | subjectNamespacePairsCounter => d "subject_namespace_pairs" ["subject_gk"] []
  | synchGauge => d "synch_op_total" ["status"; "error"] []
  | timeRequestsGauge => d "time_requests_total" ["status"] []
  | resourceRequestsGauge => d "resource_requests_total" ["status"] []
  | synchDuration => d "synch_duration_milliseconds" ["status"]
      [10; 50; 100; 200; 500; 1000; 10*1000; 30*1000; 60*1000; 2*60*1000; 5*60*1000;
       10*60*1000; 30*60*1000; 60*60*1000]%Z
  end.

(** The vectors [Collect] and [Describe] forward to, in order. *)
Definition Collect : list AccessCacheVec :=
  [resourceRequestsGauge; timeRequestsGauge; synchDuration;
   subjectCounter; subjectNamespacePairsCounter; synchGauge].
Definition Describe : list AccessCacheVec :=
  [resourceRequestsGauge; timeRequestsGauge; synchDuration;
   subjectCounter; subjectNamespacePairsCounter; synchGauge].

(** The names pkg/metricsutil/const.go looks the metrics up by. *)
Definition metricFullname (v : AccessCacheVec) : string :=
  match v with
  | resourceRequestsGauge => "namespace_lister_accesscache_resource_requests_total"
  | timeRequestsGauge => "namespace_lister_accesscache_time_requests_total"
  | synchGauge => "namespace_lister_accesscache_synch_op_total"
  | subjectNamespacePairsCounter => "namespace_lister_accesscache_subject_namespace_pairs"
  | subjectCounter => "namespace_lister_accesscache_subjects"
  | synchDuration => "namespace_lister_accesscache_synch_duration_milliseconds"
  end.

Definition StatusQueuedLabel : string := "queued".
Definition StatusSkippedLabel : string := "skipped".

Definition getStatusLabel (queued : bool) : string :=
  if queued then StatusQueuedLabel else StatusSkippedLabel.

Definition collectTimeTriggeredRequestMetrics (status : string) : list PromOp :=
  [OpInc timeRequestsGauge [("status", status)]].
Definition collectResourceEventRequestMetrics (status : string) : list PromOp :=
  [OpInc resourceRequestsGauge [("status", status)]].

Definition CollectRequestMetrics (event : Event) (queued : bool) : list PromOp :=
  let status := getStatusLabel queued in
  if decide (event = timeTriggeredEvent) then collectTimeTriggeredRequestMetrics status
  else collectResourceEventRequestMetrics status.

(** The group/kind label of a subject: [strings.TrimLeft(g+"/"+k, "/")]. *)
Definition subject_gk (s : Subject) : string :=
  TrimLeft "/"%char (APIGroup s +:+ "/" +:+ Kind s).

(** The loop that counts pairs per group/kind. *)
Definition countPair (m : gmap string Z) (e : Subject * slice Namespace) : gmap string Z :=
  let sgk := subject_gk e.1 in
  <[sgk := (default 0 (m !! sgk) + Z.of_nat (length (elems e.2)))%Z]> m.
Definition gkNsPairCount (entries : list (Subject * slice Namespace)) : gmap string Z :=
  foldl countPair ∅ entries.

Section collect.
Context `{!MapRange Subject (slice Namespace), !MapRange string Z}.

Definition CollectSynchMetrics (duration : Z) (cacheData : AccessData) (err : option error) :
    list PromOp :=
  match err with
  | Some e =>
      [OpObserve synchDuration [("status", "failed")] duration;
       OpInc synchGauge [("status", "failed"); ("error", error_Error e)]]
  | None =>
      [OpObserve synchDuration [("status", "completed")] duration;
       OpInc synchGauge [("status", "completed"); ("error", "")];
       OpSet subjectCounter [] (Z.of_nat (size cacheData))] ++
      map (λ '(gk, n), OpSet subjectNamespacePairsCounter [("subject_gk", gk)] n)
          (map_range (gkNsPairCount (map_range cacheData)))
  end.
End collect.

(** The two implementations of the [AccessCacheMetrics] interface. *)
Inductive AccessCacheMetrics := NoOpAccessCacheMetrics | accessCacheMetrics.
#[export] Instance AccessCacheMetrics_eq_dec : EqDecision AccessCacheMetrics.
Proof. solve_decision. Defined.

Definition metrics_ops (m : AccessCacheMetrics) (ops : list PromOp) : list PromOp :=
  match m with NoOpAccessCacheMetrics => [] | accessCacheMetrics => ops end.

(** ** Lemmas *)

(** The number of (subject, namespace) pairs of a group/kind. *)
Definition pair_total (gk : string) (entries : list (Subject * slice Namespace)) : Z :=
  foldr (λ '(s, v) n, ((if decide (subject_gk s = gk) then Z.of_nat (length (elems v)) else 0)
                        + n)%Z) 0%Z entries.

Lemma pair_total_perm gk l k : l ≡ₚ k → pair_total gk l = pair_total gk k.
Proof.
  induction 1 as [|[] ? ? _ IH|[] [] ?|]; simpl; [done| | |congruence].
  - by rewrite IH.
  - lia.
Qed.

Lemma gkNsPairCount_go entries (m : gmap string Z) gk :
  foldl countPair m entries !! gk =
  if decide (gk ∈ subject_gk <$> entries.*1)
  then Some (default 0 (m !! gk) + pair_total gk entries)%Z else m !! gk.
Proof.
  revert m. induction entries as [|[s v] l IH]; intros m; csimpl; [done|].
  rewrite IH. unfold countPair. simpl. rewrite lookup_insert.
  destruct (decide (subject_gk s = gk)) as [Heq|Hne].
  - subst gk. rewrite (decide_True (P := subject_gk s ∈ _ :: _)) by (by left).
    simpl. case_decide as Hin; f_equal; [lia|].
    enough (pair_total (subject_gk s) l = 0%Z) as -> by lia.
    clear -Hin. induction l as [|[s' v'] l IH]; csimpl in *; [done|].
    apply not_elem_of_cons in Hin as [Hne Hin].
    rewrite decide_False by done. by rewrite IH.
  - rewrite Z.add_0_l.
    destruct (decide (gk ∈ subject_gk <$> l.*1)) as [Hin|Hin].
    + by rewrite decide_True by (by right).
    + rewrite decide_False; [done|]. by apply not_elem_of_cons.
Qed.

Lemma gkNsPairCount_lookup entries gk :
  gkNsPairCount entries !! gk =
  if decide (gk ∈ subject_gk <$> entries.*1) then Some (pair_total gk entries) else None.
Proof. unfold gkNsPairCount. rewrite gkNsPairCount_go. by case_decide. Qed.

(** ** Properties *)

Section properties.
Context `{!MapRange Subject (slice Namespace), !MapRange string Z}.
Context `{!MapRangeLaws Subject (slice Namespace), !MapRangeLaws string Z}.

(** C38: after a successful synchronization the collector sets the pair gauge
    of exactly the group/kinds that have a subject in the new data, each to
    the number of (subject, namespace) pairs of that group/kind, whatever
    the iteration orders.  In particular no call touches the series of a
    group/kind that has left the cache. *)
Theorem CollectSynchMetrics_pairs d (cacheData : AccessData) gk n :
  OpSet subjectNamespacePairsCounter [("subject_gk", gk)] n
    ∈ CollectSynchMetrics d cacheData None ↔
  (∃ s, s ∈ dom cacheData ∧ subject_gk s = gk) ∧ n = pair_total gk (map_to_list cacheData).
Proof.
  unfold CollectSynchMetrics. rewrite elem_of_app.
  assert (∀ x, x ∈ map_range (gkNsPairCount (map_range cacheData)) ↔
               gkNsPairCount (map_range cacheData) !! x.1 = Some x.2) as Hr.
  { intros [x y]. by rewrite map_range_perm, elem_of_map_to_list. }
  rewrite <-(pair_total_perm gk (map_range cacheData)) by apply map_range_perm.
  assert ((∃ s, s ∈ dom cacheData ∧ subject_gk s = gk) ↔
          gk ∈ subject_gk <$> (map_range cacheData).*1) as Hdom.
  { rewrite list_elem_of_fmap. setoid_rewrite list_elem_of_fmap.
    setoid_rewrite map_range_perm. setoid_rewrite elem_of_dom. split.
    - intros (s & [v Hv] & <-). exists s. split; [done|]. exists (s, v).
      by rewrite elem_of_map_to_list.
    - intros (s & -> & [s' v] & -> & Hin%elem_of_map_to_list). eauto. }
  rewrite Hdom.
  change (map ?f ?l) with (f <$> l). rewrite list_elem_of_fmap. split.
  - intros [H|([x y] & [= <- <-] & H)]; [set_solver|].
    apply Hr in H; simpl in H. rewrite gkNsPairCount_lookup in H.
    case_decide; naive_solver.
  - intros [Hin ->]. right. exists (gk, pair_total gk (map_range cacheData)).
    split; [done|]. apply Hr; simpl. rewrite gkNsPairCount_lookup. by rewrite decide_True.
Qed.
End properties.

(** The names the metric helpers look metrics up by are the fully qualified
    names of the metrics the collector registers, given how Prometheus builds
    them; [Collect] and [Describe] forward to every vector exactly once; and the
    buckets of the duration histogram are strictly increasing, as Prometheus
    requires. *)
Theorem metric_names_consistent (BuildFQName : string → string → string → string) :
  (* BuildFQName joins its three non-empty components by an underscore *)
  (∀ a b c, a ≠ "" → b ≠ "" → c ≠ "" → BuildFQName a b c = a +:+ "_" +:+ b +:+ "_" +:+ c) →
  (∀ v, BuildFQName (md_Namespace (NewAccessCacheMetrics v))
                    (md_Subsystem (NewAccessCacheMetrics v))
                    (md_Name (NewAccessCacheMetrics v)) = metricFullname v) ∧
  (∀ v, v ∈ Collect) ∧ NoDup Collect ∧ Describe = Collect ∧
  StronglySorted Z.lt (md_Buckets (NewAccessCacheMetrics synchDuration)).
Proof.
  intros Hfq. split_and!.
  - intros v. rewrite Hfq by (by destruct v). by destruct v.
  - intros v. unfold Collect. destruct v; set_solver.
  - apply (bool_decide_unpack _). by vm_compute.
  - done.
  - simpl. repeat constructor; lia.
Qed.

(** ** Witnesses *)

Definition sample_subject : Subject := mkSubject "User" rbac_GroupName "alice" "".
Definition sample_namespace : Namespace := mkNamespace "team" None None None "" "".

Lemma CollectSynchMetrics_pairs_witness :
  OpSet subjectNamespacePairsCounter [("subject_gk", "rbac.authorization.k8s.io/User")] 1
    ∈ @CollectSynchMetrics (sorted_range _ _) (sorted_range _ _) 5
        {[sample_subject := Some [sample_namespace]]} None.
Proof.
  apply (@CollectSynchMetrics_pairs (sorted_range _ _) (sorted_range _ _)
           (sorted_range_laws _ _) (sorted_range_laws _ _)).
  split.
  - exists sample_subject. split; [rewrite dom_singleton_L; set_solver|reflexivity].
  - rewrite map_to_list_singleton. reflexivity.
Defined.

Lemma metric_names_consistent_witness :
  metricFullname subjectCounter = "namespace_lister_accesscache_subjects" ∧ NoDup Collect.
Proof.
  destruct (metric_names_consistent (λ a b c, a +:+ "_" +:+ b +:+ "_" +:+ c))
    as (H & _ & Hn & _); [reflexivity|].
  split; [symmetry; exact (H subjectCounter)|exact Hn].
Defined.
