(* ===== verification/AccessSync.v ===== *)
(** * The synchronized access cache (pkg/auth/cache/synchronized_access_cache.go)

    [SynchronizedAccessCache]: its options, the computation of the access
    data ([synch]), the guarded entry point ([Synch]) and the one-slot request
    channel ([Request]).  The interleaving of the goroutines that call these
    operations is in SyncMachine.v; here each operation runs alone. *)

From stdpp Require Import base gmap strings list.
From S2P Require Import Prelude GoStrings GoSlices KubeTypes AtomicCache Subjects AccessMetrics.

(** ** Constants *)
Definition VirtualLabelAnnotationDomainKey : string := "virtual.konflux-ci.dev/".
Definition VirtualLabelKeyAccess : string := VirtualLabelAnnotationDomainKey +:+ "access".
Definition VirtualLabelKeyVisibility : string := VirtualLabelAnnotationDomainKey +:+ "visibility".
Definition VirtualLabelValueVisibilityAuthenticated : string := "authenticated".
Definition VirtualLabelValueVisibilityPrivate : string := "private".
Definition VirtualAnnotationKeySubjectName : string :=
  VirtualLabelAnnotationDomainKey +:+ "subject-name".
Definition VirtualAnnotationKeySubjectNamespace : string :=
  VirtualLabelAnnotationDomainKey +:+ "subject-namespace".

Definition isSynchAlreadyRunningErr (err : option error) : bool :=
  match err with
  | None => false
  | Some e => errors_Is e SentinelSynchAlreadyRunning
  end.

(** ** Options (synchronized_access_cache_opts.go) *)
Inductive Level := LevelDebug | LevelInfo | LevelWarn | LevelError.
#[export] Instance Level_eq_dec : EqDecision Level.
Proof. solve_decision. Defined.

(** What an error handler does with the error: a log record at a level. *)
Record LogRecord := mkLog { log_level : Level; log_msg : string; log_error : error }.
Abbreviation ErrorHandler := (error → LogRecord).

Definition time_Minute : Z := 60 * 10^9.

(** A logger is a pointer; the program only tells nil from not nil. *)
Record CacheSynchronizerOptions := mkOptions {
  opt_Logger : option string;
  opt_ResyncPeriod : Z;
  opt_SynchTimeout : Z;
  opt_SyncErrorHandler : option ErrorHandler;
  opt_Metrics : option AccessCacheMetrics;
}.

(** The default handler.  The arguments of [errors.Is] are in the order of the
    code: the sentinel is searched for [err], so only the bare sentinel is
    logged at debug level. *)
Definition defaultSyncErrorHandler (err : error) : LogRecord :=
  {| log_level := if decide (error_sentinel err = Some SentinelSynchAlreadyRunning)
                  then LevelDebug else LevelError;
     log_msg := "error synchronizing cache";
     log_error := err |}.

Definition defaultResyncPeriod : Z := 10 * time_Minute.
Definition defaultSynchTimeout : Z := 1 * time_Minute.
Definition defaultLogger : string := "slog.Default".

(** ** The cache object *)
Record SynchronizedAccessCache := mkSAC {
  sac_cache : AccessCache;             (* the embedded AccessCache *)
  sac_requested : bool;                (* the channel of capacity 1 holds a request *)
  sac_synchronizing : bool;            (* atomic.Bool *)
  sac_once : bool;                     (* sync.Once has fired *)
  sac_logger : string;
  sac_syncErrorHandler : ErrorHandler;
  sac_resyncPeriod : Z;
  sac_synchTimeout : Z;
  sac_metrics : AccessCacheMetrics;
}.

Definition Apply (opts : CacheSynchronizerOptions) (s : SynchronizedAccessCache) :
    SynchronizedAccessCache :=
  let resync := cmp_Or 0%Z [opt_ResyncPeriod opts; defaultResyncPeriod] in
  {| sac_cache := sac_cache s;
     sac_requested := sac_requested s;
     sac_synchronizing := sac_synchronizing s;
     sac_once := sac_once s;
     sac_logger := default defaultLogger (opt_Logger opts);
     sac_syncErrorHandler := default defaultSyncErrorHandler (opt_SyncErrorHandler opts);
     sac_resyncPeriod := resync;
     sac_synchTimeout :=
       cmp_Or 0%Z [opt_SynchTimeout opts;
                   Z.max defaultSynchTimeout (wrap64 (resync - time_Minute))];
     sac_metrics := default NoOpAccessCacheMetrics (opt_Metrics opts) |}.

Definition NewSynchronizedAccessCache (opts : CacheSynchronizerOptions) :
    SynchronizedAccessCache :=
  Apply opts
    {| sac_cache := NewAtomicListRestockAccessCache;
       sac_requested := false;
       sac_synchronizing := false;
       sac_once := false;
       (* zero values, overwritten by Apply *)
       sac_logger := ""; sac_syncErrorHandler := defaultSyncErrorHandler;
       sac_resyncPeriod := 0; sac_synchTimeout := 0;
       sac_metrics := NoOpAccessCacheMetrics |}.

(** Field updates. *)
Definition set_cache (c : AccessCache) (s : SynchronizedAccessCache) :=
  {| sac_cache := c; sac_requested := sac_requested s;
     sac_synchronizing := sac_synchronizing s; sac_once := sac_once s;
     sac_logger := sac_logger s; sac_syncErrorHandler := sac_syncErrorHandler s;
     sac_resyncPeriod := sac_resyncPeriod s; sac_synchTimeout := sac_synchTimeout s;
     sac_metrics := sac_metrics s |}.
Definition set_requested (b : bool) (s : SynchronizedAccessCache) :=
  {| sac_cache := sac_cache s; sac_requested := b;
     sac_synchronizing := sac_synchronizing s; sac_once := sac_once s;
     sac_logger := sac_logger s; sac_syncErrorHandler := sac_syncErrorHandler s;
     sac_resyncPeriod := sac_resyncPeriod s; sac_synchTimeout := sac_synchTimeout s;
     sac_metrics := sac_metrics s |}.
Definition set_synchronizing (b : bool) (s : SynchronizedAccessCache) :=
  {| sac_cache := sac_cache s; sac_requested := sac_requested s;
     sac_synchronizing := b; sac_once := sac_once s;
     sac_logger := sac_logger s; sac_syncErrorHandler := sac_syncErrorHandler s;
     sac_resyncPeriod := sac_resyncPeriod s; sac_synchTimeout := sac_synchTimeout s;
     sac_metrics := sac_metrics s |}.

(** ** Virtual labels and annotations *)
Section labels.
Context `{!UnicodeLower, !DeepCopyNs}.

(** [ll := m; if ll == nil { ll = map[string]string{} }] *)
Definition map_or_new (h : heap) (m : option loc) : heap * loc :=
  match m with
  | None => map_alloc h ∅
  | Some l => (h, l)
  end.

(** The map allocated for nil labels is not assigned back to [ns]. *)
Definition setVisibilityVirtualLabel (h : heap) (ns : Namespace) (subs : list Subject) : heap :=
  let '(h1, ll) := map_or_new h (ns_Labels ns) in
  if ContainsFunc subs isSystemAuthenticatedGroup
  then map_store h1 ll VirtualLabelKeyVisibility VirtualLabelValueVisibilityAuthenticated
  else map_store h1 ll VirtualLabelKeyVisibility VirtualLabelValueVisibilityPrivate.

Definition withVirtualLabelsAndAnnotationsForAccess (h : heap) (ns : Namespace)
    (sub : Subject) : heap * Namespace :=
  let '(h1, lns) := deep_copy h ns in
  let lkind := ToLower (Kind sub) in
  let '(h2, ll) := map_or_new h1 (ns_Labels lns) in
  let h3 := map_store h2 ll VirtualLabelKeyAccess lkind in
  let '(h4, aa) := map_or_new h3 (ns_Annotations lns) in
  let h5 := map_store h4 aa VirtualAnnotationKeySubjectName (Name sub) in
  let h6 := if decide (Namespace_ sub ≠ "")
            then map_store h5 aa VirtualAnnotationKeySubjectNamespace (Namespace_ sub)
            else h5 in
  (h6, {| ns_Name := ns_Name lns; ns_Labels := Some ll; ns_Annotations := Some aa;
          ns_ManagedFields := ns_ManagedFields lns; ns_Spec := ns_Spec lns;
          ns_Status := ns_Status lns |}).
End labels.

(** ** The synchronization *)

(** [authorizer.AttributesRecord], with the fields [synch] sets. *)
Record AttributesRecord := mkAttributes {
  attr_Verb : string;
  attr_Resource : string;
  attr_APIGroup : string;
  attr_APIVersion : string;
  attr_Name : string;
  attr_Namespace : string;
  attr_ResourceRequest : bool;
}.

Definition namespace_attributes (ns : Namespace) : AttributesRecord :=
  {| attr_Verb := "get"; attr_Resource := "namespaces"; attr_APIGroup := "";
     attr_APIVersion := "v1"; attr_Name := ns_Name ns; attr_Namespace := ns_Name ns;
     attr_ResourceRequest := true |}.

(** What one synchronization reads of its environment: the answer of the
    namespace lister (which may allocate), the error of the context when it is
    asked for the [i]-th time, and the locator. *)
Record SynchEnv := mkEnv {
  env_List : heap → heap * (error + list Namespace);
  env_ctxErr : nat → option error;
  env_AllowedSubjects : AttributesRecord → list Subject * option error;
}.

Section synch.
Context `{!UnicodeLower, !DeepCopyNs}.
Context (env : SynchEnv).

(** The loop over the subjects of one namespace. *)
Fixpoint store_subjects (h : heap) (ns : Namespace) (ss : list Subject) (c : AccessData) :
    heap * AccessData :=
  match ss with
  | [] => (h, c)
  | sub :: ss' =>
      let '(h', lns) := withVirtualLabelsAndAnnotationsForAccess h ns sub in
      store_subjects h' ns ss' (<[sub := go_append (lookup_slice c sub) lns]> c)
  end.

(** One iteration of the loop over the namespaces, after the check of the
    context.  The error of the locator is dropped, as in the code. *)
Definition synch_iteration (ns : Namespace) (h : heap) (c : AccessData) : heap * AccessData :=
  let '(ss, _) := env_AllowedSubjects env (namespace_attributes ns) in
  let ss := removeDuplicateSubjects ss in
  let h := setVisibilityVirtualLabel h ns ss in
  store_subjects h ns ss c.

(** The loop over the namespaces; [i] counts the iterations. *)
Fixpoint synch_loop (i : nat) (items : list Namespace) (h : heap) (c : AccessData) :
    heap * (error + AccessData) :=
  match items with
  | [] => (h, inr c)
  | ns :: items' =>
      match env_ctxErr env i with
      | Some err => (h, inl err)
      | None =>
          let '(h, c) := synch_iteration ns h c in
          synch_loop (S i) items' h c
      end
  end.

(** [synch]: the new state, the returned data ([None] is a nil map) and the
    error. *)
Definition synch (h : heap) (s : SynchronizedAccessCache) :
    heap * SynchronizedAccessCache * option AccessData * option error :=
  match env_List env h with
  | (h, inl err) => (h, s, None, Some err)
  | (h, inr items) =>
      match synch_loop 0 items h ∅ with
      | (h, inl err) => (h, s, Some ∅, Some err)
      | (h, inr c) => (h, set_cache (Restock (sac_cache s) (Some c)) s, Some c, None)
      end
  end.

Context `{!MapRange Subject (slice Namespace), !MapRange string Z}.

(** [Synch]; [d] is the measured duration. *)
Definition Synch (d : Z) (h : heap) (s : SynchronizedAccessCache) :
    heap * SynchronizedAccessCache * list PromOp * option error :=
  if sac_synchronizing s then (h, s, [], Some ErrSynchAlreadyRunning)
  else
    let s := set_synchronizing true s in
    let '(h, s, cacheData, err) := synch h s in
    let ops := metrics_ops (sac_metrics s) (CollectSynchMetrics d (default ∅ cacheData) err) in
    (h, set_synchronizing false s, ops, err).
End synch.

(** ** Requests *)

(** The non-blocking send on the channel of capacity 1. *)
Definition request (s : SynchronizedAccessCache) : SynchronizedAccessCache * bool :=
  if sac_requested s then (s, false) else (set_requested true s, true).

Definition Request (s : SynchronizedAccessCache) (event : Event) :
    SynchronizedAccessCache * list PromOp * bool :=
  let '(s, queued) := request s in
  (s, metrics_ops (sac_metrics s) (CollectRequestMetrics event queued), queued).

(** [EventHandlerFuncs]: the handlers given to the informers. *)
Inductive InformerEvent :=
| IAdd (obj : option string)
| IUpdate (oldObj newObj : option string)
| IDelete (obj : option string).

Definition EventHandlerFuncs (s : SynchronizedAccessCache) (e : InformerEvent) :
    SynchronizedAccessCache * list PromOp * bool :=
  match e with
  | IAdd obj => Request s {| Object := obj; Type_ := ResourceAddedEventType;
                             timeTriggered := false |}
  | IUpdate _ newObj => Request s {| Object := newObj; Type_ := ResourceUpdatedEventType;
                                     timeTriggered := false |}
  | IDelete obj => Request s {| Object := obj; Type_ := ResourceDeletedEventType;
                                timeTriggered := false |}
  end.

(** ** The scheduler's reaction to a request (the second goroutine of [Start])

    After [<-s.requested]: run [Synch] and hand its error to the handler when
    it is [ErrSynchAlreadyRunning]. *)
Section schedule.
Context `{!UnicodeLower, !DeepCopyNs}.
Context `{!MapRange Subject (slice Namespace), !MapRange string Z}.

Definition scheduledSynch (env : SynchEnv) (d : Z) (h : heap) (s : SynchronizedAccessCache) :
    heap * SynchronizedAccessCache * list PromOp * option LogRecord :=
  let '(h, s, ops, err) := Synch env d h (set_requested false s) in
  let logged := match err with
                | Some e => if isSynchAlreadyRunningErr err
                            then Some (sac_syncErrorHandler s e) else None
                | None => None
                end in
  (h, s, ops, logged).
End schedule.

(** ** Lemmas *)

Lemma Apply_resync opts s :
  sac_resyncPeriod (Apply opts s) =
  if decide (opt_ResyncPeriod opts = 0%Z) then defaultResyncPeriod else opt_ResyncPeriod opts.
Proof. simpl. rewrite !cmp_Or_cons. by case_decide. Qed.

Lemma Apply_timeout opts s :
  sac_synchTimeout (Apply opts s) =
  if decide (opt_SynchTimeout opts = 0%Z)
  then Z.max time_Minute (wrap64 (sac_resyncPeriod (Apply opts s) - time_Minute))
  else opt_SynchTimeout opts.
Proof.
  unfold Apply; cbn [sac_synchTimeout sac_resyncPeriod]. rewrite cmp_Or_cons.
  case_decide; [|done]. rewrite cmp_Or_cons, cmp_Or_nil, decide_False; [done|].
  unfold defaultSynchTimeout, time_Minute. lia.
Qed.

(** ** Properties *)

(** The durations a cache runs with.  A zero resync period becomes ten
    minutes.  A zero timeout becomes one minute less than the period but at
    least one minute, whatever 64-bit period was given; so for a period of two
    minutes or more a synchronization times out before the next tick, and
    with a period of at most one minute it can outlast it. *)
Theorem Apply_durations opts s :
  in64 (opt_ResyncPeriod opts) →
  let s' := Apply opts s in
  sac_resyncPeriod s' ≠ 0%Z ∧
  (opt_ResyncPeriod opts = 0%Z → sac_resyncPeriod s' = (10 * time_Minute)%Z) ∧
  (opt_SynchTimeout opts ≠ 0%Z → sac_synchTimeout s' = opt_SynchTimeout opts) ∧
  (opt_SynchTimeout opts = 0%Z →
     (time_Minute ≤ sac_synchTimeout s')%Z ∧
     ((2 * time_Minute ≤ sac_resyncPeriod s')%Z →
        sac_synchTimeout s' = (sac_resyncPeriod s' - time_Minute)%Z) ∧
     ((0 < sac_resyncPeriod s' ≤ time_Minute)%Z →
        (sac_resyncPeriod s' ≤ sac_synchTimeout s')%Z)).
Proof.
  intros H64 s'. unfold s'. rewrite Apply_timeout, Apply_resync.
  set (r := if decide _ then _ else _).
  assert (in64 r ∧ r ≠ 0%Z) as [Hr Hr0].
  { unfold r, defaultResyncPeriod, in64, time_Minute in *. case_decide; split; lia. }
  split_and!; [done| | |].
  - intros H0. unfold r. by rewrite decide_True.
  - intros H0. by rewrite decide_False.
  - intros H0. rewrite decide_True by done. split_and!.
    + lia.
    + intros Hge. rewrite wrap64_id; [lia|]. unfold in64, time_Minute in *. lia.
    + lia.
Qed.

(** A new cache is idle, empty and fully configured: [Apply] leaves no zero
    value for the handler, the logger or the metrics. *)
Theorem NewSynchronizedAccessCache_initial opts :
  let s := NewSynchronizedAccessCache opts in
  data (sac_cache s) = None ∧ idFunc (sac_cache s) = ns_Name ∧
  sac_requested s = false ∧ sac_synchronizing s = false ∧ sac_once s = false ∧
  (opt_SyncErrorHandler opts = None → sac_syncErrorHandler s = defaultSyncErrorHandler) ∧
  (∀ f, opt_SyncErrorHandler opts = Some f → sac_syncErrorHandler s = f) ∧
  (opt_Metrics opts = None → sac_metrics s = NoOpAccessCacheMetrics).
Proof. split_and!; try done; simpl; intros; by simplify_option_eq. Qed.

(** Requests coalesce.  After any sequence of requests exactly one is
    queued, only the first one of the sequence on an empty channel reports
    that it was queued, and nothing else of the cache changes. *)
Theorem requests_coalesce s e es :
  let '(s1, _, q) := Request s e in
  q = negb (sac_requested s) ∧
  s1 = set_requested true s ∧
  foldl (λ s e, (Request s e).1.1) s1 es = s1 ∧
  Forall (λ e, (Request s1 e).2 = false) es.
Proof.
  unfold Request, request.
  assert (∀ s, sac_requested s = true → foldl (λ s e,
    (let '(s0, queued) := if sac_requested s then (s, false) else (set_requested true s, true) in
     (s0, metrics_ops (sac_metrics s0) (CollectRequestMetrics e queued), queued)).1.1) s es = s)
    as Hfold.
  { intros s1 Hs1. induction es as [|e' es IH]; simpl; [done|]. rewrite Hs1. simpl. done. }
  destruct s as [ca rq sy on lg eh rs ti me]; simpl in *.
  destruct rq; simpl; (split_and!; [done|done|by apply Hfold|]);
    apply Forall_forall; done.
Qed.

(** ** Witnesses *)

Definition zero_opts : CacheSynchronizerOptions := mkOptions None 0 0 None None.

Lemma Apply_durations_witness :
  sac_synchTimeout (Apply zero_opts (NewSynchronizedAccessCache zero_opts)) =
  (9 * time_Minute)%Z.
Proof.
  destruct (Apply_durations zero_opts (NewSynchronizedAccessCache zero_opts))
    as (_ & _ & _ & H).
  - split; vm_compute; congruence.
  - destruct (H eq_refl) as (_ & H2 & _). rewrite H2; [reflexivity|]. vm_compute. congruence.
Defined.
