(* ===== verification/Samples.v ===== *)
(** * A small cluster, for the witnesses

    Two namespaces, one with labels and one without, three subjects, and a
    synchronization environment whose lister, context and locator are concrete
    functions. *)

From stdpp Require Import base gmap strings list.
From S2P Require Import Prelude GoStrings KubeTypes AtomicCache AccessMetrics AccessSync.

Definition alice : Subject := mkSubject UserKind rbac_GroupName "alice" "".
Definition authenticated : Subject :=
  mkSubject GroupKind rbac_GroupName "system:authenticated" "".
Definition robot : Subject := mkSubject ServiceAccountKind "" "robot" "ci".

Definition ns_team : Namespace := mkNamespace "team" (Some 0) (Some 1) None "" "".
Definition ns_bare : Namespace := mkNamespace "bare" None None None "" "".

Definition sample_heap : heap := [{["env" := "prod"]}; {["note" := "x"]}].

Definition sample_locator (a : AttributesRecord) : list Subject * option error :=
  if decide (attr_Name a = "team") then ([robot; alice; authenticated; alice], None)
  else ([alice], Some (ErrNew "clusterrole not found")).

Definition sample_env : SynchEnv :=
  {| env_List := λ h, (sample_heap, inr [ns_team; ns_bare]);
     env_ctxErr := λ _, None;
     env_AllowedSubjects := sample_locator |}.

(** The same cluster, with a context that expires before the second namespace. *)
Definition sample_env_timeout : SynchEnv :=
  {| env_List := λ h, (sample_heap, inr [ns_team; ns_bare]);
     env_ctxErr := λ i, if decide (i = 1) then Some ErrDeadlineExceeded else None;
     env_AllowedSubjects := sample_locator |}.

Definition sample_opts : CacheSynchronizerOptions :=
  {| opt_Logger := None; opt_ResyncPeriod := 0; opt_SynchTimeout := 0;
     opt_SyncErrorHandler := None; opt_Metrics := Some accessCacheMetrics |}.

Definition sample_cache : SynchronizedAccessCache := NewSynchronizedAccessCache sample_opts.

(** Instances for evaluation. *)
Definition sample_lower : UnicodeLower := λ s, s.
