(* ===== verification/AccessSpec.v ===== *)
(** * What a synchronization computes

    The abstract specification of [synch]: a pure function of the namespaces
    the lister returned, as values, and of the answers of the locator.  The
    refinement theorem relates the access data [synch] stores, a map of slices
    of namespaces whose labels and annotations live in the store of maps, to
    that function, and says what the synchronization does to the maps it
    shares with the resource cache. *)

From stdpp Require Import base gmap strings list.
From S2P Require Import Prelude GoStrings GoSlices KubeTypes AtomicCache Subjects AccessMetrics AccessSync Samples.

(** ** The specification *)
(** The group of all authenticated users. *)
Definition authenticated_group (s : Subject) : Prop :=
  APIGroup s = "rbac.authorization.k8s.io" ∧ Kind s = "Group" ∧ Name s = "system:authenticated".
#[export] Instance authenticated_group_dec s : Decision (authenticated_group s).
Proof. unfold authenticated_group. apply _. Defined.

Definition visibility_of (subs : list Subject) : string :=
  if decide (Exists authenticated_group subs) then "authenticated" else "private".

Lemma isSystemAuthenticatedGroup_spec s :
  isSystemAuthenticatedGroup s = true ↔ authenticated_group s.
Proof.
  unfold isSystemAuthenticatedGroup, authenticated_group.
  rewrite !andb_true_iff, !bool_decide_eq_true. unfold rbac_GroupName, GroupKind. tauto.
Qed.

Lemma ContainsFunc_authenticated subs :
  ContainsFunc subs isSystemAuthenticatedGroup = true ↔ Exists authenticated_group subs.
Proof.
  unfold ContainsFunc. rewrite existsb_elem_of, Exists_exists.
  by setoid_rewrite isSystemAuthenticatedGroup_spec.
Qed.

Section spec.
Context `{!UnicodeLower}.

(** The namespace as the cache shows it to [sub], when [subs] may get it.
    A namespace without labels gets no visibility label. *)
Definition with_visibility (v : NamespaceView) (subs : list Subject) : NamespaceView :=
  {| nv_Name := nv_Name v;
     nv_Labels := <[VirtualLabelKeyVisibility := visibility_of subs]> <$> nv_Labels v;
     nv_Annotations := nv_Annotations v;
     nv_ManagedFields := nv_ManagedFields v;
     nv_Spec := nv_Spec v;
     nv_Status := nv_Status v |}.

Definition access_annotations (aa : option gomap) (sub : Subject) : gomap :=
  let m := <[VirtualAnnotationKeySubjectName := Name sub]> (default ∅ aa) in
  if decide (Namespace_ sub ≠ "")
  then <[VirtualAnnotationKeySubjectNamespace := Namespace_ sub]> m else m.

Definition with_access (v : NamespaceView) (sub : Subject) : NamespaceView :=
  {| nv_Name := nv_Name v;
     nv_Labels := Some (<[VirtualLabelKeyAccess := ToLower (Kind sub)]>
                          (default ∅ (nv_Labels v)));
     nv_Annotations := Some (access_annotations (nv_Annotations v) sub);
     nv_ManagedFields := nv_ManagedFields v;
     nv_Spec := nv_Spec v;
     nv_Status := nv_Status v |}.

Definition access_view (v : NamespaceView) (subs : list Subject) (sub : Subject) :
    NamespaceView :=
  with_access (with_visibility v subs) sub.

(** The subjects the locator reports for getting a namespace, which is a
    resource of the core group named like the namespace it lives in. *)
Definition allowed (env : SynchEnv) (ns : Namespace) : list Subject :=
  (env_AllowedSubjects env
     {| attr_Verb := "get"; attr_Resource := "namespaces"; attr_APIGroup := "";
        attr_APIVersion := "v1"; attr_Name := ns_Name ns; attr_Namespace := ns_Name ns;
        attr_ResourceRequest := true |}).1.

(** The namespaces of [sub], in the order of the lister. *)
Definition access_spec (env : SynchEnv) (h : heap) (items : list Namespace) (sub : Subject) :
    list NamespaceView :=
  items ≫= λ ns, if decide (sub ∈ allowed env ns)
                 then [access_view (view h ns) (allowed env ns) sub] else [].
End spec.

(** ** The stores a synchronization goes through *)

(** [h] differs from [h0] at most in the visibility entry of the label maps
    [L]; locations past [h0] are free. *)
Definition same_but_visibility (L : list loc) (h0 h : heap) : Prop :=
  ∀ l m0, h0 !! l = Some m0 →
    ∃ m, h !! l = Some m ∧
         delete VirtualLabelKeyVisibility m = delete VirtualLabelKeyVisibility m0 ∧
         (l ∉ L → m = m0).

(** What the code relies on of the lister: the namespaces it returns have
    allocated maps, and no label map is an annotation map. *)
Definition items_ok (h : heap) (items : list Namespace) : Prop :=
  (∀ ns, ns ∈ items → ns_ok h ns) ∧
  (∀ ns ns' l, ns ∈ items → ns' ∈ items → ns_Labels ns = Some l → ns_Annotations ns' ≠ Some l).

Definition label_locs (items : list Namespace) : list loc := omap ns_Labels items.

Lemma elem_of_label_locs items l :
  l ∈ label_locs items ↔ ∃ ns, ns ∈ items ∧ ns_Labels ns = Some l.
Proof. apply list_elem_of_omap. Qed.

Lemma prefix_map_store h h' l k v :
  h `prefix_of` h' → length h ≤ l → h `prefix_of` map_store h' l k v.
Proof.
  intros [r ->] Hl. unfold map_store.
  exists (alter <[k:=v]> (l - length h) r).
  rewrite <-alter_app_r. f_equal. lia.
Qed.

Lemma map_or_new_spec h o h' l :
  map_or_new h o = (h', l) →
  h `prefix_of` h' ∧ (ref_ok h o → l < length h') ∧
  (ref_ok h o → h' !! l = Some (default ∅ (view_ref h o))) ∧
  (o = Some l ∨ o = None ∧ l = length h).
Proof.
  destruct o as [l'|]; simpl; intros [= <- <-]; split_and!.
  - done.
  - intros Hok. by apply Hok.
  - intros Hok. destruct (lookup_lt_is_Some_2 h l' (Hok _ eq_refl)) as [m Hm]. by rewrite Hm.
  - by left.
  - by exists [∅].
  - intros _. rewrite length_app. simpl. lia.
  - intros _. by rewrite lookup_app_r, Nat.sub_diag by lia.
  - by right.
Qed.

Lemma map_store_ok h l k v ns : ns_ok h ns → ns_ok (map_store h l k v) ns.
Proof. apply ns_ok_mono. by rewrite length_map_store. Qed.

Lemma same_but_visibility_refl L h : same_but_visibility L h h.
Proof. intros l m H. eauto. Qed.

Lemma same_but_visibility_prefix L h0 h h' :
  same_but_visibility L h0 h → h `prefix_of` h' → same_but_visibility L h0 h'.
Proof.
  intros Hs [r ->] l m0 H0. destruct (Hs l m0 H0) as (m & Hm & Hd & He).
  exists m. split_and!; [|done|done]. by apply lookup_app_l_Some.
Qed.

Lemma same_but_visibility_length L h0 h : same_but_visibility L h0 h → length h0 ≤ length h.
Proof.
  intros Hs. destruct (Nat.le_gt_cases (length h0) (length h)) as [|Hlt]; [done|].
  destruct (lookup_lt_is_Some_2 h0 (length h) Hlt) as [m0 H0].
  destruct (Hs _ _ H0) as (m & Hm & _). apply lookup_lt_Some in Hm. lia.
Qed.

(** ** Labelling one namespace for one subject *)
Section one.
Context `{!UnicodeLower, !DeepCopyNs, !DeepCopyLaws}.

(** The copy after its access label is written, before its annotations are. *)
Lemma label_copy_spec h ns h1 c h2 ll v :
  ns_ok h ns → deep_copy h ns = (h1, c) → map_or_new h1 (ns_Labels c) = (h2, ll) →
  let h3 := map_store h2 ll VirtualLabelKeyAccess v in
  h `prefix_of` h3 ∧ length h ≤ ll ∧
  h3 !! ll = Some (<[VirtualLabelKeyAccess := v]> (default ∅ (view_ref h (ns_Labels ns)))) ∧
  ref_ok h3 (ns_Annotations c) ∧
  (∀ a, ns_Annotations c = Some a → length h ≤ a ∧ ll ≠ a) ∧
  view_ref h3 (ns_Annotations c) = view_ref h (ns_Annotations ns).
Proof.
  intros Hok Hdc E2 h3. subst h3.
  pose proof (dc_prefix h ns) as Hp. pose proof (dc_view h ns Hok) as Hv.
  pose proof (dc_fresh h ns) as [Hfl Hfa]. pose proof (dc_ok h ns Hok) as [Hokl Hoka].
  pose proof (dc_sep h ns) as Hsep. rewrite Hdc in *. simpl in *.
  apply map_or_new_spec in E2 as (Hp2 & Hlt2 & Hll & Hc2).
  specialize (Hlt2 Hokl). specialize (Hll Hokl).
  injection Hv as Hn Hvl Hva Hm Hs Ht. rewrite Hvl in Hll.
  assert (length h ≤ ll) as Hfll.
  { destruct Hc2 as [Hc|[_ ->]]; [by apply Hfl|]. by apply prefix_length. }
  assert (∀ a, ns_Annotations c = Some a → ll ≠ a) as Hne.
  { intros a Ha. destruct Hc2 as [Hc'|[_ ->]]; intros <-; [by eapply Hsep|].
    specialize (Hoka _ Ha). lia. }
  split_and!.
  - apply prefix_map_store; [by trans h1|done].
  - done.
  - by apply lookup_map_store_eq.
  - eapply ref_ok_mono, Hoka. rewrite length_map_store. by apply prefix_length.
  - intros a Ha. split; [by apply Hfa|by apply Hne].
  - rewrite <-Hva. destruct (ns_Annotations c) as [a|] eqn:Ea; [|done]. simpl.
    rewrite lookup_map_store_ne by (by apply Hne).
    destruct Hp2 as [r ->]. by rewrite lookup_app_l by (by apply Hoka).
Qed.

(** The copy is fresh and denotes [with_access];
    nothing that existed before changes. *)
Lemma withVirtual_spec h ns sub h' lns :
  ns_ok h ns →
  withVirtualLabelsAndAnnotationsForAccess h ns sub = (h', lns) →
  h `prefix_of` h' ∧ ns_ok h' lns ∧ ns_fresh (length h) lns ∧
  view h' lns = with_access (view h ns) sub.
Proof.
  intros Hok. unfold withVirtualLabelsAndAnnotationsForAccess.
  pose proof (dc_view h ns Hok) as Hv.
  destruct (deep_copy h ns) as [h1 c] eqn:Hdc. injection Hv as Hn _ _ Hm Hs Ht. simpl in *.
  destruct (map_or_new h1 (ns_Labels c)) as [h2 ll] eqn:E2.
  destruct (label_copy_spec h ns h1 c h2 ll (ToLower (Kind sub)) Hok Hdc E2)
    as (Hp3 & Hfll & Hll3 & Hoka & Hca & Hann).
  set (h3 := map_store h2 ll _ _) in *.
  destruct (map_or_new h3 (ns_Annotations c)) as [h4 aa] eqn:E4.
  apply map_or_new_spec in E4 as (Hp4 & Hlt4 & Haa & Hc4).
  specialize (Hlt4 Hoka). specialize (Haa Hoka). rewrite Hann in Haa.
  intros [= <- <-]. apply lookup_lt_Some in Hll3 as Hll3lt.
  assert (length h ≤ aa ∧ ll ≠ aa) as [Hfaa Hne].
  { destruct Hc4 as [Hc|[_ ->]]; [by apply Hca|]. pose proof (prefix_length _ _ Hp3). lia. }
  assert (h4 !! ll = h3 !! ll) as Hll4 by (destruct Hp4 as [r ->]; by apply lookup_app_l).
  rewrite Hll3 in Hll4.
  assert (h `prefix_of` h4) as Hp04 by (by trans h3).
  split_and!.
  - case_decide; repeat apply prefix_map_store; done.
  - split; intros l [= <-]; case_decide; rewrite !length_map_store; try done;
      apply lookup_lt_Some in Hll4; done.
  - split; intros l [= <-]; done.
  - unfold view, with_access; simpl. rewrite Hn, Hm, Hs, Ht. f_equal.
    + case_decide; rewrite !lookup_map_store_ne by done; done.
    + unfold access_annotations. case_decide.
      * erewrite lookup_map_store_eq; [done|]. by apply lookup_map_store_eq.
      * by apply lookup_map_store_eq.
Qed.
End one.

(** ** The loops *)
Section loops.
Context `{!UnicodeLower, !DeepCopyNs, !DeepCopyLaws}.
Context (env : SynchEnv) (h0 : heap) (items : list Namespace).
Hypothesis Hitems : items_ok h0 items.

(** The data built so far: fresh, allocated copies; no empty slice. *)
Definition data_ok (h : heap) (c : AccessData) : Prop :=
  (∀ sub lns, lns ∈ elems (lookup_slice c sub) →
              ns_ok h lns ∧ ns_fresh (length h0) lns) ∧
  (∀ sub sl, c !! sub = Some sl → elems sl ≠ []).

(** What the data shows to [sub]. *)
Definition views (h : heap) (c : AccessData) (sub : Subject) : list NamespaceView :=
  view h <$> elems (lookup_slice c sub).

Lemma data_ok_empty h : data_ok h ∅.
Proof.
  split; unfold lookup_slice.
  - intros sub lns. rewrite lookup_empty. by intros ?%not_elem_of_nil.
  - intros sub sl. by rewrite lookup_empty.
Qed.

Lemma views_stable h h' c sub :
  (∀ lns, ns_ok h lns → ns_fresh (length h0) lns → view h' lns = view h lns) →
  data_ok h c → views h' c sub = views h c sub.
Proof.
  intros Hv [Hc _]. unfold views. apply list_fmap_ext.
  intros i lns Hi. apply Hv; apply (Hc sub); by eapply list_elem_of_lookup_2.
Qed.

Lemma data_ok_stable h h' c : length h ≤ length h' → data_ok h c → data_ok h' c.
Proof. intros Hl [Hc Hn]. split; [|done]. intros sub lns [? ?]%Hc. eauto with golib. Qed.

Lemma lookup_slice_append (c : AccessData) sub lns sub' :
  elems (lookup_slice (<[sub := go_append (lookup_slice c sub) lns]> c) sub') =
  elems (lookup_slice c sub') ++ if decide (sub = sub') then [lns] else [].
Proof.
  unfold lookup_slice. rewrite lookup_insert. case_decide as Heq; subst; simpl; [done|].
  by rewrite app_nil_r.
Qed.

Lemma store_subjects_spec h ns ss c h' c' :
  length h0 ≤ length h → ns_ok h ns → NoDup ss → data_ok h c →
  store_subjects h ns ss c = (h', c') →
  h `prefix_of` h' ∧ data_ok h' c' ∧
  ∀ sub, views h' c' sub =
         views h c sub ++ if decide (sub ∈ ss) then [with_access (view h ns) sub] else [].
Proof.
  revert h c. induction ss as [|s ss IH]; intros h c Hlen Hok Hnd Hc; simpl.
  { intros [= <- <-]. split_and!; [done|done|]. intros sub. by rewrite app_nil_r. }
  destruct (withVirtualLabelsAndAnnotationsForAccess h ns s) as [h1 lns] eqn:Ew.
  apply withVirtual_spec in Ew as (Hp & Hlok & Hfr & Hv); [|done].
  pose proof (prefix_length _ _ Hp) as Hle.
  apply NoDup_cons in Hnd as [Hs Hnd]. intros Hst.
  apply IH in Hst as (Hp' & Hc' & Hviews); [|lia|eauto with golib|done|].
  - split_and!; [by trans h1|done|].
    intros sub. rewrite Hviews. unfold views. rewrite lookup_slice_append, fmap_app.
    fold (views h1 c sub). rewrite (views_stable h h1); [|eauto using view_prefix|done].
    rewrite (view_prefix h h1 ns Hp Hok), <-app_assoc. f_equal.
    destruct (decide (s = sub)) as [->|Hne]; simpl.
    + rewrite decide_False by done. by rewrite decide_True by (by left); rewrite Hv.
    + by destruct (decide (sub ∈ ss)); destruct (decide (sub ∈ s :: ss)); set_solver.
  - split.
    + intros sub x. rewrite lookup_slice_append, elem_of_app. intros [Hx|Hx].
      * destruct (proj1 Hc sub x Hx). eauto with golib.
      * case_decide; [|by apply not_elem_of_nil in Hx].
        apply list_elem_of_singleton in Hx as ->. split; [done|].
        destruct Hfr as [Hfl Hfa]. split; intros l Hl; [apply Hfl in Hl|apply Hfa in Hl]; lia.
    + intros sub sl. rewrite lookup_insert. case_decide; [|apply (proj2 Hc)].
      intros [= <-]. unfold go_append. simpl. intros ?%app_nil. naive_solver.
Qed.

(** The map the visibility label is written to: a label map of the lister,
    or one nobody else holds. *)
Lemma setVisibility_eq h ns subs :
  ∃ h1 ll, map_or_new h (ns_Labels ns) = (h1, ll) ∧
    setVisibilityVirtualLabel h ns subs =
    map_store h1 ll VirtualLabelKeyVisibility (visibility_of subs).
Proof.
  unfold setVisibilityVirtualLabel, visibility_of.
  destruct (map_or_new h (ns_Labels ns)) as [h1 ll]. exists h1, ll. split; [done|].
  pose proof (ContainsFunc_authenticated subs).
  destruct (ContainsFunc subs _); case_decide; naive_solver.
Qed.

(** A store through a label map of the lister, or through a new map, keeps
    the invariant and every fresh copy. *)
Lemma setVisibility_frame h ns subs :
  ns ∈ items → same_but_visibility (label_locs items) h0 h →
  let h' := setVisibilityVirtualLabel h ns subs in
  length h ≤ length h' ∧ same_but_visibility (label_locs items) h0 h' ∧
  ∀ lns, ns_ok h lns → ns_fresh (length h0) lns → view h' lns = view h lns.
Proof.
  intros Hin Hs. pose proof (same_but_visibility_length _ _ _ Hs) as Hlen.
  destruct (setVisibility_eq h ns subs) as (h1 & ll & E & ->); simpl.
  apply map_or_new_spec in E as (Hp & _ & _ & Hll).
  pose proof (prefix_length _ _ Hp) as Hle.
  split_and!.
  - by rewrite length_map_store.
  - intros l m0 Hl0.
    destruct (same_but_visibility_prefix _ _ _ _ Hs Hp l m0 Hl0) as (m & Hm & Hd & He).
    destruct (decide (ll = l)) as [->|Hne]; [|rewrite lookup_map_store_ne by done; eauto].
    exists (<[VirtualLabelKeyVisibility:=visibility_of subs]> m).
    rewrite (lookup_map_store_eq _ _ _ _ _ Hm), delete_insert_eq. split_and!; [done|done|].
    intros Hnot. destruct Hll as [Hll|[_ ->]].
    + destruct Hnot. apply elem_of_label_locs. eauto.
    + apply lookup_lt_Some in Hl0. lia.
  - intros lns Hok [Hfl Hfa]. rewrite <-(view_prefix h h1 lns Hp Hok).
    assert (∀ l, length h0 ≤ l → l < length h → ll ≠ l) as Hne.
    { intros l Hge Hlt ->. destruct Hll as [Hll|[_ ->]]; [|lia].
      apply (proj1 Hitems) in Hin as [Hokl _]. apply Hokl in Hll. lia. }
    destruct Hok as [Hokl Hoka]. unfold view. f_equal.
    + destruct (ns_Labels lns) as [l|]; simpl; [|done].
      by rewrite lookup_map_store_ne by (apply Hne; auto).
    + destruct (ns_Annotations lns) as [l|]; simpl; [|done].
      by rewrite lookup_map_store_ne by (apply Hne; auto).
Qed.

(** The namespace at hand then shows the label, on top of its original
    value: writes of earlier iterations to a shared map are covered. *)
Lemma setVisibility_view h ns subs :
  ns ∈ items → same_but_visibility (label_locs items) h0 h →
  view (setVisibilityVirtualLabel h ns subs) ns = with_visibility (view h0 ns) subs.
Proof.
  intros Hin Hs. pose proof (same_but_visibility_length _ _ _ Hs) as Hlen.
  destruct (setVisibility_eq h ns subs) as (h1 & ll & E & ->).
  apply map_or_new_spec in E as (Hp & _ & _ & Hll).
  pose proof (same_but_visibility_prefix _ _ _ _ Hs Hp) as Hs1.
  pose proof (proj1 Hitems _ Hin) as [Hokl Hoka].
  unfold view, with_visibility; simpl. f_equal.
  - destruct (ns_Labels ns) as [l|] eqn:El; simpl; [|done].
    destruct Hll as [[= <-]|[? _]]; [|done].
    destruct (lookup_lt_is_Some_2 h0 l (Hokl l eq_refl)) as [m0 Hm0].
    destruct (Hs1 l m0 Hm0) as (m & Hm & Hd & _).
    rewrite (lookup_map_store_eq _ _ _ _ _ Hm), Hm0. simpl.
    by rewrite <-(insert_delete_eq m), Hd, insert_delete_eq.
  - destruct (ns_Annotations ns) as [a|] eqn:Ea; simpl; [|done].
    destruct (lookup_lt_is_Some_2 h0 a (Hoka a eq_refl)) as [m0 Hm0].
    destruct (Hs1 a m0 Hm0) as (m & Hm & _ & He).
    assert (a ∉ label_locs items) as Hnot.
    { intros (ns' & Hin' & Hl')%elem_of_label_locs. by eapply (proj2 Hitems ns' ns). }
    rewrite He in Hm by done. rewrite Hm0.
    rewrite lookup_map_store_ne; [done|]. intros ->.
    destruct Hll as [Hll|[_ Hll]].
    + apply Hnot, elem_of_label_locs. eauto.
    + apply lookup_lt_Some in Hm0. lia.
Qed.

Lemma with_access_dedup v ss sub :
  with_access (with_visibility v (removeDuplicateSubjects ss)) sub = access_view v ss sub.
Proof.
  unfold access_view, with_visibility, visibility_of. do 3 f_equal. f_equal. apply decide_ext.
  by rewrite <-!ContainsFunc_authenticated; unfold ContainsFunc; rewrite removeDuplicateSubjects_existsb.
Qed.

(** The body of the loop, for one namespace. *)
Lemma synch_body_spec h c ns h' c' :
  ns ∈ items → same_but_visibility (label_locs items) h0 h → data_ok h c →
  store_subjects (setVisibilityVirtualLabel h ns (removeDuplicateSubjects (allowed env ns)))
                 ns (removeDuplicateSubjects (allowed env ns)) c = (h', c') →
  same_but_visibility (label_locs items) h0 h' ∧ data_ok h' c' ∧
  ∀ sub, views h' c' sub = views h c sub ++ access_spec env h0 [ns] sub.
Proof.
  intros Hin Hs Hc Hst.
  destruct (setVisibility_frame h ns (removeDuplicateSubjects (allowed env ns)) Hin Hs)
    as (Hle & Hs1 & Hv1).
  pose proof (same_but_visibility_length _ _ _ Hs1) as Hl1.
  apply store_subjects_spec in Hst as (Hp & Hc' & Hviews); [|done| | |].
  - split_and!; [by eapply same_but_visibility_prefix|done|].
    intros sub. rewrite Hviews, (views_stable h); [|done|done]. f_equal.
    unfold access_spec; simpl. rewrite app_nil_r, setVisibility_view by done.
    rewrite with_access_dedup.
    by destruct (decide (sub ∈ removeDuplicateSubjects _)) as [Hd|Hd];
      rewrite removeDuplicateSubjects_elem_of in Hd; case_decide.
  - eapply ns_ok_mono, (proj1 Hitems); done.
  - apply removeDuplicateSubjects_NoDup.
  - by apply (data_ok_stable h).
Qed.

Lemma synch_loop_spec i its h c h' r :
  its ⊆ items → same_but_visibility (label_locs items) h0 h → data_ok h c →
  synch_loop env i its h c = (h', r) →
  same_but_visibility (label_locs items) h0 h' ∧
  match r with
  | inr c' => data_ok h' c' ∧ (∀ j, j < length its → env_ctxErr env (i + j) = None) ∧
              ∀ sub, views h' c' sub = views h c sub ++ access_spec env h0 its sub
  | inl e => ∃ j, j < length its ∧ env_ctxErr env (i + j) = Some e
  end.
Proof.
  revert i h c. induction its as [|ns its IH]; intros i h c Hsub Hs Hc; simpl.
  { intros [= <- <-]. split_and!; [done|done|lia|]. intros. by rewrite app_nil_r. }
  destruct (env_ctxErr env i) as [e|] eqn:Ee.
  { intros [= <- <-]. split; [done|]. exists 0. rewrite Nat.add_0_r. auto with lia. }
  unfold synch_iteration. fold (allowed env ns).
  destruct (env_AllowedSubjects env (namespace_attributes ns)) as [ss er] eqn:Ea.
  assert (ss = allowed env ns) as ->
    by (unfold allowed; change (mkAttributes _ _ _ _ _ _ _) with (namespace_attributes ns); by rewrite Ea).
  destruct (store_subjects _ ns _ c) as [h1 c1] eqn:Est. intros Hl.
  apply synch_body_spec in Est as (Hs1 & Hc1 & Hv1); [|set_solver|done|done].
  apply IH in Hl as [Hs2 Hr]; [|set_solver|done|done]. split; [done|].
  destruct r as [e|c'].
  - destruct Hr as (j & Hj & He). exists (S j). rewrite Nat.add_succ_r. auto with lia.
  - destruct Hr as (Hc2 & Hctx & Hv). split_and!; [done| |].
    + intros [|j] Hj; [by rewrite Nat.add_0_r|]. rewrite Nat.add_succ_r. apply Hctx. lia.
    + intros sub. rewrite Hv, Hv1, <-app_assoc. f_equal.
      unfold access_spec; simpl. by rewrite app_nil_r.
Qed.
End loops.

(** ** [synch] and [Synch] *)
Section operations.
Context `{!UnicodeLower, !DeepCopyNs}.
Context (env : SynchEnv).

(** The loop stops at the first context error it observes, and only there. *)
Lemma synch_loop_inl i its h c h' e :
  synch_loop env i its h c = (h', inl e) →
  ∃ j, j < length its ∧ env_ctxErr env (i + j) = Some e ∧
       ∀ k, k < j → env_ctxErr env (i + k) = None.
Proof.
  revert i h c. induction its as [|ns its IH]; intros i h c; simpl; [done|].
  destruct (env_ctxErr env i) as [e'|] eqn:Ee.
  { intros [= _ ->]. exists 0. rewrite Nat.add_0_r. split_and!; [lia|done|lia]. }
  destruct (synch_iteration _ _ _ _) as [h1 c1]. intros (j & Hj & He & Hb)%IH.
  exists (S j). rewrite Nat.add_succ_r. split_and!; [lia|done|].
  intros [|k] Hk; [by rewrite Nat.add_0_r|]. rewrite Nat.add_succ_r. apply Hb. lia.
Qed.

Lemma synch_error_inv h s h' s' d e :
  synch env h s = (h', s', d, Some e) →
  s' = s ∧
  ((env_List env h = (h', inl e) ∧ d = None) ∨
   (∃ h0 items j, env_List env h = (h0, inr items) ∧ d = Some ∅ ∧
      j < length items ∧ env_ctxErr env j = Some e ∧
      ∀ k, k < j → env_ctxErr env k = None)).
Proof.
  unfold synch. destruct (env_List env h) as [h0 [e'|items]] eqn:El.
  { intros [= <- <- <- <-]. auto. }
  destruct (synch_loop env 0 items h0 ∅) as [h1 [e'|c]] eqn:Eloop; intros [= <- <- <- <-].
  apply synch_loop_inl in Eloop as (j & Hj & He & Hb). split; [done|right]. eauto 10.
Qed.

Lemma synch_success_inv h s h' s' d :
  synch env h s = (h', s', d, None) →
  ∃ c, d = Some c ∧ s' = set_cache (Restock (sac_cache s) (Some c)) s.
Proof. unfold synch. intros. repeat case_match; simplify_eq/=. eauto. Qed.

Context `{!MapRange Subject (slice Namespace), !MapRange string Z}.

(** The effect of [Synch] on the cache object, on every path. *)
Lemma Synch_frame_lemma dur h s h' s' ops err :
  Synch env dur h s = (h', s', ops, err) →
  (sac_synchronizing s = true →
     h' = h ∧ s' = s ∧ ops = [] ∧ err = Some ErrSynchAlreadyRunning) ∧
  (sac_synchronizing s = false →
     match err with
     | Some _ => s' = s
     | None => ∃ c, s' = set_cache (Restock (sac_cache s) (Some c)) s
     end).
Proof.
  unfold Synch. destruct s as [ca rq sy on lg eh rs ti me]; simpl.
  destruct sy; [intros [= <- <- <- <-]; naive_solver|].
  destruct (synch env h _) as [[[h1 s1] cd] er] eqn:Es.
  intros [= <- <- <- <-]. split; [done|]. intros _.
  destruct er as [e|].
  - apply synch_error_inv in Es as [-> _]. done.
  - apply synch_success_inv in Es as (c & _ & ->). eauto.
Qed.

Context `{!DeepCopyLaws}.

Lemma synch_success h s h0 items :
  env_List env h = (h0, inr items) → items_ok h0 items →
  (∀ j, j < length items → env_ctxErr env j = None) →
  ∃ h' c, synch env h s = (h', set_cache (Restock (sac_cache s) (Some c)) s, Some c, None) ∧
    same_but_visibility (label_locs items) h0 h' ∧ data_ok h0 h' c ∧
    ∀ sub, views h' c sub = access_spec env h0 items sub.
Proof.
  intros Hl Hok Hctx. unfold synch. rewrite Hl.
  destruct (synch_loop env 0 items h0 ∅) as [h1 r] eqn:Eloop.
  apply (synch_loop_spec env h0 items Hok) in Eloop as [Hs Hr];
    [|done|apply same_but_visibility_refl|apply data_ok_empty].
  destruct r as [e|c].
  - destruct Hr as (j & Hj & He). rewrite Hctx in He by done. done.
  - destruct Hr as (Hc & _ & Hv). exists h1, c. split_and!; [done|done|done|].
    intros sub. by rewrite Hv.
Qed.
End operations.

(** ** Labels and annotations of a view *)
Section views.
Context `{!UnicodeLower}.

Lemma access_spec_elem_of env h items sub v :
  v ∈ access_spec env h items sub ↔
  ∃ ns, ns ∈ items ∧ sub ∈ allowed env ns ∧ v = access_view (view h ns) (allowed env ns) sub.
Proof.
  unfold access_spec. rewrite list_elem_of_bind. split.
  - intros (ns & Hv & Hin). case_decide; set_solver.
  - intros (ns & Hin & Hsub & ->). exists ns. by rewrite decide_True; [set_solver|].
Qed.

(** The labels [access_view] shows, key by key. *)
Lemma access_view_labels v subs sub :
  ∃ m, nv_Labels (access_view v subs sub) = Some m ∧
    m !! VirtualLabelKeyAccess = Some (ToLower (Kind sub)) ∧
    m !! VirtualLabelKeyVisibility = (λ _, visibility_of subs) <$> nv_Labels v ∧
    ∀ k, k ≠ VirtualLabelKeyAccess → k ≠ VirtualLabelKeyVisibility →
         m !! k = nv_Labels v ≫= λ m0, m0 !! k.
Proof.
  unfold access_view, with_access, with_visibility; simpl. eexists; split; [done|].
  split_and!.
  - apply lookup_insert_eq.
  - rewrite lookup_insert_ne by done. destruct (nv_Labels v); simpl; [|done].
    apply lookup_insert_eq.
  - intros k Hk1 Hk2. rewrite lookup_insert_ne by done.
    destruct (nv_Labels v); simpl; [|done]. by rewrite lookup_insert_ne.
Qed.

Lemma access_view_annotations v subs sub :
  ∃ a, nv_Annotations (access_view v subs sub) = Some a ∧
    a !! VirtualAnnotationKeySubjectName = Some (Name sub) ∧
    (Namespace_ sub ≠ "" → a !! VirtualAnnotationKeySubjectNamespace = Some (Namespace_ sub)) ∧
    ∀ k, k ≠ VirtualAnnotationKeySubjectName →
         (k ≠ VirtualAnnotationKeySubjectNamespace ∨ Namespace_ sub = "") →
         a !! k = nv_Annotations v ≫= λ a0, a0 !! k.
Proof.
  unfold access_view, with_access, with_visibility, access_annotations; simpl.
  eexists; split; [done|].
  assert (∀ k, default ∅ (nv_Annotations v) !! k = nv_Annotations v ≫= λ a0, a0 !! k) as Hd.
  { intros k. by destruct (nv_Annotations v). }
  split_and!.
  - case_decide; [rewrite lookup_insert_ne by done|]; apply lookup_insert_eq.
  - intros Hne. rewrite decide_True by done. apply lookup_insert_eq.
  - intros k Hk Hor. case_decide; [destruct Hor; [|done]; rewrite lookup_insert_ne by done|];
      by rewrite lookup_insert_ne, Hd.
Qed.
End views.

(** The lister of the sample cluster is well behaved. *)
Lemma sample_items_ok : items_ok sample_heap [ns_team; ns_bare].
Proof.
  split.
  - intros ns [->|[->|[]%elem_of_nil]%elem_of_cons]%elem_of_cons;
      split; intros l Hl; vm_compute in Hl |- *; simplify_eq; lia.
  - intros ns ns' l [->|[->|[]%elem_of_nil]%elem_of_cons]%elem_of_cons
      [->|[->|[]%elem_of_nil]%elem_of_cons]%elem_of_cons; simpl; naive_solver.
Qed.

(** ** Properties *)

Section properties.
Context `{!UnicodeLower, !DeepCopyNs}.

(** C11: when [synch] fails, the cache object is unchanged: the data of the
    last successful synchronization stays in place.  The error is the
    lister's (and the returned data is nil), or the first one the context
    reports before some namespace (and the returned data is empty). *)
Theorem synch_error_keeps_cache env h s h' s' d e :
  synch env h s = (h', s', d, Some e) →
  s' = s ∧
  ((env_List env h = (h', inl e) ∧ d = None) ∨
   (∃ h0 items j, env_List env h = (h0, inr items) ∧ d = Some ∅ ∧
      j < length items ∧ env_ctxErr env j = Some e ∧
      ∀ k, k < j → env_ctxErr env k = None)).
Proof. apply synch_error_inv. Qed.

(** C30: [Synch] run alone gives its guard back on every path, leaves the
    request channel and the configuration alone, and replaces the cached
    data exactly when it returns no error; when a synchronization is already
    running it does nothing and says so. *)
Theorem Synch_frame `{!MapRange Subject (slice Namespace), !MapRange string Z}
    env dur h s h' s' ops err :
  Synch env dur h s = (h', s', ops, err) →
  sac_synchronizing s' = sac_synchronizing s ∧
  (sac_synchronizing s = true →
     h' = h ∧ s' = s ∧ ops = [] ∧ err = Some ErrSynchAlreadyRunning) ∧
  (sac_synchronizing s = false →
     match err with
     | Some _ => s' = s
     | None => ∃ c, s' = set_cache (Restock (sac_cache s) (Some c)) s
     end).
Proof.
  intros [Ht Hf]%Synch_frame_lemma. split; [|done].
  destruct (sac_synchronizing s) eqn:E.
  - destruct Ht as (_ & -> & _); done.
  - specialize (Hf eq_refl). destruct err; [by subst|]. by destruct Hf as [c ->].
Qed.

(** C34: the scheduler hands an error to the handler only when [Synch] was
    refused.  A synchronization that ran and failed, because of the lister
    or of the timeout, is not reported to the handler at all; so with the
    default handler the scheduler never logs at error level. *)
Theorem scheduler_reports_only_refusals
    `{!MapRange Subject (slice Namespace), !MapRange string Z} env dur h s h' s' ops e :
  Synch env dur h (set_requested false s) = (h', s', ops, Some e) →
  (errors_Is e SentinelSynchAlreadyRunning = false →
     scheduledSynch env dur h s = (h', s', ops, None)) ∧
  (sac_synchronizing s = true →
     scheduledSynch env dur h s =
       (h', s', ops, Some (sac_syncErrorHandler s ErrSynchAlreadyRunning)) ∧
     log_level (defaultSyncErrorHandler ErrSynchAlreadyRunning) = LevelDebug).
Proof.
  intros Hs. unfold scheduledSynch. rewrite Hs. split.
  - intros He. simpl. by rewrite He.
  - intros Hr. apply Synch_frame_lemma in Hs as [Ht _].
    destruct Ht as (-> & -> & -> & [= ->]); [done|]. done.
Qed.

Context `{!DeepCopyLaws}.

(** C3: [synch] refines its specification.  When the lister answers and the
    context stays valid, [synch] returns without error, replaces the cached
    data, and shows each subject exactly the namespaces the locator allows
    it, in the order of the lister, labelled and annotated for that subject;
    a subject without namespaces has no entry.  Errors of the locator are
    ignored. *)
Theorem synch_refines env h s h0 items :
  env_List env h = (h0, inr items) → items_ok h0 items →
  (∀ j, j < length items → env_ctxErr env j = None) →
  ∃ h' c, synch env h s = (h', set_cache (Restock (sac_cache s) (Some c)) s, Some c, None) ∧
    (∀ sub, views h' c sub = access_spec env h0 items sub) ∧
    (∀ sub, sub ∈ dom c ↔ ∃ ns, ns ∈ items ∧ sub ∈ allowed env ns).
Proof.
  intros Hl Hok Hctx.
  destruct (synch_success env h s h0 items Hl Hok Hctx) as (h' & c & Hs & _ & [_ Hne] & Hv).
  exists h', c. split_and!; [done|done|]. intros sub. specialize (Hv sub).
  rewrite elem_of_dom. transitivity (access_spec env h0 items sub ≠ []).
  - rewrite <-Hv. unfold views, lookup_slice.
    destruct (c !! sub) as [sl|] eqn:E; simpl; [|split; [by intros []|done]].
    split; [|done]. intros _ Hnil%fmap_nil_inv. by eapply Hne.
  - unfold access_spec. clear -items. induction items as [|ns its IH]; simpl.
    + split; [done|]. by intros (? & ?%not_elem_of_nil & _).
    + case_decide; simpl; [set_solver|]. rewrite IH. set_solver.
Qed.

(** C23: a synchronization is isolated from the store it reads.  It changes
    the maps that existed before in no way but one: the visibility entry of
    label maps of the listed namespaces.  No map of a cached namespace was
    reachable before, so later changes by the lister do not reach the
    cached data. *)
Theorem synch_isolation env h s h0 items :
  env_List env h = (h0, inr items) → items_ok h0 items →
  (∀ j, j < length items → env_ctxErr env j = None) →
  ∃ h' c, synch env h s = (h', set_cache (Restock (sac_cache s) (Some c)) s, Some c, None) ∧
    same_but_visibility (label_locs items) h0 h' ∧
    (∀ sub lns, lns ∈ elems (lookup_slice c sub) → ns_ok h' lns ∧ ns_fresh (length h0) lns).
Proof.
  intros Hl Hok Hctx.
  destruct (synch_success env h s h0 items Hl Hok Hctx) as (h' & c & Hs & Hsb & [Hc _] & _).
  eauto.
Qed.

(** C22: what a subject reads about a namespace.  The access label is the
    lowercase kind of the subject; the visibility label is "authenticated"
    exactly when the namespace is shared with the system:authenticated
    group, and is absent when the namespace has a nil label map; the subject
    annotations name the subject; every other label and annotation is the
    namespace's own. *)
Theorem synch_labels env h s h0 items :
  env_List env h = (h0, inr items) → items_ok h0 items →
  (∀ j, j < length items → env_ctxErr env j = None) →
  ∃ h' c, synch env h s = (h', set_cache (Restock (sac_cache s) (Some c)) s, Some c, None) ∧
  ∀ sub v, v ∈ views h' c sub → ∃ ns m a,
    ns ∈ items ∧ sub ∈ allowed env ns ∧ nv_Name v = ns_Name ns ∧
    nv_Labels v = Some m ∧ nv_Annotations v = Some a ∧
    m !! VirtualLabelKeyAccess = Some (ToLower (Kind sub)) ∧
    m !! VirtualLabelKeyVisibility =
      (λ _, if decide (Exists authenticated_group (allowed env ns)) then "authenticated" else "private") <$> view_ref h0 (ns_Labels ns) ∧
    a !! VirtualAnnotationKeySubjectName = Some (Name sub) ∧
    (Namespace_ sub ≠ "" → a !! VirtualAnnotationKeySubjectNamespace = Some (Namespace_ sub)) ∧
    (∀ k, k ≠ VirtualLabelKeyAccess → k ≠ VirtualLabelKeyVisibility →
          m !! k = view_ref h0 (ns_Labels ns) ≫= λ m0, m0 !! k) ∧
    (∀ k, k ≠ VirtualAnnotationKeySubjectName →
          (k ≠ VirtualAnnotationKeySubjectNamespace ∨ Namespace_ sub = "") →
          a !! k = view_ref h0 (ns_Annotations ns) ≫= λ a0, a0 !! k).
Proof.
  intros Hl Hok Hctx.
  destruct (synch_success env h s h0 items Hl Hok Hctx) as (h' & c & Hs & _ & _ & Hv).
  exists h', c. split; [done|]. intros sub v. rewrite Hv, access_spec_elem_of.
  intros (ns & Hin & Hsub & ->).
  destruct (access_view_labels (view h0 ns) (allowed env ns) sub) as (m & Hm & Hma & Hmv & Hmk).
  destruct (access_view_annotations (view h0 ns) (allowed env ns) sub)
    as (a & Ha & Han & Hans & Hak).
  exists ns, m, a. split_and!; done.
Qed.
End properties.

(** ** Witnesses *)

Lemma synch_refines_witness :
  ∃ h' c, @synch sample_lower simple_deep_copy sample_env [] sample_cache =
          (h', set_cache (Restock (sac_cache sample_cache) (Some c)) sample_cache, Some c, None) ∧
    (∀ sub, views h' c sub =
            @access_spec sample_lower sample_env sample_heap [ns_team; ns_bare] sub) ∧
    (∀ sub, sub ∈ dom c ↔
            ∃ ns, ns ∈ [ns_team; ns_bare] ∧ sub ∈ allowed sample_env ns).
Proof.
  apply (@synch_refines sample_lower simple_deep_copy simple_deep_copy_laws);
    [reflexivity|apply sample_items_ok|intros; reflexivity].
Defined.

Definition sample_timeout_run :=
  @synch sample_lower simple_deep_copy sample_env_timeout [] sample_cache.

Lemma synch_error_keeps_cache_witness : sample_timeout_run.1.1.2 = sample_cache.
Proof.
  refine (proj1 (@synch_error_keeps_cache sample_lower simple_deep_copy sample_env_timeout []
    sample_cache sample_timeout_run.1.1.1 sample_timeout_run.1.1.2 sample_timeout_run.1.2
    ErrDeadlineExceeded _)).
  apply (quad_eta sample_timeout_run). vm_compute. reflexivity.
Defined.

Definition sample_Synch_run :=
  @Synch sample_lower simple_deep_copy sample_env (sorted_range _ _) (sorted_range _ _)
    7 [] sample_cache.

Lemma Synch_frame_witness : sac_synchronizing sample_Synch_run.1.1.2 = false.
Proof.
  refine (proj1 (@Synch_frame sample_lower simple_deep_copy (sorted_range _ _) (sorted_range _ _)
    sample_env 7%Z [] sample_cache sample_Synch_run.1.1.1 sample_Synch_run.1.1.2
    sample_Synch_run.1.2 None _)).
  apply (quad_eta sample_Synch_run). vm_compute. reflexivity.
Defined.

Definition sample_scheduled_run :=
  @Synch sample_lower simple_deep_copy sample_env_timeout (sorted_range _ _) (sorted_range _ _)
    7 [] (set_requested false sample_cache).

Lemma scheduler_reports_only_refusals_witness :
  (@scheduledSynch sample_lower simple_deep_copy (sorted_range _ _) (sorted_range _ _)
     sample_env_timeout 7 [] sample_cache).2 = None.
Proof.
  destruct (@scheduler_reports_only_refusals sample_lower simple_deep_copy
    (sorted_range _ _) (sorted_range _ _) sample_env_timeout 7%Z [] sample_cache
    sample_scheduled_run.1.1.1 sample_scheduled_run.1.1.2 sample_scheduled_run.1.2
    ErrDeadlineExceeded) as [H _].
  - apply (quad_eta sample_scheduled_run). vm_compute. reflexivity.
  - rewrite H; [reflexivity|reflexivity].
Defined.

Lemma synch_isolation_witness :
  ∃ h' c, @synch sample_lower simple_deep_copy sample_env [] sample_cache =
          (h', set_cache (Restock (sac_cache sample_cache) (Some c)) sample_cache, Some c, None) ∧
    same_but_visibility (label_locs [ns_team; ns_bare]) sample_heap h' ∧
    (∀ sub lns, lns ∈ elems (lookup_slice c sub) →
                ns_ok h' lns ∧ ns_fresh (length sample_heap) lns).
Proof.
  apply (@synch_isolation sample_lower simple_deep_copy simple_deep_copy_laws);
    [reflexivity|apply sample_items_ok|intros; reflexivity].
Defined.

Lemma synch_labels_witness :
  ∃ h' c, @synch sample_lower simple_deep_copy sample_env [] sample_cache =
          (h', set_cache (Restock (sac_cache sample_cache) (Some c)) sample_cache, Some c, None).
Proof.
  destruct (@synch_labels sample_lower simple_deep_copy simple_deep_copy_laws sample_env []
    sample_cache sample_heap [ns_team; ns_bare] eq_refl sample_items_ok (λ _ _, eq_refl))
    as (h' & c & H & _).
  exists h', c. exact H.
Defined.
