(* ===== verification/NamespaceLister.v ===== *)
(** * Listing the namespaces of a user (namespacelister_subject.go)

    The user's name and groups become subjects, which are looked up in the
    access cache.  The lister only needs the [List] method of the cache: the
    class [SubjectNamespacesLister] is that interface, the access cache
    implements it. *)

From Stdlib Require Import Ascii.
From stdpp Require Import base gmap strings list.
From S2P Require Import Prelude GoStrings GoSlices KubeTypes AtomicCache Subjects AccessMetrics AccessSync AccessSpec Samples.

(** ** The interface of the lister *)
Class SubjectNamespacesLister (T : Type) :=
  sn_List : T → list Subject → GoRes (slice Namespace).

#[export] Instance AccessCache_lister `{!MapRange string Namespace} :
  SubjectNamespacesLister AccessCache := List.
(** The method is promoted from the embedded field. *)
#[export] Instance SAC_lister `{!MapRange string Namespace} :
  SubjectNamespacesLister SynchronizedAccessCache := λ s, List (sac_cache s).

Record NamespaceList := mkNamespaceList {
  nl_Kind : string;
  nl_APIVersion : string;
  nl_Items : slice Namespace;
}.

(** ** The operations *)
Definition serviceAccountPrefix : string := "system:serviceaccount:".

Definition parseUsername (username : string) : GoRes Subject :=
  if HasPrefix username serviceAccountPrefix then
    let ss := Split ":"%char username in
    let! name := go_index ss 3 in
    let! namespace := go_index ss 2 in
    Ret {| Kind := ServiceAccountKind; APIGroup := ""; Name := name; Namespace_ := namespace |}
  else
    Ret {| Kind := UserKind; APIGroup := rbac_GroupName; Name := username; Namespace_ := "" |}.

Definition groupSubject (g : string) : Subject :=
  {| Kind := GroupKind; APIGroup := rbac_GroupName; Name := g; Namespace_ := "" |}.

Definition subjects (username : string) (groups : list string) : GoRes (list Subject) :=
  let! u := parseUsername username in
  Ret (u :: map groupSubject groups).

Section lister.
Context {T : Type} `{!SubjectNamespacesLister T}.

Definition ListNamespaces (l : T) (username : string) (groups : list string) :
    GoRes (NamespaceList * option error) :=
  let! subs := subjects username groups in
  let! nn := sn_List l subs in
  Ret ({| nl_Kind := "NamespaceList"; nl_APIVersion := "v1"; nl_Items := nn |}, None).
End lister.

(** ** The identities of the acceptance tests
    (acceptance/pkg/context/user_info.go) *)
Record UserInfo := mkUserInfo {
  ui_Token : string;
  ui_Namespace : string;
  ui_Name : string;
  ui_APIGroup : string;
  ui_Kind : string;
  ui_Groups : list string;
}.

Definition UserInfoFromServiceAccount (sa_Namespace sa_Name token : string) : UserInfo :=
  {| ui_Namespace := sa_Namespace; ui_Name := sa_Name; ui_Kind := "ServiceAccount";
     ui_APIGroup := ""; ui_Token := token; ui_Groups := [] |}.

Definition UserInfoFromUsername (username : string) : UserInfo :=
  {| ui_Namespace := ""; ui_Name := username; ui_Kind := "User";
     ui_APIGroup := rbac_GroupName; ui_Token := ""; ui_Groups := [] |}.

Definition AsSubject (u : UserInfo) : Subject :=
  {| Namespace_ := ui_Namespace u; Name := ui_Name u; APIGroup := ui_APIGroup u;
     Kind := ui_Kind u |}.

Definition FullName (u : UserInfo) : string :=
  if decide (ui_Kind u = "ServiceAccount")
  then "system:serviceaccount:" +:+ ui_Namespace u +:+ ":" +:+ ui_Name u
  else ui_Name u.

(** ** Lemmas on user names *)

Lemma Split_prefix r :
  Split ":"%char (serviceAccountPrefix +:+ r) =
  "system" :: "serviceaccount" :: Split ":"%char r.
Proof. done. Qed.

Lemma parseUsername_prefix r :
  parseUsername (serviceAccountPrefix +:+ r) =
  match Split ":"%char r with
  | namespace :: name :: _ =>
      Ret {| Kind := ServiceAccountKind; APIGroup := ""; Name := name; Namespace_ := namespace |}
  | _ => Panic "index out of range"
  end.
Proof.
  unfold parseUsername. rewrite HasPrefix_app, Split_prefix. unfold go_index.
  by destruct (Split ":"%char r) as [|? [|]].
Qed.

Lemma parseUsername_user u :
  HasPrefix u serviceAccountPrefix = false →
  parseUsername u =
    Ret {| Kind := UserKind; APIGroup := rbac_GroupName; Name := u; Namespace_ := "" |}.
Proof. intros H. unfold parseUsername. by rewrite H. Qed.

Lemma Split_singleton sep r x : Split sep r = [x] ↔ r = x ∧ no_sep sep r = true.
Proof.
  split.
  - intros H. pose proof (Split_parts sep r) as Hp. rewrite H in Hp.
    rewrite <-(Join_Split sep r), H. simpl. inversion Hp; auto.
  - intros [-> H]. by apply Split_no_sep.
Qed.

(** *** Who a user is

    The specification of [subjects]: a name of the form of a service account's
    is that service account, any other name is a user; each group is a
    group. *)
Definition names_subject (username : string) (u : Subject) : Prop :=
  (∃ ns n, username = "system:serviceaccount:" +:+ (ns +:+ String ":"%char n) ∧
           no_sep ":"%char ns = true ∧ no_sep ":"%char n = true ∧
           u = mkSubject "ServiceAccount" "" n ns) ∨
  (HasPrefix username "system:serviceaccount:" = false ∧
   u = mkSubject "User" "rbac.authorization.k8s.io" username "").
Definition user_subjects (u : Subject) (groups : list string) : list Subject :=
  u :: ((λ g, mkSubject "Group" "rbac.authorization.k8s.io" g "") <$> groups).

Lemma parseUsername_names username u : names_subject username u → parseUsername username = Ret u.
Proof.
  intros [(ns & n & -> & Hns & Hn & ->)|[Hp ->]]; [|by apply parseUsername_user].
  change "system:serviceaccount:" with serviceAccountPrefix.
  by rewrite parseUsername_prefix, Split_app_sep, Split_no_sep.
Qed.

Lemma subjects_spec username groups u :
  names_subject username u → subjects username groups = Ret (user_subjects u groups).
Proof. intros Hu. unfold subjects. by rewrite (parseUsername_names username u). Qed.

(** ** What a user sees *)
Section seen.
Context `{!UnicodeLower}.
Context (env : SynchEnv) (h0 : heap) (items : list Namespace).

(** The first of the user's subjects the locator allows on [ns]. *)
Fixpoint first_allowed (subs : list Subject) (ns : Namespace) : option Subject :=
  match subs with
  | [] => None
  | s :: subs' => if decide (s ∈ allowed env ns) then Some s else first_allowed subs' ns
  end.

Lemma first_allowed_None subs ns :
  first_allowed subs ns = None ↔ ∀ s, s ∈ subs → s ∉ allowed env ns.
Proof.
  induction subs as [|s subs IH]; simpl; [set_solver|].
  case_decide; [set_solver|]. rewrite IH. set_solver.
Qed.

Lemma first_allowed_is_Some subs ns :
  is_Some (first_allowed subs ns) ↔ ∃ s, s ∈ subs ∧ s ∈ allowed env ns.
Proof.
  induction subs as [|s subs IH]; simpl; [split; [by intros []|set_solver]|].
  case_decide; [split; [set_solver|eauto]|]. rewrite IH. set_solver.
Qed.

(** [v] is the view of a namespace outside [seen] through the first allowed
    subject. *)
Definition shown (seen : gset string) (subs : list Subject) (v : NamespaceView) : Prop :=
  ∃ ns s, ns ∈ items ∧ ns_Name ns ∉ seen ∧ first_allowed subs ns = Some s ∧
          v = access_view (view h0 ns) (allowed env ns) s.

Lemma access_spec_names sub :
  nv_Name <$> access_spec env h0 items sub =
  ns_Name <$> filter (λ ns, sub ∈ allowed env ns) items.
Proof.
  unfold access_spec. induction items as [|ns its IH]; csimpl; [done|].
  rewrite fmap_app, IH, filter_cons. by case_decide.
Qed.

Hypothesis Hnames : NoDup (ns_Name <$> items).

Lemma access_spec_NoDup sub : NoDup (nv_Name <$> access_spec env h0 items sub).
Proof.
  rewrite access_spec_names. eapply sublist_NoDup; [apply Hnames|].
  apply fmap_sublist, sublist_filter.
Qed.

(** The deduplicated concatenation shows exactly these views. *)
Lemma dedup_access_spec seen subs v :
  v ∈ dedup_from nv_Name seen (subs ≫= access_spec env h0 items) ↔ shown seen subs v.
Proof.
  revert seen. induction subs as [|s subs IH]; intros seen; csimpl.
  { split; [by intros ?%not_elem_of_nil|]. by intros (? & ? & _ & _ & ? & _). }
  rewrite dedup_from_app, elem_of_app, IH.
  rewrite dedup_from_elem_of_NoDup by apply access_spec_NoDup.
  rewrite access_spec_elem_of, access_spec_names. split.
  - intros [[(ns & Hin & Hs & ->) Hseen]|(ns & s' & Hin & Hseen & Hf & ->)].
    + exists ns, s. simpl. by rewrite decide_True.
    + exists ns, s'. simpl. rewrite not_elem_of_union, elem_of_list_to_set in Hseen.
      destruct Hseen as [Hs Hseen]. rewrite decide_False; [done|].
      intros Ha. apply Hs, list_elem_of_fmap. exists ns. by rewrite list_elem_of_filter.
  - intros (ns & s' & Hin & Hseen & Hf & ->). simpl in Hf. case_decide as Ha.
    + left. simplify_eq. eauto 10.
    + right. exists ns, s'. split_and!; [done| |done|done].
      rewrite not_elem_of_union, elem_of_list_to_set. split; [|done].
      intros (ns' & Heq & [Ha' Hin']%list_elem_of_filter)%list_elem_of_fmap.
      by rewrite (NoDup_fmap_elem_of_eq ns_Name items ns ns') in Ha.
Qed.

Lemma dedup_access_spec_NoDup seen subs :
  NoDup (nv_Name <$> dedup_from nv_Name seen (subs ≫= access_spec env h0 items)).
Proof. apply dedup_from_NoDup. Qed.
End seen.

(** ** Reading the cache after a synchronization *)
Section read.
Context `{!UnicodeLower, !MapRange string Namespace, !MapRangeLaws string Namespace}.

(** The cache holds the data of a synchronization of [env]. *)
Definition synched (env : SynchEnv) (h0 : heap) (items : list Namespace)
    (h : heap) (s : SynchronizedAccessCache) : Prop :=
  idFunc (sac_cache s) = ns_Name ∧
  ∃ c, data (sac_cache s) = Some c ∧
       ∀ sub, views h c sub = access_spec env h0 items sub.

Lemma synched_synch `{!DeepCopyNs, !DeepCopyLaws} env h s h0 items :
  idFunc (sac_cache s) = ns_Name →
  env_List env h = (h0, inr items) → items_ok h0 items →
  (∀ j, j < length items → env_ctxErr env j = None) →
  ∃ h' s' c, synch env h s = (h', s', Some c, None) ∧ synched env h0 items h' s'.
Proof.
  intros Hid Hl Hok Hctx.
  destruct (synch_success env h s h0 items Hl Hok Hctx) as (h' & c & Hs & _ & _ & Hv).
  exists h', (set_cache (Restock (sac_cache s) (Some c)) s), c.
  split; [done|]. split; [done|]. exists c. done.
Qed.

Lemma List_views env h0 items h s subs :
  NoDup (ns_Name <$> items) → synched env h0 items h s →
  ∃ r, List (sac_cache s) subs = Ret r ∧
       view h <$> elems r ≡ₚ dedup_from nv_Name ∅ (subs ≫= access_spec env h0 items).
Proof.
  intros Hnd (Hid & c & Hd & Hv).
  destruct (List_lemma (sac_cache s) c subs Hd) as (r & Hr & Hp & _).
  exists r. split; [done|]. rewrite Hp.
  assert (view h <$> stored c subs = subs ≫= access_spec env h0 items) as Hst.
  { unfold stored. clear -Hv. induction subs as [|s' subs IH]; csimpl; [done|].
    rewrite fmap_app, IH. f_equal. apply Hv. }
  assert (ns_Name = nv_Name ∘ view h) as Hcomp by done.
  destruct subs as [|k [|k' ks]]; [done| |].
  - csimpl. rewrite app_nil_r, (dedup_from_NoDup_id nv_Name ∅);
      [by rewrite <-Hv|by apply access_spec_NoDup|set_solver].
  - rewrite Hid, Hcomp. unfold dedup_first. by rewrite dedup_from_fmap, Hst.
Qed.

(** Listing on a synchronized cache, by names. *)
Lemma ListNamespaces_synched env h0 items h s username groups u :
  NoDup (ns_Name <$> items) → synched env h0 items h s → names_subject username u →
  ∃ nl, ListNamespaces s username groups = Ret (nl, None) ∧
    ∀ name, name ∈ ns_Name <$> elems (nl_Items nl) ↔
            ∃ ns sub, ns ∈ items ∧ ns_Name ns = name ∧ sub ∈ user_subjects u groups ∧
                      sub ∈ allowed env ns.
Proof.
  intros Hnd Hsy Hsubs%(subjects_spec _ groups). set (subs := user_subjects u groups) in *.
  destruct (List_views env h0 items h s subs Hnd Hsy) as (nn & Hnn & Hp).
  eexists. split.
  { unfold ListNamespaces. rewrite Hsubs. simpl. unfold sn_List, SAC_lister. by rewrite Hnn. }
  intros name. simpl. change (ns_Name <$> elems nn) with ((nv_Name ∘ view h) <$> elems nn).
  rewrite list_fmap_compose, Hp, list_elem_of_fmap.
  setoid_rewrite dedup_access_spec; [|done]. split.
  - intros (v & -> & ns & sub & Hin & _ & Hf & ->).
    destruct (proj1 (first_allowed_is_Some env subs ns)) as (sub' & ? & ?); [by rewrite Hf|].
    exists ns, sub'. done.
  - intros (ns & sub & Hin & <- & Hsub & Ha).
    destruct (proj2 (first_allowed_is_Some env subs ns)) as [s1 Hs1]; [eauto|].
    exists (access_view (view h0 ns) (allowed env ns) s1). split; [done|].
    exists ns, s1. split_and!; [done|set_solver|done|done].
Qed.
End read.

(** ** Properties *)

Section properties.
Context `{!UnicodeLower, !DeepCopyNs, !DeepCopyLaws}.
Context `{!MapRange string Namespace, !MapRangeLaws string Namespace}.

Lemma ListNamespaces_after_synch_lemma env h s h0 items username groups u :
  idFunc (sac_cache s) = ns_Name →
  env_List env h = (h0, inr items) → items_ok h0 items → NoDup (ns_Name <$> items) →
  (∀ j, j < length items → env_ctxErr env j = None) →
  names_subject username u →
  ∃ h' s' c nn, synch env h s = (h', s', Some c, None) ∧
    ListNamespaces s' username groups =
      Ret ({| nl_Kind := "NamespaceList"; nl_APIVersion := "v1"; nl_Items := nn |}, None) ∧
    NoDup (ns_Name <$> elems nn) ∧
    ∀ v, v ∈ view h' <$> elems nn ↔
         ∃ ns sub, ns ∈ items ∧
                   first_allowed env (user_subjects u groups) ns = Some sub ∧
                   v = access_view (view h0 ns) (allowed env ns) sub.
Proof.
  intros Hid Hl Hok Hnd Hctx Hsubs.
  destruct (synched_synch env h s h0 items Hid Hl Hok Hctx) as (h' & s' & c & Hs & Hsy).
  apply (subjects_spec _ groups) in Hsubs. set (subs := user_subjects u groups) in *.
  destruct (List_views env h0 items h' s' subs Hnd Hsy) as (nn & Hnn & Hp).
  exists h', s', c, nn. split_and!; [done| | |].
  - unfold ListNamespaces. rewrite Hsubs. simpl. unfold sn_List, SAC_lister. by rewrite Hnn.
  - change (NoDup ((nv_Name ∘ view h') <$> elems nn)).
    rewrite list_fmap_compose, Hp. apply dedup_access_spec_NoDup.
  - intros v. rewrite Hp, dedup_access_spec by done. unfold shown. set_solver.
Qed.

(** C4: end to end, after a synchronization that the lister and the context
    let complete, listing on behalf of a user returns one entry per
    namespace on which the locator allows the user or one of the groups, and
    nothing else.  The entry is the namespace as labelled for the first such
    subject, the user coming before the groups. *)
Theorem ListNamespaces_after_synch env h s h0 items username groups u :
  idFunc (sac_cache s) = ns_Name →
  env_List env h = (h0, inr items) → items_ok h0 items → NoDup (ns_Name <$> items) →
  (∀ j, j < length items → env_ctxErr env j = None) →
  names_subject username u →
  ∃ h' s' c nn, synch env h s = (h', s', Some c, None) ∧
    ListNamespaces s' username groups =
      Ret ({| nl_Kind := "NamespaceList"; nl_APIVersion := "v1"; nl_Items := nn |}, None) ∧
    NoDup (ns_Name <$> elems nn) ∧
    ∀ v, v ∈ view h' <$> elems nn ↔
         ∃ ns sub, ns ∈ items ∧
                   first_allowed env (user_subjects u groups) ns = Some sub ∧
                   v = access_view (view h0 ns) (allowed env ns) sub.
Proof. apply ListNamespaces_after_synch_lemma. Qed.

(** The listing neither misses nor leaks a namespace: a name is returned
    exactly when some listed namespace of that name allows the user or one
    of the user's groups. *)
Theorem ListNamespaces_sound_complete env h s h0 items username groups u :
  idFunc (sac_cache s) = ns_Name →
  env_List env h = (h0, inr items) → items_ok h0 items → NoDup (ns_Name <$> items) →
  (∀ j, j < length items → env_ctxErr env j = None) →
  names_subject username u →
  ∃ h' s' c nl, synch env h s = (h', s', Some c, None) ∧
    ListNamespaces s' username groups = Ret (nl, None) ∧
    ∀ name, name ∈ ns_Name <$> elems (nl_Items nl) ↔
            ∃ ns sub, ns ∈ items ∧ ns_Name ns = name ∧ sub ∈ user_subjects u groups ∧
                      sub ∈ allowed env ns.
Proof.
  intros Hid Hl Hok Hnd Hctx Hsubs.
  destruct (synched_synch env h s h0 items Hid Hl Hok Hctx) as (h' & s' & c & Hs & Hsy).
  destruct (ListNamespaces_synched env h0 items h' s' username groups u Hnd Hsy Hsubs)
    as (nl & Hnl & Hnames).
  by exists h', s', c, nl.
Qed.
End properties.

Lemma parseUsername_sa sa_ns sa_name token :
  no_sep ":"%char sa_ns = true → no_sep ":"%char sa_name = true →
  let u := UserInfoFromServiceAccount sa_ns sa_name token in
  parseUsername (FullName u) = Ret (AsSubject u).
Proof.
  intros Hns Hn. unfold FullName, AsSubject; simpl.
  change (parseUsername (serviceAccountPrefix +:+ (sa_ns +:+ String ":" sa_name)) =
          Ret (mkSubject "ServiceAccount" "" sa_name sa_ns)).
  by rewrite parseUsername_prefix, Split_app_sep, Split_no_sep.
Qed.

(** C27: a service account's user name parses back to its subject: the identity
    the acceptance tests log in with ([FullName]) and the subject they bind
    ([AsSubject]) agree through [parseUsername], for namespaces and names
    without colon (Kubernetes names have none); any other user name is taken
    as it is. *)
Theorem parseUsername_FullName sa_ns sa_name token username :
  no_sep ":"%char sa_ns = true → no_sep ":"%char sa_name = true →
  HasPrefix username serviceAccountPrefix = false →
  (let u := UserInfoFromServiceAccount sa_ns sa_name token in
   parseUsername (FullName u) = Ret (AsSubject u)) ∧
  (let u := UserInfoFromUsername username in
   parseUsername (FullName u) = Ret (AsSubject u)).
Proof.
  intros Hns Hn Hu. split; [by apply parseUsername_sa|by apply parseUsername_user].
Qed.

(** C28: [parseUsername] panics exactly on the user names that have the service
    account prefix and no colon after it. *)
Theorem parseUsername_panics username :
  returns (parseUsername username) = false ↔
  ∃ r, username = serviceAccountPrefix +:+ r ∧ no_sep ":"%char r = true.
Proof.
  split.
  - intros H. destruct (HasPrefix username serviceAccountPrefix) eqn:E.
    + apply HasPrefix_inv in E as [r ->]. exists r. split; [done|].
      rewrite parseUsername_prefix in H. pose proof (Split_not_nil ":"%char r).
      destruct (Split ":"%char r) as [|x [|]] eqn:Es; [done| |done].
      by apply Split_singleton in Es as [_ Hns].
    + by rewrite parseUsername_user in H.
  - intros (r & -> & Hr). by rewrite parseUsername_prefix, Split_no_sep.
Qed.

(** ** Witnesses *)

Lemma ListNamespaces_after_synch_witness :
  ∃ h' s' c nn, @synch sample_lower simple_deep_copy sample_env [] sample_cache =
                (h', s', Some c, None) ∧
    @ListNamespaces _ (@SAC_lister (sorted_range _ _)) s' "alice" ["devs"] =
      Ret ({| nl_Kind := "NamespaceList"; nl_APIVersion := "v1"; nl_Items := nn |}, None) ∧
    NoDup (ns_Name <$> elems nn) ∧
    ∀ v, v ∈ view h' <$> elems nn ↔
         ∃ ns sub, ns ∈ [ns_team; ns_bare] ∧
                   first_allowed sample_env (user_subjects alice ["devs"]) ns = Some sub ∧
                   v = @access_view sample_lower (view sample_heap ns)
                         (allowed sample_env ns) sub.
Proof.
  apply (@ListNamespaces_after_synch sample_lower simple_deep_copy simple_deep_copy_laws
           (sorted_range _ _) (sorted_range_laws _ _));
    [reflexivity|reflexivity|apply sample_items_ok| |intros; reflexivity|right; split; reflexivity].
  apply (bool_decide_unpack _). vm_compute. exact I.
Defined.

Lemma ListNamespaces_sound_complete_witness :
  ∃ h' s' c nl, @synch sample_lower simple_deep_copy sample_env [] sample_cache =
                (h', s', Some c, None) ∧
    @ListNamespaces _ (@SAC_lister (sorted_range _ _)) s' "alice" ["devs"] = Ret (nl, None) ∧
    ∀ name, name ∈ ns_Name <$> elems (nl_Items nl) ↔
            ∃ ns sub, ns ∈ [ns_team; ns_bare] ∧ ns_Name ns = name ∧
                      sub ∈ user_subjects alice ["devs"] ∧ sub ∈ allowed sample_env ns.
Proof.
  eapply (@ListNamespaces_sound_complete sample_lower simple_deep_copy simple_deep_copy_laws
           (sorted_range _ _) (sorted_range_laws _ _));
    [reflexivity|reflexivity|apply sample_items_ok| |intros; reflexivity|right; split; reflexivity].
  apply (bool_decide_unpack _). vm_compute. exact I.
Defined.

Lemma parseUsername_FullName_witness :
  parseUsername (FullName (UserInfoFromServiceAccount "acceptance-tests" "user-1" "t")) =
  Ret (AsSubject (UserInfoFromServiceAccount "acceptance-tests" "user-1" "t")).
Proof.
  exact (proj1 (parseUsername_FullName "acceptance-tests" "user-1" "t" "bob"
                  eq_refl eq_refl eq_refl)).
Defined.
