(* ===== verification/SyncMachine.v ===== *)
(** * The goroutines around the access cache

    [SynchronizedAccessCache.Start] runs a ticker and a scheduler goroutine;
    informers call the event handlers; [buildAndStartSynchronizedAccessCache]
    (access_cache_startup.go) calls [Start] and then [Synch] itself.  This file
    interleaves them: a step relation on the cache object, the store of maps
    and the program points of the two callers of [Synch], with the atomic
    operations of the code (compare-and-swap, channel send and receive, pointer
    store), the listing and each iteration of the loop over the namespaces as
    steps, so that the resources can change between two iterations.

    The resource cache has a version, incremented by each change; [env_of v]
    is what the lister and the locator answer at version [v].  The version at
    which the cached data was listed and the flag that some synchronization
    was refused or failed are ghost state. *)

From stdpp Require Import base gmap strings list relations.
From S2P Require Import Prelude GoStrings KubeTypes AtomicCache Subjects AccessMetrics AccessSync AccessSpec Samples.

(** ** Program points of a caller of [Synch] *)
Inductive pc :=
| PIdle                                       (* not calling *)
| PCas                                        (* at CompareAndSwap(false, true) *)
| PList                                       (* at namespaceLister.List *)
| PLoop (v : nat) (items : list Namespace) (c : AccessData)
                                              (* listed at version v; items are left to do *)
| PRestock (v : nat) (c : AccessData)         (* at s.Restock(&c) *)
| PRelease (err : option error)               (* at the deferred Store(false) *)
| PDone (err : option error)                  (* Synch returned err *)
| PStopped.                                   (* goroutine terminated *)

(** Inside the section guarded by [synchronizing]. *)
Definition critical (p : pc) : bool :=
  match p with
  | PList | PLoop _ _ _ | PRestock _ _ | PRelease _ => true
  | PIdle | PCas | PDone _ | PStopped => false
  end.

Record machine := mkMachine {
  m_heap : heap;
  m_sac : SynchronizedAccessCache;
  m_main : pc;               (* buildAndStartSynchronizedAccessCache *)
  m_sched : option pc;       (* the scheduler goroutine, once started *)
  m_cancelled : bool;        (* ctx.Done() is closed *)
  m_ver : nat;               (* version of the resource cache *)
  m_notif : nat;             (* handler calls the informers still have to make *)
  m_dver : option nat;       (* ghost: version at which the cached data was listed *)
  m_lost : bool;             (* ghost: a Synch was refused or failed *)
}.

(** [sync.Once] fires. *)
Definition set_once (s : SynchronizedAccessCache) : SynchronizedAccessCache :=
  {| sac_cache := sac_cache s; sac_requested := sac_requested s;
     sac_synchronizing := sac_synchronizing s; sac_once := true;
     sac_logger := sac_logger s; sac_syncErrorHandler := sac_syncErrorHandler s;
     sac_resyncPeriod := sac_resyncPeriod s; sac_synchTimeout := sac_synchTimeout s;
     sac_metrics := sac_metrics s |}.

Section machine.
Context `{!UnicodeLower, !DeepCopyNs}.
Context (env_of : nat → SynchEnv).

(** What one step of [Synch] does to the shared state: store, cache object,
    ghost version and ghost flag. *)
Record shared := mkShared {
  sh_heap : heap;
  sh_sac : SynchronizedAccessCache;
  sh_dver : option nat;
  sh_lost : bool;
}.

(** One atomic step of a caller of [Synch], at version [ver]. *)
Inductive pc_step (ver : nat) : shared → pc → shared → pc → Prop :=
| step_cas_win h s d l :
    sac_synchronizing s = false →
    pc_step ver (mkShared h s d l) PCas (mkShared h (set_synchronizing true s) d l) PList
| step_cas_lose h s d l :
    sac_synchronizing s = true →
    pc_step ver (mkShared h s d l) PCas
                (mkShared h s d true) (PDone (Some ErrSynchAlreadyRunning))
| step_list h s d l h' items :
    env_List (env_of ver) h = (h', inr items) →
    pc_step ver (mkShared h s d l) PList (mkShared h' s d l) (PLoop ver items ∅)
| step_list_error h s d l e h' :
    (* the lister's own error, or one of its context *)
    env_List (env_of ver) h = (h', inl e) ∨ h' = h →
    pc_step ver (mkShared h s d l) PList (mkShared h' s d true) (PRelease (Some e))
| step_iteration h s d l v ns items c h' c' :
    (* ctx.Err() is nil; the locator answers from the resources as they are now *)
    synch_iteration (env_of ver) ns h c = (h', c') →
    pc_step ver (mkShared h s d l) (PLoop v (ns :: items) c) (mkShared h' s d l) (PLoop v items c')
| step_interrupt h s d l v ns items c e :
    (* ctx.Err() is not nil *)
    pc_step ver (mkShared h s d l) (PLoop v (ns :: items) c)
                (mkShared h s d true) (PRelease (Some e))
| step_loop_end h s d l v c :
    pc_step ver (mkShared h s d l) (PLoop v [] c) (mkShared h s d l) (PRestock v c)
| step_restock h s d l v c :
    pc_step ver (mkShared h s d l) (PRestock v c)
                (mkShared h (set_cache (Restock (sac_cache s) (Some c)) s) (Some v) l)
                (PRelease None)
| step_release h s d l err :
    pc_step ver (mkShared h s d l) (PRelease err)
                (mkShared h (set_synchronizing false s) d l) (PDone err).

Definition shared_of (m : machine) : shared :=
  mkShared (m_heap m) (m_sac m) (m_dver m) (m_lost m).
Definition with_shared (m : machine) (x : shared) (main : pc) (sched : option pc) : machine :=
  {| m_heap := sh_heap x; m_sac := sh_sac x; m_main := main; m_sched := sched;
     m_cancelled := m_cancelled m; m_ver := m_ver m; m_notif := m_notif m;
     m_dver := sh_dver x; m_lost := sh_lost x |}.
(** The cache object changes, nothing else. *)
Definition with_sac (m : machine) (s : SynchronizedAccessCache) (notif : nat)
    (sched : option pc) : machine :=
  {| m_heap := m_heap m; m_sac := s; m_main := m_main m; m_sched := sched;
     m_cancelled := m_cancelled m; m_ver := m_ver m; m_notif := notif;
     m_dver := m_dver m; m_lost := m_lost m |}.

Inductive step : machine → machine → Prop :=
(* a cached resource changes; its informer will call the handler *)
| step_update m :
    step m {| m_heap := m_heap m; m_sac := m_sac m; m_main := m_main m;
              m_sched := m_sched m; m_cancelled := m_cancelled m;
              m_ver := S (m_ver m); m_notif := S (m_notif m);
              m_dver := m_dver m; m_lost := m_lost m |}
(* an informer calls the handler *)
| step_notify m n e :
    m_notif m = S n →
    step m (with_sac m (EventHandlerFuncs (m_sac m) e).1.1 n (m_sched m))
(* the resync period elapses *)
| step_tick m p :
    m_sched m = Some p →
    step m (with_sac m (Request (m_sac m) timeTriggeredEvent).1.1 (m_notif m) (m_sched m))
(* the context is cancelled *)
| step_cancel m :
    step m {| m_heap := m_heap m; m_sac := m_sac m; m_main := m_main m;
              m_sched := m_sched m; m_cancelled := true;
              m_ver := m_ver m; m_notif := m_notif m;
              m_dver := m_dver m; m_lost := m_lost m |}
(* synchCache.Start(ctx); the main goroutine goes on to synchCache.Synch(ctx) *)
| step_start m :
    m_main m = PIdle → sac_once (m_sac m) = false →
    step m (with_shared m (mkShared (m_heap m) (set_once (m_sac m)) (m_dver m) (m_lost m))
                        PCas (Some PIdle))
(* the scheduler: case <-s.requested *)
| step_receive m :
    m_sched m = Some PIdle → sac_requested (m_sac m) = true →
    step m (with_sac m (set_requested false (m_sac m)) (m_notif m) (Some PCas))
(* the scheduler: case <-ctx.Done() *)
| step_stop m :
    m_sched m = Some PIdle → m_cancelled m = true →
    step m (with_sac m (m_sac m) (m_notif m) (Some PStopped))
(* the scheduler: Synch returned, the error handler ran, loop *)
| step_again m err :
    m_sched m = Some (PDone err) →
    step m (with_sac m (m_sac m) (m_notif m) (Some PIdle))
(* the main goroutine is inside Synch *)
| step_main m x p :
    pc_step (m_ver m) (shared_of m) (m_main m) x p →
    step m (with_shared m x p (m_sched m))
(* the scheduler is inside Synch *)
| step_sched m x p p' :
    m_sched m = Some p →
    pc_step (m_ver m) (shared_of m) p x p' →
    step m (with_shared m x (m_main m) (Some p')).

(** Before [Start]: a new cache; the informers have [n] handler calls to make
    for the objects they already hold. *)
Definition initial (opts : CacheSynchronizerOptions) (h : heap) (n : nat) : machine :=
  {| m_heap := h; m_sac := NewSynchronizedAccessCache opts; m_main := PIdle;
     m_sched := None; m_cancelled := false; m_ver := 0; m_notif := n;
     m_dver := None; m_lost := false |}.

Definition reachable (m : machine) : Prop :=
  ∃ opts h n, rtc step (initial opts h n) m.

Lemma reachable_ind (P : machine → Prop) :
  (∀ opts h n, P (initial opts h n)) →
  (∀ m m', reachable m → P m → step m m' → P m') →
  ∀ m, reachable m → P m.
Proof.
  intros Hinit Hs m (opts & h & n & Hr).
  revert m Hr. apply rtc_ind_r; [apply Hinit|].
  intros m m' Hr Hst IH. apply (Hs m); [by exists opts, h, n|done|done].
Qed.

(** ** Invariants *)

Definition sched_pc (m : machine) : pc := default PIdle (m_sched m).

(** The guard is held exactly while one caller is inside the section. *)
Definition guard_inv (m : machine) : Prop :=
  sac_synchronizing (m_sac m) = critical (m_main m) || critical (sched_pc m) ∧
  critical (m_main m) && critical (sched_pc m) = false ∧
  (m_main m = PIdle → m_sched m = None).

Lemma pc_step_idle ver x p x' p' : pc_step ver x p x' p' → p ≠ PIdle ∧ p' ≠ PIdle.
Proof. by destruct 1. Qed.

Lemma pc_step_guard ver x p x' p' :
  pc_step ver x p x' p' →
  (critical p = true ∧ sac_synchronizing (sh_sac x') =
                       if critical p' then sac_synchronizing (sh_sac x) else false) ∨
  (critical p = false ∧ sac_synchronizing (sh_sac x') = sac_synchronizing (sh_sac x) ∧
   critical p' = false) ∨
  (critical p = false ∧ critical p' = true ∧ sac_synchronizing (sh_sac x) = false ∧
   sac_synchronizing (sh_sac x') = true).
Proof. by destruct 1; simpl; [right; right|right; left|left..]. Qed.

Lemma Request_synchronizing s e :
  sac_synchronizing (Request s e).1.1 = sac_synchronizing s.
Proof. unfold Request, request. by destruct (sac_requested s). Qed.

Lemma EventHandlerFuncs_eq s e : ∃ ev, EventHandlerFuncs s e = Request s ev.
Proof. destruct e; simpl; eauto. Qed.

Lemma guard_invariant m : reachable m → guard_inv m.
Proof.
  revert m. apply reachable_ind; [done|].
  intros m m' _ (Hg & Hx & Hi) Hstep. unfold guard_inv, sched_pc in *.
  destruct Hstep as [m|m n e Hn|m p Hp|m|m Hm Ho|m Hp Hr|m Hp Hc|m err Hp|m x p Hst|m x p p' Hp Hst];
    simpl in *; try done.
  - destruct (EventHandlerFuncs_eq (m_sac m) e) as [ev ->]. by rewrite Request_synchronizing.
  - by rewrite Request_synchronizing.
  - by rewrite Hm, (Hi Hm) in Hg.
  - rewrite Hp in Hg, Hx. split_and!; [done|done|]. intros Hm. by rewrite Hi in Hp.
  - rewrite Hp in Hg, Hx. split_and!; [done|done|]. intros Hm. by rewrite Hi in Hp.
  - rewrite Hp in Hg, Hx. split_and!; [done|done|]. intros Hm. by rewrite Hi in Hp.
  - pose proof (pc_step_idle _ _ _ _ _ Hst) as [_ ?].
    apply pc_step_guard in Hst; simpl in Hst.
    destruct (critical (m_main m)), (critical p), (critical (default PIdle (m_sched m)));
      simpl in *; intuition congruence.
  - rewrite Hp in Hg, Hx. apply pc_step_guard in Hst; simpl in *.
    destruct (critical (m_main m)), (critical p), (critical p');
      simpl in *; intuition congruence.
Qed.

(** *** Versions *)

(** The caller will list at, or has listed at, the current version. *)
Definition will_be_fresh (ver : nat) (p : pc) : Prop :=
  match p with
  | PCas | PList => True
  | PLoop v _ _ | PRestock v _ => v = ver
  | PIdle | PRelease _ | PDone _ | PStopped => False
  end.

(** The cached data is current, or something will bring it up to date: a
    handler call to come, a queued request, or a caller of [Synch]. *)
Definition covered (m : machine) : Prop :=
  m_dver m = Some (m_ver m) ∨ 0 < m_notif m ∨ sac_requested (m_sac m) = true ∨
  m_main m = PIdle ∨ will_be_fresh (m_ver m) (m_main m) ∨
  will_be_fresh (m_ver m) (sched_pc m).

Definition opt_le (o : option nat) (n : nat) : Prop := ∀ d, o = Some d → d ≤ n.
Definition pc_ordered (dver : option nat) (ver : nat) (p : pc) : Prop :=
  match p with
  | PLoop v _ _ | PRestock v _ => opt_le dver v ∧ v ≤ ver
  | _ => True
  end.

(** Data is only ever replaced by data listed later. *)
Definition order_inv (m : machine) : Prop :=
  opt_le (m_dver m) (m_ver m) ∧ pc_ordered (m_dver m) (m_ver m) (m_main m) ∧
  pc_ordered (m_dver m) (m_ver m) (sched_pc m).

Lemma pc_step_ordered ver x p x' p' :
  pc_step ver x p x' p' → opt_le (sh_dver x) ver → pc_ordered (sh_dver x) ver p →
  opt_le (sh_dver x') ver ∧ pc_ordered (sh_dver x') ver p' ∧
  (critical p = false → sh_dver x' = sh_dver x).
Proof.
  destruct 1; simpl; intros Hd Hp; split_and!; try done; try apply Hp.
  intros d' [= <-]. apply Hp.
Qed.

Lemma pc_ordered_not_critical d d' ver ver' p :
  critical p = false → pc_ordered d ver p → pc_ordered d' ver' p.
Proof. by destruct p. Qed.

Lemma pc_ordered_mono d ver p : pc_ordered d ver p → pc_ordered d (S ver) p.
Proof. destruct p; simpl; intros; auto with lia. naive_solver lia. naive_solver lia. Qed.

Lemma order_invariant m : reachable m → order_inv m.
Proof.
  revert m. apply reachable_ind; [done|].
  intros m m' Hr (Hd & Hpm & Hps) Hstep.
  pose proof (guard_invariant m Hr) as (_ & Hx & _). unfold order_inv, sched_pc in *.
  destruct Hstep as [m|m n e Hn|m p Hp|m|m Hm Ho|m Hp Hrq|m Hp Hc|m err Hp|m x p Hst|m x p p' Hp Hst];
    simpl in *; try done.
  - split_and!; [|by apply pc_ordered_mono..]. intros d Hd'. apply Hd in Hd'. lia.
  - apply pc_step_ordered in Hst as (Hd' & Hp' & Heq); [|done|done].
    split_and!; [done|done|]. destruct (critical (m_main m)); simpl in *.
    + by eapply pc_ordered_not_critical.
    + by rewrite Heq.
  - rewrite Hp in Hps, Hx. simpl in Hx. apply pc_step_ordered in Hst as (Hd' & Hp' & Heq); [|done|done].
    split_and!; [done| |done]. destruct (critical p); simpl in *.
    + rewrite andb_true_r in Hx. by eapply pc_ordered_not_critical.
    + by rewrite Heq.
Qed.

Lemma Request_requested s e : sac_requested (Request s e).1.1 = true.
Proof. unfold Request, request. by destruct (sac_requested s) eqn:E. Qed.

(** One step of a caller keeps what is current and what will be. *)
Lemma pc_step_fresh ver x p x' p' :
  pc_step ver x p x' p' → sh_lost x' = false →
  opt_le (sh_dver x) ver → pc_ordered (sh_dver x) ver p →
  sh_lost x = false ∧ sac_requested (sh_sac x') = sac_requested (sh_sac x) ∧
  (sh_dver x = Some ver → sh_dver x' = Some ver) ∧
  (will_be_fresh ver p → will_be_fresh ver p' ∨ sh_dver x' = Some ver).
Proof.
  destruct 1; simpl; intros Hl Hd Hp; try done; split_and!; auto; try naive_solver.
  intros ->. destruct Hp as [Hp Hv]. specialize (Hp ver eq_refl). f_equal. lia.
Qed.

Lemma covered_invariant m : reachable m → m_lost m = false → covered m.
Proof.
  revert m. apply (reachable_ind (λ m, m_lost m = false → covered m)).
  { intros opts h n _. unfold covered. simpl. auto. }
  intros m m' Hr IH Hstep Hlost.
  pose proof (order_invariant m Hr) as (Hd & Hpm & Hps). unfold covered, sched_pc in *.
  destruct Hstep as [m|m n e Hn|m p Hp|m|m Hm Ho|m Hp Hrq|m Hp Hc|m err Hp|m x p Hst|m x p p' Hp Hst];
    simpl in *.
  - right; left; lia.
  - destruct (EventHandlerFuncs_eq (m_sac m) e) as [ev ->]. rewrite Request_requested. auto.
  - rewrite Request_requested. auto.
  - auto.
  - auto 10.
  - auto 10.
  - specialize (IH Hlost). rewrite Hp in IH. simpl in IH. tauto.
  - specialize (IH Hlost). rewrite Hp in IH. simpl in IH. tauto.
  - pose proof (pc_step_idle _ _ _ _ _ Hst) as [Hni _].
    apply pc_step_fresh in Hst as (Hl & Hq & H1' & H2'); [|done|done|done].
    simpl in *. rewrite Hq. specialize (IH Hl). tauto.
  - rewrite Hp in IH, Hps. simpl in *.
    apply pc_step_fresh in Hst as (Hl & Hq & H1' & H2'); [|done|done|done].
    simpl in *. rewrite Hq. specialize (IH Hl). tauto.
Qed.

(** *** The cached data *)

(** The loop over the namespaces when the resources may change under it: the
    [k]-th iteration sees the resources at the [k]-th version. *)
Fixpoint mixed_loop (vs : list nat) (items : list Namespace) (h : heap) (c : AccessData) :
    heap * AccessData :=
  match vs, items with
  | v :: vs', ns :: items' =>
      let '(h, c) := synch_iteration (env_of v) ns h c in mixed_loop vs' items' h c
  | _, _ => (h, c)
  end.

(** The loop has done [items], listed at version [v], and has come to the store
    [h] and the data [c]; every iteration ran at a version between [v] and
    [ver]. *)
Definition computing (v ver : nat) (items rest : list Namespace) (h : heap) (c : AccessData) : Prop :=
  ∃ hl h0 vs, env_List (env_of v) hl = (h0, inr (items ++ rest)) ∧ length vs = length items ∧
    Forall (λ v', v ≤ v' ≤ ver) vs ∧ mixed_loop vs items h0 ∅ = (h, c).
(** Data computed by a full run of the loop over a list obtained at [v], with
    the locator asked about each namespace at a version between [v] and
    [ver]. *)
Definition computed (v ver : nat) (c : AccessData) : Prop :=
  ∃ items h, computing v ver items [] h c.

Lemma mixed_loop_snoc vs items h c v ns :
  length vs = length items →
  mixed_loop (vs ++ [v]) (items ++ [ns]) h c =
  let '(h, c) := mixed_loop vs items h c in synch_iteration (env_of v) ns h c.
Proof.
  revert items h c. induction vs as [|v' vs IH]; intros [|ns' items] h c Hl; simplify_eq/=.
  - by destruct (synch_iteration _ _ _ _).
  - destruct (synch_iteration _ ns' h c) as [h1 c1]. by apply IH.
Qed.

Lemma computing_start v hl h0 items :
  env_List (env_of v) hl = (h0, inr items) → computing v v [] items h0 ∅.
Proof. intros Hl. by exists hl, h0, []. Qed.

Lemma computing_step v ver items ns rest h c h' c' :
  v ≤ ver → computing v ver items (ns :: rest) h c →
  synch_iteration (env_of ver) ns h c = (h', c') →
  computing v ver (items ++ [ns]) rest h' c'.
Proof.
  intros Hv (hl & h0 & vs & Hl & Hlen & Hvs & Hm) Hit. exists hl, h0, (vs ++ [ver]).
  split_and!.
  - by rewrite <-app_assoc.
  - rewrite !length_app. simpl. lia.
  - apply Forall_app. split; [done|]. by apply Forall_singleton.
  - by rewrite mixed_loop_snoc, Hm.
Qed.

Lemma computing_mono v ver ver' items rest h c :
  ver ≤ ver' → computing v ver items rest h c → computing v ver' items rest h c.
Proof.
  intros Hv (hl & h0 & vs & Hl & Hlen & Hvs & Hm). exists hl, h0, vs. split_and!; try done.
  eapply Forall_impl; [done|]. simpl. lia.
Qed.

Lemma computed_mono v ver ver' c : ver ≤ ver' → computed v ver c → computed v ver' c.
Proof. intros Hv (items & h & Hc). exists items, h. by eapply computing_mono. Qed.

Definition pc_data (ver : nat) (h : heap) (s : SynchronizedAccessCache) (p : pc) : Prop :=
  match p with
  | PLoop v rest c => v ≤ ver ∧ ∃ items, computing v ver items rest h c
  | PRestock v c => computed v ver c
  | PRelease None | PDone None => data (sac_cache s) ≠ None
  | _ => True
  end.

(** Only complete data is stored, and a caller whose [Synch] succeeded has
    left some. *)
Definition data_inv (m : machine) : Prop :=
  idFunc (sac_cache (m_sac m)) = ns_Name ∧
  (∀ c, data (sac_cache (m_sac m)) = Some c → ∃ v, m_dver m = Some v ∧ computed v (m_ver m) c) ∧
  pc_data (m_ver m) (m_heap m) (m_sac m) (m_main m) ∧
  pc_data (m_ver m) (m_heap m) (m_sac m) (sched_pc m).

Lemma pc_data_mono ver ver' h s p : ver ≤ ver' → pc_data ver h s p → pc_data ver' h s p.
Proof.
  intros Hv. destruct p as [| | |v rest c|v c|[]|[]|]; simpl; try done.
  - intros (Hle & items & Hc). split; [lia|]. exists items. by eapply computing_mono.
  - by apply computed_mono.
Qed.

(** What another goroutine may change: the store too, if [p] is not critical. *)
Lemma pc_data_frame ver h h' s s' p :
  (data (sac_cache s) ≠ None → data (sac_cache s') ≠ None) →
  (critical p = true → h' = h) →
  pc_data ver h s p → pc_data ver h' s' p.
Proof. intros Hd Hh. destruct p as [| | |v rest c|v c|[]|[]|]; simpl in *; auto. by rewrite Hh. Qed.

Lemma Request_cache s e : sac_cache (Request s e).1.1 = sac_cache s.
Proof. unfold Request, request. by destruct (sac_requested s). Qed.

Lemma pc_step_data ver x p x' p' :
  pc_step ver x p x' p' →
  (∀ c, data (sac_cache (sh_sac x)) = Some c → ∃ v, sh_dver x = Some v ∧ computed v ver c) →
  pc_data ver (sh_heap x) (sh_sac x) p →
  idFunc (sac_cache (sh_sac x')) = idFunc (sac_cache (sh_sac x)) ∧
  (∀ c, data (sac_cache (sh_sac x')) = Some c → ∃ v, sh_dver x' = Some v ∧ computed v ver c) ∧
  pc_data ver (sh_heap x') (sh_sac x') p' ∧
  (data (sac_cache (sh_sac x)) ≠ None → data (sac_cache (sh_sac x')) ≠ None) ∧
  (critical p = false → sh_heap x' = sh_heap x).
Proof.
  destruct 1; simpl; intros Hc Hp; split_and!; eauto; try done.
  - exists []. by eapply computing_start.
  - apply Hp.
  - destruct Hp as (Hv & items' & Hp). exists (items' ++ [ns]). by eapply computing_step.
  - destruct Hp as (_ & items & Hp). by exists items, h.
  - intros c' [= <-]. eauto.
Qed.

Lemma data_invariant m : reachable m → data_inv m.
Proof.
  revert m. apply reachable_ind; [done|].
  intros m m' Hr (Hid & Hc & Hpm & Hps) Hstep.
  pose proof (guard_invariant m Hr) as (_ & Hx & _). unfold data_inv, sched_pc in *.
  destruct Hstep as [m|m n e Hn|m p Hp|m|m Hm Ho|m Hp Hrq|m Hp Hc'|m err Hp|m x p Hst|m x p p' Hp Hst];
    simpl in *; try done.
  - split_and!; [done| |eapply pc_data_mono; [|done]; lia..].
    intros c (v & Hv & Hcomp)%Hc. exists v. split; [done|]. eapply computed_mono; [|done]. lia.
  - destruct (EventHandlerFuncs_eq (m_sac m) e) as [ev ->]. rewrite Request_cache.
    split_and!; [done|done|..]; apply (pc_data_frame _ (m_heap m) _ (m_sac m)); try done;
      by rewrite Request_cache.
  - rewrite Request_cache.
    split_and!; [done|done|..]; apply (pc_data_frame _ (m_heap m) _ (m_sac m)); try done;
      by rewrite Request_cache.
  - apply pc_step_data in Hst as (Hid' & Hc' & Hp' & Hd & Hh); [|done|done].
    simpl in *. split_and!; [by rewrite Hid'|done|done|].
    eapply pc_data_frame; [done| |done]. intros Hcr. rewrite Hcr, andb_true_r in Hx. auto.
  - rewrite Hp in Hps, Hx. apply pc_step_data in Hst as (Hid' & Hc' & Hp' & Hd & Hh); [|done|done].
    simpl in *. split_and!; [by rewrite Hid'|done| |done].
    eapply pc_data_frame; [done| |done]. intros Hcr. rewrite Hcr in Hx. auto.
Qed.

(** *** Runs *)

(** A caller that runs alone. *)
Definition run (ver : nat) : relation (shared * pc) :=
  λ a b, pc_step ver a.1 a.2 b.1 b.2.

Lemma run_l ver x p x' p' b :
  pc_step ver x p x' p' → rtc (run ver) (x', p') b → rtc (run ver) (x, p) b.
Proof. intros Hst. by apply rtc_l. Qed.

Lemma run_main m ver a b :
  ver = m_ver m → a = (shared_of m, m_main m) → rtc (run ver) a b →
  rtc step m (with_shared m b.1 b.2 (m_sched m)).
Proof.
  intros Hv Ha Hr. revert m Hv Ha.
  induction Hr as [a|a b c Hst Hr IH]; intros m -> ->.
  { by destruct m. }
  eapply rtc_l; [by apply step_main, Hst|].
  specialize (IH (with_shared m b.1 b.2 (m_sched m))). destruct b as [[] ?]. by apply IH.
Qed.

Lemma run_sched m p ver a b :
  m_sched m = Some p → ver = m_ver m → a = (shared_of m, p) → rtc (run ver) a b →
  rtc step m (with_shared m b.1 (m_main m) (Some b.2)).
Proof.
  intros Hp Hv Ha Hr. revert m p Hp Hv Ha.
  induction Hr as [a|a b c Hst Hr IH]; intros m p Hp -> ->.
  { simpl. rewrite <-Hp. by destruct m. }
  eapply rtc_l; [by eapply step_sched, Hst|].
  specialize (IH (with_shared m b.1 (m_main m) (Some b.2)) b.2 eq_refl).
  destruct b as [[] ?]. by apply IH.
Qed.

(** The loop of a caller that runs alone. *)
Lemma run_loop ver h s d l v items c :
  let r := mixed_loop (replicate (length items) ver) items h c in
  rtc (run ver) (mkShared h s d l, PLoop v items c) (mkShared r.1 s d l, PRestock v r.2).
Proof.
  revert h c. induction items as [|ns items IH]; intros h c; simpl.
  { eapply run_l; [apply step_loop_end|]. apply rtc_refl. }
  destruct (synch_iteration (env_of ver) ns h c) as [h1 c1] eqn:E.
  eapply run_l; [by apply step_iteration|]. apply IH.
Qed.

(** A run of [Synch] that succeeds, and what it leaves. *)
Lemma run_success ver h s d l h' items :
  sac_synchronizing s = false → env_List (env_of ver) h = (h', inr items) →
  ∃ h'' c, rtc (run ver) (mkShared h s d l, PCas)
    (mkShared h'' (set_synchronizing false (set_cache (Restock (sac_cache s) (Some c)) s))
              (Some ver) l, PDone None).
Proof.
  intros Hs Hl. eexists _, _.
  eapply run_l; [by apply step_cas_win|].
  eapply run_l; [by eapply step_list|].
  etrans; [apply run_loop|].
  eapply run_l; [by eapply step_restock|].
  eapply run_l; [by eapply step_release|]. apply rtc_refl.
Qed.
End machine.

(** ** The loop at one version

    When the resources do not change, the loop computes what [synch_loop]
    does, and the data is that of a synchronization that runs alone. *)
Section sequential.
Context `{!UnicodeLower, !DeepCopyNs}.
Context (env_of : nat → SynchEnv).

(** The environment at a version, with a context that is never done. *)
Definition env_at (v : nat) : SynchEnv :=
  {| env_List := env_List (env_of v); env_ctxErr := λ _, None;
     env_AllowedSubjects := env_AllowedSubjects (env_of v) |}.

Lemma mixed_loop_const v vs items h c i :
  length vs = length items → Forall (λ v', v' = v) vs →
  let r := mixed_loop env_of vs items h c in
  synch_loop (env_at v) i items h c = (r.1, inr r.2).
Proof.
  revert vs h c i. induction items as [|ns items IH]; intros [|v' vs] h c i Hl Hv; simplify_eq/=; [done|].
  apply Forall_cons in Hv as [-> Hv].
  change (synch_iteration (env_at v) ns h c) with (synch_iteration (env_of v) ns h c).
  destruct (synch_iteration (env_of v) ns h c) as [h1 c1]. by apply IH.
Qed.

(** Data computed while the resources stayed at [v] is what [synch] returns
    at [v], running alone. *)
Lemma computed_synch v c s :
  computed env_of v v c → ∃ h h', synch (env_at v) h s =
    (h', set_cache (Restock (sac_cache s) (Some c)) s, Some c, None).
Proof.
  intros (items & h' & hl & h0 & vs & Hl & Hlen & Hvs & Hm). rewrite app_nil_r in Hl.
  exists hl, h'. unfold synch. simpl. rewrite Hl.
  rewrite (mixed_loop_const v vs items h0 ∅ 0) by (done || (eapply Forall_impl; [done|simpl; lia])).
  by rewrite Hm.
Qed.

(** A state after startup with a queued request, for witnesses. *)
Lemma started_state (opts : CacheSynchronizerOptions) h h' items :
  env_List (env_of 0) h = (h', inr items) →
  ∃ m, reachable env_of m ∧ m_main m = PDone None ∧ m_sched m = Some PIdle ∧
       sac_requested (m_sac m) = true ∧ m_ver m = 0.
Proof.
  intros Hl.
  set (s := set_once (NewSynchronizedAccessCache opts)).
  destruct (run_success env_of 0 h s None false h' items eq_refl Hl) as (h'' & c & Hrun).
  set (m1 := with_shared (initial opts h 0) (mkShared h s None false) PCas (Some PIdle)).
  pose proof (run_main env_of m1 0 _ _ eq_refl eq_refl Hrun) as Hrun'.
  eexists. split.
  { exists opts, h, 0. eapply rtc_l; [by apply step_start|]. eapply rtc_r; [apply Hrun'|].
    by eapply step_tick. }
  split_and!; [done|done|apply Request_requested|done].
Qed.
End sequential.

(** [go_step t]: the next step of an explicit run is the one [t] applies; the
    state it reaches is put in record form. *)
Ltac go_step t :=
  eapply rtc_l; [t; done|];
  cbn [m_heap m_sac m_main m_sched m_cancelled m_ver m_notif m_dver m_lost
       with_shared with_sac sh_heap sh_sac sh_dver sh_lost].

(** ** Properties *)

Section properties.
Context `{!UnicodeLower, !DeepCopyNs}.
Context (env_of : nat → SynchEnv).

(** C9: mutual exclusion.  In every reachable state at most one goroutine is
    inside the guarded part of [Synch], and the [synchronizing] flag is up
    exactly while one is. *)
Theorem Synch_mutual_exclusion m :
  reachable env_of m →
  ¬ (critical (m_main m) = true ∧ critical (sched_pc m) = true) ∧
  (sac_synchronizing (m_sac m) = true ↔
   critical (m_main m) = true ∨ critical (sched_pc m) = true).
Proof.
  intros (Hg & Hx & _)%guard_invariant. rewrite Hg.
  destruct (critical (m_main m)), (critical (sched_pc m)); simpl in *; intuition congruence.
Qed.

(** C6: no update is lost as long as no [Synch] is refused or fails: in every
    reachable state the cached data was listed at the current version of the
    resources, or a handler call is still to come, or a request is queued,
    or a goroutine has yet to list, or has listed at the current version. *)
Theorem no_lost_update m :
  reachable env_of m → m_lost m = false → covered m.
Proof. apply covered_invariant. Qed.

(** Once startup is over the scheduler is the only caller of [Synch], and
    it is never refused: when it reaches the compare-and-swap the guard is
    free, so a dequeued request always leads to a synchronization. *)
Theorem scheduler_never_refused m err :
  reachable env_of m → m_main m = PDone err → m_sched m = Some PCas →
  sac_synchronizing (m_sac m) = false.
Proof.
  intros (Hg & _)%guard_invariant Hm Hs. unfold sched_pc in Hg.
  by rewrite Hm, Hs in Hg.
Qed.

(** C14: a server that has started always answers: after the initial [Synch]
    succeeded the cache holds the complete result of some synchronization,
    and listing any subjects returns without panic in every later state. *)
Theorem started_cache_answers `{!MapRange string Namespace} m subs :
  reachable env_of m → m_main m = PDone None →
  (∃ v c, data (sac_cache (m_sac m)) = Some c ∧ m_dver m = Some v ∧ computed env_of v (m_ver m) c) ∧
  returns (List (sac_cache (m_sac m)) subs) = true.
Proof.
  intros (_ & Hc & Hpm & _)%data_invariant Hm. rewrite Hm in Hpm. simpl in Hpm.
  destruct (data (sac_cache (m_sac m))) as [c|] eqn:E; [|done]. split.
  - destruct (Hc c eq_refl) as (v & Hv & Hcomp). eauto 10.
  - unfold List, listAll. destruct subs as [|k [|k' ks]]; [done|done|].
    by rewrite E, collect_Some.
Qed.

(** A queued request is served.  From every reachable state after startup
    in which the scheduler waits and a request is queued, the scheduler's
    own steps lead to a state whose cached data was listed at the current
    version, provided the lister answers. *)
Theorem queued_request_is_served m err h' items :
  reachable env_of m → m_main m = PDone err →
  m_sched m = Some PIdle → sac_requested (m_sac m) = true →
  env_List (env_of (m_ver m)) (m_heap m) = (h', inr items) →
  ∃ m', rtc (step env_of) m m' ∧ m_ver m' = m_ver m ∧ m_dver m' = Some (m_ver m') ∧
        m_sched m' = Some PIdle ∧ data (sac_cache (m_sac m')) ≠ None.
Proof.
  intros Hr Hm Hs Hq Hl.
  assert (sac_synchronizing (m_sac m) = false) as Hf.
  { apply guard_invariant in Hr as (Hg & _). unfold sched_pc in Hg. by rewrite Hm, Hs in Hg. }
  set (m1 := with_sac m (set_requested false (m_sac m)) (m_notif m) (Some PCas)).
  destruct (run_success env_of (m_ver m) (m_heap m) (set_requested false (m_sac m))
              (m_dver m) (m_lost m) h' items Hf Hl) as (h'' & c & Hrun).
  pose proof (run_sched env_of m1 PCas (m_ver m) _ _ eq_refl eq_refl eq_refl Hrun) as Hrun'.
  eexists. split.
  { eapply rtc_l; [by apply step_receive|]. eapply rtc_r; [apply Hrun'|].
    by eapply step_again. }
  done.
Qed.

(** C31: the startup race.  Whatever the cluster, if an informer reports one of
    the objects it already holds before the main goroutine reaches its own
    [Synch], the scheduler can win the guard, and the initial [Synch], hence
    the startup of the program, fails with [ErrSynchAlreadyRunning]. *)
Theorem startup_race opts h n :
  ∃ m, rtc (step env_of) (initial opts h (S n)) m ∧
       m_main m = PDone (Some ErrSynchAlreadyRunning).
Proof.
  eexists. split.
  { go_step ltac:(apply (step_notify _ _ n (IAdd None))).
    go_step ltac:(apply step_start).
    go_step ltac:(apply step_receive).
    go_step ltac:(eapply step_sched, step_cas_win).
    go_step ltac:(eapply step_main, step_cas_lose). apply rtc_refl. }
  done.
Qed.

(** C32: the update lost at startup.  If a resource changes after the initial
    [Synch] has listed the namespaces, the scheduler's attempt can be refused
    while the initial [Synch] is still computing; startup then succeeds with
    data listed before the change, and nothing is left that would refresh
    it: no handler call, no queued request, an idle scheduler. *)
Theorem startup_lost_update opts h h' items :
  env_List (env_of 0) h = (h', inr items) →
  ∃ m, rtc (step env_of) (initial opts h 0) m ∧ m_main m = PDone None ∧
       m_sched m = Some PIdle ∧ m_notif m = 0 ∧ sac_requested (m_sac m) = false ∧
       m_dver m = Some 0 ∧ m_ver m = 1.
Proof.
  intros Hl. eexists. split.
  { go_step ltac:(apply step_start).
    go_step ltac:(eapply step_main, step_cas_win).
    go_step ltac:(eapply step_main, step_list).
    go_step ltac:(apply step_update).
    go_step ltac:(apply (step_notify _ _ 0 (IUpdate None None))).
    go_step ltac:(apply step_receive).
    go_step ltac:(eapply step_sched, step_cas_lose).
    go_step ltac:(eapply step_again).
    etrans; [eapply (run_main _ _ 1); [reflexivity|reflexivity|apply run_loop]|].
    go_step ltac:(eapply step_main, step_restock).
    go_step ltac:(eapply step_main, step_release). apply rtc_refl. }
  done.
Qed.
End properties.

(** ** Witnesses *)

Definition sample_env_of (v : nat) : SynchEnv := sample_env.

(** A busy moment of startup: the scheduler won the guard and has listed, the
    main goroutine is about to call, and a resource has changed since. *)
Lemma busy_state :
  ∃ m, @reachable sample_lower simple_deep_copy sample_env_of m ∧ m_lost m = false ∧
       m_main m = PCas ∧ m_sched m = Some (PLoop 0 [ns_team; ns_bare] ∅) ∧
       m_dver m = None ∧ m_ver m = 1 ∧ sac_requested (m_sac m) = false.
Proof.
  eexists. split.
  { exists sample_opts, [], 1.
    go_step ltac:(apply (step_notify _ _ 0 (IAdd None))).
    go_step ltac:(apply step_start).
    go_step ltac:(apply step_receive).
    go_step ltac:(eapply step_sched, step_cas_win).
    go_step ltac:(eapply step_sched, step_list).
    go_step ltac:(apply step_update). apply rtc_refl. }
  done.
Qed.

Lemma Synch_mutual_exclusion_witness :
  ∃ m, @reachable sample_lower simple_deep_copy sample_env_of m ∧ critical (sched_pc m) = true ∧
       ¬ (critical (m_main m) = true ∧ critical (sched_pc m) = true) ∧
       (sac_synchronizing (m_sac m) = true ↔
        critical (m_main m) = true ∨ critical (sched_pc m) = true).
Proof.
  destruct busy_state as (m & Hr & _ & _ & Hs & _). exists m. split; [exact Hr|].
  split; [unfold sched_pc; rewrite Hs; reflexivity|].
  exact (@Synch_mutual_exclusion sample_lower simple_deep_copy sample_env_of m Hr).
Defined.

Lemma no_lost_update_witness :
  ∃ m, @reachable sample_lower simple_deep_copy sample_env_of m ∧ m_dver m ≠ Some (m_ver m) ∧
       sac_requested (m_sac m) = false ∧ covered m.
Proof.
  destruct busy_state as (m & Hr & Hl & _ & _ & Hd & _ & Hq). exists m. split; [exact Hr|].
  split; [rewrite Hd; discriminate|]. split; [exact Hq|].
  exact (@no_lost_update sample_lower simple_deep_copy sample_env_of m Hr Hl).
Defined.

Lemma scheduler_never_refused_witness :
  ∃ m, @reachable sample_lower simple_deep_copy sample_env_of m ∧
       m_sched m = Some PCas ∧ sac_synchronizing (m_sac m) = false.
Proof.
  destruct (@started_state sample_lower simple_deep_copy sample_env_of sample_opts []
              sample_heap [ns_team; ns_bare] eq_refl)
    as (m & (o & h & n & Hr) & Hm & Hs & Hq & _).
  assert (@reachable sample_lower simple_deep_copy sample_env_of
            (with_sac m (set_requested false (m_sac m)) (m_notif m) (Some PCas))) as Hr'.
  { exists o, h, n. eapply rtc_r; [exact Hr|]. by apply step_receive. }
  eexists. split; [exact Hr'|]. split; [reflexivity|].
  apply (@scheduler_never_refused sample_lower simple_deep_copy sample_env_of _ None);
    [exact Hr'|exact Hm|reflexivity].
Defined.

Lemma started_cache_answers_witness :
  ∃ m, m_main m = PDone None ∧
       returns (@List _ _ _ _ _ _ _ (sorted_range _ _) (sac_cache (m_sac m))
                  [alice; authenticated]) = true.
Proof.
  destruct (@started_state sample_lower simple_deep_copy sample_env_of sample_opts []
              sample_heap [ns_team; ns_bare] eq_refl) as (m & Hr & Hm & _).
  exists m. split; [exact Hm|].
  apply (@started_cache_answers sample_lower simple_deep_copy sample_env_of (sorted_range _ _));
    [exact Hr|exact Hm].
Defined.

Lemma queued_request_is_served_witness :
  ∃ m m', @reachable sample_lower simple_deep_copy sample_env_of m ∧
          rtc (@step sample_lower simple_deep_copy sample_env_of) m m' ∧
          m_dver m' = Some (m_ver m').
Proof.
  destruct (@started_state sample_lower simple_deep_copy sample_env_of sample_opts []
              sample_heap [ns_team; ns_bare] eq_refl) as (m & Hr & Hm & Hs & Hq & _).
  destruct (@queued_request_is_served sample_lower simple_deep_copy sample_env_of m None
              sample_heap [ns_team; ns_bare] Hr Hm Hs Hq eq_refl) as (m' & Hrun & _ & Hd & _).
  exists m, m'. split; [exact Hr|]. split; [exact Hrun|exact Hd].
Defined.

Lemma startup_lost_update_witness :
  ∃ m, rtc (@step sample_lower simple_deep_copy sample_env_of) (initial sample_opts [] 0) m ∧
       m_main m = PDone None ∧ m_dver m = Some 0 ∧ m_ver m = 1.
Proof.
  destruct (@startup_lost_update sample_lower simple_deep_copy sample_env_of sample_opts []
              sample_heap [ns_team; ns_bare] eq_refl) as (m & Hr & Hm & _ & _ & _ & Hd & Hv).
  exists m. split; [exact Hr|]. split; [exact Hm|]. split; [exact Hd|exact Hv].
Defined.
