(* ===== verification/Fairness.v ===== *)
(** * Termination and eventual consistency of the access cache

    Infinite runs of the machine of SyncMachine.v.  Every call of [Synch]
    returns, however the resources change between the iterations of its loop.
    Changes reach the cache: each version of the resources is eventually the
    version, or older than the version, the cached data was listed at; and when
    the resources stop changing, the cache settles on what a synchronization
    that runs alone computes from them.  An infinite run is a function from
    [nat]; fairness says that an actor that can move does so some time later. *)

From Stdlib Require Import Relation_Operators Wellfounded.
From stdpp Require Import base gmap strings list relations.
From S2P Require Import Prelude GoStrings GoSlices KubeTypes AtomicCache Subjects AccessMetrics AccessSync Samples AccessSpec SyncMachine.

(** ** The rank of a program point of [Synch]

    The phase, and the namespaces that are left in the loop; ordered
    lexicographically, because the loop's length is only known once the
    namespaces are listed. *)
Definition pc_rank (p : pc) : nat * nat :=
  match p with
  | PCas => (5, 0)
  | PList => (4, 0)
  | PLoop _ items _ => (3, length items)
  | PRestock _ _ => (2, 0)
  | PRelease _ => (1, 0)
  | PIdle | PDone _ | PStopped => (0, 0)
  end.
Definition closer : relation (nat * nat) := slexprod nat nat lt lt.
Lemma closer_wf : well_founded closer.
Proof. apply wf_slexprod; apply lt_wf. Qed.
(** The caller has called [Synch], which has not returned. *)
Definition calling (p : pc) : bool :=
  match p with
  | PCas | PList | PLoop _ _ _ | PRestock _ _ | PRelease _ => true
  | PIdle | PDone _ | PStopped => false
  end.

Section caller.
Context `{!UnicodeLower, !DeepCopyNs}.
Context (env_of : nat → SynchEnv).

(** Each step of a call comes closer to its return. *)
Lemma pc_step_rank ver x p x' p' :
  pc_step env_of ver x p x' p' →
  calling p = true ∧
  ((calling p' = true ∧ closer (pc_rank p') (pc_rank p)) ∨ ∃ err, p' = PDone err).
Proof.
  destruct 1; (split; [done|]); simpl; first
    [by right; eexists|left; split; [done|]; first [apply left_slex; lia|apply right_slex; simpl; lia]].
Qed.

Lemma pc_step_requested ver x p x' p' :
  pc_step env_of ver x p x' p' → sac_requested (sh_sac x') = sac_requested (sh_sac x).
Proof. by destruct 1. Qed.

(** Inside a call there is always a next step. *)
Lemma pc_step_progress ver x p : calling p = true → ∃ x' p', pc_step env_of ver x p x' p'.
Proof.
  destruct x as [h s d l], p as [| | |v [|ns items] c|v c|err|err|]; simpl; intros Hr; try done.
  - destruct (sac_synchronizing s) eqn:E.
    + eexists _, _. by apply step_cas_lose.
    + eexists _, _. by apply step_cas_win.
  - destruct (env_List (env_of ver) h) as [h' [e|items]] eqn:E.
    + eexists _, _. eapply step_list_error. by left.
    + eexists _, _. by eapply step_list.
  - eexists _, _. apply step_loop_end.
  - destruct (synch_iteration (env_of ver) ns h c) as [h' c'] eqn:E.
    eexists _, _. by apply step_iteration.
  - eexists _, _. apply step_restock.
  - eexists _, _. apply step_release.
Qed.
End caller.

(** ** Runs *)
Section runs.
Context `{!UnicodeLower, !DeepCopyNs}.
Context (env_of : nat → SynchEnv).

(** The moves of the scheduler goroutine; every other step of the machine
    belongs to its environment (main goroutine, informers, timer, context). *)
Inductive sched_step : machine → machine → Prop :=
| ss_receive m :
    m_sched m = Some PIdle → sac_requested (m_sac m) = true →
    sched_step m (with_sac m (set_requested false (m_sac m)) (m_notif m) (Some PCas))
| ss_stop m :
    m_sched m = Some PIdle → m_cancelled m = true →
    sched_step m (with_sac m (m_sac m) (m_notif m) (Some PStopped))
| ss_again m err :
    m_sched m = Some (PDone err) →
    sched_step m (with_sac m (m_sac m) (m_notif m) (Some PIdle))
| ss_synch m x p p' :
    m_sched m = Some p → pc_step env_of (m_ver m) (shared_of m) p x p' →
    sched_step m (with_shared m x (m_main m) (Some p')).

(** The moves of the main goroutine inside its [Synch]. *)
Inductive main_step : machine → machine → Prop :=
| ms_synch m x p :
    pc_step env_of (m_ver m) (shared_of m) (m_main m) x p →
    main_step m (with_shared m x p (m_sched m)).

(** The handler call of an informer. *)
Inductive notify_step : machine → machine → Prop :=
| ns_notify m n e :
    m_notif m = S n →
    notify_step m (with_sac m (EventHandlerFuncs (m_sac m) e).1.1 n (m_sched m)).

Lemma sched_step_step m m' : sched_step m m' → step env_of m m'.
Proof. destruct 1; [by apply step_receive|by apply step_stop|by eapply step_again|by eapply step_sched]. Qed.

(** A step of the machine is a move of the scheduler or leaves its program
    point alone. *)
Lemma step_cases m m' :
  step env_of m m' → m_main m ≠ PIdle →
  sched_step m m' ∨
  (m_sched m' = m_sched m ∧ m_ver m ≤ m_ver m' ∧
   (sac_requested (m_sac m) = true → sac_requested (m_sac m') = true)).
Proof.
  intros Hst Hm.
  destruct Hst as [m|m n e Hn|m p Hp|m|m Hi Ho|m Hp Hr|m Hp Hc|m err Hp|m x p Hst|m x p p' Hp Hst].
  - right. simpl. auto with lia.
  - right. simpl. destruct (EventHandlerFuncs_eq (m_sac m) e) as [ev ->].
    by rewrite Request_requested.
  - right. simpl. by rewrite Request_requested.
  - by right.
  - done.
  - left. by apply ss_receive.
  - left. by apply ss_stop.
  - left. by eapply ss_again.
  - right. simpl. split_and!; [done|done|]. by rewrite (pc_step_requested _ _ _ _ _ _ Hst).
  - left. by eapply ss_synch.
Qed.

(** A step of the machine that starts nothing is a move of the main goroutine
    or leaves its program point alone. *)
Lemma step_cases_main m m' :
  step env_of m m' → m_main m ≠ PIdle → main_step m m' ∨ m_main m' = m_main m.
Proof. intros Hst Hm. destruct Hst; try by right. left. by apply ms_synch. Qed.

Lemma step_version m m' : step env_of m m' → m_ver m ≤ m_ver m'.
Proof. destruct 1; simpl; lia. Qed.

Lemma step_main_done m m' err :
  step env_of m m' → m_main m = PDone err → m_main m' = PDone err.
Proof.
  destruct 1 as [| | | |m Hi ?| | | |m x p Hst|]; simpl; intros Hm; try done; [congruence|].
  rewrite Hm in Hst. inversion Hst.
Qed.

(** The scheduler exists once the main goroutine has left its start, and has
    stopped only if the context is done. *)
Lemma started_invariant m :
  reachable env_of m →
  (m_main m ≠ PIdle → is_Some (m_sched m)) ∧ (m_sched m = Some PStopped → m_cancelled m = true).
Proof.
  revert m. apply reachable_ind; [done|]. intros m m' _ [H1 H2] Hst.
  destruct Hst as [m|m n e Hn|m p Hp|m|m Hi Ho|m Hp Hr|m Hp Hc|m err Hp|m x p Hst|m x p p' Hp Hst];
    simpl in *; try (by split).
  - split; [|done]. intros _. apply H1. by apply pc_step_idle in Hst as [? _].
  - split; [by eexists|]. intros [= ->]. inversion Hst.
Qed.

(** Nothing to do: no request, no cancelled context, no handler call due. *)
Lemma quiet_sched m m' :
  m_sched m = Some PIdle → sac_requested (m_sac m) = false → m_cancelled m = false →
  ¬ sched_step m m'.
Proof.
  intros Hp Hr Hc Hst. destruct Hst as [m _ Hr'|m _ Hc'|m err Hp'|m x p p' Hp' Hst];
    [congruence..|]. simplify_eq. inversion Hst.
Qed.

Lemma quiet_notify m m' : m_notif m = 0 → ¬ notify_step m m'.
Proof. intros Hn Hst. destruct Hst. congruence. Qed.

(** *** The distance to fresh data

    How far the scheduler is from having stored data listed at version [v] or
    later: a caller that has yet to list, or listed late enough, is on the last
    lap; one that listed too early has to come round again, which it does when
    a request is queued. *)
Definition distance (v : nat) (m : machine) : option (nat * nat) :=
  let again n := if sac_requested (m_sac m) then Some n else None in
  match sched_pc m with
  | PCas => Some (4, 0)
  | PList => Some (3, 0)
  | PLoop v' items _ => if decide (v ≤ v') then Some (2, length items) else again (9, length items)
  | PRestock v' _ => if decide (v ≤ v') then Some (1, 0) else again (8, 0)
  | PRelease _ => again (7, 0)
  | PDone _ => again (6, 0)
  | PIdle => again (5, 0)
  | PStopped => None
  end.

Definition fresh (v : nat) (m : machine) : Prop := ∃ d, m_dver m = Some d ∧ v ≤ d.

(** A queued request, or a caller that will list late enough, is a distance. *)
Lemma distance_requested v m :
  sac_requested (m_sac m) = true → sched_pc m ≠ PStopped → is_Some (distance v m).
Proof.
  intros Hr Hp. unfold distance. rewrite Hr. destruct (sched_pc m); try done; by case_decide.
Qed.

Lemma distance_will_be_fresh m :
  will_be_fresh (m_ver m) (sched_pc m) → is_Some (distance (m_ver m) m).
Proof.
  unfold distance. destruct (sched_pc m); simpl; try done; intros ->; by rewrite decide_True.
Qed.

(** Moves of the environment keep it. *)
Lemma distance_env v m m' n :
  m_sched m' = m_sched m → (sac_requested (m_sac m) = true → sac_requested (m_sac m') = true) →
  distance v m = Some n → distance v m' = Some n.
Proof.
  unfold distance, sched_pc. intros -> Hr.
  destruct (sac_requested (m_sac m)); [by rewrite Hr|].
  destruct (default PIdle (m_sched m)); try done; by case_decide.
Qed.

(** Moves of the scheduler shorten it or store fresh data, unless the call is
    refused, fails, or the context is done. *)
Lemma distance_sched v m m' n :
  sched_step m m' → m_cancelled m = false → m_lost m' = false → v ≤ m_ver m →
  distance v m = Some n → (∃ n', distance v m' = Some n' ∧ closer n' n) ∨ fresh v m'.
Proof.
  intros Hst Hc Hl Hv. unfold distance.
  destruct Hst as [m Hp Hr|m Hp Hc'|m err Hp|m x p p' Hp Hst];
    unfold sched_pc; simpl in *; rewrite Hp; simpl; [|congruence| |].
  - rewrite Hr. intros [= <-]. left. eexists; split; [done|apply left_slex; lia].
  - intros Hd. destruct (sac_requested (m_sac m)); simplify_eq.
    left. eexists; split; [done|apply left_slex; lia].
  - rewrite (pc_step_requested _ _ _ _ _ _ Hst). simpl.
    destruct Hst; simpl in *; try done; intros Hd.
    all: repeat case_decide; try (destruct (sac_requested (m_sac m))); simplify_eq; try lia.
    all: first [left; eexists; split; [reflexivity|apply left_slex; lia]
               |left; eexists; split; [reflexivity|apply right_slex; simpl; lia]
               |right; by eexists].
Qed.
End runs.

(** *** Fair infinite runs *)
Section fair.
Context `{!UnicodeLower, !DeepCopyNs}.
Context (env_of : nat → SynchEnv).

(** A run may stutter.  It is fair to an actor if the actor moves again after
    every state in which it can. *)
Record fair_run (σ : nat → machine) : Prop := {
  fr_reachable : reachable env_of (σ 0);
  fr_step i : step env_of (σ i) (σ (S i)) ∨ σ (S i) = σ i;
  fr_sched i : (∃ m', sched_step env_of (σ i) m') → ∃ j, i ≤ j ∧ sched_step env_of (σ j) (σ (S j));
  fr_notify i : (∃ m', notify_step (σ i) m') → ∃ j, i ≤ j ∧ notify_step (σ j) (σ (S j));
}.

(** The run is fair to the main goroutine inside its [Synch]. *)
Definition main_fair (σ : nat → machine) : Prop :=
  ∀ i, (∃ m', main_step env_of (σ i) m') → ∃ j, i ≤ j ∧ main_step env_of (σ j) (σ (S j)).

Context (σ : nat → machine) (Hfair : fair_run σ).

Lemma fair_reachable i : reachable env_of (σ i).
Proof.
  induction i as [|i (opts & h & n & IH)]; [apply (fr_reachable _ Hfair)|].
  exists opts, h, n. destruct (fr_step _ Hfair i) as [Hst| ->]; [by eapply rtc_r|done].
Qed.

Lemma fair_version i j : i ≤ j → m_ver (σ i) ≤ m_ver (σ j).
Proof.
  induction 1 as [|j _ IH]; [done|].
  destruct (fr_step _ Hfair j) as [Hst%step_version| ->]; lia.
Qed.

(** *** Reaching a goal by a measure

    From the index [i0] on, a fairly scheduled actor can move whenever the
    measure is defined, every move of it lowers the measure or reaches the goal,
    and all other steps keep the measure. *)
Lemma fair_measure (i0 : nat) (moves : machine → machine → Prop)
    (μ : machine → option (nat * nat)) (G : machine → Prop) :
  (∀ i, (∃ m', moves (σ i) m') → ∃ j, i ≤ j ∧ moves (σ j) (σ (S j))) →
  (∀ i n, i0 ≤ i → μ (σ i) = Some n → ∃ m', moves (σ i) m') →
  (∀ i n, i0 ≤ i → μ (σ i) = Some n → moves (σ i) (σ (S i)) →
     (∃ n', μ (σ (S i)) = Some n' ∧ closer n' n) ∨ G (σ (S i))) →
  (∀ i n, i0 ≤ i → μ (σ i) = Some n → step env_of (σ i) (σ (S i)) →
     moves (σ i) (σ (S i)) ∨ μ (σ (S i)) = Some n) →
  ∀ i n, i0 ≤ i → μ (σ i) = Some n → ∃ j, i ≤ j ∧ G (σ j).
Proof.
  intros Hfm Hen Hmv Hother i n. revert i. induction (closer_wf n) as [n _ IH].
  assert (∀ δ i j, i0 ≤ i → j = i + δ → μ (σ i) = Some n → moves (σ j) (σ (S j)) →
    ∃ k, i ≤ k ∧ ((∃ n', μ (σ k) = Some n' ∧ closer n' n) ∨ G (σ k))) as Hnext.
  { induction δ as [|δ IHδ]; intros i j Hi -> Hμ Hj.
    - rewrite Nat.add_0_r in Hj. exists (S i). eauto with lia.
    - assert (moves (σ i) (σ (S i)) ∨ μ (σ (S i)) = Some n) as [Hm|Hμ'].
      { destruct (fr_step _ Hfair i) as [Hst| ->]; auto. }
      + exists (S i). eauto with lia.
      + destruct (IHδ (S i) (i + S δ)) as (k & Hk & Hres); [lia|lia|done|done|]. exists k. auto with lia. }
  intros i Hi Hμ. destruct (Hfm i (Hen i n Hi Hμ)) as (j & Hij & Hj).
  destruct (Hnext (j - i) i j) as (k & Hk & [(n' & Hμ' & Hc)|Hg]); [done|lia|done|done| |by exists k].
  destruct (IH n' Hc k) as (l & Hl & Hg); [lia|done|]. exists l. auto with lia.
Qed.

(** *** Every call returns *)
Definition call_rank (p : pc) : option (nat * nat) := if calling p then Some (pc_rank p) else None.

Lemma call_rank_Some p n : call_rank p = Some n → calling p = true ∧ n = pc_rank p.
Proof. unfold call_rank. destruct (calling p); naive_solver. Qed.

(** A step of a call, by the measure. *)
Lemma call_rank_step ver x p x' p' n :
  pc_step env_of ver x p x' p' → call_rank p = Some n →
  (∃ n', call_rank p' = Some n' ∧ closer n' n) ∨ ∃ err, p' = PDone err.
Proof.
  intros (Hp & [[Hp' Hc]|Hd])%pc_step_rank [_ ->]%call_rank_Some; [left|by right].
  unfold call_rank. rewrite Hp'. eauto.
Qed.

Lemma fair_sched_returns i :
  calling (sched_pc (σ i)) = true → ∃ j, i ≤ j ∧ ∃ err, sched_pc (σ j) = PDone err.
Proof.
  intros Hc. apply (fair_measure 0 (sched_step env_of) (λ m, call_rank (sched_pc m))
    (λ m, ∃ err, sched_pc m = PDone err)) with (n := pc_rank (sched_pc (σ i))); [|..|lia|].
  - apply (fr_sched _ Hfair).
  - intros k n _ [Hk _]%call_rank_Some. unfold sched_pc in Hk.
    destruct (m_sched (σ k)) as [p|] eqn:Hp; [|done].
    destruct (pc_step_progress env_of (m_ver (σ k)) (shared_of (σ k)) p Hk) as (x & p' & Hst).
    eexists. by eapply ss_synch.
  - intros k n _ Hk Hst. destruct Hst as [m Hp _|m Hp _|m err Hp|m x p p' Hp Hst];
      unfold sched_pc in Hk |- *; rewrite Hp in Hk; simpl in *; [done..|].
    by eapply call_rank_step.
  - intros k n _ Hk Hst.
    assert (m_main (σ k) ≠ PIdle) as Hm.
    { intros Hm. destruct (guard_invariant env_of _ (fair_reachable k)) as (_ & _ & Hn).
      unfold sched_pc in Hk. by rewrite (Hn Hm) in Hk. }
    destruct (step_cases env_of _ _ Hst Hm) as [Hs|(Hs & _)]; [by left|right].
    unfold sched_pc in *. by rewrite Hs.
  - unfold call_rank. by rewrite Hc.
Qed.

Lemma fair_main_returns i :
  main_fair σ → calling (m_main (σ i)) = true → ∃ j, i ≤ j ∧ ∃ err, m_main (σ j) = PDone err.
Proof.
  intros Hmf Hc. apply (fair_measure 0 (main_step env_of) (λ m, call_rank (m_main m))
    (λ m, ∃ err, m_main m = PDone err)) with (n := pc_rank (m_main (σ i))); [done|..|lia|].
  - intros k n _ [Hk _]%call_rank_Some.
    destruct (pc_step_progress env_of (m_ver (σ k)) (shared_of (σ k)) _ Hk) as (x & p' & Hst).
    eexists. by eapply ms_synch.
  - intros k n _ Hk Hst. destruct Hst as [m x p Hst]. simpl. by eapply call_rank_step.
  - intros k n _ Hk Hst. destruct (step_cases_main env_of _ _ Hst) as [Hs|Hs]; [|by left|right; by rewrite Hs].
    intros Hm. by rewrite Hm in Hk.
  - unfold call_rank. by rewrite Hc.
Qed.

(** *** Changes reach the cache *)
Context (err : option error) (Hmain : m_main (σ 0) = PDone err).
Context (Hlost : ∀ i, m_lost (σ i) = false) (Hctx : ∀ i, m_cancelled (σ i) = false).

Lemma fair_main i : m_main (σ i) = PDone err.
Proof.
  induction i as [|i IH]; [done|].
  destruct (fr_step _ Hfair i) as [Hst| ->]; [by eapply step_main_done|done].
Qed.

Lemma fair_not_stopped i : sched_pc (σ i) ≠ PStopped.
Proof.
  destruct (started_invariant env_of _ (fair_reachable i)) as [_ Hs]. unfold sched_pc.
  destruct (m_sched (σ i)) as [[]|] eqn:E; try done. intros _.
  specialize (Hs eq_refl). by rewrite Hctx in Hs.
Qed.

(** A scheduler with a distance to go can move. *)
Lemma fair_enabled v i n : distance v (σ i) = Some n → ∃ m', sched_step env_of (σ i) m'.
Proof.
  intros Hd. destruct (started_invariant env_of _ (fair_reachable i)) as [[p Hp] _];
    [by rewrite fair_main|].
  unfold distance, sched_pc in Hd. rewrite Hp in Hd. simpl in Hd.
  destruct (calling p) eqn:Hr.
  - destruct (pc_step_progress env_of (m_ver (σ i)) (shared_of (σ i)) p Hr) as (x & p' & Hst).
    eexists. by eapply ss_synch.
  - destruct p; simpl in Hr; try done; [|by eexists; eapply ss_again].
    destruct (sac_requested (m_sac (σ i))) eqn:Hq; [|done]. eexists. by eapply ss_receive.
Qed.

Lemma fair_distance_fresh v i n :
  v ≤ m_ver (σ i) → distance v (σ i) = Some n → ∃ j, i ≤ j ∧ fresh v (σ j).
Proof.
  intros Hv Hd. apply (fair_measure i (sched_step env_of) (distance v) (fresh v)) with (n := n);
    [apply (fr_sched _ Hfair)|..|done|done].
  - intros k n' _. apply fair_enabled.
  - intros k n' Hk Hn Hst. pose proof (fair_version i k Hk). eapply distance_sched; eauto. lia.
  - intros k n' Hk Hn Hst.
    destruct (step_cases env_of _ _ Hst) as [Hs|(Hp & _ & Hr)]; [by rewrite fair_main|by left|right].
    by eapply distance_env.
Qed.

(** A handler call that is due leads to a queued request. *)
Lemma fair_notified i :
  0 < m_notif (σ i) → ∃ j, i ≤ j ∧ sac_requested (m_sac (σ j)) = true.
Proof.
  intros Hn. destruct (fr_notify _ Hfair i) as (j & Hij & Hst).
  { destruct (m_notif (σ i)) as [|n] eqn:E; [lia|]. eexists. by apply (ns_notify _ n (IAdd None)). }
  exists (S j). split; [lia|]. inversion Hst as [m n e Hm Heq Heq']. simpl.
  destruct (EventHandlerFuncs_eq (m_sac (σ j)) e) as [ev ->]. apply Request_requested.
Qed.

Lemma fair_fresh i : ∃ j, i ≤ j ∧ fresh (m_ver (σ i)) (σ j).
Proof.
  assert (∀ k, i ≤ k → is_Some (distance (m_ver (σ i)) (σ k)) →
          ∃ j, i ≤ j ∧ fresh (m_ver (σ i)) (σ j)) as Hdist.
  { intros k Hk [n Hn]. pose proof (fair_version i k Hk).
    destruct (fair_distance_fresh (m_ver (σ i)) k n) as (j & Hj & Hf); [done|done|]. exists j. split; [lia|done]. }
  assert (∀ k, i ≤ k → sac_requested (m_sac (σ k)) = true →
          ∃ j, i ≤ j ∧ fresh (m_ver (σ i)) (σ j)) as Hreq.
  { intros k Hk Hq. apply (Hdist k Hk), distance_requested; [done|apply fair_not_stopped]. }
  destruct (covered_invariant env_of _ (fair_reachable i) (Hlost i))
    as [Hd|[Hn|[Hq|[Hm|[Hm|Hs]]]]].
  - exists i. split; [done|]. by eexists.
  - destruct (fair_notified i Hn) as (k & Hk & Hq). by apply (Hreq k).
  - by apply (Hreq i).
  - by rewrite fair_main in Hm.
  - by rewrite fair_main in Hm.
  - apply (Hdist i); [done|]. by apply distance_will_be_fresh.
Qed.

(** Fresh data is only replaced by fresh data. *)
Lemma fair_settled v i j :
  (∀ k, i ≤ k → m_ver (σ k) = v) → i ≤ j → m_dver (σ j) = Some v →
  ∀ k, j ≤ k → m_dver (σ k) = Some v.
Proof.
  intros Hv Hij Hd. induction 1 as [|k Hk IH]; [done|].
  destruct (fr_step _ Hfair k) as [Hst| ->]; [|done].
  pose proof (Hv k ltac:(lia)) as Hvk. pose proof (Hlost (S k)) as Hl.
  destruct (order_invariant env_of _ (fair_reachable k)) as (Ho & Hpm & Hps).
  destruct Hst as [m|m n e Hn|m p Hp|m|m Hi Hon|m Hp Hr|m Hp Hc|m er Hp|m x p Hst|m x p p' Hp Hst];
    simpl in *; try done.
  - apply pc_step_fresh in Hst as (_ & _ & Hf & _); [|done..]. rewrite Hvk in Hf. auto.
  - unfold sched_pc in Hps. rewrite Hp in Hps.
    apply pc_step_fresh in Hst as (_ & _ & Hf & _); [|done..]. rewrite Hvk in Hf. auto.
Qed.
End fair.

(** ** Properties *)
Section properties.
Context `{!UnicodeLower, !DeepCopyNs}.
Context (env_of : nat → SynchEnv).

(** C13: every call of [Synch] returns and gives the guard back.  In every infinite
    run that is fair to the scheduler, a synchronization the scheduler has
    begun returns, even if the resources keep changing between the iterations
    of its loop, events keep coming or the context is cancelled; and so does
    the initial one if the run is fair to the main goroutine.  Whenever one
    has returned, the guard is held only if the other caller is inside. *)
Theorem Synch_returns (σ : nat → machine) i :
  fair_run env_of σ →
  (calling (sched_pc (σ i)) = true →
   ∃ j err, i ≤ j ∧ sched_pc (σ j) = PDone err ∧
            sac_synchronizing (m_sac (σ j)) = critical (m_main (σ j))) ∧
  (main_fair env_of σ → calling (m_main (σ i)) = true →
   ∃ j err, i ≤ j ∧ m_main (σ j) = PDone err ∧
            sac_synchronizing (m_sac (σ j)) = critical (sched_pc (σ j))).
Proof.
  intros Hf. split.
  - intros Hc. destruct (fair_sched_returns env_of σ Hf i Hc) as (j & Hj & err & He).
    exists j, err. split_and!; [done|done|].
    destruct (guard_invariant env_of _ (fair_reachable env_of σ Hf j)) as (Hg & _).
    by rewrite Hg, He, orb_false_r.
  - intros Hmf Hc. destruct (fair_main_returns env_of σ Hf i Hmf Hc) as (j & Hj & err & He).
    exists j, err. split_and!; [done|done|].
    destruct (guard_invariant env_of _ (fair_reachable env_of σ Hf j)) as (Hg & _).
    by rewrite Hg, He.
Qed.

(** C7: eventual consistency.  In every infinite run after a successful startup
    that is fair to the scheduler and to the informers, as long as no
    synchronization is refused or fails and the context is not cancelled, every
    version of the resources is eventually covered: some time later the cache
    holds the complete result of a synchronization that listed the namespaces
    at that version or a later one, and asked the locator about each of them at
    a version between the listing and now. *)
Theorem eventual_consistency (σ : nat → machine) i :
  fair_run env_of σ → m_main (σ 0) = PDone None →
  (∀ j, m_lost (σ j) = false) → (∀ j, m_cancelled (σ j) = false) →
  ∃ j c d, i ≤ j ∧ data (sac_cache (m_sac (σ j))) = Some c ∧ m_dver (σ j) = Some d ∧
           m_ver (σ i) ≤ d ∧ computed env_of d (m_ver (σ j)) c.
Proof.
  intros Hf Hm Hl Hc. destruct (fair_fresh env_of σ Hf None Hm Hl Hc i) as (j & Hj & d & Hd & Hv).
  destruct (data_invariant env_of _ (fair_reachable env_of σ Hf j)) as (_ & Hdata & Hpm & _).
  rewrite (fair_main env_of σ Hf None Hm) in Hpm. simpl in Hpm.
  destruct (data (sac_cache (m_sac (σ j)))) as [c|] eqn:E; [|done].
  destruct (Hdata c eq_refl) as (d' & Hd' & Hcomp). simplify_eq. by exists j, c, d.
Qed.

(** C12: convergence.  In such a run, if the resources stop changing, the cache
    settles: from some moment on it always holds exactly the data that [synch],
    running alone and undisturbed on the final resources, computes and stores.
    No interleaving of events, timer ticks and earlier synchronizations leaves a
    trace. *)
Theorem cache_converges (σ : nat → machine) i v :
  fair_run env_of σ → m_main (σ 0) = PDone None →
  (∀ j, m_lost (σ j) = false) → (∀ j, m_cancelled (σ j) = false) →
  (∀ k, i ≤ k → m_ver (σ k) = v) →
  ∃ j, i ≤ j ∧ ∀ k s, j ≤ k →
    ∃ c h h', data (sac_cache (m_sac (σ k))) = Some c ∧
      synch (env_at env_of v) h s = (h', set_cache (Restock (sac_cache s) (Some c)) s, Some c, None).
Proof.
  intros Hf Hm Hl Hc Hv.
  destruct (fair_fresh env_of σ Hf None Hm Hl Hc i) as (j & Hj & d & Hd & Hle).
  assert (d = v) as ->.
  { destruct (order_invariant env_of _ (fair_reachable env_of σ Hf j)) as (Ho & _).
    specialize (Ho d Hd). rewrite (Hv i), (Hv j) in * by lia. lia. }
  exists j. split; [done|]. intros k s Hk.
  pose proof (fair_settled env_of σ Hf Hl v i j Hv Hj Hd k Hk) as Hdk.
  destruct (data_invariant env_of _ (fair_reachable env_of σ Hf k)) as (_ & Hdata & Hpm & _).
  rewrite (fair_main env_of σ Hf None Hm) in Hpm. simpl in Hpm.
  destruct (data (sac_cache (m_sac (σ k)))) as [c|] eqn:E; [|done].
  destruct (Hdata c eq_refl) as (d' & Hd' & Hcomp). rewrite Hdk in Hd'. injection Hd' as <-.
  rewrite (Hv k) in Hcomp by lia.
  destruct (computed_synch env_of v c s Hcomp) as (h & h' & Hs). by exists c, h, h'.
Qed.
End properties.

(** ** Witnesses *)
(** A quiet state after startup. *)
Section sample_run.
#[local] Existing Instance sample_lower.
#[local] Instance sample_copy : DeepCopyNs := simple_deep_copy.

Lemma quiet_state :
  ∃ m, reachable sample_env_of m ∧ m_main m = PDone None ∧ m_sched m = Some PIdle ∧
       sac_requested (m_sac m) = false ∧ sac_synchronizing (m_sac m) = false ∧
       m_notif m = 0 ∧ m_ver m = 0 ∧ m_cancelled m = false ∧ m_lost m = false.
Proof.
  set (s := set_once (NewSynchronizedAccessCache sample_opts)).
  destruct (run_success sample_env_of 0 [] s None false sample_heap [ns_team; ns_bare] eq_refl eq_refl)
    as (h'' & c & Hrun).
  set (m1 := with_shared (initial sample_opts [] 0) (mkShared [] s None false) PCas (Some PIdle)).
  pose proof (run_main sample_env_of m1 0 _ _ eq_refl eq_refl Hrun) as Hrun'.
  eexists. split.
  { exists sample_opts, [], 0. eapply rtc_l; [by apply step_start|]. exact Hrun'. }
  by split_and!.
Qed.

(** From there: a change, its notification, and the scheduler's whole round,
    after which nothing moves. *)
Section round.
Context (m0 : machine) (h6 h7 : heap) (c6 c7 : AccessData).
Context (Hm : m_main m0 = PDone None) (Hs : m_sched m0 = Some PIdle).
Context (Hq : sac_requested (m_sac m0) = false) (Hg : sac_synchronizing (m_sac m0) = false).
Context (Hn : m_notif m0 = 0).
Context (Hit6 : synch_iteration (sample_env_of (S (m_ver m0))) ns_team sample_heap ∅ = (h6, c6)).
Context (Hit7 : synch_iteration (sample_env_of (S (m_ver m0))) ns_bare h6 c6 = (h7, c7)).

Definition round_update : machine :=
  {| m_heap := m_heap m0; m_sac := m_sac m0; m_main := m_main m0; m_sched := m_sched m0;
     m_cancelled := m_cancelled m0; m_ver := S (m_ver m0); m_notif := S (m_notif m0);
     m_dver := m_dver m0; m_lost := m_lost m0 |}.
Definition round_notify : machine :=
  with_sac round_update (EventHandlerFuncs (m_sac m0) (IAdd None)).1.1 (m_notif m0) (m_sched m0).
Definition round_sac : SynchronizedAccessCache := set_requested false (m_sac round_notify).
Definition round_at (x : shared) (p : pc) : machine := with_shared round_notify x (m_main m0) (Some p).
Definition round_share (h : heap) (s : SynchronizedAccessCache) (d : option nat) : shared :=
  mkShared h s d (m_lost m0).

Definition round (i : nat) : machine :=
  let s1 := set_synchronizing true round_sac in
  let s2 := set_cache (Restock (sac_cache s1) (Some c7)) s1 in
  let s3 := set_synchronizing false s2 in
  match i with
  | 0 => m0
  | 1 => round_update
  | 2 => round_notify
  | 3 => with_sac round_notify round_sac (m_notif round_notify) (Some PCas)
  | 4 => round_at (round_share (m_heap m0) s1 (m_dver m0)) PList
  | 5 => round_at (round_share sample_heap s1 (m_dver m0)) (PLoop (S (m_ver m0)) [ns_team; ns_bare] ∅)
  | 6 => round_at (round_share h6 s1 (m_dver m0)) (PLoop (S (m_ver m0)) [ns_bare] c6)
  | 7 => round_at (round_share h7 s1 (m_dver m0)) (PLoop (S (m_ver m0)) [] c7)
  | 8 => round_at (round_share h7 s1 (m_dver m0)) (PRestock (S (m_ver m0)) c7)
  | 9 => round_at (round_share h7 s2 (Some (S (m_ver m0)))) (PRelease None)
  | 10 => round_at (round_share h7 s3 (Some (S (m_ver m0)))) (PDone None)
  | _ => round_at (round_share h7 s3 (Some (S (m_ver m0)))) PIdle
  end.

Lemma round_sac_guard : sac_synchronizing round_sac = false.
Proof. unfold round_sac, round_notify. simpl. by rewrite Request_synchronizing. Qed.

Lemma round_sched i : 2 ≤ i ≤ 10 → sched_step sample_env_of (round i) (round (S i)).
Proof.
  pose proof round_sac_guard as Hsg.
  intros Hi. destruct i as [|[|[|[|[|[|[|[|[|[|[|i]]]]]]]]]]]; try lia.
  - apply (ss_receive _ (round 2)); [done|]. simpl. apply Request_requested.
  - eapply (ss_synch _ (round 3)); [done|]. by apply step_cas_win.
  - eapply (ss_synch _ (round 4)); [done|]. by eapply step_list.
  - eapply (ss_synch _ (round 5)); [done|]. by apply step_iteration.
  - eapply (ss_synch _ (round 6)); [done|]. by apply step_iteration.
  - eapply (ss_synch _ (round 7)); [done|]. by apply step_loop_end.
  - eapply (ss_synch _ (round 8)); [done|]. by eapply step_restock.
  - eapply (ss_synch _ (round 9)); [done|]. by eapply step_release.
  - by eapply (ss_again _ (round 10)).
Qed.

Lemma round_step i : step sample_env_of (round i) (round (S i)) ∨ round (S i) = round i.
Proof.
  destruct (decide (2 ≤ i ≤ 10)) as [Hi|Hi]; [left; by apply sched_step_step, round_sched|].
  destruct i as [|[|i]]; simpl.
  - left. apply step_update.
  - left. by apply (step_notify _ round_update (m_notif m0) (IAdd None)).
  - right. do 9 (destruct i as [|i]; [lia|]). reflexivity.
Qed.

Lemma round_fair : reachable sample_env_of m0 → m_cancelled m0 = false → fair_run sample_env_of round.
Proof.
  intros Hr Hc. split; [done|apply round_step| |].
  - intros i [m' Hen]. destruct (decide (i ≤ 10)) as [Hi|Hi].
    { exists 10. split; [done|]. apply round_sched. lia. }
    do 11 (destruct i as [|i]; [lia|]). apply quiet_sched in Hen; [destruct Hen|reflexivity|reflexivity|exact Hc].
  - intros i [m' Hen]. destruct (decide (i ≤ 1)) as [Hi|Hi].
    { exists 1. split; [done|]. by apply (ns_notify round_update (m_notif m0) (IAdd None)). }
    apply quiet_notify in Hen; [destruct Hen|]. rewrite <-Hn.
    do 2 (destruct i as [|i]; [lia|]). do 9 (destruct i as [|i]; [reflexivity|]). reflexivity.
Qed.

Lemma round_const i :
  m_lost (round i) = m_lost m0 ∧ m_cancelled (round i) = m_cancelled m0 ∧
  (1 ≤ i → m_ver (round i) = S (m_ver m0)).
Proof.
  destruct i as [|i]; [split_and!; [reflexivity|reflexivity|by intros ?%Nat.nle_succ_0]|].
  do 10 (destruct i as [|i]; [split_and!; reflexivity|]). split_and!; reflexivity.
Qed.
End round.

(** A fair run in which a change is made, notified and stored. *)
Lemma sample_fair_run :
  ∃ σ, fair_run sample_env_of σ ∧ m_main (σ 0) = PDone None ∧ (∀ j, m_lost (σ j) = false) ∧
       (∀ j, m_cancelled (σ j) = false) ∧ (∀ j, 1 ≤ j → m_ver (σ j) = 1) ∧
       sched_pc (σ 3) = PCas.
Proof.
  destruct quiet_state as (m0 & Hr & Hm & Hs & Hq & Hg & Hn & Hv & Hc & Hl).
  destruct (synch_iteration (sample_env_of (S (m_ver m0))) ns_team sample_heap ∅) as [h6 c6] eqn:H6.
  destruct (synch_iteration (sample_env_of (S (m_ver m0))) ns_bare h6 c6) as [h7 c7] eqn:H7.
  exists (round m0 h6 h7 c6 c7).
  split; [exact (round_fair m0 h6 h7 c6 c7 Hs Hg Hn H6 H7 Hr Hc)|].
  split; [exact Hm|]. split; [|split; [|split; [|reflexivity]]]; intros j.
  - destruct (round_const m0 h6 h7 c6 c7 j) as (-> & _). exact Hl.
  - destruct (round_const m0 h6 h7 c6 c7 j) as (_ & -> & _). exact Hc.
  - destruct (round_const m0 h6 h7 c6 c7 j) as (_ & _ & Hj). intros H1. rewrite (Hj H1), Hv. reflexivity.
Qed.

Lemma Synch_returns_witness :
  ∃ σ, fair_run sample_env_of σ ∧ sched_pc (σ 3) = PCas ∧
  ∃ j err, 3 ≤ j ∧ sched_pc (σ j) = PDone err ∧
           sac_synchronizing (m_sac (σ j)) = critical (m_main (σ j)).
Proof.
  destruct sample_fair_run as (σ & Hf & _ & _ & _ & _ & Hp).
  exists σ. split; [exact Hf|]. split; [exact Hp|].
  refine (proj1 (@Synch_returns sample_lower simple_deep_copy sample_env_of σ 3 Hf) _).
  rewrite Hp. reflexivity.
Defined.

Lemma eventual_consistency_witness :
  ∃ σ, fair_run sample_env_of σ ∧ m_ver (σ 1) = 1 ∧
  ∃ j c d, 1 ≤ j ∧ data (sac_cache (m_sac (σ j))) = Some c ∧ m_dver (σ j) = Some d ∧ m_ver (σ 1) ≤ d ∧
           computed sample_env_of d (m_ver (σ j)) c.
Proof.
  destruct sample_fair_run as (σ & Hf & Hm & Hl & Hc & Hv & _).
  exists σ. split; [exact Hf|]. split; [apply Hv; lia|].
  apply (@eventual_consistency sample_lower simple_deep_copy sample_env_of σ 1);
    [exact Hf|exact Hm|exact Hl|exact Hc].
Defined.

Lemma cache_converges_witness :
  ∃ σ, fair_run sample_env_of σ ∧
  ∃ j, 1 ≤ j ∧ ∀ k s, j ≤ k →
    ∃ c h h', data (sac_cache (m_sac (σ k))) = Some c ∧
      synch (env_at sample_env_of 1) h s =
        (h', set_cache (Restock (sac_cache s) (Some c)) s, Some c, None).
Proof.
  destruct sample_fair_run as (σ & Hf & Hm & Hl & Hc & Hv & _).
  exists σ. split; [exact Hf|].
  apply (@cache_converges sample_lower simple_deep_copy sample_env_of σ 1 1);
    [exact Hf|exact Hm|exact Hl|exact Hc|exact Hv].
Defined.
End sample_run.
