(* ===== verification/GoHTTP.v ===== *)
(** * Go's [net/http], as far as the server uses it

    Header maps with canonical keys, the response writer, request contexts,
    [http.Error] and the routing of [http.ServeMux]. *)

From Stdlib Require Import Ascii.
From stdpp Require Import base gmap strings list.
From S2P Require Import Prelude GoStrings.

(** ** [http.Header] *)
Abbreviation Header := (gmap string (list string)).

Definition Header_Values (h : Header) (key : string) : list string :=
  default [] (h !! CanonicalMIMEHeaderKey key).
Definition Header_Get (h : Header) (key : string) : string :=
  default "" (head (Header_Values h key)).
Definition Header_Add (h : Header) (key value : string) : Header :=
  <[CanonicalMIMEHeaderKey key := Header_Values h key ++ [value]]> h.
Definition Header_Set (h : Header) (key value : string) : Header :=
  <[CanonicalMIMEHeaderKey key := [value]]> h.
Definition Header_Del (h : Header) (key : string) : Header :=
  delete (CanonicalMIMEHeaderKey key) h.

(** ** Users *)

(** [user.Info] and [authenticator.Response]; the user is an interface value,
    [None] when nil. *)
Record UserDetails := mkUser { u_Name : string; u_Groups : list string }.
Record Response := mkResponse { rs_User : option UserDetails }.

(** ** Loggers

    A [*slog.Logger] has the least level its handler prints ([None] for a
    handler that writes to [io.Discard]) and the attributes added with
    [With].  Levels are those of [log/slog]. *)
Definition LevelDebug : Z := -4.
Definition LevelInfo : Z := 0.
Definition LevelWarn : Z := 4.
Definition LevelError : Z := 8.

(** An attribute value, by its dynamic type. *)
Inductive LogValue :=
| LString (s : string)
| LError (e : error)
| LResponse (r : option Response).

Record LogRecord := mkLogRecord {
  lr_Level : Z;
  lr_Message : string;
  lr_Attrs : list (string * LogValue);
}.

Record Logger := mkLogger { lg_Level : option Z; lg_Attrs : list (string * LogValue) }.
Definition Logger_With (l : Logger) (k : string) (v : LogValue) : Logger :=
  {| lg_Level := lg_Level l; lg_Attrs := lg_Attrs l ++ [(k, v)] |}.
Definition discardLogger : Logger := {| lg_Level := None; lg_Attrs := [] |}.

(** ** Contexts *)

(** The context keys (internal/contextkey/context.go). *)
Inductive ContextKey := ContextKeyLogger | ContextKeyUserDetails.
#[export] Instance ContextKey_eq_dec : EqDecision ContextKey.
Proof. solve_decision. Defined.

(** A value stored in a context, with its dynamic type; pointers may be nil. *)
Inductive CtxValue :=
| VLogger (l : option Logger)
| VUser (r : option Response).

(** [context.WithValue] shadows; the newest binding is in front. *)
Abbreviation Ctx := (list (ContextKey * CtxValue)).
Definition WithValue (ctx : Ctx) (k : ContextKey) (v : CtxValue) : Ctx := (k, v) :: ctx.
Fixpoint Value (ctx : Ctx) (k : ContextKey) : option CtxValue :=
  match ctx with
  | [] => None
  | (k', v) :: ctx' => if decide (k' = k) then Some v else Value ctx' k
  end.

(** ** Requests and responses *)
Record Request := mkRequest {
  r_Method : string;
  r_Path : string;
  r_Header : Header;
  r_ctx : Ctx;
}.
Definition WithContext (r : Request) (ctx : Ctx) : Request :=
  {| r_Method := r_Method r; r_Path := r_Path r; r_Header := r_Header r; r_ctx := ctx |}.

(** The response writer: the header map under construction, the status and
    header once sent, the body, the error the connection gives to writes, and
    the log records written while serving. *)
Record ResponseWriter := mkRW {
  w_Header : Header;
  w_sent : option (Z * Header);
  w_body : string;
  w_connErr : option error;
  w_log : list LogRecord;
}.

Definition newResponse (connErr : option error) : ResponseWriter :=
  {| w_Header := ∅; w_sent := None; w_body := ""; w_connErr := connErr; w_log := [] |}.

Definition w_setHeader (h : Header) (w : ResponseWriter) : ResponseWriter :=
  {| w_Header := h; w_sent := w_sent w; w_body := w_body w; w_connErr := w_connErr w;
     w_log := w_log w |}.
Definition w_setSent (s : option (Z * Header)) (w : ResponseWriter) : ResponseWriter :=
  {| w_Header := w_Header w; w_sent := s; w_body := w_body w; w_connErr := w_connErr w;
     w_log := w_log w |}.
Definition w_append (b : string) (w : ResponseWriter) : ResponseWriter :=
  {| w_Header := w_Header w; w_sent := w_sent w; w_body := w_body w +:+ b;
     w_connErr := w_connErr w; w_log := w_log w |}.
Definition w_addLog (e : LogRecord) (w : ResponseWriter) : ResponseWriter :=
  {| w_Header := w_Header w; w_sent := w_sent w; w_body := w_body w;
     w_connErr := w_connErr w; w_log := w_log w ++ [e] |}.

(** A call of a logger's method: the record is printed when its level is
    enabled. *)
Definition Logger_Log (l : Logger) (level : Z) (msg : string) (attrs : list (string * LogValue))
    (w : ResponseWriter) : ResponseWriter :=
  match lg_Level l with
  | Some min => if decide (min ≤ level)%Z
                then w_addLog {| lr_Level := level; lr_Message := msg;
                                 lr_Attrs := lg_Attrs l ++ attrs |} w
                else w
  | None => w
  end.

Definition StatusOK : Z := 200.
Definition StatusUnauthorized : Z := 401.
Definition StatusInternalServerError : Z := 500.

(** [WriteHeader]: the first final status wins, an informational status is not
    final, a status outside 100..999 panics. *)
Definition WriteHeader (w : ResponseWriter) (code : Z) : GoRes ResponseWriter :=
  match w_sent w with
  | Some _ => Ret w
  | None =>
      if decide (100 ≤ code ≤ 999)%Z then
        if decide (code ≤ 199 ∧ code ≠ 101)%Z then Ret w
        else Ret (w_setSent (Some (code, w_Header w)) w)
      else Panic "invalid WriteHeader code"
  end.

(** The status the client sees: 200 when the handler sent none. *)
Definition final_status (w : ResponseWriter) : Z :=
  match w_sent w with Some (c, _) => c | None => StatusOK end.

(** Informational responses, 204 and 304 have no body. *)
Definition bodyAllowedForStatus (status : Z) : bool :=
  negb (bool_decide (100 ≤ status ≤ 199)%Z || bool_decide (status = 204%Z) ||
        bool_decide (status = 304%Z)).
Definition ErrBodyNotAllowed : error :=
  ErrNew "http: request method or response status code does not allow body".

(** [Write]: sends status 200 first if no status was sent; a body the status
    does not allow is refused. *)
Definition Write (w : ResponseWriter) (b : string) : GoRes (ResponseWriter * option error) :=
  let! w1 := WriteHeader w StatusOK in
  if decide (b = "") then Ret (w1, None)
  else if bodyAllowedForStatus (final_status w1) then
    match w_connErr w1 with
    | Some e => Ret (w1, Some e)
    | None => Ret (w_append b w1, None)
    end
  else Ret (w1, Some ErrBodyNotAllowed).

(** [http.Error] *)
Definition http_Error (w : ResponseWriter) (msg : string) (code : Z) : GoRes ResponseWriter :=
  let h := Header_Del (w_Header w) "Content-Length" in
  let h := Header_Set h "Content-Type" "text/plain; charset=utf-8" in
  let h := Header_Set h "X-Content-Type-Options" "nosniff" in
  let! w1 := WriteHeader (w_setHeader h w) code in
  let! r := Write w1 (msg +:+ String "010"%char "") in
  Ret r.1.

Abbreviation Handler := (Request → ResponseWriter → GoRes ResponseWriter).

(** ** [http.ServeMux]

    Patterns are a method and a path without wildcard or trailing slash; the
    path of a request has no percent escapes. *)

(** [path.Clean] on a rooted path, by segments. *)
Definition clean_segment (stack : list string) (seg : string) : list string :=
  if decide (seg = "" ∨ seg = ".") then stack
  else if decide (seg = "..") then tail stack
  else seg :: stack.
Definition path_Clean (p : string) : string :=
  String "/"%char (Join "/"%char (rev (foldl clean_segment [] (Split "/"%char p)))).

Fixpoint last_byte (s : string) : option ascii :=
  match s with
  | EmptyString => None
  | String c EmptyString => Some c
  | String _ s' => last_byte s'
  end.

Definition cleanPath (p : string) : string :=
  match p with
  | EmptyString => "/"
  | String c _ =>
      let p := if decide (c = "/"%char) then p else String "/"%char p in
      let np := path_Clean p in
      if decide (last_byte p = Some "/"%char ∧ np ≠ "/") then np +:+ "/" else np
  end.

Inductive Route (A : Type) :=
| RouteTo (h : A)             (* a registered handler *)
| RouteRedirect (p : string)  (* 301 to the cleaned path *)
| RouteMethodNotAllowed       (* 405 *)
| RouteNotFound.              (* 404 *)
Arguments RouteTo {A} h.
Arguments RouteRedirect {A} p.
Arguments RouteMethodNotAllowed {A}.
Arguments RouteNotFound {A}.

(** A pattern with method GET also matches HEAD. *)
Definition method_matches (pat m : string) : bool :=
  bool_decide (pat = m) || (bool_decide (pat = "GET") && bool_decide (m = "HEAD")).

(** A registered pattern: method, path, handler. *)
Record Pattern (A : Type) := mkPattern { p_method : string; p_path : string; p_handler : A }.
Arguments mkPattern {A} _ _ _.
Arguments p_method {A} _.
Arguments p_path {A} _.
Arguments p_handler {A} _.

Definition find_pattern {A} (pats : list (Pattern A)) (m path : string) : option (Pattern A) :=
  snd <$> list_find (λ p, method_matches (p_method p) m = true ∧ p_path p = path) pats.

Definition ServeMux_route {A} (pats : list (Pattern A)) (m path : string) : Route A :=
  if decide (m = "CONNECT") then
    (* CONNECT paths are not cleaned *)
    match find_pattern pats m path with
    | Some p => RouteTo (p_handler p)
    | None => if existsb (λ p, bool_decide (p_path p = path)) pats
              then RouteMethodNotAllowed else RouteNotFound
    end
  else
    let np := cleanPath path in
    if decide (np ≠ path) then RouteRedirect np
    else match find_pattern pats m np with
         | Some p => RouteTo (p_handler p)
         | None => if existsb (λ p, bool_decide (p_path p = np)) pats
                   then RouteMethodNotAllowed else RouteNotFound
         end.

(** ** Lemmas *)

Lemma Header_Values_case h s t :
  string_forallb validHeaderFieldByte s = true →
  string_map lower_byte s = string_map lower_byte t →
  Header_Values h s = Header_Values h t.
Proof. intros Hs Ht. unfold Header_Values. by rewrite (CanonicalMIMEHeaderKey_case s t). Qed.

Lemma Header_Get_Values h k : Header_Get h k ≠ "" → ∃ l, Header_Values h k = Header_Get h k :: l.
Proof. unfold Header_Get. destruct (Header_Values h k) as [|x l]; simpl; [done|eauto]. Qed.

(** Logging does not touch the response. *)
Lemma Logger_Log_sent l lv msg at_ w :
  let w' := Logger_Log l lv msg at_ w in
  w_sent w' = w_sent w ∧ w_body w' = w_body w ∧ w_Header w' = w_Header w ∧
  w_connErr w' = w_connErr w.
Proof. unfold Logger_Log. destruct (lg_Level l); [case_decide|]; done. Qed.

Lemma WriteHeader_fresh w code :
  w_sent w = None → (200 ≤ code ≤ 999)%Z →
  WriteHeader w code = Ret (w_setSent (Some (code, w_Header w)) w).
Proof.
  intros Hs Hc. unfold WriteHeader. rewrite Hs.
  rewrite decide_True by lia. by rewrite decide_False by lia.
Qed.

Lemma WriteHeader_sent w code : w_sent w ≠ None → WriteHeader w code = Ret w.
Proof. unfold WriteHeader. by destruct (w_sent w). Qed.

(** A write never changes a status that was sent. *)
Lemma Write_status w b :
  w_sent w ≠ None →
  ∃ w' e, Write w b = Ret (w', e) ∧ w_sent w' = w_sent w ∧ w_log w' = w_log w.
Proof.
  intros Hs. unfold Write. rewrite WriteHeader_sent by done. simpl.
  case_decide; [eauto 10|]. destruct (bodyAllowedForStatus _); [|eauto 10].
  destruct (w_connErr w) eqn:E; eauto 10.
Qed.

Lemma http_Error_fresh w msg code :
  w_sent w = None → (200 ≤ code ≤ 999)%Z →
  ∃ w' h, http_Error w msg code = Ret w' ∧ w_sent w' = Some (code, h) ∧ w_log w' = w_log w.
Proof.
  intros Hs Hc. unfold http_Error. rewrite WriteHeader_fresh by done. simpl.
  set (w1 := w_setSent _ _).
  destruct (Write_status w1 (msg +:+ String "010"%char "")) as (w' & e & -> & Hs' & Hl);
    [done|]. simpl. eexists _, _. split; [done|]. by rewrite Hs', Hl.
Qed.

#[export] Hint Rewrite @WriteHeader_sent @WriteHeader_fresh using done : golib.
