(* ===== verification/Authn.v ===== *)
(** * Authentication of requests (authenticator.go)

    A proxy in front of the server may already have authenticated the request
    and put the identity in headers; otherwise the request goes to a delegating
    authenticator, which asks the API server to review the bearer token.  The
    delegating authenticator and the clients it is built from are libraries:
    they are parameters here. *)

From stdpp Require Import base gmap strings list.
From S2P Require Import Prelude GoStrings GoHTTP.

(** [authenticator.Request]: a response, whether the request is authenticated,
    and an error. *)
Abbreviation AuthResult := (option Response * bool * option error)%type.
Abbreviation AuthRequest := (Request → GoRes AuthResult).

Record Authenticator := mkAuthenticator {
  usernameHeader : string;
  groupsHeader : string;
  a_next : AuthRequest;
}.

Definition AuthenticateRequest (a : Authenticator) (req : Request) : GoRes AuthResult :=
  if decide (usernameHeader a ≠ "") then
    let username := Header_Get (r_Header req) (usernameHeader a) in
    if decide (username ≠ "") then
      let groups := Header_Values (r_Header req) (groupsHeader a) in
      Ret (Some {| rs_User := Some {| u_Name := username; u_Groups := groups |} |}, true, None)
    else a_next a req
  else a_next a req.

(** ** Building an authenticator *)
Section build.
(** [rest.Interface], [*rest.Config] and [*AuthenticationV1Client]. *)
Context {RestClient RestConfig AuthClient SecurityDefinitions : Type}.

(** [wait.Backoff], durations in nanoseconds. *)
Record Backoff := mkBackoff {
  b_Duration : Z; b_Cap : Z; b_Steps : Z; b_Factor : Z; b_Jitter : Z;
}.
Record DelegatingAuthenticatorConfig := mkDelegating {
  dc_AnonymousEnabled : bool;
  dc_TokenAccessReviewClient : AuthClient;
  dc_TokenAccessReviewTimeout : Z;
  dc_WebhookRetryBackoff : Backoff;
  dc_CacheTTL : Z;
}.

(** The constructors of the libraries: [authenticationv1.New],
    [authenticationv1.NewForConfigOrDie], [rest.CopyConfig] and
    [DelegatingAuthenticatorConfig.New]. *)
Variable authv1_New : RestClient → AuthClient.
Variable authv1_NewForConfigOrDie : RestConfig → GoRes AuthClient.
Variable rest_CopyConfig : RestConfig → RestConfig.
Variable delegating_New : DelegatingAuthenticatorConfig →
  option AuthRequest * option SecurityDefinitions * option error.

Definition Second : Z := 1000000000.
Definition Minute : Z := 60 * Second.

Definition tokenReviewConfig (c : AuthClient) : DelegatingAuthenticatorConfig :=
  {| dc_AnonymousEnabled := false;
     dc_TokenAccessReviewClient := c;
     dc_TokenAccessReviewTimeout := 1 * Minute;
     dc_WebhookRetryBackoff :=
       {| b_Duration := 2 * Second; b_Cap := 2 * Minute; b_Steps := 100;
          b_Factor := 2; b_Jitter := 2 |};
     dc_CacheTTL := 5 * Minute |}.

Definition newTokenReviewAuthenticator (c : AuthClient) := delegating_New (tokenReviewConfig c).

Definition NewTokenReviewAuthenticatorWithClient (c : RestClient) :=
  newTokenReviewAuthenticator (authv1_New c).

Definition NewTokenReviewAuthenticatorWithConfig (cfg : RestConfig) :=
  let! c := authv1_NewForConfigOrDie (rest_CopyConfig cfg) in
  Ret (newTokenReviewAuthenticator c).

(** Nil interfaces and pointers are [None]. *)
Record AuthenticatorOptions := mkAuthOpts {
  ao_Client : option RestClient;
  ao_Config : option RestConfig;
  ao_UsernameHeader : string;
  ao_GroupsHeader : string;
}.

Definition errNoClient : error :=
  ErrNew "one among client and config is required to build the TokenRevierAuthenticator".

Definition newTokenReviewAuthenticatorWithOpts (opts : AuthenticatorOptions) :
    GoRes (option AuthRequest * option SecurityDefinitions * option error) :=
  match ao_Client opts, ao_Config opts with
  | Some c, _ => Ret (NewTokenReviewAuthenticatorWithClient c)
  | None, Some cfg => NewTokenReviewAuthenticatorWithConfig cfg
  | None, None => Ret (None, None, Some errNoClient)
  end.

(** Calling a nil interface panics. *)
Definition call_next (ar : option AuthRequest) : AuthRequest := λ req,
  match ar with
  | Some f => f req
  | None => Panic "invalid memory address or nil pointer dereference"
  end.

Definition NewAuthenticator (opts : AuthenticatorOptions) :
    GoRes (option Authenticator * option error) :=
  let! r := newTokenReviewAuthenticatorWithOpts opts in
  match r with
  | (_, _, Some err) => Ret (None, Some err)
  | (ar, _, None) =>
      Ret (Some {| usernameHeader := ao_UsernameHeader opts;
                   groupsHeader := ao_GroupsHeader opts;
                   a_next := call_next ar |}, None)
  end.
End build.

(** ** The environment *)
Definition EnvUsernameHeader : string := "AUTH_USERNAME_HEADER".
Definition EnvGroupsHeader : string := "AUTH_GROUPS_HEADER".
(** [os.Getenv]: the empty string for a variable that is not set. *)
Abbreviation Environ := (gmap string string).
Definition Getenv (e : Environ) (k : string) : string := default "" (e !! k).
Definition GetUsernameHeaderFromEnv (e : Environ) : string := Getenv e EnvUsernameHeader.
Definition GetGroupsHeaderFromEnv (e : Environ) : string := Getenv e EnvGroupsHeader.

(** ** Lemmas *)

(** The request carries an identity in the header the authenticator reads. *)
Definition header_identity (a : Authenticator) (req : Request) : option UserDetails :=
  if decide (usernameHeader a = "" ∨ Header_Get (r_Header req) (usernameHeader a) = "")
  then None
  else Some {| u_Name := Header_Get (r_Header req) (usernameHeader a);
               u_Groups := Header_Values (r_Header req) (groupsHeader a) |}.

Lemma AuthenticateRequest_cases a req :
  AuthenticateRequest a req =
  match header_identity a req with
  | Some u => Ret (Some {| rs_User := Some u |}, true, None)
  | None => a_next a req
  end.
Proof.
  unfold AuthenticateRequest, header_identity.
  destruct (decide (usernameHeader a = "")) as [E|E]; rewrite E || clear E.
  all: repeat case_decide; naive_solver.
Qed.

(** Adding the values of one key one by one. *)
Lemma Header_Values_add h k vs :
  Header_Values (foldl (λ h v, Header_Add h k v) h vs) k = Header_Values h k ++ vs.
Proof.
  revert h. induction vs as [|v vs IH]; intros h; simpl; [by rewrite app_nil_r|].
  rewrite IH. unfold Header_Values at 1, Header_Add at 1.
  rewrite lookup_insert_eq. simpl. by rewrite <-app_assoc.
Qed.

Lemma Header_Values_add_ne h k k' vs :
  CanonicalMIMEHeaderKey k ≠ CanonicalMIMEHeaderKey k' →
  Header_Values (foldl (λ h v, Header_Add h k v) h vs) k' = Header_Values h k'.
Proof.
  intros Hk. revert h. induction vs as [|v vs IH]; intros h; simpl; [done|].
  rewrite IH. unfold Header_Add, Header_Values. by rewrite lookup_insert_ne.
Qed.

(** The two names denote the same header field. *)
Definition same_field (s t : string) : Prop :=
  string_forallb validHeaderFieldByte s = true ∧
  string_map lower_byte s = string_map lower_byte t.

Lemma same_field_canonical s t :
  same_field s t → CanonicalMIMEHeaderKey s = CanonicalMIMEHeaderKey t.
Proof. intros []. by apply CanonicalMIMEHeaderKey_case. Qed.

Lemma same_field_Values h s t : same_field s t → Header_Values h s = Header_Values h t.
Proof. intros []. by apply Header_Values_case. Qed.

(** The headers an authenticating proxy adds to a request. *)
Definition proxy_headers (h : Header) (uh gh name : string) (groups : list string) : Header :=
  foldl (λ h g, Header_Add h gh g) (Header_Del (Header_Set h uh name) gh) groups.

Lemma proxy_headers_user h uh gh name groups :
  CanonicalMIMEHeaderKey gh ≠ CanonicalMIMEHeaderKey uh →
  Header_Values (proxy_headers h uh gh name groups) uh = [name].
Proof.
  intros Hne. unfold proxy_headers. rewrite Header_Values_add_ne by done.
  unfold Header_Values, Header_Del, Header_Set.
  by rewrite lookup_delete_ne, lookup_insert_eq.
Qed.

Lemma proxy_headers_groups h uh gh name groups :
  Header_Values (proxy_headers h uh gh name groups) gh = groups.
Proof.
  unfold proxy_headers. rewrite Header_Values_add.
  unfold Header_Values, Header_Del. by rewrite lookup_delete_eq.
Qed.

Lemma AuthenticateRequest_fields a req h uh gh name groups :
  usernameHeader a ≠ "" → name ≠ "" →
  same_field (usernameHeader a) uh → same_field (groupsHeader a) gh →
  CanonicalMIMEHeaderKey gh ≠ CanonicalMIMEHeaderKey uh →
  r_Header req = proxy_headers h uh gh name groups →
  AuthenticateRequest a req =
  Ret (Some {| rs_User := Some {| u_Name := name; u_Groups := groups |} |}, true, None).
Proof.
  intros Ha Hn Hu Hg Hne Hr. rewrite AuthenticateRequest_cases. unfold header_identity, Header_Get.
  rewrite Hr, (same_field_Values _ _ _ Hu), (same_field_Values _ _ _ Hg).
  rewrite proxy_headers_user, proxy_headers_groups by done. simpl.
  rewrite decide_False by naive_solver. done.
Qed.

(** The header names themselves, on a request with any context. *)
Lemma AuthenticateRequest_proxy_lemma a req h name groups :
  usernameHeader a ≠ "" → name ≠ "" →
  string_forallb validHeaderFieldByte (usernameHeader a) = true →
  string_forallb validHeaderFieldByte (groupsHeader a) = true →
  CanonicalMIMEHeaderKey (groupsHeader a) ≠ CanonicalMIMEHeaderKey (usernameHeader a) →
  r_Header req = proxy_headers h (usernameHeader a) (groupsHeader a) name groups →
  AuthenticateRequest a req =
  Ret (Some {| rs_User := Some {| u_Name := name; u_Groups := groups |} |}, true, None).
Proof. intros. by eapply AuthenticateRequest_fields. Qed.

(** ** Properties *)

(** C24: a request whose identity was put in the headers by the proxy, under any
    capitalisation of the configured names, is authenticated as exactly that
    user with exactly those groups, whatever else the client sent under these
    headers, and the delegating authenticator is not consulted. *)
Theorem AuthenticateRequest_proxy a method path h ctx uh gh name groups :
  usernameHeader a ≠ "" → name ≠ "" →
  same_field (usernameHeader a) uh → same_field (groupsHeader a) gh →
  CanonicalMIMEHeaderKey gh ≠ CanonicalMIMEHeaderKey uh →
  AuthenticateRequest a
    {| r_Method := method; r_Path := path; r_ctx := ctx;
       r_Header := proxy_headers h uh gh name groups |} =
  Ret (Some {| rs_User := Some {| u_Name := name; u_Groups := groups |} |}, true, None).
Proof. intros. by eapply AuthenticateRequest_fields. Qed.

(** Without an identity in the header, or with header authentication
    disabled, the answer is the delegating authenticator's, errors and panics
    included. *)
Theorem AuthenticateRequest_delegates a req :
  usernameHeader a = "" ∨ Header_Get (r_Header req) (usernameHeader a) = "" →
  AuthenticateRequest a req = a_next a req.
Proof.
  intros H. rewrite AuthenticateRequest_cases. unfold header_identity.
  by rewrite decide_True.
Qed.

(** Building the authenticator prefers the client over the configuration
    and fails without panic when neither is given; what is built never allows
    anonymous access, delegates to what the library returned, and reads the
    headers of the options. *)
Theorem NewAuthenticator_spec {RestClient RestConfig AuthClient SD : Type}
    (new : RestClient → AuthClient) (dial : RestConfig → GoRes AuthClient)
    (copy : RestConfig → RestConfig)
    (build : @DelegatingAuthenticatorConfig AuthClient →
             option AuthRequest * option SD * option error)
    (opts : AuthenticatorOptions) :
  match ao_Client opts, ao_Config opts with
  | None, None => NewAuthenticator new dial copy build opts = Ret (None, Some errNoClient)
  | None, Some cfg =>
      ∀ why, dial (copy cfg) = Panic why → NewAuthenticator new dial copy build opts = Panic why
  | Some _, _ => True
  end ∧
  ∀ c, match ao_Client opts with
       | Some rc => c = new rc
       | None => ∃ cfg, ao_Config opts = Some cfg ∧ dial (copy cfg) = Ret c
       end →
    dc_AnonymousEnabled (tokenReviewConfig c) = false ∧
    match build (tokenReviewConfig c) with
    | (_, _, Some err) => NewAuthenticator new dial copy build opts = Ret (None, Some err)
    | (ar, _, None) =>
        ∃ a, NewAuthenticator new dial copy build opts = Ret (Some a, None) ∧
             usernameHeader a = ao_UsernameHeader opts ∧
             groupsHeader a = ao_GroupsHeader opts ∧
             ∀ f, ar = Some f → a_next a = f
    end.
Proof.
  unfold NewAuthenticator, newTokenReviewAuthenticatorWithOpts,
    NewTokenReviewAuthenticatorWithConfig, NewTokenReviewAuthenticatorWithClient,
    newTokenReviewAuthenticator.
  destruct (ao_Client opts) as [rc|], (ao_Config opts) as [cfg|]; (split; [|intros c]).
  all: try done; simpl.
  all: try by intros (cfg' & ? & ?).
  3: { by intros why ->. }
  all: first [intros -> | intros (cfg' & [= <-] & ->)]; simpl.
  all: destruct (build _) as [[ar sd] [err|]]; simpl; (split; [done|]); [done|].
  all: eexists; split; [done|]; split_and!; [done|done|].
  all: by intros f ->.
Qed.

(** ** Witnesses *)
Definition sample_authenticator : Authenticator :=
  {| usernameHeader := "X-User"; groupsHeader := "X-Groups";
     a_next := λ _, Ret (None, false, None) |}.

Lemma AuthenticateRequest_proxy_witness :
  AuthenticateRequest sample_authenticator
    {| r_Method := "GET"; r_Path := "/"; r_ctx := [];
       r_Header := proxy_headers {["X-User" := ["mallory"]]} "x-user" "x-groups" "alice" ["devs"] |} =
  Ret (Some {| rs_User := Some {| u_Name := "alice"; u_Groups := ["devs"] |} |}, true, None).
Proof.
  apply (AuthenticateRequest_proxy sample_authenticator);
    [done|done|by split|by split|by apply (bool_decide_unpack _)].
Defined.

Lemma AuthenticateRequest_delegates_witness :
  AuthenticateRequest sample_authenticator
    {| r_Method := "GET"; r_Path := "/"; r_ctx := []; r_Header := ∅ |} = Ret (None, false, None).
Proof. apply (AuthenticateRequest_delegates sample_authenticator). right. reflexivity. Defined.
