(* ===== verification/Middleware.v ===== *)
(** * The HTTP middlewares
    (internal/http/middleware/, internal/log/log.go, internal/contextkey/)

    Each middleware takes the next handler and returns a handler.  The logger
    and the authenticated user travel in the request's context. *)

From stdpp Require Import base gmap strings list.
From S2P Require Import Prelude GoStrings GoHTTP Authn.

(** ** The logger in the context (internal/log/log.go) *)
Definition SetLoggerIntoContext (ctx : Ctx) (logger : option Logger) : Ctx :=
  WithValue ctx ContextKeyLogger (VLogger logger).

(** The type assertion with [ok] and the nil test. *)
Definition GetLoggerFromContext (ctx : Ctx) : Logger :=
  match Value ctx ContextKeyLogger with
  | Some (VLogger (Some l)) => l
  | _ => discardLogger
  end.

(** ** Authentication (http_auth_middleware.go) *)
Definition AddAuthnMiddleware (ar : AuthRequest) (next : Handler) : Handler := λ r w,
  let! a := ar r in
  let '(rs, ok, oerr) := a in
  match oerr with
  | Some err =>
      let! w := WriteHeader w StatusUnauthorized in
      let l := GetLoggerFromContext (r_ctx r) in
      Ret (Logger_Log l LevelError "error authenticating request" [("error", LError err)] w)
  | None =>
      if negb ok then WriteHeader w StatusUnauthorized
      else
        let authCtx := WithValue (r_ctx r) ContextKeyUserDetails (VUser rs) in
        let l := Logger_With (GetLoggerFromContext (r_ctx r)) "user" (LResponse rs) in
        let w := Logger_Log l LevelDebug "request authenticated" [] w in
        next (WithContext r authCtx) w
  end.

(** ** Logging (http_log_middlewares.go) *)
Definition AddLogRequestMiddleware (next : Handler) : Handler := λ r w,
  let l := Logger_With (GetLoggerFromContext (r_ctx r)) "request" (LString (r_Path r)) in
  let! w := next r w in
  Ret (Logger_Log l LevelInfo "request processed" [] w).

(** [NewUUID] is [uuid.NewUUID], which is called once for each request. *)
Definition AddLogCorrelationIDMiddleware (NewUUID : Request → string) (next : Handler) : Handler :=
  λ r w,
  let l := GetLoggerFromContext (r_ctx r) in
  let cid := cmp_Or "" [Header_Get (r_Header r) "X-Correlation-ID"; NewUUID r] in
  let l := Logger_With l "correlation-id" (LString cid) in
  let ctx := SetLoggerIntoContext (r_ctx r) (Some l) in
  next (WithContext r ctx) w.

Definition AddInjectLoggerMiddleware (l : Logger) (next : Handler) : Handler := λ r w,
  let ctx := SetLoggerIntoContext (r_ctx r) (Some l) in
  next (WithContext r ctx) w.

(** ** Metrics (metrics_http.go) *)

(** Descriptors of the collectors.  Bucket bounds are the decimal literals of
    the source in units of 10^-10. *)
Inductive CollectorKind :=
| HistogramVec (buckets : list Z) (labels : list string)
| CounterVec (labels : list string)
| Gauge.
Record CollectorOpts := mkCollector {
  co_Namespace : string; co_Subsystem : string; co_Name : string; co_Help : string;
  co_Kind : CollectorKind;
}.
Record httpMetrics := mkHttpMetrics {
  requestTiming : CollectorOpts;
  requestCounter : CollectorOpts;
  responseSize : CollectorOpts;
  inFlightGauge : CollectorOpts;
}.

Definition latencyBuckets : list Z :=
  [10; 25; 50; 100; 250; 500; 1000; 2500; 5000;
   10000; 25000; 50000; 100000; 250000; 500000; 1000000; 2500000; 5000000;
   10000000; 25000000; 50000000; 100000000; 250000000; 500000000;
   1000000000; 2500000000; 5000000000;
   10000000000; 20000000000; 50000000000; 100000000000; 200000000000;
   300000000000; 600000000000]%Z.
Definition sizeBuckets : list Z :=
  map (Z.mul 10000000000)
    [1; 2; 5; 10; 20; 50; 100; 200; 500; 1000; 2000; 5000; 10000; 20000; 50000;
     100000; 200000; 500000]%Z.

Definition httpCollectors : httpMetrics :=
  {| requestTiming :=
       {| co_Namespace := "namespace_lister"; co_Subsystem := "api"; co_Name := "latency";
          co_Help := "Latency of requests";
          co_Kind := HistogramVec latencyBuckets ["code"; "method"] |};
     requestCounter :=
       {| co_Namespace := "namespace_lister"; co_Subsystem := "api"; co_Name := "counter";
          co_Help := "Number of requests completed";
          co_Kind := CounterVec ["code"; "method"] |};
     responseSize :=
       {| co_Namespace := "namespace_lister"; co_Subsystem := "api"; co_Name := "response_size";
          co_Help := "Size of responses";
          co_Kind := HistogramVec sizeBuckets ["code"; "method"] |};
     inFlightGauge :=
       {| co_Namespace := "namespace_lister"; co_Subsystem := "api";
          co_Name := "requests_in_flight";
          co_Help := "Number of requests currently processing"; co_Kind := Gauge |} |}.

(** What the library (prometheus, promhttp) provides: registering collectors,
    and the four instrumenting wrappers. *)
Class Prometheus (Registry : Type) := {
  MustRegister : Registry → list CollectorOpts → GoRes Registry;
  InstrumentHandlerDuration : CollectorOpts → Handler → Handler;
  InstrumentHandlerCounter : CollectorOpts → Handler → Handler;
  InstrumentHandlerResponseSize : CollectorOpts → Handler → Handler;
  InstrumentHandlerInFlight : CollectorOpts → Handler → Handler;
}.
(** An instrumented handler answers as the handler it wraps: the wrappers
    only observe the request. *)
Class PrometheusLaws (Registry : Type) `{!Prometheus Registry} : Prop := {
  duration_transparent c h r w : InstrumentHandlerDuration c h r w = h r w;
  counter_transparent c h r w : InstrumentHandlerCounter c h r w = h r w;
  size_transparent c h r w : InstrumentHandlerResponseSize c h r w = h r w;
  inflight_transparent c h r w : InstrumentHandlerInFlight c h r w = h r w;
}.

Section metrics.
Context {Registry : Type} `{!Prometheus Registry}.

Definition newHTTPMetrics (reg : Registry) : GoRes (Registry * httpMetrics) :=
  let m := httpCollectors in
  let! reg' := MustRegister reg [requestTiming m; requestCounter m; responseSize m; inFlightGauge m] in
  Ret (reg', m).

(** The registerer is an interface, which may be nil. *)
Definition AddMetricsMiddleware (reg : option Registry) (handler : Handler) :
    GoRes (option Registry * Handler) :=
  match reg with
  | None => Ret (None, handler)
  | Some reg =>
      let! rm := newHTTPMetrics reg in
      let m := rm.2 in
      Ret (Some rm.1,
           InstrumentHandlerDuration (requestTiming m)
             (InstrumentHandlerCounter (requestCounter m)
                (InstrumentHandlerResponseSize (responseSize m)
                   (InstrumentHandlerInFlight (inFlightGauge m) handler))))
  end.
End metrics.

(** ** Lemmas *)

Lemma Value_WithValue ctx k v : Value (WithValue ctx k v) k = Some v.
Proof. simpl. by rewrite decide_True. Qed.

Lemma Value_WithValue_ne ctx k k' v : k ≠ k' → Value (WithValue ctx k v) k' = Value ctx k'.
Proof. intros. simpl. by rewrite decide_False. Qed.

Lemma GetLogger_SetLogger ctx l :
  GetLoggerFromContext (SetLoggerIntoContext ctx (Some l)) = l.
Proof. unfold GetLoggerFromContext, SetLoggerIntoContext. by rewrite Value_WithValue. Qed.

Lemma GetLogger_user ctx v :
  GetLoggerFromContext (WithValue ctx ContextKeyUserDetails v) = GetLoggerFromContext ctx.
Proof. unfold GetLoggerFromContext. by rewrite Value_WithValue_ne. Qed.

#[export] Hint Rewrite Value_WithValue GetLogger_SetLogger GetLogger_user : golib.

(** A request that is not authenticated ends here, whatever comes next. *)
Lemma AddAuthn_denied ar next r w rs ok oerr :
  ar r = Ret (rs, ok, oerr) → ok = false ∨ oerr ≠ None →
  w_sent w = None →
  ∃ w', AddAuthnMiddleware ar next r w = Ret w' ∧
        w_sent w' = Some (StatusUnauthorized, w_Header w) ∧ w_body w' = w_body w.
Proof.
  intros Har Hd Hs. unfold AddAuthnMiddleware. rewrite Har. simpl.
  destruct oerr as [e|]; [|destruct ok; [by destruct Hd|]];
    rewrite WriteHeader_fresh by (done || (unfold StatusUnauthorized; lia)); simpl; [|by eauto].
  eexists. split; [done|].
  edestruct Logger_Log_sent as (-> & -> & _). done.
Qed.

(** ... and its outcome does not depend on the next handler. *)
Lemma AddAuthn_denied_next ar next next' r w rs ok oerr :
  ar r = Ret (rs, ok, oerr) → ok = false ∨ oerr ≠ None →
  AddAuthnMiddleware ar next r w = AddAuthnMiddleware ar next' r w.
Proof.
  intros Har Hd. unfold AddAuthnMiddleware. rewrite Har. simpl.
  destruct oerr; [done|]. destruct ok; [by destruct Hd|done].
Qed.

Lemma AddMetrics_transparent {Registry} `{!Prometheus Registry, !PrometheusLaws Registry}
    reg handler reg' h :
  AddMetricsMiddleware reg handler = Ret (reg', h) → ∀ r w, h r w = handler r w.
Proof.
  unfold AddMetricsMiddleware, newHTTPMetrics. destruct reg as [reg|]; intros ?; go_simp; [|done].
  intros r w. by rewrite duration_transparent, counter_transparent, size_transparent,
    inflight_transparent.
Qed.
