(* ===== verification/ApiServer.v ===== *)
(** * The API server (http_api_handler_list.go, http_api_server.go, env.go)

    The handler that lists namespaces, the chain of middlewares around it, the
    routes, and the choice between TLS and plain HTTP.  The handler only needs
    the [NamespaceLister] interface. *)

From Stdlib Require Import Ascii.
From stdpp Require Import base gmap strings list.
From S2P Require Import Prelude GoStrings KubeTypes GoHTTP Authn Middleware NamespaceLister.

(** ** The interface of the handler (namespace_lister.go)

    The list is a pointer, nil on errors. *)
Class NamespaceLister (T : Type) :=
  nsl_ListNamespaces : T → string → list string → GoRes (option NamespaceList * option error).

(** [NewSubjectNamespaceLister]: the lister of namespacelister_subject.go. *)
#[export] Instance SubjectNamespaceLister {T} `{!SubjectNamespacesLister T} :
  NamespaceLister T := λ l username groups,
  let! r := ListNamespaces l username groups in Ret (Some r.1, r.2).

(** ** The handler (http_api_handler_list.go) *)
Definition HttpContentType : string := "Content-Type".
Definition HttpContentTypeApplication : string := "application/json;charset=utf-8".

(** The returned flag tells whether the reply was written. *)
Definition write (l : Logger) (w : ResponseWriter) (data : string) :
    GoRes (ResponseWriter * bool) :=
  let! r := Write w data in
  match r with
  | (w, Some err) =>
      let w := Logger_Log l LevelError "error writing reply" [("error", LError err)] w in
      let! w := WriteHeader w StatusInternalServerError in
      Ret (w, false)
  | (w, None) => Ret (w, true)
  end.

(** The type assertion to a pointer to [authenticator.Response], which panics. *)
Definition assertResponse (v : option CtxValue) : GoRes (option Response) :=
  match v with
  | Some (VUser r) => Ret r
  | Some (VLogger _) => Panic "interface conversion: interface {} is *slog.Logger"
  | None => Panic "interface conversion: interface {} is nil"
  end.

(** [ud.User.GetName()] and [ud.User.GetGroups()]. *)
Definition userOf (ud : option Response) : GoRes UserDetails :=
  match ud ≫= rs_User with
  | Some u => Ret u
  | None => Panic "invalid memory address or nil pointer dereference"
  end.

Section handler.
Context {T : Type} `{!NamespaceLister T}.
(** [json.Marshal] on the list: the encoding follows the tags and the methods
    of the Kubernetes types. *)
Variable json_Marshal : option NamespaceList → error + string.

Definition ListNamespacesHandler (lister : T) : Handler := λ r w,
  let l := GetLoggerFromContext (r_ctx r) in
  let! ud := assertResponse (Value (r_ctx r) ContextKeyUserDetails) in
  let! u := userOf ud in
  let! res := nsl_ListNamespaces lister (u_Name u) (u_Groups u) in
  let '(nn, oerr) := res in
  match oerr with
  | Some err =>
      match errors_As_Status err with
      | Some (code, msg) => http_Error w msg code
      | None => http_Error w (error_Error err) StatusInternalServerError
      end
  | None =>
      match json_Marshal nn with
      | inl err => http_Error w (error_Error err) StatusInternalServerError
      | inr b =>
          let w := w_setHeader (Header_Add (w_Header w) HttpContentType HttpContentTypeApplication) w in
          let! r := write l w b in
          Ret r.1
      end
  end.
End handler.

(** ** The server (http_api_server.go) *)
Definition patternGetNamespaces : string := "GET /api/v1/namespaces".
Definition patternHealthz : string := "GET /healthz".
Definition patternReadyz : string := "GET /readyz".

Definition healthz : Handler := λ _ w, WriteHeader w StatusOK.

(** [mux.Handle]: a pattern is a method, a space and a path; a pattern that is
    registered twice panics. *)
Definition mux_Handle {A} (mux : list (Pattern A)) (pattern : string) (h : A) :
    GoRes (list (Pattern A)) :=
  match Split " "%char pattern with
  | [m; p] =>
      if existsb (λ q, bool_decide (p_method q = m) && bool_decide (p_path q = p)) mux
      then Panic "pattern conflicts with pattern"
      else Ret (mux ++ [mkPattern m p h])
  | _ => Panic "parsing pattern"
  end.

(** The handler of the mux.  A redirect answers 301 with the cleaned path; a
    path that is registered for other methods answers 405 (every pattern of the
    server is registered for GET). *)
Definition mux_ServeHTTP (mux : list (Pattern Handler)) : Handler := λ r w,
  match ServeMux_route mux (r_Method r) (r_Path r) with
  | RouteTo h => h r w
  | RouteRedirect p => WriteHeader (w_setHeader (Header_Set (w_Header w) "Location" p) w) 301
  | RouteMethodNotAllowed =>
      http_Error (w_setHeader (Header_Set (w_Header w) "Allow" "GET, HEAD") w) "Method Not Allowed" 405
  | RouteNotFound => http_Error w "404 page not found" 404
  end.

(** [tls.Config]: [GetCertificate] is the pair of paths it loads. *)
Record TLSConfig := mkTLSConfig { tls_MinVersion : Z; tls_GetCertificate : option (string * string) }.
Definition VersionTLS12 : Z := 0x0303.

Record APIServer := mkAPIServer {
  s_Addr : string;
  s_Handler : list (Pattern Handler);
  s_ReadHeaderTimeout : Z;
  s_TLSConfig : option TLSConfig;
  s_useTLS : bool;
  s_tlsOpts : list (TLSConfig → TLSConfig);
}.

Definition EnvAddress : string := "ADDRESS".
Definition DefaultAddr : string := ":8080".
Definition getAddress (e : Environ) : string := cmp_Or "" [Getenv e EnvAddress; DefaultAddr].

Section server.
Context {T Registry : Type} `{!NamespaceLister T, !Prometheus Registry}.
Variable json_Marshal : option NamespaceList → error + string.
Variable NewUUID : Request → string.

(** The chain of middlewares inside the metrics. *)
Definition namespacesHandler (l : Logger) (ar : AuthRequest) (lister : T) : Handler :=
  AddInjectLoggerMiddleware l
    (AddLogCorrelationIDMiddleware NewUUID
       (AddAuthnMiddleware ar
          (AddLogRequestMiddleware (ListNamespacesHandler json_Marshal lister)))).

Definition NewAPIServer (e : Environ) (l : Logger) (ar : AuthRequest) (lister : T)
    (reg : option Registry) : GoRes (option Registry * APIServer) :=
  let! rh := AddMetricsMiddleware reg (namespacesHandler l ar lister) in
  let! h := mux_Handle [] patternGetNamespaces rh.2 in
  let! h := mux_Handle h patternHealthz healthz in
  let! h := mux_Handle h patternReadyz healthz in
  Ret (rh.1, {| s_Addr := getAddress e; s_Handler := h; s_ReadHeaderTimeout := 3 * Second;
                s_TLSConfig := None; s_useTLS := false; s_tlsOpts := [] |}).
End server.

Definition WithTLS (enableTLS : bool) (s : APIServer) : APIServer :=
  {| s_Addr := s_Addr s; s_Handler := s_Handler s; s_ReadHeaderTimeout := s_ReadHeaderTimeout s;
     s_TLSConfig := s_TLSConfig s; s_useTLS := enableTLS; s_tlsOpts := s_tlsOpts s |}.
Definition WithTLSOpts (tlsOpts : list (TLSConfig → TLSConfig)) (s : APIServer) : APIServer :=
  {| s_Addr := s_Addr s; s_Handler := s_Handler s; s_ReadHeaderTimeout := s_ReadHeaderTimeout s;
     s_TLSConfig := s_TLSConfig s; s_useTLS := s_useTLS s; s_tlsOpts := tlsOpts |}.

(** [Start]: the call it blocks in.  The goroutine it starts first waits for
    the context and shuts the server down ([shutdownRoutine]). *)
Inductive Serving := ListenAndServeTLS (certFile keyFile : string) | ListenAndServe.
Definition set_TLSConfig (c : TLSConfig) (s : APIServer) : APIServer :=
  {| s_Addr := s_Addr s; s_Handler := s_Handler s; s_ReadHeaderTimeout := s_ReadHeaderTimeout s;
     s_TLSConfig := Some c; s_useTLS := s_useTLS s; s_tlsOpts := s_tlsOpts s |}.
Definition Start (s : APIServer) : APIServer * Serving :=
  if s_useTLS s then
    let cfg := {| tls_MinVersion := VersionTLS12; tls_GetCertificate := None |} in
    (set_TLSConfig (foldl (λ c f, f c) cfg (s_tlsOpts s)) s, ListenAndServeTLS "" "")
  else (s, ListenAndServe).

(** After the context is done: the exit status when [Shutdown] (given two
    minutes) fails. *)
Definition shutdownRoutine (Shutdown : Z → option error) : option Z :=
  match Shutdown (2 * Minute)%Z with
  | Some _ => Some 1%Z
  | None => None
  end.

(** [loadTLSCert] of main.go: the callback reads the pair of files at each
    handshake ([LoadX509KeyPair]). *)
Definition getCertificate {Cert} (LoadX509KeyPair : string → string → error + Cert)
    (certPath keyPath : string) : error + Cert :=
  match LoadX509KeyPair certPath keyPath with
  | inl err => inl (ErrWrap ("unable to load TLS certificates: " +:+ error_Error err) [err])
  | inr cert => inr cert
  end.
Definition loadTLSCert (certPath keyPath : string) : TLSConfig → TLSConfig := λ config,
  {| tls_MinVersion := tls_MinVersion config; tls_GetCertificate := Some (certPath, keyPath) |}.

(** ** What the endpoint promises

    The status and the body of the answer, as a function of what the
    authenticator and the lister say.  [Panic] is a request the handler
    aborts. *)

(** [http.Error] with a code: an informational code is not final, so the body
    goes out with 200; 101, 204 and 304 go out without the body; a code that is
    no HTTP status aborts. *)
Definition error_answer (code : Z) (msg : string) : GoRes (Z * string) :=
  let body := msg +:+ String "010"%char "" in
  if decide (100 ≤ code ≤ 999)%Z then
    if decide (code ≤ 199 ∧ code ≠ 101)%Z then Ret (StatusOK, body)
    else if decide (code = 101 ∨ code = 204 ∨ code = 304)%Z then Ret (code, "")
    else Ret (code, body)
  else Panic "invalid WriteHeader code".

Definition list_answer (json_Marshal : option NamespaceList → error + string)
    (res : option NamespaceList * option error) : GoRes (Z * string) :=
  match res with
  | (_, Some err) =>
      match errors_As_Status err with
      | Some (code, msg) => error_answer code msg
      | None => error_answer StatusInternalServerError (error_Error err)
      end
  | (nn, None) =>
      match json_Marshal nn with
      | inl err => error_answer StatusInternalServerError (error_Error err)
      | inr b => Ret (StatusOK, b)
      end
  end.

Definition endpoint_answer {T} `{!NamespaceLister T}
    (json_Marshal : option NamespaceList → error + string) (lister : T)
    (auth : GoRes AuthResult) : GoRes (Z * string) :=
  let! a := auth in
  match a with
  | (rs, true, None) =>
      let! u := userOf rs in
      let! res := nsl_ListNamespaces lister (u_Name u) (u_Groups u) in
      list_answer json_Marshal res
  | _ => Ret (StatusUnauthorized, "")
  end.

(** A run of a handler shows this answer. *)
Definition answers (res : GoRes ResponseWriter) (a : GoRes (Z * string)) : Prop :=
  match a with
  | Panic why => res = Panic why
  | Ret (code, body) => ∃ w, res = Ret w ∧ final_status w = code ∧ w_body w = body
  end.

(** A response on which nothing was sent, over a working connection. *)
Definition unsent (w : ResponseWriter) : Prop :=
  w_sent w = None ∧ w_body w = "" ∧ w_connErr w = None.

Lemma unsent_log l lv msg at_ w : unsent w → unsent (Logger_Log l lv msg at_ w).
Proof.
  intros (? & ? & ?). destruct (Logger_Log_sent l lv msg at_ w) as (E1 & E2 & _ & E4).
  split_and!; congruence.
Qed.

Lemma answers_log l lv msg at_ res a :
  answers res a → answers (let! w := res in Ret (Logger_Log l lv msg at_ w)) a.
Proof.
  unfold answers. destruct a as [[code body]|why]; [|by intros ->].
  intros (w & -> & Hs & Hb). eexists; split; [done|].
  destruct (Logger_Log_sent l lv msg at_ w) as (E1 & E2 & _). unfold final_status in *.
  by rewrite E1, E2.
Qed.

Lemma unsent_header h w : unsent w → unsent (w_setHeader h w).
Proof. by intros (? & ? & ?). Qed.

(** What [WriteHeader] and then [Write] leave on such a response. *)
Lemma WriteHeader_unsent w code :
  unsent w →
  if decide (100 ≤ code ≤ 999)%Z then
    ∃ w', WriteHeader w code = Ret w' ∧ w_body w' = "" ∧ w_connErr w' = None ∧
          w_sent w' = if decide (code ≤ 199 ∧ code ≠ 101)%Z then None else Some (code, w_Header w)
  else WriteHeader w code = Panic "invalid WriteHeader code".
Proof.
  intros (Hs & Hb & Hc). unfold WriteHeader. rewrite Hs.
  case_decide; [|done]. case_decide; eauto 10.
Qed.

Lemma Write_ok w b :
  w_connErr w = None →
  ∃ w' e, Write w b = Ret (w', e) ∧ final_status w' = final_status w ∧
    if bodyAllowedForStatus (final_status w) then e = None ∧ w_body w' = w_body w +:+ b
    else w_body w' = w_body w.
Proof.
  intros Hc. unfold Write, WriteHeader, final_status.
  destruct (w_sent w) as [[c hh]|] eqn:E; simpl; rewrite ?E; simpl; case_decide as Hb; subst;
    rewrite ?string_app_nil_r.
  - do 2 eexists; split; [done|]. rewrite E. by destruct (bodyAllowedForStatus c).
  - destruct (bodyAllowedForStatus c); rewrite ?Hc; do 2 eexists; (split; [done|]); simpl; by rewrite E.
  - by do 2 eexists.
  - rewrite Hc. by do 2 eexists.
Qed.

Lemma http_Error_answers w msg code :
  unsent w → answers (http_Error w msg code) (error_answer code msg).
Proof.
  intros Hu. unfold http_Error, error_answer.
  set (h := Header_Set _ _ _).
  pose proof (WriteHeader_unsent _ code (unsent_header h w Hu)) as HW.
  destruct (decide (100 ≤ code ≤ 999)%Z) as [Hr|]; [|by rewrite HW].
  destruct HW as (w1 & -> & Hb & Hc & Hs). simpl.
  destruct (Write_ok w1 (msg +:+ String "010"%char "") Hc) as (w2 & e & -> & Hf & Hb2). simpl.
  assert (final_status w1 = if decide (code ≤ 199 ∧ code ≠ 101)%Z then StatusOK else code) as Hf1
    by (unfold final_status; rewrite Hs; by case_decide).
  rewrite Hf1 in Hf, Hb2. rewrite Hb in Hb2. destruct (decide (code ≤ 199 ∧ code ≠ 101)%Z).
  - by exists w2; destruct Hb2 as [_ ->].
  - destruct (decide (code = 101 ∨ code = 204 ∨ code = 304)%Z) as [Hn|Hn]; exists w2;
      (split; [done|split; [done|]]).
    + by destruct Hn as [->|[->| ->]].
    + unfold bodyAllowedForStatus in Hb2. rewrite !bool_decide_false in Hb2 by lia.
      by destruct Hb2 as [_ ->].
Qed.

Section answers.
Context {T : Type} `{!NamespaceLister T}.
Variable json_Marshal : option NamespaceList → error + string.
Variable NewUUID : Request → string.

Lemma ListNamespacesHandler_answers lister r w rs :
  Value (r_ctx r) ContextKeyUserDetails = Some (VUser rs) → unsent w →
  answers (ListNamespacesHandler json_Marshal lister r w)
    (endpoint_answer json_Marshal lister (Ret (rs, true, None))).
Proof.
  intros Hv Hu. unfold ListNamespacesHandler, endpoint_answer. rewrite Hv. simpl.
  destruct (userOf rs) as [u|]; [simpl|done].
  destruct (nsl_ListNamespaces lister (u_Name u) (u_Groups u)) as [[nn [err|]]|]; [simpl..|done].
  - destruct (errors_As_Status err) as [[]|]; by apply http_Error_answers.
  - destruct (json_Marshal nn) as [err|b]; [by apply http_Error_answers|].
    destruct Hu as (Hs & Hb & Hc). unfold write.
    set (w1 := w_setHeader _ w). destruct (Write_ok w1 b Hc) as (w2 & e & -> & Hf & Hb2).
    assert (final_status w1 = StatusOK) as Hf1 by (unfold final_status; simpl; by rewrite Hs).
    rewrite Hf1 in Hf, Hb2. destruct Hb2 as [-> Hb2]. simpl.
    eexists; split; [done|]. split; [done|]. by rewrite Hb2; simpl; rewrite Hb.
Qed.

(** The logger a request is served with, and the request the authenticator
    sees. *)
Definition correlationID (r : Request) : string :=
  cmp_Or "" [Header_Get (r_Header r) "X-Correlation-ID"; NewUUID r].
Definition request_logger (l : Logger) (r : Request) : Logger :=
  Logger_With l "correlation-id"
    (LString (correlationID (WithContext r (SetLoggerIntoContext (r_ctx r) (Some l))))).
Definition authn_request (l : Logger) (r : Request) : Request :=
  WithContext r (SetLoggerIntoContext (SetLoggerIntoContext (r_ctx r) (Some l))
                   (Some (request_logger l r))).

Lemma namespacesHandler_eq l ar lister r w :
  namespacesHandler json_Marshal NewUUID l ar lister r w =
  AddAuthnMiddleware ar (AddLogRequestMiddleware (ListNamespacesHandler json_Marshal lister))
    (authn_request l r) w.
Proof.
  unfold namespacesHandler, AddInjectLoggerMiddleware, AddLogCorrelationIDMiddleware.
  simpl. by rewrite GetLogger_SetLogger.
Qed.

Lemma namespacesHandler_answers l ar lister r w :
  unsent w →
  answers (namespacesHandler json_Marshal NewUUID l ar lister r w)
    (endpoint_answer json_Marshal lister (ar (authn_request l r))).
Proof.
  intros Hu. rewrite namespacesHandler_eq.
  destruct (ar (authn_request l r)) as [[[rs ok] oerr]|why] eqn:Har;
    [|unfold AddAuthnMiddleware; rewrite Har; done].
  destruct (decide (ok = false ∨ oerr ≠ None)) as [Hd|Hd].
  - destruct Hu as (Hs & Hb & _).
    destruct (AddAuthn_denied ar (AddLogRequestMiddleware (ListNamespacesHandler json_Marshal lister))
                _ w rs ok oerr Har Hd Hs) as (w' & -> & Hs' & Hb').
    assert (endpoint_answer json_Marshal lister (Ret (rs, ok, oerr)) =
            Ret (StatusUnauthorized, "")) as ->.
    { unfold endpoint_answer; simpl. destruct oerr, ok; naive_solver. }
    exists w'. unfold final_status. by rewrite Hs', Hb'.
  - destruct oerr, ok; try (exfalso; apply Hd; by auto).
    unfold AddAuthnMiddleware. rewrite Har. simpl.
    unfold AddLogRequestMiddleware. apply answers_log, ListNamespacesHandler_answers; [done|].
    by apply unsent_log.
Qed.
End answers.

(** ** The routes *)
Definition server_patterns (h : Handler) : list (Pattern Handler) :=
  [mkPattern "GET" "/api/v1/namespaces" h;
   mkPattern "GET" "/healthz" healthz;
   mkPattern "GET" "/readyz" healthz].

Lemma find_pattern_server h m p :
  find_pattern (server_patterns h) m p =
  if decide (m = "GET" ∨ m = "HEAD") then
    if decide (p = "/api/v1/namespaces") then Some (mkPattern "GET" p h)
    else if decide (p = "/healthz") then Some (mkPattern "GET" p healthz)
    else if decide (p = "/readyz") then Some (mkPattern "GET" p healthz)
    else None
  else None.
Proof.
  unfold find_pattern, server_patterns, method_matches. simpl.
  destruct (decide (m = "GET" ∨ m = "HEAD")) as [Hm|Hm].
  - assert (bool_decide ("GET" = m) || bool_decide (m = "HEAD") = true) as E.
    { destruct Hm as [->| ->]; done. }
    rewrite E. repeat case_decide; simpl in *; naive_solver.
  - assert (bool_decide ("GET" = m) || bool_decide (m = "HEAD") = false) as E.
    { apply orb_false_intro; apply bool_decide_eq_false; naive_solver. }
    rewrite E. repeat case_decide; simpl in *; naive_solver.
Qed.

(** A request is routed to a handler exactly when its method is GET or HEAD
    and its path is one of the three paths, character by character. *)
Lemma route_server h m p hd :
  ServeMux_route (server_patterns h) m p = RouteTo hd ↔
  (m = "GET" ∨ m = "HEAD") ∧
  ((p = "/api/v1/namespaces" ∧ hd = h) ∨ ((p = "/healthz" ∨ p = "/readyz") ∧ hd = healthz)).
Proof.
  unfold ServeMux_route. destruct (decide (m = "CONNECT")) as [->|Hc].
  { rewrite find_pattern_server, decide_False by naive_solver.
    split; [by case_match|naive_solver]. }
  split.
  - case_decide as Hp; [done|]. rewrite find_pattern_server.
    rewrite Hp. repeat case_decide; simpl; try (by case_match); naive_solver.
  - intros [Hm [[-> ->]|[[->| ->] ->]]];
      (rewrite decide_False by (vm_compute; tauto));
      rewrite find_pattern_server, decide_True by done; reflexivity.
Qed.

Lemma mux_server (h p : Handler) :
  mux_Handle [] patternGetNamespaces h = Ret [mkPattern "GET" "/api/v1/namespaces" h] ∧
  mux_Handle [mkPattern "GET" "/api/v1/namespaces" h] patternHealthz p =
    Ret [mkPattern "GET" "/api/v1/namespaces" h; mkPattern "GET" "/healthz" p] ∧
  mux_Handle [mkPattern "GET" "/api/v1/namespaces" h; mkPattern "GET" "/healthz" p] patternReadyz p =
    Ret [mkPattern "GET" "/api/v1/namespaces" h; mkPattern "GET" "/healthz" p;
         mkPattern "GET" "/readyz" p].
Proof. split_and!; reflexivity. Qed.

Section server_lemmas.
Context {T Registry : Type} `{!NamespaceLister T, !Prometheus Registry, !PrometheusLaws Registry}.
Context (json_Marshal : option NamespaceList → error + string) (NewUUID : Request → string).

Lemma NewAPIServer_inv e l ar (lister : T) (reg reg' : option Registry) s :
  NewAPIServer json_Marshal NewUUID e l ar lister reg = Ret (reg', s) →
  ∃ h, s_Handler s = server_patterns h ∧
       ∀ r w, h r w = namespacesHandler json_Marshal NewUUID l ar lister r w.
Proof.
  unfold NewAPIServer. intros H.
  apply go_bind_Ret_inv in H as ([reg1 h] & Hm & H).
  destruct (mux_server h healthz) as (E1 & E2 & E3).
  cbn [snd] in H. rewrite E1 in H. cbn [go_bind] in H. rewrite E2 in H. cbn [go_bind] in H.
  rewrite E3 in H. cbn [go_bind fst] in H. injection H as <- <-. exists h. split; [done|].
  by eapply AddMetrics_transparent.
Qed.

Lemma serve_namespaces s h r w :
  s_Handler s = server_patterns h → r_Method r = "GET" ∨ r_Method r = "HEAD" →
  r_Path r = "/api/v1/namespaces" →
  mux_ServeHTTP (s_Handler s) r w = h r w.
Proof.
  intros Hs Hm Hp. unfold mux_ServeHTTP.
  by rewrite Hs, (proj2 (route_server h _ _ h) (conj Hm (or_introl (conj Hp eq_refl)))).
Qed.
End server_lemmas.

(** Two servers that differ in the endpoint's handler differ on a request only
    if the handlers do. *)
Lemma mux_ServeHTTP_patterns h1 h2 p1 p2 r w :
  p1 = server_patterns h1 → p2 = server_patterns h2 → h1 r w = h2 r w →
  mux_ServeHTTP p1 r w = mux_ServeHTTP p2 r w.
Proof.
  intros -> -> Hh. unfold mux_ServeHTTP, ServeMux_route. rewrite !find_pattern_server. simpl.
  by repeat (case_decide || case_match); simplify_eq/=.
Qed.

(** ** What is logged *)

(** Every record of the response carries the attribute. *)
Definition logs_with (a : string * LogValue) (w : ResponseWriter) : Prop :=
  Forall (λ rc, a ∈ lr_Attrs rc) (w_log w).
Definition res_logs_with (a : string * LogValue) (m : GoRes ResponseWriter) : Prop :=
  ∀ w, m = Ret w → logs_with a w.

Lemma WriteHeader_log w code w' : WriteHeader w code = Ret w' → w_log w' = w_log w.
Proof. unfold WriteHeader. intros ?. repeat case_match; by simplify_eq. Qed.

Lemma Write_log w b w' e : Write w b = Ret (w', e) → w_log w' = w_log w.
Proof.
  unfold Write. intros ?. go_simp. repeat case_match; simplify_eq/=; by eapply WriteHeader_log.
Qed.

Lemma http_Error_log w msg code w' : http_Error w msg code = Ret w' → w_log w' = w_log w.
Proof.
  unfold http_Error. intros ?. go_simp.
  match goal with H : Write _ _ = Ret ?p |- _ => destruct p; apply Write_log in H as Hw end.
  match goal with H : WriteHeader _ _ = Ret _ |- _ => apply WriteHeader_log in H as Hh end.
  simpl in *. congruence.
Qed.

Lemma Logger_Log_with a l lv msg at_ w :
  a ∈ lg_Attrs l → logs_with a w → logs_with a (Logger_Log l lv msg at_ w).
Proof.
  intros Hl Hw. unfold Logger_Log. destruct (lg_Level l); [case_decide|]; [|done..].
  apply Forall_app. split; [done|]. apply Forall_singleton. simpl. set_solver.
Qed.

Lemma Logger_With_attrs a l k v : a ∈ lg_Attrs l → a ∈ lg_Attrs (Logger_With l k v).
Proof. simpl. set_solver. Qed.

Lemma write_logs a l w b w' ok :
  a ∈ lg_Attrs l → logs_with a w → write l w b = Ret (w', ok) → logs_with a w'.
Proof.
  intros Hl Hw H. unfold write in H. go_simp.
  match goal with H : Write _ _ = Ret ?p |- _ => destruct p as [w1 [err|]]; apply Write_log in H as Hlog end;
    go_simp; unfold logs_with in *; [|by rewrite Hlog].
  match goal with H : WriteHeader _ _ = Ret _ |- _ => rewrite (WriteHeader_log _ _ _ H) end.
  apply Logger_Log_with; [done|]. unfold logs_with. by rewrite Hlog.
Qed.

Section logs.
Context {T : Type} `{!NamespaceLister T}.
Context (json_Marshal : option NamespaceList → error + string) (NewUUID : Request → string).

Lemma ListNamespacesHandler_logs a lister r w :
  a ∈ lg_Attrs (GetLoggerFromContext (r_ctx r)) → logs_with a w →
  res_logs_with a (ListNamespacesHandler json_Marshal lister r w).
Proof.
  intros Hl Hw w' H. unfold ListNamespacesHandler in H.
  apply go_bind_Ret_inv in H as (ud & _ & H). apply go_bind_Ret_inv in H as (u & _ & H).
  apply go_bind_Ret_inv in H as ([nn [err|]] & _ & H).
  - unfold logs_with. destruct (errors_As_Status err) as [[]|];
      by rewrite (http_Error_log _ _ _ _ H).
  - destruct (json_Marshal nn) as [err|b].
    + unfold logs_with. by rewrite (http_Error_log _ _ _ _ H).
    + apply go_bind_Ret_inv in H as ([w1 ok] & Hwr & H). simpl in H. injection H as <-. refine (write_logs _ _ _ _ _ _ Hl _ Hwr). exact Hw.
Qed.

Lemma namespacesHandler_logs l ar lister r w :
  let a := ("correlation-id", LString (correlationID NewUUID
              (WithContext r (SetLoggerIntoContext (r_ctx r) (Some l))))) in
  logs_with a w → res_logs_with a (namespacesHandler json_Marshal NewUUID l ar lister r w).
Proof.
  intros a Hw w' H. rewrite namespacesHandler_eq in H.
  assert (a ∈ lg_Attrs (GetLoggerFromContext (r_ctx (authn_request NewUUID l r)))) as Ha.
  { unfold authn_request. cbn [r_ctx WithContext]. rewrite GetLogger_SetLogger. simpl. set_solver. }
  unfold AddAuthnMiddleware in H. apply go_bind_Ret_inv in H as ([[rs ok] oerr] & _ & H).
  destruct oerr as [err|]; [|destruct ok; simpl in H].
  - apply go_bind_Ret_inv in H as (w1 & Hw1 & H). injection H as <-.
    apply Logger_Log_with; [done|]. unfold logs_with. by rewrite (WriteHeader_log _ _ _ Hw1).
  - unfold AddLogRequestMiddleware in H. apply go_bind_Ret_inv in H as (w1 & Hw1 & H).
    injection H as <-. apply Logger_Log_with.
    { apply Logger_With_attrs. cbn [r_ctx WithContext]. by rewrite GetLogger_user. }
    eapply ListNamespacesHandler_logs; [| |exact Hw1].
    { cbn [r_ctx WithContext]. by rewrite GetLogger_user. }
    apply Logger_Log_with; [|done]. by apply Logger_With_attrs.
  - unfold logs_with. by rewrite (WriteHeader_log _ _ _ H).
Qed.
End logs.

(** ** Properties *)
Section properties.
Context {T Registry : Type} `{!NamespaceLister T, !Prometheus Registry, !PrometheusLaws Registry}.
Context (json_Marshal : option NamespaceList → error + string) (NewUUID : Request → string).

(** C8: the namespaces endpoint refines its abstract answer.  Through the mux,
    the instrumentation and all the middlewares, a GET of /api/v1/namespaces
    gets 401 and an empty body when the authenticator fails or refuses; the
    status error's code and message when the lister returns one; 500 and the
    message for any other error; else 200 and the encoded list of what the
    lister returned for the authenticated name and groups.  The request is
    aborted exactly when the authenticator gives no user, the lister panics, or
    a status error's code is no HTTP status. *)
Theorem endpoint_refines e l ar (lister : T) (reg reg' : option Registry) s r :
  NewAPIServer json_Marshal NewUUID e l ar lister reg = Ret (reg', s) →
  r_Method r = "GET" ∨ r_Method r = "HEAD" → r_Path r = "/api/v1/namespaces" →
  answers (mux_ServeHTTP (s_Handler s) r (newResponse None))
    (endpoint_answer json_Marshal lister (ar (authn_request NewUUID l r))).
Proof.
  intros Hn Hm Hp. destruct (NewAPIServer_inv json_Marshal NewUUID _ _ _ _ _ _ _ Hn) as (h & Hs & Hh).
  rewrite (serve_namespaces s h), Hh by done. by apply namespacesHandler_answers.
Qed.

(** C5: nothing leaks to a request that is not authenticated.  If the
    authenticator refuses the request or fails on it, the whole outcome
    (status, headers, body, log) is the same whatever the lister would
    answer, on every path and even over a broken connection; on the
    namespaces endpoint it is 401 without a body. *)
Theorem unauthenticated_learns_nothing e l ar (lister1 lister2 : T)
    (reg reg1 reg2 : option Registry) s1 s2 r cerr rs ok oerr :
  NewAPIServer json_Marshal NewUUID e l ar lister1 reg = Ret (reg1, s1) →
  NewAPIServer json_Marshal NewUUID e l ar lister2 reg = Ret (reg2, s2) →
  ar (authn_request NewUUID l r) = Ret (rs, ok, oerr) → ok = false ∨ oerr ≠ None →
  mux_ServeHTTP (s_Handler s1) r (newResponse cerr) =
    mux_ServeHTTP (s_Handler s2) r (newResponse cerr) ∧
  (r_Method r = "GET" ∨ r_Method r = "HEAD" → r_Path r = "/api/v1/namespaces" →
   ∃ w, mux_ServeHTTP (s_Handler s1) r (newResponse cerr) = Ret w ∧
        final_status w = StatusUnauthorized ∧ w_body w = "").
Proof.
  intros Hn1 Hn2 Har Hd.
  destruct (NewAPIServer_inv json_Marshal NewUUID _ _ _ _ _ _ _ Hn1) as (h1 & Hs1 & Hh1).
  destruct (NewAPIServer_inv json_Marshal NewUUID _ _ _ _ _ _ _ Hn2) as (h2 & Hs2 & Hh2).
  split.
  - apply (mux_ServeHTTP_patterns h1 h2); [done|done|]. rewrite Hh1, Hh2, !namespacesHandler_eq.
    by eapply AddAuthn_denied_next.
  - intros Hm Hp. rewrite (serve_namespaces s1 h1), Hh1, namespacesHandler_eq by done.
    edestruct (AddAuthn_denied ar (AddLogRequestMiddleware (ListNamespacesHandler json_Marshal lister1)))
      as (w' & Hw & Hs' & Hb'); [done|done| |].
    2: { exists w'. split; [exact Hw|]. unfold final_status. by rewrite Hs', Hb'. }
    done.
Qed.

(** C25: the server answers on three paths and no other: a request reaches a
    handler exactly when its method is GET or HEAD and its path is, letter by
    letter, the namespaces endpoint (which goes through authentication), or
    one of the two probes (which do not). *)
Theorem routes_exact e l ar (lister : T) (reg reg' : option Registry) s m p :
  NewAPIServer json_Marshal NewUUID e l ar lister reg = Ret (reg', s) →
  (∃ hd, ServeMux_route (s_Handler s) m p = RouteTo hd) ↔
  (m = "GET" ∨ m = "HEAD") ∧ (p = "/api/v1/namespaces" ∨ p = "/healthz" ∨ p = "/readyz").
Proof.
  intros Hn. destruct (NewAPIServer_inv json_Marshal NewUUID _ _ _ _ _ _ _ Hn) as (h & -> & _).
  setoid_rewrite route_server. naive_solver.
Qed.

(** C39: every record logged while a request to the endpoint is served carries
    the correlation ID of the request: the X-Correlation-ID header when the
    client sent one, in any capitalisation, else a new identifier. *)
Theorem logs_carry_correlation_id e l ar (lister : T) (reg reg' : option Registry) s r cerr w :
  NewAPIServer json_Marshal NewUUID e l ar lister reg = Ret (reg', s) →
  r_Method r = "GET" ∨ r_Method r = "HEAD" → r_Path r = "/api/v1/namespaces" →
  mux_ServeHTTP (s_Handler s) r (newResponse cerr) = Ret w →
  ∃ cid, (Header_Get (r_Header r) "x-correlation-id" ≠ "" →
            cid = Header_Get (r_Header r) "x-correlation-id") ∧
         (Header_Get (r_Header r) "x-correlation-id" = "" →
            ∃ r', cid = NewUUID r') ∧
         Forall (λ rc, ("correlation-id", LString cid) ∈ lr_Attrs rc) (w_log w).
Proof.
  intros Hn Hm Hp Hw. destruct (NewAPIServer_inv json_Marshal NewUUID _ _ _ _ _ _ _ Hn) as (h & Hs & Hh).
  rewrite (serve_namespaces s h), Hh in Hw by done.
  apply namespacesHandler_logs in Hw; [|by constructor].
  eexists; split_and!; [..|exact Hw]; unfold correlationID; simpl;
    rewrite !cmp_Or_cons; change (Header_Get (r_Header r) "x-correlation-id")
      with (Header_Get (r_Header r) "X-Correlation-ID"); intros H0.
  - by rewrite decide_False.
  - rewrite decide_True by done. case_decide as Hu; [|by eexists]. rewrite cmp_Or_nil. eauto.
Qed.
End properties.

(** A failed write is reported in the log and nothing else: the 500 that
    [write] tries to send afterwards never reaches the client, whose status
    stays 200. *)
Theorem write_failure l w data err lv :
  w_sent w = None → w_connErr w = Some err → data ≠ "" →
  lg_Level l = Some lv → (lv ≤ LevelError)%Z →
  ∃ w', write l w data = Ret (w', false) ∧ final_status w' = StatusOK ∧ w_body w' = w_body w ∧
        w_log w' = w_log w ++ [{| lr_Level := LevelError; lr_Message := "error writing reply";
                                  lr_Attrs := lg_Attrs l ++ [("error", LError err)] |}].
Proof.
  intros Hs Hc Hd Hl Hv. unfold write, Write.
  rewrite WriteHeader_fresh by (done || (unfold StatusOK; lia)). simpl.
  rewrite decide_False by done. rewrite Hc. simpl.
  unfold Logger_Log. rewrite Hl, decide_True by done. simpl.
  eexists. split; [done|]. done.
Qed.

(** With TLS enabled the server never negotiates a version below 1.2 and
    loads the configured certificate at each handshake; without it no TLS
    configuration is made. *)
Theorem Start_tls s cert key enable :
  let '(s', call) := Start (WithTLSOpts [loadTLSCert cert key] (WithTLS enable s)) in
  s_Handler s' = s_Handler s ∧ s_Addr s' = s_Addr s ∧
  if enable then
    call = ListenAndServeTLS "" "" ∧
    s_TLSConfig s' = Some {| tls_MinVersion := VersionTLS12; tls_GetCertificate := Some (cert, key) |}
  else call = ListenAndServe ∧ s_TLSConfig s' = s_TLSConfig s.
Proof. by destruct enable. Qed.

(** ** Witnesses *)
#[export] Instance unit_prometheus : Prometheus unit :=
  {| MustRegister := λ r _, Ret r;
     InstrumentHandlerDuration := λ _ h, h; InstrumentHandlerCounter := λ _ h, h;
     InstrumentHandlerResponseSize := λ _ h, h; InstrumentHandlerInFlight := λ _ h, h |}.
#[export] Instance unit_prometheus_laws : PrometheusLaws unit.
Proof. by split. Qed.

(** A lister with a fixed answer. *)
#[local] Instance fixed_lister : NamespaceLister (option NamespaceList * option error) :=
  λ l _ _, Ret l.
Definition sample_json (nn : option NamespaceList) : error + string := inr "{}".
Definition sample_uuid (r : Request) : string := "uuid-1".
Definition sample_logger : Logger := {| lg_Level := Some LevelDebug; lg_Attrs := [] |}.
Definition sample_request (h : Header) : Request :=
  {| r_Method := "GET"; r_Path := "/api/v1/namespaces"; r_Header := h; r_ctx := [] |}.
Definition sample_lister_answer : option NamespaceList * option error :=
  (None, Some (ErrWrap "listing: denied" [ErrStatus 403 "denied"])).
Definition sample_server : GoRes (option unit * APIServer) :=
  NewAPIServer sample_json sample_uuid ∅ sample_logger
    (AuthenticateRequest sample_authenticator) sample_lister_answer (Some tt).
Definition sample_server_value : APIServer :=
  match sample_server with
  | Ret (_, s) => s
  | Panic _ => mkAPIServer "" [] 0 None false []
  end.
Lemma sample_server_eq : sample_server = Ret (Some tt, sample_server_value).
Proof. reflexivity. Qed.

Lemma endpoint_refines_witness :
  ∃ w, mux_ServeHTTP (s_Handler sample_server_value)
         (sample_request {["X-User" := ["alice"]]}) (newResponse None) = Ret w ∧
       final_status w = 403%Z ∧ w_body w = "denied" +:+ String "010"%char "".
Proof.
  exact (endpoint_refines sample_json sample_uuid ∅ sample_logger
           (AuthenticateRequest sample_authenticator) sample_lister_answer (Some tt) (Some tt)
           sample_server_value (sample_request {["X-User" := ["alice"]]})
           sample_server_eq (or_introl eq_refl) eq_refl).
Defined.

Lemma unauthenticated_learns_nothing_witness :
  ∃ w, mux_ServeHTTP (s_Handler sample_server_value) (sample_request ∅)
         (newResponse None) = Ret w ∧ final_status w = StatusUnauthorized ∧ w_body w = "".
Proof.
  refine (proj2 (unauthenticated_learns_nothing sample_json sample_uuid ∅ sample_logger
           (AuthenticateRequest sample_authenticator) sample_lister_answer sample_lister_answer
           (Some tt) (Some tt) (Some tt) sample_server_value sample_server_value
           (sample_request ∅) None None false None
           sample_server_eq sample_server_eq eq_refl (or_introl eq_refl)) _ eq_refl).
  by left.
Defined.

Lemma routes_exact_witness :
  ¬ ∃ hd, ServeMux_route (s_Handler sample_server_value) "POST" "/api/v1/namespaces" = RouteTo hd.
Proof.
  intros H.
  destruct (proj1 (routes_exact sample_json sample_uuid ∅ sample_logger
           (AuthenticateRequest sample_authenticator) sample_lister_answer (Some tt) (Some tt)
           sample_server_value "POST" "/api/v1/namespaces" sample_server_eq) H) as [[E|E] _];
    discriminate E.
Defined.

Definition logged_headers : Header := {["X-User" := ["alice"]; "X-Correlation-Id" := ["abc"]]}.
Definition sample_served : ResponseWriter :=
  match mux_ServeHTTP (s_Handler sample_server_value) (sample_request logged_headers) (newResponse None) with
  | Ret w => w
  | Panic _ => newResponse None
  end.

Lemma logs_carry_correlation_id_witness :
  w_log sample_served ≠ [] ∧
  ∃ cid, (Header_Get logged_headers "x-correlation-id" ≠ "" →
            cid = Header_Get logged_headers "x-correlation-id") ∧
         (Header_Get logged_headers "x-correlation-id" = "" → ∃ r', cid = sample_uuid r') ∧
         Forall (λ rc, ("correlation-id", LString cid) ∈ lr_Attrs rc) (w_log sample_served).
Proof.
  split; [vm_compute; discriminate|].
  exact (logs_carry_correlation_id sample_json sample_uuid ∅ sample_logger
           (AuthenticateRequest sample_authenticator) sample_lister_answer (Some tt) (Some tt)
           sample_server_value (sample_request logged_headers) None sample_served
           sample_server_eq (or_introl eq_refl) eq_refl eq_refl).
Defined.

Lemma write_failure_witness :
  ∃ w', write sample_logger (newResponse (Some ErrCanceled)) "{}" = Ret (w', false) ∧
        final_status w' = StatusOK ∧ w_body w' = "" ∧
        w_log w' = [{| lr_Level := LevelError; lr_Message := "error writing reply";
                       lr_Attrs := [("error", LError ErrCanceled)] |}].
Proof.
  apply (write_failure sample_logger (newResponse (Some ErrCanceled)) "{}" ErrCanceled LevelDebug);
    [reflexivity|reflexivity|discriminate|reflexivity|]. unfold LevelDebug, LevelError. lia.
Defined.
