(* ===== verification/EndToEnd.v ===== *)
(** * From the request to the RBAC decision

    The parts put together: a request that the proxy authenticated reaches the
    handler, the handler asks the lister, the lister reads what the last
    synchronization stored, and the answer names exactly the namespaces the
    locator allows. *)

From Stdlib Require Import Ascii.
From stdpp Require Import base gmap strings list.
From S2P Require Import Prelude GoStrings KubeTypes AtomicCache AccessSync AccessSpec Samples NamespaceLister GoHTTP Authn Middleware ApiServer.

Section end_to_end.
Context `{!UnicodeLower, !DeepCopyNs, !DeepCopyLaws}.
Context `{!MapRange string Namespace, !MapRangeLaws string Namespace}.
Context {Registry : Type} `{!Prometheus Registry, !PrometheusLaws Registry}.
(** The encoder succeeds on every list. *)
Context (json : NamespaceList → string) (NewUUID : Request → string).

Definition marshal (nl : option NamespaceList) : error + string :=
  match nl with Some nl => inr (json nl) | None => inr "null" end.

(** C1: end to end.  Let a synchronization of the access cache complete on a
    list of namespaces, and let the server be built over that cache.  A GET of
    the namespaces endpoint whose identity the proxy put in the headers gets
    200 and the encoding of a NamespaceList whose names are exactly those of
    the namespaces on which the locator allows the user or one of the
    groups. *)
Theorem request_gets_exactly_allowed env h s h0 items (e : Environ) l a (reg : option Registry)
    hdr ctx username groups u :
  (* the synchronization *)
  idFunc (sac_cache s) = ns_Name →
  env_List env h = (h0, inr items) → items_ok h0 items → NoDup (ns_Name <$> items) →
  (∀ j, j < length items → env_ctxErr env j = None) →
  (* the identity *)
  usernameHeader a ≠ "" → username ≠ "" →
  string_forallb validHeaderFieldByte (usernameHeader a) = true →
  string_forallb validHeaderFieldByte (groupsHeader a) = true →
  CanonicalMIMEHeaderKey (groupsHeader a) ≠ CanonicalMIMEHeaderKey (usernameHeader a) →
  names_subject username u →
  ∃ h' s' c, synch env h s = (h', s', Some c, None) ∧
    ∀ reg' srv,
      NewAPIServer marshal NewUUID e l (AuthenticateRequest a) s' reg = Ret (reg', srv) →
      ∃ w nl,
        mux_ServeHTTP (s_Handler srv)
          {| r_Method := "GET"; r_Path := "/api/v1/namespaces"; r_ctx := ctx;
             r_Header := proxy_headers hdr (usernameHeader a) (groupsHeader a) username groups |}
          (newResponse None) = Ret w ∧
        final_status w = StatusOK ∧ w_body w = json nl ∧ nl_Kind nl = "NamespaceList" ∧
        ∀ name, name ∈ ns_Name <$> elems (nl_Items nl) ↔
                ∃ ns sub, ns ∈ items ∧ ns_Name ns = name ∧ sub ∈ user_subjects u groups ∧
                          sub ∈ allowed env ns.
Proof.
  intros Hid Hl Hok Hnd Hctx Ha Hu Hvu Hvg Hne Hsubs.
  destruct (synched_synch env h s h0 items Hid Hl Hok Hctx) as (h' & s' & c & Hs & Hsy).
  destruct (ListNamespaces_synched env h0 items h' s' username groups u Hnd Hsy Hsubs)
    as (nl & Hnl & Hnames).
  exists h', s', c. split; [done|]. intros reg' srv Hn.
  destruct (NewAPIServer_inv marshal NewUUID _ _ _ _ _ _ _ Hn) as (hd & Hsh & Hh).
  set (r := mkRequest _ _ _ _).
  rewrite (serve_namespaces srv hd) by (done || by left). rewrite Hh.
  pose proof (namespacesHandler_answers marshal NewUUID l (AuthenticateRequest a) s' r
                (newResponse None) ltac:(done)) as Hans.
  assert (AuthenticateRequest a (authn_request NewUUID l r) =
    Ret (Some {| rs_User := Some {| u_Name := username; u_Groups := groups |} |}, true, None)) as Hau.
  { by eapply (AuthenticateRequest_proxy_lemma a). }
  rewrite Hau in Hans. unfold endpoint_answer in Hans. cbn [go_bind userOf mbind option_bind rs_User] in Hans.
  unfold nsl_ListNamespaces, SubjectNamespaceLister in Hans. cbn [u_Name u_Groups] in Hans.
  rewrite Hnl in Hans. cbn in Hans. destruct Hans as (w & Hw & Hst & Hb).
  exists w, nl. split_and!; [done|done|done| |done].
  unfold ListNamespaces in Hnl. rewrite (subjects_spec _ _ u) in Hnl by done. simpl in Hnl.
  apply go_bind_Ret_inv in Hnl as (nn & _ & Hnl). by simplify_eq.
Qed.
End end_to_end.

(** ** Witness *)
Lemma request_gets_exactly_allowed_witness :
  ∃ h' s' c, @synch sample_lower simple_deep_copy sample_env [] sample_cache = (h', s', Some c, None) ∧
    ∀ reg' srv,
      @NewAPIServer _ unit (@SubjectNamespaceLister _ (@SAC_lister (sorted_range _ _))) _
        (marshal (λ _, "{}")) sample_uuid ∅ sample_logger
        (AuthenticateRequest sample_authenticator) s' None = Ret (reg', srv) →
      ∃ w nl,
        mux_ServeHTTP (s_Handler srv)
          {| r_Method := "GET"; r_Path := "/api/v1/namespaces"; r_ctx := [];
             r_Header := proxy_headers ∅ "X-User" "X-Groups" "alice" ["devs"] |}
          (newResponse None) = Ret w ∧
        final_status w = StatusOK ∧ w_body w = "{}" ∧ nl_Kind nl = "NamespaceList" ∧
        ∀ name, name ∈ ns_Name <$> elems (nl_Items nl) ↔
                ∃ ns sub, ns ∈ [ns_team; ns_bare] ∧ ns_Name ns = name ∧
                          sub ∈ user_subjects alice ["devs"] ∧ sub ∈ allowed sample_env ns.
Proof.
  eapply (@request_gets_exactly_allowed sample_lower simple_deep_copy simple_deep_copy_laws
           (sorted_range _ _) (sorted_range_laws _ _) unit _ _ (λ _, "{}") sample_uuid
           sample_env [] sample_cache sample_heap [ns_team; ns_bare] ∅ sample_logger
           sample_authenticator None ∅ [] "alice" ["devs"] alice);
    [reflexivity|reflexivity|apply sample_items_ok| |intros; reflexivity|discriminate|discriminate
    |reflexivity|reflexivity| |right; split; reflexivity].
  - apply (bool_decide_unpack _). vm_compute. exact I.
  - apply (bool_decide_unpack _). vm_compute. exact I.
Defined.
