(* ===== verification/Rbac.v ===== *)
(** * RBAC objects and how the locator reads them
    (rbac_authorizer.go, pkg/auth/cache/mocks/staticroles.go)

    [CRAuthRetriever] answers the questions of the Kubernetes subject locator
    from the resource cache; [MockStaticRoles] is the double the tests of the
    access cache use in its place.  The class [RoleSource] is the interface
    both implement. *)

From stdpp Require Import base gmap strings list.
From S2P Require Import Prelude GoSlices KubeTypes.

(** ** [rbacv1] objects, with the metadata the program reads or writes *)
Record ObjectMeta := mkMeta {
  om_Name : string;
  om_Namespace : string;
  om_Labels : option gomap;
  om_Annotations : option gomap;
  om_ManagedFields : option string;
}.
#[export] Instance ObjectMeta_eq_dec : EqDecision ObjectMeta.
Proof. solve_decision. Defined.

Record PolicyRule := mkRule {
  pr_Verbs : list string;
  pr_APIGroups : list string;
  pr_Resources : list string;
  pr_ResourceNames : list string;
  pr_NonResourceURLs : list string;
}.
#[export] Instance PolicyRule_eq_dec : EqDecision PolicyRule.
Proof. solve_decision. Defined.

Record Role := mkRole { role_Meta : ObjectMeta; role_Rules : list PolicyRule }.
Record ClusterRole := mkClusterRole {
  cr_Meta : ObjectMeta; cr_Rules : list PolicyRule; cr_AggregationRule : option string;
}.
Record RoleRef := mkRoleRef { rr_APIGroup : string; rr_Kind : string; rr_Name : string }.
Record RoleBinding := mkRoleBinding {
  rb_Meta : ObjectMeta; rb_Subjects : list Subject; rb_RoleRef : RoleRef;
}.
Record ClusterRoleBinding := mkClusterRoleBinding {
  crb_Meta : ObjectMeta; crb_Subjects : list Subject; crb_RoleRef : RoleRef;
}.

(** ** The interface of the locator: RoleGetter, RoleBindingLister,
    ClusterRoleGetter and ClusterRoleBindingLister *)
Class RoleSource (T : Type) := {
  GetRole : T → string → string → error + Role;
  ListRoleBindings : T → string → error + list RoleBinding;
  GetClusterRole : T → string → error + ClusterRole;
  ListClusterRoleBindings : T → error + list ClusterRoleBinding;
}.

(** ** [client.Reader], on the types that are read

    A key is a namespace and a name; the option of a list call is the
    namespace it is restricted to ([client.InNamespace]). *)
Record ObjectKey := mkKey { key_Namespace : string; key_Name : string }.
Class Reader (R : Type) := {
  Get_Role : R → ObjectKey → error + Role;
  Get_ClusterRole : R → ObjectKey → error + ClusterRole;
  List_RoleBindings : R → option string → error + list RoleBinding;
  List_ClusterRoleBindings : R → option string → error + list ClusterRoleBinding;
  (** the generated [DeepCopy] methods *)
  RoleBinding_DeepCopy : RoleBinding → RoleBinding;
  ClusterRoleBinding_DeepCopy : ClusterRoleBinding → ClusterRoleBinding;
}.

(** ** [CRAuthRetriever] (rbac_authorizer.go) *)
Record CRAuthRetriever (R : Type) := mkRetriever { cli : R }.
Arguments mkRetriever {R} cli.
Arguments cli {R} _.

Section retriever.
Context {R : Type} `{!Reader R}.

Definition NewCRAuthRetriever (r : R) : CRAuthRetriever R := mkRetriever r.

(** The retriever plays the four roles the authorizer of the library needs. *)
Definition NewAuthorizer {A : Type}
    (rbac_New : CRAuthRetriever R → CRAuthRetriever R → CRAuthRetriever R → CRAuthRetriever R → A)
    (cli : R) : A :=
  let aur := mkRetriever cli in
  rbac_New aur aur aur aur.

(** The empty object that carries the key; [ObjectKeyFromObject] reads it. *)
Definition retriever_GetRole (r : CRAuthRetriever R) (namespace name : string) : error + Role :=
  let meta := mkMeta name namespace None None None in
  match Get_Role (cli r) {| key_Namespace := om_Namespace meta; key_Name := om_Name meta |} with
  | inl err => inl err
  | inr ro => inr ro
  end.

Definition retriever_ListRoleBindings (r : CRAuthRetriever R) (namespace : string) :
    error + list RoleBinding :=
  match List_RoleBindings (cli r) (Some namespace) with
  | inl err => inl err
  | inr items => inr (map RoleBinding_DeepCopy items)
  end.

Definition retriever_GetClusterRole (r : CRAuthRetriever R) (name : string) : error + ClusterRole :=
  let meta := mkMeta name "" None None None in
  match Get_ClusterRole (cli r)
          {| key_Namespace := om_Namespace meta; key_Name := om_Name meta |} with
  | inl err => inl err
  | inr ro => inr ro
  end.

Definition retriever_ListClusterRoleBindings (r : CRAuthRetriever R) :
    error + list ClusterRoleBinding :=
  match List_ClusterRoleBindings (cli r) None with
  | inl err => inl err
  | inr items => inr (map ClusterRoleBinding_DeepCopy items)
  end.

#[export] Instance CRAuthRetriever_source : RoleSource (CRAuthRetriever R) := {|
  GetRole := retriever_GetRole;
  ListRoleBindings := retriever_ListRoleBindings;
  GetClusterRole := retriever_GetClusterRole;
  ListClusterRoleBindings := retriever_ListClusterRoleBindings;
|}.
End retriever.

(** ** [MockStaticRoles] (pkg/auth/cache/mocks/staticroles.go) *)
Record MockStaticRoles := mkStaticRoles {
  sr_Roles : list Role;
  sr_RoleBindings : list RoleBinding;
  sr_ClusterRoles : list ClusterRole;
  sr_ClusterRoleBindings : list ClusterRoleBinding;
}.

Definition findFunc {E} (s : list E) (f : E → bool) : option E :=
  let i := IndexFunc s f in
  if decide (i ≠ -1)%Z then s !! Z.to_nat i else None.

Definition filterFunc {E} (s : list E) (f : E → bool) : list E :=
  foldl (λ ns e, if f e then ns ++ [e] else ns) [] s.

Definition mock_GetRole (r : MockStaticRoles) (namespace name : string) : error + Role :=
  if decide (namespace = "") then inl (ErrNew "namespace is required when getting Roles")
  else
    let matchRole r := bool_decide (om_Name (role_Meta r) = name) &&
                       bool_decide (om_Namespace (role_Meta r) = namespace) in
    match findFunc (sr_Roles r) matchRole with
    | Some r => inr r
    | None => inl (ErrNew "Role not found")
    end.

Definition mock_GetClusterRole (r : MockStaticRoles) (name : string) : error + ClusterRole :=
  let matchClusterRole cr := bool_decide (om_Name (cr_Meta cr) = name) in
  match findFunc (sr_ClusterRoles r) matchClusterRole with
  | Some r => inr r
  | None => inl (ErrNew "ClusterRole not found")
  end.

Definition mock_ListRoleBindings (r : MockStaticRoles) (namespace : string) :
    error + list RoleBinding :=
  if decide (namespace = "") then inl (ErrNew "namespace is required when getting RoleBindings")
  else
    let matchRoleBindings rb := bool_decide (om_Namespace (rb_Meta rb) = namespace) in
    inr (filterFunc (sr_RoleBindings r) matchRoleBindings).

Definition mock_ListClusterRoleBindings (r : MockStaticRoles) : error + list ClusterRoleBinding :=
  inr (sr_ClusterRoleBindings r).

#[export] Instance MockStaticRoles_source : RoleSource MockStaticRoles := {|
  GetRole := mock_GetRole;
  ListRoleBindings := mock_ListRoleBindings;
  GetClusterRole := mock_GetClusterRole;
  ListClusterRoleBindings := mock_ListClusterRoleBindings;
|}.

(** ** Lemmas *)

Lemma findFunc_find {E} (s : list E) f : findFunc s f = snd <$> list_find (λ x, f x = true) s.
Proof.
  unfold findFunc, IndexFunc.
  destruct (list_find (λ x, f x = true) s) as [[i x]|] eqn:Hf; simpl; [|done].
  rewrite decide_True by lia. apply list_find_Some in Hf as [Hi _]. by rewrite Nat2Z.id.
Qed.

(** [findFunc] is the first element that satisfies the predicate. *)
Lemma findFunc_Some {E} (s : list E) f x :
  findFunc s f = Some x → x ∈ s ∧ f x = true.
Proof.
  rewrite findFunc_find. intros ([i y] & (Hi & Hy & _)%list_find_Some & ->)%fmap_Some. simpl.
  eauto using list_elem_of_lookup_2.
Qed.

Lemma findFunc_None {E} (s : list E) f x : findFunc s f = None → x ∈ s → f x ≠ true.
Proof.
  rewrite findFunc_find. intros Hn%fmap_None Hx.
  by eapply list_find_None, list.Forall_forall in Hn.
Qed.

Lemma filterFunc_filter {E} (s : list E) f : filterFunc s f = filter (λ x, f x = true) s.
Proof.
  unfold filterFunc.
  assert (∀ acc, foldl (λ ns e, if f e then ns ++ [e] else ns) acc s =
                 acc ++ filter (λ x, f x = true) s) as H; [|by rewrite H].
  induction s as [|x s IH]; intros acc; csimpl; [by rewrite app_nil_r|].
  rewrite IH, filter_cons. destruct (f x); [|done].
  rewrite decide_True by done. by rewrite <-app_assoc.
Qed.

(** ** The reader serves a fixed set of objects

    What [client.Reader] documents: a get returns the object with the key or
    an error, a list returns the objects of the namespace in some order (of
    all namespaces for the empty one). *)
Section holds.
Context {R : Type} `{!Reader R}.

Record Holds (r : R) (st : MockStaticRoles) : Prop := {
  hold_role k o : o ∈ sr_Roles st → om_Name (role_Meta o) = key_Name k →
    om_Namespace (role_Meta o) = key_Namespace k → Get_Role r k = inr o;
  hold_no_role k : (∀ o, o ∈ sr_Roles st → om_Name (role_Meta o) = key_Name k →
    om_Namespace (role_Meta o) ≠ key_Namespace k) → ∃ e, Get_Role r k = inl e;
  hold_clusterrole k o : o ∈ sr_ClusterRoles st → om_Name (cr_Meta o) = key_Name k →
    key_Namespace k = "" → Get_ClusterRole r k = inr o;
  hold_no_clusterrole k : (∀ o, o ∈ sr_ClusterRoles st → om_Name (cr_Meta o) ≠ key_Name k) →
    ∃ e, Get_ClusterRole r k = inl e;
  hold_bindings ns : ns ≠ "" → ∃ l, List_RoleBindings r (Some ns) = inr l ∧
    l ≡ₚ filter (λ rb, om_Namespace (rb_Meta rb) = ns) (sr_RoleBindings st);
  hold_clusterbindings : ∃ l, List_ClusterRoleBindings r None = inr l ∧
    l ≡ₚ sr_ClusterRoleBindings st;
  hold_copy_rb rb : RoleBinding_DeepCopy rb = rb;
  hold_copy_crb crb : ClusterRoleBinding_DeepCopy crb = crb;
}.

(** Two answers agree: both fail, or both succeed with related values. *)
Definition agree {A} (rel : A → A → Prop) (x y : error + A) : Prop :=
  match x, y with
  | inl _, inl _ => True
  | inr a, inr b => rel a b
  | _, _ => False
  end.

(** C37: the retriever of the program and the double of the tests are
    interchangeable.  Over a reader that serves the objects of the double, both
    answer every question of the locator about a named namespace alike: the
    same roles, the same bindings up to order, and failures on the same
    questions. *)
Theorem retriever_agrees_with_mock (r : R) (st : MockStaticRoles) ns name :
  Holds r st → ns ≠ "" →
  agree eq (GetRole (NewCRAuthRetriever r) ns name) (GetRole st ns name) ∧
  agree eq (GetClusterRole (NewCRAuthRetriever r) name) (GetClusterRole st name) ∧
  agree Permutation (ListRoleBindings (NewCRAuthRetriever r) ns) (ListRoleBindings st ns) ∧
  agree Permutation (ListClusterRoleBindings (NewCRAuthRetriever r)) (ListClusterRoleBindings st).
Proof.
  intros H Hns. split_and!; simpl.
  - unfold retriever_GetRole, mock_GetRole. rewrite decide_False by done. simpl.
    destruct (findFunc (sr_Roles st) _) as [o|] eqn:E.
    + apply findFunc_Some in E as [Hin [Hn%bool_decide_eq_true Hs%bool_decide_eq_true]%andb_true_iff].
      by rewrite (hold_role r st H _ o).
    + destruct (hold_no_role r st H {| key_Namespace := ns; key_Name := name |}) as [e ->]; [|done].
      intros o Ho Hn Hs. apply (findFunc_None _ _ _ E Ho). simpl in *.
      by rewrite !bool_decide_true.
  - unfold retriever_GetClusterRole, mock_GetClusterRole. simpl.
    destruct (findFunc (sr_ClusterRoles st) _) as [o|] eqn:E.
    + apply findFunc_Some in E as [Hin Hn%bool_decide_eq_true].
      by rewrite (hold_clusterrole r st H _ o).
    + destruct (hold_no_clusterrole r st H {| key_Namespace := ""; key_Name := name |}) as [e ->]; [|done].
      intros o Ho Hn. apply (findFunc_None _ _ _ E Ho). by rewrite bool_decide_true.
  - unfold retriever_ListRoleBindings, mock_ListRoleBindings. simpl.
    destruct (hold_bindings r st H ns Hns) as (l & -> & Hl). rewrite decide_False by done. simpl.
    rewrite filterFunc_filter, (map_ext _ id), map_id, Hl by apply (hold_copy_rb r st H).
    erewrite list_filter_iff; [done|]. intros rb. by rewrite bool_decide_eq_true.
  - unfold retriever_ListClusterRoleBindings, mock_ListClusterRoleBindings. simpl.
    destruct (hold_clusterbindings r st H) as (l & -> & Hl). simpl.
    by rewrite (map_ext _ id), map_id, Hl by apply (hold_copy_crb r st H).
Qed.
End holds.

(** ** Witness: a reader over the static lists *)
Definition static_reader : Reader MockStaticRoles := {|
  Get_Role := λ st k,
    match findFunc (sr_Roles st) (λ o, bool_decide (om_Name (role_Meta o) = key_Name k ∧
                                                    om_Namespace (role_Meta o) = key_Namespace k)) with
    | Some o => inr o
    | None => inl (ErrStatus 404 "not found")
    end;
  Get_ClusterRole := λ st k,
    match findFunc (sr_ClusterRoles st) (λ o, bool_decide (om_Name (cr_Meta o) = key_Name k)) with
    | Some o => inr o
    | None => inl (ErrStatus 404 "not found")
    end;
  List_RoleBindings := λ st o, inr
    match o with
    | Some ns => filter (λ rb, om_Namespace (rb_Meta rb) = ns) (sr_RoleBindings st)
    | None => sr_RoleBindings st
    end;
  List_ClusterRoleBindings := λ st _, inr (sr_ClusterRoleBindings st);
  RoleBinding_DeepCopy := id;
  ClusterRoleBinding_DeepCopy := id;
|}.

Definition view_role : Role :=
  mkRole (mkMeta "view" "team-a" None None None) [mkRule ["get"] [""] ["namespaces"] [] []].
Definition view_binding : RoleBinding :=
  mkRoleBinding (mkMeta "view" "team-a" None None None)
    [mkSubject UserKind rbac_GroupName "alice" ""] (mkRoleRef rbac_GroupName "Role" "view").
Definition sample_roles : MockStaticRoles := mkStaticRoles [view_role] [view_binding] [] [].

Lemma sample_holds : @Holds _ static_reader sample_roles sample_roles.
Proof.
  split; simpl.
  - intros [kns kn] o ->%list_elem_of_singleton Hn Hs. simpl in *. subst. reflexivity.
  - intros [kns kn] Hno. specialize (Hno view_role ltac:(by left)). simpl in Hno.
    rewrite findFunc_find. simpl. case_decide as Hd; [|by eexists].
    apply bool_decide_eq_true in Hd as [Hn Hs]. by destruct (Hno Hn).
  - by intros k o ?%not_elem_of_nil.
  - intros k _. by eexists.
  - intros ns Hns. by eexists.
  - by eexists.
  - done.
  - done.
Qed.

Lemma retriever_agrees_with_mock_witness :
  agree eq (@GetRole _ (@CRAuthRetriever_source _ static_reader)
              (NewCRAuthRetriever sample_roles) "team-a" "view")
           (GetRole sample_roles "team-a" "view").
Proof.
  exact (proj1 (@retriever_agrees_with_mock _ static_reader sample_roles sample_roles "team-a" "view"
                  sample_holds ltac:(discriminate))).
Defined.
