(* ===== verification/Transform.v ===== *)
(** * What the resource cache keeps of an object
    (internal/resourcecache/internal/transform/transformfuncs.go)

    The informers pass every object through a transform before storing it:
    annotations, managed fields, specs and statuses are dropped, and the rules
    of roles are reduced to those that grant reading namespaces. *)

From stdpp Require Import base gmap strings list.
From S2P Require Import Prelude GoSlices KubeTypes Rbac.

(** The dynamic values a transform receives; [OOther] is any other type, by
    its name. *)
Inductive Obj :=
| ORole (r : Role)
| OClusterRole (cr : ClusterRole)
| ORoleBinding (rb : RoleBinding)
| OClusterRoleBinding (crb : ClusterRoleBinding)
| ONamespace (ns : Namespace)
| OOther (type : string).

(** The name the verb T of [fmt] prints; a nil interface prints <nil>. *)
Definition obj_type (i : option Obj) : string :=
  match i with
  | Some (ORole _) => "*v1.Role"
  | Some (OClusterRole _) => "*v1.ClusterRole"
  | Some (ORoleBinding _) => "*v1.RoleBinding"
  | Some (OClusterRoleBinding _) => "*v1.ClusterRoleBinding"
  | Some (ONamespace _) => "*v1.Namespace"
  | Some (OOther t) => t
  | None => "<nil>"
  end.

(** [toolscache.TransformFunc]; the value is an interface, nil is [None]. *)
Abbreviation TransformFunc := (option Obj → option Obj * option error).

(** ** The library functions

    [meta.Accessor] gives access to the metadata of an object (or fails), and
    [cache.TransformStripManagedFields] clears its managed fields. *)
Class ObjectLib := {
  (** [Accessor(in)], then [GetAnnotations() != nil]; [None] when it fails *)
  accessor_has_annotations : option Obj → option bool;
  (** [SetAnnotations(nil)] on the accessed object *)
  accessor_clear_annotations : option Obj → option Obj;
  TransformStripManagedFields : TransformFunc;
}.

Definition meta_clear_annotations (m : ObjectMeta) : ObjectMeta :=
  mkMeta (om_Name m) (om_Namespace m) (om_Labels m) None (om_ManagedFields m).
Definition meta_clear_managed (m : ObjectMeta) : ObjectMeta :=
  mkMeta (om_Name m) (om_Namespace m) (om_Labels m) (om_Annotations m) None.

(** A change of the metadata of an RBAC object. *)
Definition on_meta (f : ObjectMeta → ObjectMeta) (o : Obj) : Obj :=
  match o with
  | ORole r => ORole (mkRole (f (role_Meta r)) (role_Rules r))
  | OClusterRole cr => OClusterRole (mkClusterRole (f (cr_Meta cr)) (cr_Rules cr) (cr_AggregationRule cr))
  | ORoleBinding rb => ORoleBinding (mkRoleBinding (f (rb_Meta rb)) (rb_Subjects rb) (rb_RoleRef rb))
  | OClusterRoleBinding crb =>
      OClusterRoleBinding (mkClusterRoleBinding (f (crb_Meta crb)) (crb_Subjects crb) (crb_RoleRef crb))
  | o => o
  end.
Definition obj_meta (o : Obj) : option ObjectMeta :=
  match o with
  | ORole r => Some (role_Meta r)
  | OClusterRole cr => Some (cr_Meta cr)
  | ORoleBinding rb => Some (rb_Meta rb)
  | OClusterRoleBinding crb => Some (crb_Meta crb)
  | _ => None
  end.

(** What the code relies on: on the objects it knows, the accessor reads and
    writes the annotations and the strip function clears the managed fields;
    the strip function never fails and keeps the dynamic type. *)
Class ObjectLaws `{!ObjectLib} : Prop := {
  has_annotations_meta o m : obj_meta o = Some m →
    accessor_has_annotations (Some o) = Some (bool_decide (om_Annotations m ≠ None));
  clear_annotations_meta o m : obj_meta o = Some m →
    accessor_clear_annotations (Some o) = Some (on_meta meta_clear_annotations o);
  strip_meta o m : obj_meta o = Some m →
    TransformStripManagedFields (Some o) = (Some (on_meta meta_clear_managed o), None);
  strip_namespace ns :
    TransformStripManagedFields (Some (ONamespace ns)) =
      (Some (ONamespace (mkNamespace (ns_Name ns) (ns_Labels ns) (ns_Annotations ns) None
                           (ns_Spec ns) (ns_Status ns))), None);
  strip_other t : TransformStripManagedFields (Some (OOther t)) = (Some (OOther t), None);
}.

(** ** The transforms *)
Fixpoint merge_loop (ff : list TransformFunc) (i : option Obj) : option Obj * option error :=
  match ff with
  | [] => (i, None)
  | f :: ff' =>
      match f i with
      | (_, Some err) => (None, Some err)
      | (i', None) => merge_loop ff' i'
      end
  end.
Definition MergeTransformFunc (ff : list TransformFunc) : TransformFunc := merge_loop ff.

Fixpoint filter_loop (fr : list PolicyRule) (pp : list PolicyRule) : list PolicyRule :=
  match pp with
  | [] => fr
  | r :: pp' =>
      if Contains (pr_APIGroups r) "" && Contains (pr_Resources r) "namespaces" &&
         Contains (pr_Verbs r) "get"
      then filter_loop (fr ++ [{| pr_Verbs := ["get"]; pr_APIGroups := [""];
                                  pr_Resources := ["namespaces"];
                                  pr_ResourceNames := pr_ResourceNames r;
                                  pr_NonResourceURLs := pr_NonResourceURLs r |}]) pp'
      else filter_loop fr pp'
  end.
Definition filterNamespacesRelatedPolicyRules (pp : list PolicyRule) : list PolicyRule :=
  filter_loop [] pp.

Section transforms.
Context `{!ObjectLib}.

Definition TrimAnnotations : TransformFunc := λ i,
  match accessor_has_annotations i with
  | Some true => (accessor_clear_annotations i, None)
  | _ => (i, None)
  end.

Definition TrimRole : TransformFunc := MergeTransformFunc
  [TransformStripManagedFields; TrimAnnotations;
   λ i, match i with
        | Some (ORole r) =>
            let rules := filterNamespacesRelatedPolicyRules (role_Rules r) in
            if decide (length rules = 0) then (None, None)
            else (Some (ORole (mkRole (role_Meta r) rules)), None)
        | _ => (None, Some (ErrNew ("error caching Role: expected Role received " +:+ obj_type i)))
        end].

Definition TrimClusterRole : TransformFunc := MergeTransformFunc
  [TransformStripManagedFields; TrimAnnotations;
   λ i, match i with
        | Some (OClusterRole cr) =>
            let rules := filterNamespacesRelatedPolicyRules (cr_Rules cr) in
            if decide (length rules = 0) then (None, None)
            else (Some (OClusterRole (mkClusterRole (cr_Meta cr) rules (cr_AggregationRule cr))), None)
        | _ => (None, Some (ErrNew ("error caching ClusterRole: expected a ClusterRole received "
                                      +:+ obj_type i)))
        end].

(** The zero values of the spec and the status are the empty encodings. *)
Definition TrimNamespace : TransformFunc := MergeTransformFunc
  [TransformStripManagedFields;
   λ i, match i with
        | Some (ONamespace ns) =>
            (Some (ONamespace (mkNamespace (ns_Name ns) (ns_Labels ns) (ns_Annotations ns)
                                 (ns_ManagedFields ns) "" "")), None)
        | _ => (None, Some (ErrNew ("error caching Namespace: expected a Namespace received "
                                      +:+ obj_type i)))
        end].

Definition trimBinding : TransformFunc :=
  MergeTransformFunc [TransformStripManagedFields; TrimAnnotations].
Definition TrimClusterRoleBinding : TransformFunc := trimBinding.
Definition TrimRoleBinding : TransformFunc := trimBinding.
End transforms.

(** ** The filter of rules *)

(** The rule names the group, the resource and the verb explicitly. *)
Definition reads_namespaces (r : PolicyRule) : Prop :=
  "" ∈ pr_APIGroups r ∧ "namespaces" ∈ pr_Resources r ∧ "get" ∈ pr_Verbs r.
#[export] Instance reads_namespaces_dec r : Decision (reads_namespaces r).
Proof. unfold reads_namespaces. apply _. Defined.
Definition trimmed_rule (r : PolicyRule) : PolicyRule :=
  {| pr_Verbs := ["get"]; pr_APIGroups := [""]; pr_Resources := ["namespaces"];
     pr_ResourceNames := pr_ResourceNames r; pr_NonResourceURLs := pr_NonResourceURLs r |}.

Lemma filter_loop_spec fr pp :
  filter_loop fr pp = fr ++ (trimmed_rule <$> filter reads_namespaces pp).
Proof.
  revert fr. induction pp as [|r pp IH]; intros fr; csimpl; [by rewrite app_nil_r|].
  rewrite filter_cons.
  assert (Contains (pr_APIGroups r) "" && Contains (pr_Resources r) "namespaces" &&
          Contains (pr_Verbs r) "get" = true ↔ reads_namespaces r) as Hb.
  { rewrite !andb_true_iff, !Contains_elem_of. unfold reads_namespaces. tauto. }
  destruct (_ && _); case_decide as Hr; [|naive_solver..|by rewrite IH].
  rewrite IH. csimpl. by rewrite <-app_assoc.
Qed.

Lemma filter_rules_eq pp :
  filterNamespacesRelatedPolicyRules pp = trimmed_rule <$> filter reads_namespaces pp.
Proof. apply filter_loop_spec. Qed.

Lemma trimmed_rule_reads r : reads_namespaces (trimmed_rule r).
Proof. split_and!; by left. Qed.

Lemma filter_rules_idem pp :
  filterNamespacesRelatedPolicyRules (filterNamespacesRelatedPolicyRules pp) =
  filterNamespacesRelatedPolicyRules pp.
Proof.
  rewrite !filter_rules_eq. induction (filter reads_namespaces pp) as [|r l IH]; [done|].
  rewrite fmap_cons, filter_cons_True by apply trimmed_rule_reads. rewrite fmap_cons, IH. done.
Qed.

#[export] Hint Rewrite filter_rules_idem : golib.

(** ** The trimmed objects *)

(** The metadata that is kept. *)
Definition kept_meta (m : ObjectMeta) : ObjectMeta :=
  mkMeta (om_Name m) (om_Namespace m) (om_Labels m) None None.

Section trim_lemmas.
Context `{!ObjectLib, !ObjectLaws}.

Lemma TrimAnnotations_meta o m :
  obj_meta o = Some m → TrimAnnotations (Some o) = (Some (on_meta meta_clear_annotations o), None).
Proof.
  intros Hm. unfold TrimAnnotations. rewrite (has_annotations_meta o m Hm).
  case_bool_decide as Ha; [by rewrite (clear_annotations_meta o m)|].
  do 2 f_equal.
  destruct o as [[[] ?]|[[] ? ?]|[[] ? ?]|[[] ? ?]|?|?]; simplify_eq/=; done.
Qed.

(** The first two steps of the RBAC transforms. *)
Lemma trimBinding_meta o m ff :
  obj_meta o = Some m →
  MergeTransformFunc (TransformStripManagedFields :: TrimAnnotations :: ff) (Some o) =
  MergeTransformFunc ff (Some (on_meta kept_meta o)).
Proof.
  intros Hm. unfold MergeTransformFunc. cbn [merge_loop]. rewrite (strip_meta o m Hm).
  rewrite (TrimAnnotations_meta _ (meta_clear_managed m)).
  - destruct o; done.
  - destruct o; simplify_eq/=; done.
Qed.

(** What remains of each kind of object. *)
Lemma TrimRole_eq r :
  TrimRole (Some (ORole r)) =
    (let rules := filterNamespacesRelatedPolicyRules (role_Rules r) in
     if decide (length rules = 0) then None
     else Some (ORole (mkRole (kept_meta (role_Meta r)) rules)), None).
Proof.
  unfold TrimRole. rewrite (trimBinding_meta _ (role_Meta r)) by done. cbn.
  unfold filterNamespacesRelatedPolicyRules. by destruct (decide (length _ = 0)).
Qed.

Lemma TrimClusterRole_eq cr :
  TrimClusterRole (Some (OClusterRole cr)) =
    (let rules := filterNamespacesRelatedPolicyRules (cr_Rules cr) in
     if decide (length rules = 0) then None
     else Some (OClusterRole (mkClusterRole (kept_meta (cr_Meta cr)) rules
                                (cr_AggregationRule cr))), None).
Proof.
  unfold TrimClusterRole. rewrite (trimBinding_meta _ (cr_Meta cr)) by done. cbn.
  unfold filterNamespacesRelatedPolicyRules. by destruct (decide (length _ = 0)).
Qed.

Lemma trimBinding_eq o m :
  obj_meta o = Some m → trimBinding (Some o) = (Some (on_meta kept_meta o), None).
Proof. intros Hm. unfold trimBinding. by rewrite (trimBinding_meta _ m). Qed.

Lemma TrimNamespace_eq ns :
  TrimNamespace (Some (ONamespace ns)) =
    (Some (ONamespace (mkNamespace (ns_Name ns) (ns_Labels ns) (ns_Annotations ns) None "" "")), None).
Proof. unfold TrimNamespace, MergeTransformFunc. cbn. by rewrite strip_namespace. Qed.
End trim_lemmas.

Lemma filter_rules_nil pp :
  length (filterNamespacesRelatedPolicyRules pp) = 0 ↔ filter reads_namespaces pp = [].
Proof. rewrite filter_rules_eq, length_fmap. apply length_zero_iff_nil. Qed.

Lemma merge_loop_app ff gg i :
  merge_loop (ff ++ gg) i =
  match merge_loop ff i with
  | (_, Some err) => (None, Some err)
  | (i', None) => merge_loop gg i'
  end.
Proof.
  revert i. induction ff as [|f ff IH]; intros i; simpl; [done|].
  by destruct (f i) as [i' [err|]].
Qed.

(** ** Properties *)

(** Merging transforms is composing them: a merged list runs the functions
    in order on each other's results, and the first error ends the run with a
    nil object. *)
Theorem MergeTransformFunc_app ff gg i :
  MergeTransformFunc (ff ++ gg) i =
    match MergeTransformFunc ff i with
    | (_, Some err) => (None, Some err)
    | (i', None) => MergeTransformFunc gg i'
    end ∧
  ∀ err, (MergeTransformFunc (ff ++ gg) i).2 = Some err → (MergeTransformFunc (ff ++ gg) i).1 = None.
Proof.
  split; [apply merge_loop_app|]. unfold MergeTransformFunc.
  generalize (ff ++ gg) as l. clear. intros l. revert i.
  induction l as [|f l IH]; intros i err; simpl; [done|]. destruct (f i) as [i' [e|]]; [done|eauto].
Qed.

(** *** What a trimmed set of rules grants *)
Section grants.
(** The rule evaluator of Kubernetes, for the question the access cache asks:
    may the verb get be used on the namespace [name]? *)
Variable RuleAllows : PolicyRule → string → bool.
(** Its documented meaning: [*] stands for every verb, group and resource, an
    empty list of names for every name. *)
Hypothesis RuleAllows_spec : ∀ r name,
  RuleAllows r name = true ↔
  ("get" ∈ pr_Verbs r ∨ "*" ∈ pr_Verbs r) ∧ ("" ∈ pr_APIGroups r ∨ "*" ∈ pr_APIGroups r) ∧
  ("namespaces" ∈ pr_Resources r ∨ "*" ∈ pr_Resources r) ∧
  (pr_ResourceNames r = [] ∨ name ∈ pr_ResourceNames r).

Definition RulesAllow (pp : list PolicyRule) (name : string) : Prop :=
  ∃ r, r ∈ pp ∧ RuleAllows r name = true.

Lemma RuleAllows_trimmed r name :
  reads_namespaces r → RuleAllows (trimmed_rule r) name = RuleAllows r name.
Proof.
  intros (Hg & Hr & Hv). apply eq_bool_prop_intro. rewrite !Is_true_true, !RuleAllows_spec. simpl.
  set_solver.
Qed.

Lemma RulesAllow_filter pp name :
  RulesAllow (filterNamespacesRelatedPolicyRules pp) name ↔
  ∃ r, r ∈ pp ∧ reads_namespaces r ∧ RuleAllows r name = true.
Proof.
  unfold RulesAllow. rewrite filter_rules_eq. split.
  - intros (r' & (r & -> & [Hr Hin]%list_elem_of_filter)%list_elem_of_fmap & Ha).
    rewrite RuleAllows_trimmed in Ha by done. eauto.
  - intros (r & Hin & Hr & Ha). exists (trimmed_rule r). rewrite RuleAllows_trimmed by done.
    split; [|done]. apply list_elem_of_fmap. exists r. by rewrite list_elem_of_filter.
Qed.

(** C21: trimming rules never grants anything new, and keeps every grant made
    without wildcards: on rules without [*], the trimmed rules allow reading
    exactly the namespaces the original rules allow.  A grant made with a
    wildcard is lost: the rule of cluster-admin allows reading every namespace,
    and nothing of it is left in the cache. *)
Theorem filter_rules_grants pp name :
  (RulesAllow (filterNamespacesRelatedPolicyRules pp) name → RulesAllow pp name) ∧
  (Forall (λ r, "*" ∉ pr_Verbs r ∧ "*" ∉ pr_APIGroups r ∧ "*" ∉ pr_Resources r) pp →
   RulesAllow pp name → RulesAllow (filterNamespacesRelatedPolicyRules pp) name) ∧
  (let admin := mkRule ["*"] ["*"] ["*"] [] [] in
   RulesAllow [admin] name ∧ filterNamespacesRelatedPolicyRules [admin] = []).
Proof.
  rewrite RulesAllow_filter. split; [intros (r & ? & _ & ?); by exists r|split].
  2: { split; [|reflexivity]. exists (mkRule ["*"] ["*"] ["*"] [] []). split; [by left|].
       apply RuleAllows_spec. simpl. set_solver. }
  intros Hw (r & Hin & Ha). exists r. split_and!; [done| |done].
  rewrite Forall_forall in Hw. destruct (Hw r Hin) as (? & ? & ?).
  apply RuleAllows_spec in Ha. unfold reads_namespaces. tauto.
Qed.
End grants.

Section trim.
Context `{!ObjectLib, !ObjectLaws}.

(** What the cache stores of each kind of object.  A role keeps its name,
    namespace, labels and trimmed rules, and is dropped (nil, no error) when
    no rule is left; so does a cluster role; a binding keeps its subjects and
    reference; a namespace keeps labels and annotations and loses spec and
    status; an object of another type is an error naming the type. *)
Theorem trim_spec r cr rb crb ns t :
  TrimRole (Some (ORole r)) =
    (if decide (filter reads_namespaces (role_Rules r) = []) then None
     else Some (ORole (mkRole (kept_meta (role_Meta r))
                         (trimmed_rule <$> filter reads_namespaces (role_Rules r)))), None) ∧
  TrimClusterRole (Some (OClusterRole cr)) =
    (if decide (filter reads_namespaces (cr_Rules cr) = []) then None
     else Some (OClusterRole (mkClusterRole (kept_meta (cr_Meta cr))
                 (trimmed_rule <$> filter reads_namespaces (cr_Rules cr))
                 (cr_AggregationRule cr))), None) ∧
  TrimRoleBinding (Some (ORoleBinding rb)) =
    (Some (ORoleBinding (mkRoleBinding (kept_meta (rb_Meta rb)) (rb_Subjects rb) (rb_RoleRef rb))), None) ∧
  TrimClusterRoleBinding (Some (OClusterRoleBinding crb)) =
    (Some (OClusterRoleBinding (mkClusterRoleBinding (kept_meta (crb_Meta crb)) (crb_Subjects crb)
                                  (crb_RoleRef crb))), None) ∧
  TrimNamespace (Some (ONamespace ns)) =
    (Some (ONamespace (mkNamespace (ns_Name ns) (ns_Labels ns) (ns_Annotations ns) None "" "")), None) ∧
  TrimNamespace (Some (OOther t)) =
    (None, Some (ErrNew ("error caching Namespace: expected a Namespace received " +:+ t))) ∧
  TrimRole (Some (OClusterRole cr)) =
    (None, Some (ErrNew "error caching Role: expected Role received *v1.ClusterRole")).
Proof.
  split_and!.
  - rewrite TrimRole_eq. cbv zeta. rewrite <-filter_rules_eq.
    f_equal. by apply decide_ext, filter_rules_nil.
  - rewrite TrimClusterRole_eq. cbv zeta. rewrite <-filter_rules_eq.
    f_equal. by apply decide_ext, filter_rules_nil.
  - by apply (trimBinding_eq (ORoleBinding rb) (rb_Meta rb)).
  - by apply (trimBinding_eq (OClusterRoleBinding crb) (crb_Meta crb)).
  - apply TrimNamespace_eq.
  - unfold TrimNamespace, MergeTransformFunc. cbn. by rewrite strip_other.
  - unfold TrimRole. by rewrite (trimBinding_meta _ (cr_Meta cr)).
Qed.

(** The transforms are idempotent, as informers require: transforming a
    stored object again changes nothing. *)
Theorem trim_idempotent (f : TransformFunc) o y :
  f = TrimRole ∧ (∃ r, o = ORole r) ∨ f = TrimClusterRole ∧ (∃ cr, o = OClusterRole cr) ∨
  f = TrimRoleBinding ∧ (∃ rb, o = ORoleBinding rb) ∨
  f = TrimClusterRoleBinding ∧ (∃ crb, o = OClusterRoleBinding crb) ∨
  f = TrimNamespace ∧ (∃ ns, o = ONamespace ns) →
  f (Some o) = (Some y, None) → f (Some y) = (Some y, None).
Proof.
  intros [[-> [r ->]]|[[-> [cr ->]]|[[-> [rb ->]]|[[-> [crb ->]]|[-> [ns ->]]]]]] Hf.
  - rewrite TrimRole_eq in Hf. cbv zeta in Hf. injection Hf as Hf.
    destruct (decide (length _ = 0)) as [|Hd] in Hf; [done|]. injection Hf as <-.
    rewrite TrimRole_eq. cbn. rewrite filter_rules_idem. by rewrite decide_False.
  - rewrite TrimClusterRole_eq in Hf. cbv zeta in Hf. injection Hf as Hf.
    destruct (decide (length _ = 0)) as [|Hd] in Hf; [done|]. injection Hf as <-.
    rewrite TrimClusterRole_eq. cbn. rewrite filter_rules_idem. by rewrite decide_False.
  - unfold TrimRoleBinding in *. rewrite (trimBinding_eq _ (rb_Meta rb)) in Hf by done. simplify_eq/=.
    by rewrite (trimBinding_eq _ (kept_meta (rb_Meta rb))).
  - unfold TrimClusterRoleBinding in *.
    rewrite (trimBinding_eq _ (crb_Meta crb)) in Hf by done. simplify_eq/=.
    by rewrite (trimBinding_eq _ (kept_meta (crb_Meta crb))).
  - rewrite TrimNamespace_eq in Hf. simplify_eq/=. by rewrite TrimNamespace_eq.
Qed.
End trim.

(** ** Witnesses *)
#[local] Instance simple_lib : ObjectLib := {|
  accessor_has_annotations := λ i,
    m ← i ≫= obj_meta; Some (bool_decide (om_Annotations m ≠ None));
  accessor_clear_annotations := fmap (on_meta meta_clear_annotations);
  TransformStripManagedFields := λ i,
    ((λ o, match o with
           | ONamespace ns => ONamespace (mkNamespace (ns_Name ns) (ns_Labels ns) (ns_Annotations ns)
                                            None (ns_Spec ns) (ns_Status ns))
           | o => on_meta meta_clear_managed o
           end) <$> i, None);
|}.
#[local] Instance simple_lib_laws : ObjectLaws.
Proof.
  split; intros; simpl; try done.
  - match goal with H : obj_meta _ = Some _ |- _ => by rewrite H end.
  - by destruct o.
Qed.

(** The documented evaluation of a rule. *)
Definition rule_allows (r : PolicyRule) (name : string) : bool :=
  bool_decide (("get" ∈ pr_Verbs r ∨ "*" ∈ pr_Verbs r) ∧ ("" ∈ pr_APIGroups r ∨ "*" ∈ pr_APIGroups r) ∧
    ("namespaces" ∈ pr_Resources r ∨ "*" ∈ pr_Resources r) ∧
    (pr_ResourceNames r = [] ∨ name ∈ pr_ResourceNames r)).
Lemma rule_allows_spec r name :
  rule_allows r name = true ↔
  ("get" ∈ pr_Verbs r ∨ "*" ∈ pr_Verbs r) ∧ ("" ∈ pr_APIGroups r ∨ "*" ∈ pr_APIGroups r) ∧
  ("namespaces" ∈ pr_Resources r ∨ "*" ∈ pr_Resources r) ∧
  (pr_ResourceNames r = [] ∨ name ∈ pr_ResourceNames r).
Proof. apply bool_decide_eq_true. Qed.

Definition team_rule : PolicyRule := mkRule ["get"; "list"] [""; "apps"] ["namespaces"; "pods"] ["team-a"] [].

Lemma filter_rules_grants_witness :
  RulesAllow rule_allows (filterNamespacesRelatedPolicyRules [team_rule]) "team-a".
Proof.
  refine (proj1 (proj2 (filter_rules_grants rule_allows rule_allows_spec [team_rule] "team-a")) _ _).
  - apply (bool_decide_unpack _). vm_compute. exact I.
  - exists team_rule. split; [by left|]. reflexivity.
Defined.

Definition annotated_role : Role :=
  mkRole (mkMeta "view" "team-a" None (Some {["note" := "x"]}) (Some "kubectl")) [team_rule].

Lemma trim_spec_witness :
  TrimRole (Some (ORole annotated_role)) =
  (Some (ORole (mkRole (mkMeta "view" "team-a" None None None)
                  [mkRule ["get"] [""] ["namespaces"] ["team-a"] []])), None).
Proof.
  exact (proj1 (trim_spec annotated_role
    (mkClusterRole (mkMeta "" "" None None None) [] None)
    (mkRoleBinding (mkMeta "" "" None None None) [] (mkRoleRef "" "" ""))
    (mkClusterRoleBinding (mkMeta "" "" None None None) [] (mkRoleRef "" "" ""))
    (mkNamespace "n" None None None "" "") "*v1.Pod")).
Defined.

Lemma trim_idempotent_witness :
  TrimRole (Some (ORole (mkRole (mkMeta "view" "team-a" None None None)
                  [mkRule ["get"] [""] ["namespaces"] ["team-a"] []]))) =
  (Some (ORole (mkRole (mkMeta "view" "team-a" None None None)
                  [mkRule ["get"] [""] ["namespaces"] ["team-a"] []])), None).
Proof.
  apply (trim_idempotent TrimRole (ORole annotated_role)); [left; eauto|reflexivity].
Defined.
