(* ===== verification/Config.v ===== *)
(** * Configuration from the environment
    (internal/log/log.go, internal/resourcecache/access_cache.go and config.go,
    internal/resourcecache/cache_build.go)

    The log level, the resync period, the selector of the namespaces, and the
    options the resource cache is built with. *)

From stdpp Require Import base gmap strings list.
From S2P Require Import Prelude GoStrings KubeTypes GoParse GoHTTP Authn Middleware Rbac Transform AccessMetrics AccessSync.

(** ** The logger (internal/log/log.go) *)
Definition EnvLogLevel : string := "LOG_LEVEL".
Definition GetLogLevel (e : Environ) : Z :=
  match Atoi (Getenv e EnvLogLevel) with
  | Some level => level
  | None => GoHTTP.LevelError
  end.
(** The JSON handler on standard output prints from that level on. *)
Definition BuildLogger (e : Environ) : Logger :=
  {| lg_Level := Some (GetLogLevel e); lg_Attrs := [] |}.

(** ** The resync period (internal/resourcecache/access_cache.go) *)
Definition EnvCacheResyncPeriod : string := "CACHE_RESYNC_PERIOD".

(** The period, and the warning that is logged. *)
Definition GetValidResyncPeriodFromEnvOrZero (e : Environ) : Z * option string :=
  match e !! EnvCacheResyncPeriod with
  | None => (0%Z, None)
  | Some rps =>
      match ParseDuration rps with
      | None => (0%Z, Some "can not parse duration from environment variable")
      | Some rp =>
          if decide (rp < 0)%Z then (0%Z, Some "negative resync period, using zero")
          else (rp, None)
      end
  end.

(** [registry] is an interface, which may be nil; [Register] is the method of
    the library.  The metrics are nil for a nil registry or on an error. *)
Definition BuildAndRegisterAccessCacheMetrics {Reg} (Register : Reg → Reg * option error)
    (registry : option Reg) : option Reg * option AccessCacheMetrics * option error :=
  match registry with
  | None => (None, None, None)
  | Some reg =>
      match Register reg with
      | (reg', Some err) => (Some reg', None, Some err)
      | (reg', None) => (Some reg', Some accessCacheMetrics, None)
      end
  end.

(** ** The selector of the namespaces (config.go) *)
Definition CacheNamespaceLabelSelectorEnv : string := "CACHE_NAMESPACE_LABELSELECTOR".

Section config.
Context {RestConfig Selector : Type}.
(** [labels.Parse] *)
Variable labels_Parse : string → error + Selector.

Record Config := mkConfig {
  RestConfig_ : RestConfig;
  NamespacesLabelSelector : option Selector;
}.

(** [fmt.Errorf] with two wrapped errors. *)
Definition selectorError (err : error) : error :=
  ErrWrap (error_Error ErrResourceCacheConfig +:+ " for namespaces: " +:+ error_Error err)
    [ErrResourceCacheConfig; err].

Definition getNamespacesLabelSelectorsFromEnv (e : Environ) (cfg : Config) : Config * option error :=
  match labels_Parse (Getenv e CacheNamespaceLabelSelectorEnv) with
  | inl err => (cfg, Some (selectorError err))
  | inr ls => ({| RestConfig_ := RestConfig_ cfg; NamespacesLabelSelector := Some ls |}, None)
  end.

Definition NewConfigFromEnv (e : Environ) (cfg : RestConfig) : option Config * option error :=
  let cacheCfg := {| RestConfig_ := cfg; NamespacesLabelSelector := None |} in
  match getNamespacesLabelSelectorsFromEnv e cacheCfg with
  | (_, Some err) => (None, Some err)
  | (cacheCfg, None) => (Some cacheCfg, None)
  end.
End config.
Arguments mkConfig {RestConfig Selector} _ _.
Arguments RestConfig_ {RestConfig Selector} _.
Arguments NamespacesLabelSelector {RestConfig Selector} _.

(** ** The options of the resource cache (cache_build.go) *)
Inductive ObjectKind := KNamespace | KRole | KRoleBinding | KClusterRole | KClusterRoleBinding.
#[export] Instance ObjectKind_eq_dec : EqDecision ObjectKind.
Proof. solve_decision. Defined.

Definition NamespaceUseForAccessLabelKey : string := "namespace-lister.konflux-ci.dev/use-for-access".
Definition NamespaceUseForAccessLabelValueTrue : string := "true".

Definition cachedObjects : list ObjectKind :=
  [KNamespace; KRoleBinding; KClusterRole; KClusterRoleBinding; KRole].

Section build.
Context {Selector Scheme : Type} `{!ObjectLib}.
(** [labels.SelectorFromSet] on one label. *)
Variable SelectorFromSet : gomap → Selector.
(** [AddToScheme] of the two API groups. *)
Variables corev1_AddToScheme rbacv1_AddToScheme : Scheme → Scheme * option error.

Record ByObject := mkByObject { bo_Label : option Selector; bo_Transform : TransformFunc }.
Record CacheOptions := mkCacheOptions {
  co_Scheme : Scheme;
  co_UnsafeDisableDeepCopy : bool;
  co_ReaderFailOnMissingInformer : bool;
  co_ByObject : list (ObjectKind * ByObject);
}.

(** [cmp.Or] evaluates both calls and keeps the first error. *)
Definition buildScheme (s : Scheme) : error + Scheme :=
  let '(s, e1) := corev1_AddToScheme s in
  let '(s, e2) := rbacv1_AddToScheme s in
  match (match e1 with Some e => Some e | None => e2 end) with
  | Some err => inl err
  | None => inr s
  end.

(** The keys are pointers to empty objects: one entry for each kind. *)
Definition byObjectTransformers (namespaceSelector : option Selector) : list (ObjectKind * ByObject) :=
  [(KNamespace, {| bo_Label := namespaceSelector; bo_Transform := TrimNamespace |});
   (KRole, {| bo_Label := None; bo_Transform := TrimRole |});
   (KRoleBinding, {| bo_Label := None; bo_Transform := TrimRoleBinding |});
   (KClusterRole, {| bo_Label := None; bo_Transform := TrimClusterRole |});
   (KClusterRoleBinding,
     {| bo_Label := Some (SelectorFromSet
                            {[NamespaceUseForAccessLabelKey := NamespaceUseForAccessLabelValueTrue]});
        bo_Transform := TrimClusterRoleBinding |})].

Definition buildCacheOptions (s : Scheme) (namespaceSelector : option Selector) : CacheOptions :=
  {| co_Scheme := s; co_UnsafeDisableDeepCopy := true; co_ReaderFailOnMissingInformer := true;
     co_ByObject := byObjectTransformers namespaceSelector |}.

(** [build]: [cache_New] is [cache.New] of the library. *)
Definition build {RestConfig Cache : Type} (cache_New : RestConfig → CacheOptions → error + Cache)
    (newScheme : Scheme) (cfg : @Config RestConfig Selector) : error + Cache :=
  match buildScheme newScheme with
  | inl err => inl err
  | inr s => cache_New (RestConfig_ cfg) (buildCacheOptions s (NamespacesLabelSelector cfg))
  end.
End build.

(** The object is of the kind. *)
Definition of_kind (k : ObjectKind) (o : Obj) : Prop :=
  match k, o with
  | KNamespace, ONamespace _ | KRole, ORole _ | KRoleBinding, ORoleBinding _
  | KClusterRole, OClusterRole _ | KClusterRoleBinding, OClusterRoleBinding _ => True
  | _, _ => False
  end.

(** ** Lemmas *)

Lemma resync_period_range e :
  let '(rp, _) := GetValidResyncPeriodFromEnvOrZero e in (0 ≤ rp < 2^63)%Z.
Proof.
  unfold GetValidResyncPeriodFromEnvOrZero.
  destruct (e !! _) as [rps|]; [|lia]. destruct (ParseDuration rps) as [rp|] eqn:Hp; [|lia].
  apply ParseDuration_in64 in Hp. unfold in64 in Hp. case_decide; lia.
Qed.

(** ** Properties *)

(** C36: whatever the environment holds, the access cache runs with a positive
    64-bit resync period (the loop that waits for it never spins) and a
    timeout of at least a minute; when the variable is a whole number of a
    unit of Go durations that fits 64 bits, the period is that duration, or
    ten minutes for zero; when it is not a duration or is negative, the period
    is ten minutes and a warning is logged. *)
Theorem resync_period_from_env e logger handler metrics s0 :
  let '(rp, warning) := GetValidResyncPeriodFromEnvOrZero e in
  let s := Apply (mkOptions logger rp 0 handler metrics) s0 in
  (0 < sac_resyncPeriod s < 2^63)%Z ∧ (time_Minute ≤ sac_synchTimeout s)%Z ∧
  (∀ ds u n, e !! EnvCacheResyncPeriod = Some (ds +:+ u) → ds ≠ "" → all_digits ds = true →
     unitMap u = Some n → (digits_value 0 ds * n < 2^63)%Z →
     warning = None ∧
     sac_resyncPeriod s = cmp_Or 0%Z [(digits_value 0 ds * n)%Z; (10 * time_Minute)%Z]) ∧
  (∀ rps, e !! EnvCacheResyncPeriod = Some rps →
     ParseDuration rps = None ∨ (∃ d, ParseDuration rps = Some d ∧ (d < 0)%Z) →
     is_Some warning ∧ sac_resyncPeriod s = (10 * time_Minute)%Z).
Proof.
  pose proof (resync_period_range e) as Hr.
  destruct (GetValidResyncPeriodFromEnvOrZero e) as [rp warning] eqn:E.
  cbv zeta. rewrite Apply_timeout, Apply_resync. cbn [opt_ResyncPeriod opt_SynchTimeout].
  split; [|split; [|split]].
  - unfold defaultResyncPeriod, time_Minute. case_decide; lia.
  - rewrite decide_True by done. lia.
  - intros ds u n He Hne Hd Hu Hv. unfold GetValidResyncPeriodFromEnvOrZero in E.
    rewrite He, (ParseDuration_int ds u n) in E by done.
    pose proof (unitMap_pos u n Hu). pose proof (digits_value_ge ds 0 Hd ltac:(lia)).
    rewrite decide_False in E by nia. simplify_eq. split; [done|].
    rewrite !cmp_Or_cons. by repeat case_decide.
  - intros rps He Hp. unfold GetValidResyncPeriodFromEnvOrZero in E. rewrite He in E.
    destruct Hp as [Hp|(d & Hp & Hd)]; rewrite Hp in E.
    + simplify_eq. split; [done|]. by rewrite decide_True.
    + rewrite decide_True in E by done. simplify_eq. split; [done|]. by rewrite decide_True.
Qed.

(** An unparsable selector is reported as an error that both the sentinel of
    the package and the parser's own error can be found in; a selector that
    parses is stored next to the untouched client configuration. *)
Theorem NewConfigFromEnv_spec {RC Sel} (labels_Parse : string → error + Sel) e (cfg : RC) :
  match labels_Parse (Getenv e CacheNamespaceLabelSelectorEnv) with
  | inr ls => NewConfigFromEnv labels_Parse e cfg = (Some (mkConfig cfg (Some ls)), None)
  | inl perr =>
      ∃ err, NewConfigFromEnv labels_Parse e cfg = (None, Some err) ∧
        errors_Is err SentinelResourceCacheConfig = true ∧
        errors_Is err SentinelSynchAlreadyRunning = errors_Is perr SentinelSynchAlreadyRunning ∧
        errors_As_Status err = errors_As_Status perr
  end.
Proof.
  unfold NewConfigFromEnv, getNamespacesLabelSelectorsFromEnv.
  destruct (labels_Parse _) as [perr|ls]; [|done].
  eexists. split; [done|]. split_and!; [done| |].
  - simpl. by rewrite orb_false_r.
  - simpl. by destruct (errors_As_Status perr).
Qed.

Section kinds.
Context {Selector : Type} `{!ObjectLib, !ObjectLaws}.

(** C40: the resource cache knows every kind it caches, once: each of the five
    kinds has one entry, and its transform accepts every object of that kind
    without an error. *)
Theorem byObjectTransformers_total (SelectorFromSet : gomap → Selector) sel :
  (byObjectTransformers SelectorFromSet sel).*1 ≡ₚ cachedObjects ∧ NoDup cachedObjects ∧
  ∀ k bo o, (k, bo) ∈ byObjectTransformers SelectorFromSet sel → of_kind k o →
    (bo_Transform bo (Some o)).2 = None.
Proof.
  split_and!.
  - apply NoDup_Permutation; [apply (bool_decide_unpack _); by vm_compute..|].
    intros k. simpl. unfold cachedObjects. rewrite !elem_of_cons. tauto.
  - apply (bool_decide_unpack _). by vm_compute.
  - intros k bo o Hin Hk. unfold byObjectTransformers in Hin.
    repeat (apply elem_of_cons in Hin as [Hin|Hin]; [injection Hin as -> ->|]);
      [..|by apply not_elem_of_nil in Hin]; destruct o; try done; cbn [bo_Transform].
    + by rewrite TrimNamespace_eq.
    + by rewrite TrimRole_eq.
    + unfold TrimRoleBinding. by erewrite trimBinding_eq.
    + by rewrite TrimClusterRole_eq.
    + unfold TrimClusterRoleBinding. by erewrite trimBinding_eq.
Qed.
End kinds.

(** ** Witnesses *)
Lemma resync_period_from_env_witness :
  sac_resyncPeriod (Apply (mkOptions None (GetValidResyncPeriodFromEnvOrZero
    {[EnvCacheResyncPeriod := "90s"]}).1 0 None None) (NewSynchronizedAccessCache zero_opts))
  = 90000000000%Z.
Proof.
  pose proof (resync_period_from_env {[EnvCacheResyncPeriod := "90s"]} None None None
                (NewSynchronizedAccessCache zero_opts)) as H.
  destruct (GetValidResyncPeriodFromEnvOrZero {[EnvCacheResyncPeriod := "90s"]}) as [rp warning].
  destruct H as (_ & _ & H & _).
  destruct (H "90" "s" 1000000000%Z) as [_ E]; [reflexivity|done|reflexivity|reflexivity|done|].
  simpl fst. rewrite E. reflexivity.
Defined.

Lemma byObjectTransformers_total_witness :
  (@byObjectTransformers gomap simple_lib id None).*1 ≡ₚ cachedObjects.
Proof.
  exact (proj1 (@byObjectTransformers_total gomap simple_lib simple_lib_laws id None)).
Defined.
