(* ===== verification/AccessChain.v ===== *)
(** * From the objects of the cluster to the answer

    The whole chain that decides what a user sees: the options the resource
    cache is built with (cache_build.go) select and trim the roles and
    bindings of the cluster, the retriever (rbac_authorizer.go) serves them to
    the subject locator, the synchronization (synchronized_access_cache.go)
    stores the locator's answers, and the lister (namespacelister_subject.go)
    reads them.  The theorem of this file states the result in terms of the
    cluster's own roles and bindings.

    The locator, its evaluator of rules, the label selectors and the storage of
    the informers are library code: parameters with their documented meaning. *)

From Stdlib Require Import Ascii.
From stdpp Require Import base gmap strings list.
From S2P Require Import Prelude GoStrings GoSlices KubeTypes AtomicCache AccessSync AccessSpec Samples NamespaceLister Rbac Transform Config.

(** The RBAC objects of a cluster: the same four lists as the double's. *)
Abbreviation Objects := MockStaticRoles.

(** ** What the resource cache stores *)
Section stored.
Context {Selector Scheme : Type}.
(** [Matches] of a selector. *)
Variable Matches : Selector → gomap → bool.

(** An object of a kind is stored when the selector of its kind matches its
    labels and its transform returns an object; the transformed object is what
    is stored. *)
Definition keep (opts : @CacheOptions Selector Scheme) (k : ObjectKind) (labels : option gomap)
    (o : Obj) : option Obj :=
  match list_find (λ e, e.1 = k) (co_ByObject opts) with
  | Some (_, (_, bo)) =>
      if match bo_Label bo with Some sel => Matches sel (default ∅ labels) | None => true end
      then match bo_Transform bo (Some o) with (o', None) => o' | _ => None end
      else None
  | None => None
  end.

Definition stored_objects (opts : @CacheOptions Selector Scheme) (cl : Objects) : Objects := {|
  sr_Roles := omap (λ r, match keep opts KRole (om_Labels (role_Meta r)) (ORole r) with
                         | Some (ORole r') => Some r' | _ => None end) (sr_Roles cl);
  sr_RoleBindings :=
    omap (λ rb, match keep opts KRoleBinding (om_Labels (rb_Meta rb)) (ORoleBinding rb) with
                | Some (ORoleBinding rb') => Some rb' | _ => None end) (sr_RoleBindings cl);
  sr_ClusterRoles :=
    omap (λ cr, match keep opts KClusterRole (om_Labels (cr_Meta cr)) (OClusterRole cr) with
                | Some (OClusterRole cr') => Some cr' | _ => None end) (sr_ClusterRoles cl);
  sr_ClusterRoleBindings :=
    omap (λ crb, match keep opts KClusterRoleBinding (om_Labels (crb_Meta crb))
                         (OClusterRoleBinding crb) with
                 | Some (OClusterRoleBinding crb') => Some crb' | _ => None end)
      (sr_ClusterRoleBindings cl);
|}.
End stored.

(** ** Who is bound to a namespace, from the cluster's objects *)

(** The rules name the verb, the group and the resource, and cover [name]. *)
Definition grants (rules : list PolicyRule) (name : string) : Prop :=
  ∃ r, r ∈ rules ∧ reads_namespaces r ∧ (pr_ResourceNames r = [] ∨ name ∈ pr_ResourceNames r).

(** A cluster role of that name grants reading [name]. *)
Definition clusterrole_grants (cl : Objects) (role name : string) : Prop :=
  ∃ cr, cr ∈ sr_ClusterRoles cl ∧ om_Name (cr_Meta cr) = role ∧ grants (cr_Rules cr) name.
(** A role of that name in the namespace grants reading it. *)
Definition role_grants (cl : Objects) (role name : string) : Prop :=
  ∃ r, r ∈ sr_Roles cl ∧ om_Name (role_Meta r) = role ∧ om_Namespace (role_Meta r) = name ∧
       grants (role_Rules r) name.

(** The label that lets a cluster role binding be used for access. *)
Definition used_for_access (m : ObjectMeta) : Prop :=
  default ∅ (om_Labels m) !! "namespace-lister.konflux-ci.dev/use-for-access" = Some "true".

Inductive bound (cl : Objects) (sub : Subject) (name : string) : Prop :=
| bound_role rb : rb ∈ sr_RoleBindings cl → om_Namespace (rb_Meta rb) = name →
    sub ∈ rb_Subjects rb → rr_Kind (rb_RoleRef rb) = "Role" →
    role_grants cl (rr_Name (rb_RoleRef rb)) name → bound cl sub name
| bound_clusterrole rb : rb ∈ sr_RoleBindings cl → om_Namespace (rb_Meta rb) = name →
    sub ∈ rb_Subjects rb → rr_Kind (rb_RoleRef rb) = "ClusterRole" →
    clusterrole_grants cl (rr_Name (rb_RoleRef rb)) name → bound cl sub name
| bound_cluster crb : crb ∈ sr_ClusterRoleBindings cl → used_for_access (crb_Meta crb) →
    sub ∈ crb_Subjects crb → rr_Kind (crb_RoleRef crb) = "ClusterRole" →
    clusterrole_grants cl (rr_Name (crb_RoleRef crb)) name → bound cl sub name.

(** The subject the locator always reports. *)
Definition masters : Subject :=
  mkSubject "Group" "rbac.authorization.k8s.io" "system:masters" "".

(** ** The locator *)
Section locator.
Context {T : Type} `{!RoleSource T}.
Variable RuleAllows : PolicyRule → string → bool.

(** The rules a reference resolves to, for a binding of namespace [ns] (empty
    for a cluster role binding): [GetRoleReferenceRules] of the library.  A
    failed lookup has no rules. *)
Definition reference_rules (src : T) (ref : RoleRef) (ns : string) : list PolicyRule :=
  if decide (rr_Kind ref = "Role") then
    match GetRole src ns (rr_Name ref) with inr r => role_Rules r | inl _ => [] end
  else if decide (rr_Kind ref = "ClusterRole") then
    match GetClusterRole src (rr_Name ref) with inr cr => cr_Rules cr | inl _ => [] end
  else [].

(** What [AllowedSubjects] documents for getting the namespace [name]: the
    privileged group, the subjects of the cluster role bindings and those of
    the role bindings of the namespace whose rules allow it; a failed list
    contributes nothing. *)
Definition locator_spec (AllowedSubjects : T → AttributesRecord → list Subject * option error) : Prop :=
  ∀ (src : T) ns sub, ns_Name ns ≠ "" →
    sub ∈ (AllowedSubjects src (namespace_attributes ns)).1 ↔
    sub = masters ∨
    (∃ l crb, ListClusterRoleBindings src = inr l ∧ crb ∈ l ∧ sub ∈ crb_Subjects crb ∧
       RulesAllow RuleAllows (reference_rules src (crb_RoleRef crb) "") (ns_Name ns)) ∨
    (∃ l rb, ListRoleBindings src (ns_Name ns) = inr l ∧ rb ∈ l ∧ sub ∈ rb_Subjects rb ∧
       RulesAllow RuleAllows (reference_rules src (rb_RoleRef rb) (ns_Name ns)) (ns_Name ns)).
End locator.

(** ** Lemmas *)
Section chain.
Context {Selector Scheme : Type} `{!ObjectLib, !ObjectLaws}.
Variable Matches : Selector → gomap → bool.
Variable SelectorFromSet : gomap → Selector.
(** A selector made from a set matches the labels that include it. *)
Hypothesis SelectorFromSet_spec : ∀ m labels, Matches (SelectorFromSet m) labels = true ↔ m ⊆ labels.
Variable RuleAllows : PolicyRule → string → bool.
Hypothesis RuleAllows_spec : ∀ r name,
  RuleAllows r name = true ↔
  ("get" ∈ pr_Verbs r ∨ "*" ∈ pr_Verbs r) ∧ ("" ∈ pr_APIGroups r ∨ "*" ∈ pr_APIGroups r) ∧
  ("namespaces" ∈ pr_Resources r ∨ "*" ∈ pr_Resources r) ∧
  (pr_ResourceNames r = [] ∨ name ∈ pr_ResourceNames r).
Context (sch : Scheme) (nsSel : option Selector) (cl : Objects).

(** The cache as [buildCacheOptions] configures it. *)
Abbreviation cached := (stored_objects Matches (buildCacheOptions SelectorFromSet sch nsSel) cl).
Abbreviation kept_rules := filterNamespacesRelatedPolicyRules.

Lemma keep_rules_grants rules name :
  RulesAllow RuleAllows (kept_rules rules) name ↔ grants rules name.
Proof.
  rewrite RulesAllow_filter by apply RuleAllows_spec. unfold grants.
  split; intros (r & Hin & Hr & Ha); exists r; split_and!; try done.
  - apply RuleAllows_spec in Ha. tauto.
  - apply RuleAllows_spec. unfold reads_namespaces in Hr. tauto.
Qed.

Lemma grants_kept rules name : grants rules name → length (kept_rules rules) ≠ 0.
Proof.
  intros (r & Hin & Hr & _) Hz%filter_rules_nil.
  apply (filter_nil_not_elem_of _ _ r Hz Hr Hin).
Qed.

Lemma cached_role r' :
  r' ∈ sr_Roles cached ↔
  ∃ r, r ∈ sr_Roles cl ∧ length (kept_rules (role_Rules r)) ≠ 0 ∧
       r' = mkRole (kept_meta (role_Meta r)) (kept_rules (role_Rules r)).
Proof.
  simpl. rewrite list_elem_of_omap. unfold keep. simpl. setoid_rewrite TrimRole_eq.
  split; intros (r & Hin & Hk); exists r; cbv zeta in *.
  - destruct (decide (length _ = 0)); naive_solver.
  - destruct Hk as [Hl ->]. by rewrite decide_False.
Qed.

Lemma cached_clusterrole r' :
  r' ∈ sr_ClusterRoles cached ↔
  ∃ r, r ∈ sr_ClusterRoles cl ∧ length (kept_rules (cr_Rules r)) ≠ 0 ∧
       r' = mkClusterRole (kept_meta (cr_Meta r)) (kept_rules (cr_Rules r)) (cr_AggregationRule r).
Proof.
  simpl. rewrite list_elem_of_omap. unfold keep. simpl. setoid_rewrite TrimClusterRole_eq.
  split; intros (r & Hin & Hk); exists r; cbv zeta in *.
  - destruct (decide (length _ = 0)); naive_solver.
  - destruct Hk as [Hl ->]. by rewrite decide_False.
Qed.

Lemma cached_rolebinding rb' :
  rb' ∈ sr_RoleBindings cached ↔
  ∃ rb, rb ∈ sr_RoleBindings cl ∧
        rb' = mkRoleBinding (kept_meta (rb_Meta rb)) (rb_Subjects rb) (rb_RoleRef rb).
Proof.
  simpl. rewrite list_elem_of_omap. unfold keep. simpl. unfold TrimRoleBinding.
  setoid_rewrite (λ rb, trimBinding_eq (ORoleBinding rb) (rb_Meta rb) eq_refl). naive_solver.
Qed.

Lemma cached_clusterrolebinding crb' :
  crb' ∈ sr_ClusterRoleBindings cached ↔
  ∃ crb, crb ∈ sr_ClusterRoleBindings cl ∧ used_for_access (crb_Meta crb) ∧
         crb' = mkClusterRoleBinding (kept_meta (crb_Meta crb)) (crb_Subjects crb) (crb_RoleRef crb).
Proof.
  simpl. rewrite list_elem_of_omap. unfold keep. simpl. unfold TrimClusterRoleBinding.
  setoid_rewrite (λ crb, trimBinding_eq (OClusterRoleBinding crb) (crb_Meta crb) eq_refl).
  assert (∀ crb, Matches (SelectorFromSet
    {[NamespaceUseForAccessLabelKey := NamespaceUseForAccessLabelValueTrue]})
    (default ∅ (om_Labels (crb_Meta crb))) = true ↔ used_for_access (crb_Meta crb)) as Hu.
  { intros crb. rewrite SelectorFromSet_spec. apply map_singleton_subseteq_l. }
  split; intros (crb & Hin & Hk); exists crb.
  - destruct (Matches _ _) eqn:E; [|done]. apply Hu in E. naive_solver.
  - destruct Hk as [Hl ->]. apply Hu in Hl. by rewrite Hl.
Qed.

(** *** The answers of the retriever over a reader that serves the cache *)
Context {R : Type} `{!Reader R}.
Context (reader : R) (Hholds : Holds reader cached).
(** A role lives in a namespace. *)
Hypothesis Hroles : ∀ r, r ∈ sr_Roles cl → om_Namespace (role_Meta r) ≠ "".
Abbreviation src := (NewCRAuthRetriever reader).

Lemma GetRole_allows ns n name :
  RulesAllow RuleAllows (match GetRole src ns n with inr r => role_Rules r | inl _ => [] end) name ↔
  ∃ r, r ∈ sr_Roles cl ∧ om_Name (role_Meta r) = n ∧ om_Namespace (role_Meta r) = ns ∧
       grants (role_Rules r) name.
Proof.
  simpl. unfold retriever_GetRole. simpl. split.
  - destruct (decide (Exists (λ o, om_Name (role_Meta o) = n ∧ om_Namespace (role_Meta o) = ns)
                             (sr_Roles cached))) as [Hex|Hno].
    + apply Exists_exists in Hex as (o & Ho & Hn & Hns).
      rewrite (hold_role reader _ Hholds _ o) by done.
      apply cached_role in Ho as (r & Hin & _ & ->). simpl in *.
      rewrite keep_rules_grants. eauto 10.
    + destruct (hold_no_role reader _ Hholds (mkKey ns n)) as [e ->].
      * intros o Ho Hn Hns. apply Hno, Exists_exists. eauto.
      * by intros (r & ?%not_elem_of_nil & _).
  - intros (r & Hin & Hn & Hns & Hg).
    rewrite (hold_role reader _ Hholds _ (mkRole (kept_meta (role_Meta r)) (kept_rules (role_Rules r))));
      [by apply keep_rules_grants| |done|done].
    apply cached_role. eauto using grants_kept.
Qed.

Lemma GetClusterRole_allows n name :
  RulesAllow RuleAllows (match GetClusterRole src n with inr r => cr_Rules r | inl _ => [] end) name ↔
  clusterrole_grants cl n name.
Proof.
  simpl. unfold retriever_GetClusterRole. simpl. split.
  - destruct (decide (Exists (λ o, om_Name (cr_Meta o) = n) (sr_ClusterRoles cached))) as [Hex|Hno].
    + apply Exists_exists in Hex as (o & Ho & Hn).
      rewrite (hold_clusterrole reader _ Hholds _ o) by done.
      apply cached_clusterrole in Ho as (r & Hin & _ & ->). simpl in *.
      rewrite keep_rules_grants. intros Hg. exists r. eauto.
    + destruct (hold_no_clusterrole reader _ Hholds (mkKey "" n)) as [e ->].
      * intros o Ho Hn. apply Hno, Exists_exists. eauto.
      * by intros (r & ?%not_elem_of_nil & _).
  - intros (r & Hin & Hn & Hg).
    rewrite (hold_clusterrole reader _ Hholds _
      (mkClusterRole (kept_meta (cr_Meta r)) (kept_rules (cr_Rules r)) (cr_AggregationRule r)));
      [by apply keep_rules_grants| |done|done].
    apply cached_clusterrole. eauto using grants_kept.
Qed.

Lemma reference_allows ref ns name :
  RulesAllow RuleAllows (reference_rules src ref ns) name ↔
  (rr_Kind ref = "Role" ∧
     ∃ r, r ∈ sr_Roles cl ∧ om_Name (role_Meta r) = rr_Name ref ∧ om_Namespace (role_Meta r) = ns ∧
          grants (role_Rules r) name) ∨
  (rr_Kind ref = "ClusterRole" ∧ clusterrole_grants cl (rr_Name ref) name).
Proof.
  unfold reference_rules. destruct (decide (rr_Kind ref = "Role")) as [Hk|Hk].
  - rewrite GetRole_allows, Hk. naive_solver.
  - destruct (decide (rr_Kind ref = "ClusterRole")) as [Hk'|Hk'].
    + rewrite GetClusterRole_allows. naive_solver.
    + split; [by intros (r & ?%not_elem_of_nil & _)|naive_solver].
Qed.

Lemma bindings_listed ns rb :
  ns ≠ "" →
  (∃ l, ListRoleBindings src ns = inr l ∧ rb ∈ l) ↔
  ∃ rb', rb' ∈ sr_RoleBindings cl ∧ om_Namespace (rb_Meta rb') = ns ∧
         rb = mkRoleBinding (kept_meta (rb_Meta rb')) (rb_Subjects rb') (rb_RoleRef rb').
Proof.
  intros Hns. simpl. unfold retriever_ListRoleBindings. simpl.
  destruct (hold_bindings reader _ Hholds ns Hns) as (l & -> & Hl).
  rewrite (map_ext _ id), map_id by apply (hold_copy_rb reader _ Hholds).
  transitivity (rb ∈ l); [naive_solver|]. rewrite Hl, list_elem_of_filter, cached_rolebinding.
  naive_solver.
Qed.

Lemma clusterbindings_listed crb :
  (∃ l, ListClusterRoleBindings src = inr l ∧ crb ∈ l) ↔
  ∃ crb', crb' ∈ sr_ClusterRoleBindings cl ∧ used_for_access (crb_Meta crb') ∧
          crb = mkClusterRoleBinding (kept_meta (crb_Meta crb')) (crb_Subjects crb') (crb_RoleRef crb').
Proof.
  simpl. unfold retriever_ListClusterRoleBindings. simpl.
  destruct (hold_clusterbindings reader _ Hholds) as (l & -> & Hl).
  rewrite (map_ext _ id), map_id by apply (hold_copy_crb reader _ Hholds).
  transitivity (crb ∈ l); [naive_solver|]. by rewrite Hl, cached_clusterrolebinding.
Qed.

(** What the locator reports over the retriever, from the cluster's objects. *)
Lemma AllowedSubjects_bound AllowedSubjects ns sub :
  locator_spec RuleAllows AllowedSubjects → ns_Name ns ≠ "" →
  sub ∈ (AllowedSubjects src (namespace_attributes ns)).1 ↔
  sub = masters ∨ bound cl sub (ns_Name ns).
Proof.
  intros Hspec Hn. rewrite (Hspec src ns sub Hn). clear Hspec. split.
  - intros [->|[(l & crb & Hl & Hin & Hs & Ha)|(l & rb & Hl & Hin & Hs & Ha)]]; [by left|right..].
    + destruct (proj1 (clusterbindings_listed crb)) as (crb' & Hc & Hu & ->); [eauto|].
      apply reference_allows in Ha as [(_ & r & Hr & _ & Hns & _)|[Hk Hg]].
      * by destruct (Hroles r Hr).
      * by apply (bound_cluster cl sub _ crb').
    + destruct (proj1 (bindings_listed (ns_Name ns) rb Hn)) as (rb' & Hc & Hns & ->); [eauto|].
      apply reference_allows in Ha as [[Hk Hg]|[Hk Hg]].
      * by apply (bound_role cl sub _ rb').
      * by apply (bound_clusterrole cl sub _ rb').
  - intros [->|Hb]; [by left|right].
    destruct Hb as [rb Hin Hns Hs Hk Hg|rb Hin Hns Hs Hk Hg|crb Hin Hu Hs Hk Hg]; [right|right|left].
    1,2: destruct (proj2 (bindings_listed (ns_Name ns)
           (mkRoleBinding (kept_meta (rb_Meta rb)) (rb_Subjects rb) (rb_RoleRef rb)) Hn))
           as (l & Hl & Hinl); [by exists rb|];
         eexists _, _; split_and!; [done|done|done|]; apply reference_allows; auto.
    destruct (proj2 (clusterbindings_listed
      (mkClusterRoleBinding (kept_meta (crb_Meta crb)) (crb_Subjects crb) (crb_RoleRef crb))))
      as (l & Hl & Hinl); [by exists crb|].
    eexists _, _; split_and!; [done|done|done|]. apply reference_allows; auto.
Qed.
End chain.

(** ** The property *)
Section listed.
Context {Selector Scheme : Type} `{!ObjectLib, !ObjectLaws}.
Context {R : Type} `{!Reader R}.
Context `{!UnicodeLower, !DeepCopyNs, !DeepCopyLaws}.
Context `{!MapRange string Namespace, !MapRangeLaws string Namespace}.
Variable Matches : Selector → gomap → bool.
Variable SelectorFromSet : gomap → Selector.
Hypothesis SelectorFromSet_spec : ∀ m labels, Matches (SelectorFromSet m) labels = true ↔ m ⊆ labels.
Variable RuleAllows : PolicyRule → string → bool.
Hypothesis RuleAllows_spec : ∀ r name,
  RuleAllows r name = true ↔
  ("get" ∈ pr_Verbs r ∨ "*" ∈ pr_Verbs r) ∧ ("" ∈ pr_APIGroups r ∨ "*" ∈ pr_APIGroups r) ∧
  ("namespaces" ∈ pr_Resources r ∨ "*" ∈ pr_Resources r) ∧
  (pr_ResourceNames r = [] ∨ name ∈ pr_ResourceNames r).
Variable AllowedSubjects : CRAuthRetriever R → AttributesRecord → list Subject * option error.
Hypothesis AllowedSubjects_spec : locator_spec RuleAllows AllowedSubjects.

Lemma masters_user u username groups :
  names_subject username u → masters ∈ user_subjects u groups ↔ "system:masters" ∈ groups.
Proof.
  intros Hu. unfold user_subjects. rewrite elem_of_cons, list_elem_of_fmap. split.
  - intros [<-|(g & [= <-] & Hg)]; [|done].
    by destruct Hu as [(? & ? & _ & _ & _ & [=])|[_ [=]]].
  - intros Hg. right. by exists "system:masters".
Qed.

(** C2: the contract of the service, from the objects of the cluster to the
    answer.  Let the resource cache be built with the options of the program
    and serve what those options keep of the cluster's roles and bindings, and
    let the locator read it through the retriever.  After a synchronization,
    a user is listed a namespace exactly when it is one of the listed
    namespaces and a role binding in it, or a cluster role binding with the
    use-for-access label, names the user or one of the groups and refers to a
    role or cluster role with a rule that names the verb get, the core group
    and the resource namespaces, and covers the namespace; members of
    system:masters are listed every namespace. *)
Theorem listed_iff_bound (sch : Scheme) nsSel cl (reader : R) env h s h0 items username groups u :
  (* the resource cache *)
  Holds reader (stored_objects Matches (buildCacheOptions SelectorFromSet sch nsSel) cl) →
  (∀ r, r ∈ sr_Roles cl → om_Namespace (role_Meta r) ≠ "") →
  env_AllowedSubjects env = AllowedSubjects (NewCRAuthRetriever reader) →
  (* the synchronization *)
  idFunc (sac_cache s) = ns_Name →
  env_List env h = (h0, inr items) → items_ok h0 items → NoDup (ns_Name <$> items) →
  Forall (λ ns, ns_Name ns ≠ "") items →
  (∀ j, j < length items → env_ctxErr env j = None) →
  (* the user *)
  names_subject username u →
  ∃ h' s' c nl, synch env h s = (h', s', Some c, None) ∧
    ListNamespaces s' username groups = Ret (nl, None) ∧
    ∀ name, name ∈ ns_Name <$> elems (nl_Items nl) ↔
            name ∈ ns_Name <$> items ∧
            ("system:masters" ∈ groups ∨ ∃ sub, sub ∈ user_subjects u groups ∧ bound cl sub name).
Proof.
  intros Hh Hr Henv Hid Hl Hok Hnd Hne Hctx Hu.
  destruct (synched_synch env h s h0 items Hid Hl Hok Hctx) as (h' & s' & c & Hs & Hsy).
  destruct (ListNamespaces_synched env h0 items h' s' username groups u Hnd Hsy Hu)
    as (nl & Hnl & Hnames).
  exists h', s', c, nl. split_and!; [done|done|]. intros name.
  assert (∀ ns sub, ns ∈ items → sub ∈ allowed env ns ↔ sub = masters ∨ bound cl sub (ns_Name ns)) as Ha.
  { intros ns sub Hin. unfold allowed. rewrite Henv.
    apply (AllowedSubjects_bound Matches SelectorFromSet SelectorFromSet_spec RuleAllows RuleAllows_spec
             sch nsSel cl reader Hh Hr AllowedSubjects ns sub AllowedSubjects_spec).
    by eapply (proj1 (list.Forall_forall _ _) Hne). }
  rewrite Hnames, <-(masters_user u username groups Hu), list_elem_of_fmap. split.
  - intros (ns & sub & Hin & <- & Hsub & [->|Hb]%(Ha ns sub Hin)); eauto 10.
  - intros [(ns & -> & Hin) [Hm|(sub & Hsub & Hb)]]; [exists ns, masters|exists ns, sub];
      rewrite (Ha ns _ Hin); auto.
Qed.
End listed.

(** ** A concrete library, for the witness *)

(** The documented computation of the locator. *)
Definition locate {T} `{!RoleSource T} (src : T) (a : AttributesRecord) : list Subject * option error :=
  let allows ref ns :=
    bool_decide (Exists (λ r, rule_allows r (attr_Name a) = true) (reference_rules src ref ns)) in
  (masters ::
   match ListClusterRoleBindings src with
   | inr l => l ≫= λ crb, if allows (crb_RoleRef crb) "" then crb_Subjects crb else []
   | inl _ => []
   end ++
   match ListRoleBindings src (attr_Namespace a) with
   | inr l => l ≫= λ rb, if allows (rb_RoleRef rb) (attr_Namespace a) then rb_Subjects rb else []
   | inl _ => []
   end, None).

Lemma locate_spec {T} `{!RoleSource T} : locator_spec rule_allows (locate (T := T)).
Proof.
  intros src ns sub Hns. unfold locate. cbn [fst]. rewrite elem_of_cons, elem_of_app. simpl.
  assert (∀ ref ns', bool_decide (Exists (λ r, rule_allows r (ns_Name ns) = true)
            (reference_rules src ref ns')) = true ↔
          RulesAllow rule_allows (reference_rules src ref ns') (ns_Name ns)) as Hb.
  { intros. by rewrite bool_decide_eq_true, Exists_exists. }
  f_equiv. f_equiv.
  - destruct (ListClusterRoleBindings src) as [e|l]; [set_solver|].
    rewrite list_elem_of_bind. setoid_rewrite <-Hb. split.
    + intros (crb & Hs & Hin). destruct (bool_decide _) eqn:E in Hs; [eauto 10|set_solver].
    + intros (l' & crb & [= <-] & Hin & Hs & Ha). exists crb. by rewrite Ha.
  - destruct (ListRoleBindings src (ns_Name ns)) as [e|l]; [set_solver|].
    rewrite list_elem_of_bind. setoid_rewrite <-Hb. split.
    + intros (rb & Hs & Hin). destruct (bool_decide _) eqn:E in Hs; [eauto 10|set_solver].
    + intros (l' & rb & [= <-] & Hin & Hs & Ha). exists rb. by rewrite Ha.
Qed.

(** The reader over static lists serves them when keys are unique. *)
Lemma static_reader_holds st :
  NoDup ((λ r, (om_Name (role_Meta r), om_Namespace (role_Meta r))) <$> sr_Roles st) →
  NoDup ((λ r, om_Name (cr_Meta r)) <$> sr_ClusterRoles st) →
  @Holds _ static_reader st st.
Proof.
  intros Hr Hc. split; simpl.
  - intros k o Ho Hn Hs. destruct (findFunc _ _) as [o'|] eqn:E.
    + apply findFunc_Some in E as [Ho' [Hn' Hs']%bool_decide_eq_true].
      f_equal. eapply (NoDup_fmap_elem_of_eq _ _ _ _ Hr); [done|done|]. simpl. congruence.
    + destruct (findFunc_None _ _ o E Ho). by apply bool_decide_eq_true.
  - intros k Hno. destruct (findFunc _ _) as [o'|] eqn:E; [|eauto].
    apply findFunc_Some in E as [Ho' [Hn' Hs']%bool_decide_eq_true]. by destruct (Hno o').
  - intros k o Ho Hn _. destruct (findFunc _ _) as [o'|] eqn:E.
    + apply findFunc_Some in E as [Ho' Hn'%bool_decide_eq_true].
      f_equal. eapply (NoDup_fmap_elem_of_eq _ _ _ _ Hc); [done|done|]. simpl. congruence.
    + destruct (findFunc_None _ _ o E Ho). by apply bool_decide_eq_true.
  - intros k Hno. destruct (findFunc _ _) as [o'|] eqn:E; [|eauto].
    apply findFunc_Some in E as [Ho' Hn'%bool_decide_eq_true]. by destruct (Hno o').
  - eauto.
  - eauto.
  - done.
  - done.
Qed.

(** A selector is the set of labels it requires. *)
Definition sub_matches (sel labels : gomap) : bool := bool_decide (sel ⊆ labels).
Lemma sub_matches_spec (m labels : gomap) : sub_matches (id m) labels = true ↔ m ⊆ labels.
Proof. apply bool_decide_eq_true. Qed.

Definition chain_cluster : Objects := mkStaticRoles
  [mkRole (mkMeta "reader" "team" None None (Some "kubectl"))
     [mkRule ["get"; "list"] ["apps"; ""] ["namespaces"] ["team"] []]]
  [mkRoleBinding (mkMeta "b" "team" None None None) [alice] (mkRoleRef rbac_GroupName "Role" "reader")]
  [mkClusterRole (mkMeta "admin" "" None None None) [mkRule ["*"] ["*"] ["*"] [] []] None]
  [mkClusterRoleBinding (mkMeta "c" "" None None None) [alice]
     (mkRoleRef rbac_GroupName "ClusterRole" "admin")].
Definition chain_cache : Objects :=
  @stored_objects _ _ sub_matches
    (@buildCacheOptions _ _ simple_lib id tt None) chain_cluster.
Definition chain_env : SynchEnv :=
  {| env_List := λ h, (sample_heap, inr [ns_team; ns_bare]);
     env_ctxErr := λ _, None;
     env_AllowedSubjects :=
       @locate _ (@CRAuthRetriever_source _ static_reader) (NewCRAuthRetriever chain_cache) |}.

Lemma listed_iff_bound_witness :
  ∃ h' s' c nl, @synch sample_lower simple_deep_copy chain_env [] sample_cache =
                (h', s', Some c, None) ∧
    @ListNamespaces _ (@SAC_lister (sorted_range _ _)) s' "alice" ["devs"] = Ret (nl, None) ∧
    ∀ name, name ∈ ns_Name <$> elems (nl_Items nl) ↔
            name ∈ ns_Name <$> [ns_team; ns_bare] ∧
            ("system:masters" ∈ ["devs"] ∨
             ∃ sub, sub ∈ user_subjects alice ["devs"] ∧ bound chain_cluster sub name).
Proof.
  eapply (@listed_iff_bound _ _ simple_lib simple_lib_laws _ static_reader sample_lower
    simple_deep_copy simple_deep_copy_laws (sorted_range _ _) (sorted_range_laws _ _)
    sub_matches id sub_matches_spec rule_allows rule_allows_spec _ locate_spec tt None
    chain_cluster chain_cache);
    [| |reflexivity|reflexivity|reflexivity|apply sample_items_ok| | |intros; reflexivity
    |right; split; reflexivity].
  - apply static_reader_holds; apply (bool_decide_unpack _); vm_compute; exact I.
  - intros r Hr. apply list_elem_of_singleton in Hr as ->. discriminate.
  - apply (bool_decide_unpack _). vm_compute. exact I.
  - apply (bool_decide_unpack _). vm_compute. exact I.
Defined.
