(* ===== verification/Startup.v ===== *)
(** * Startup (main.go, access_cache_startup.go, internal/resourcecache/cache.go)

    The order in which the process builds and starts its parts.  A step is an
    effect followed by the error it may return; every step runs in a writer and
    error monad that records the effects.  What the calls return is given by a
    [World].  Calls that end the process instead of returning an error
    ([flag.Parse], [ctrl.GetConfigOrDie], the [MustRegister] of the process
    collector) are taken to have succeeded. *)

From stdpp Require Import base gmap strings list.
From S2P Require Import Prelude GoHTTP Middleware ApiServer Config.

(** ** Effects *)
Inductive Action :=
| RegisterProcessCollector (namespace : string)
| NewAuthenticatorA
| NewConfigFromEnvA
| BuildResourceCache
| GetInformer (k : ObjectKind)
| GoResourceCacheStart                 (* go c.Start(ctx) *)
| WaitForCacheSync
| RegisterAccessCacheMetrics
| AddEventHandler (k : ObjectKind)
| StartAccessCache                     (* synchCache.Start(ctx) *)
| FirstSynch                           (* synchCache.Synch(ctx) *)
| HTTPClientFor
| NewMetricsServer (secure : bool)
| GoMetricsServerStart                 (* go ms.Start(ctx) *)
| ServeAPI (call : Serving).           (* s.Start(ctx) blocks here *)

(** What the calls answer. *)
Record World := mkWorld {
  w_NewAuthenticator : option error;
  w_NewConfigFromEnv : option error;
  w_build : option error;
  w_GetInformer : ObjectKind → option error;
  w_WaitForCacheSync : bool;
  w_Register : option error;
  w_GetInformerAgain : ObjectKind → option error;
  w_AddEventHandler : ObjectKind → option error;
  w_Synch : option error;
  w_HTTPClientFor : option error;
  w_NewMetricsServer : option error;
  w_Serve : option error;
}.
(** The flags. *)
Record Flags := mkFlags {
  enableTLS : bool;
  tlsCertificatePath : string;
  tlsCertificateKeyPath : string;
  enableMetrics : bool;
  metricsAddress : string;
}.
Definition defaultFlags : Flags := mkFlags true "" "" true ":9100".

(** ** The monad *)
Abbreviation M A := (list Action * (error + A))%type.
Definition mret_ {A} (a : A) : M A := ([], inr a).
Definition mbind_ {A B} (m : M A) (k : A → M B) : M B :=
  match m with
  | (tr, inl err) => (tr, inl err)
  | (tr, inr a) => let '(tr', r) := k a in (tr ++ tr', r)
  end.
Notation "m ;;; k" := (mbind_ m (λ _, k)) (at level 100, right associativity).
(** An effect, then the error check of the caller. *)
Definition act (a : Action) (err : option error) : M unit :=
  ([a], match err with Some e => inl e | None => inr tt end).
Fixpoint for_ {A} (l : list A) (body : A → M unit) : M unit :=
  match l with
  | [] => mret_ tt
  | x :: l' => body x ;;; for_ l' body
  end.

(** ** The resource cache (internal/resourcecache/cache.go) *)
Section startup.
Context (w : World).
(** [o.GetObjectKind().GroupVersionKind().String()] *)
Variable gvk_String : ObjectKind → string.

Definition informerError (k : ObjectKind) (err : option error) : option error :=
  (λ e, ErrWrap ("error starting cache: getting informer for " +:+ gvk_String k +:+ ": "
                   +:+ error_Error e) [e]) <$> err.

Definition start : M unit :=
  for_ cachedObjects (λ o, act (GetInformer o) (informerError o (w_GetInformer w o))) ;;;
  act GoResourceCacheStart None ;;;
  act WaitForCacheSync
    (if w_WaitForCacheSync w then None else Some (ErrNew "error starting the cache")).

Definition BuildAndStart : M unit :=
  act BuildResourceCache (w_build w) ;;;
  start.

(** ** The access cache (access_cache_startup.go) *)
Definition eventHandlerObjects : list ObjectKind :=
  [KNamespace; KClusterRoleBinding; KRoleBinding; KClusterRole; KRole].

Definition buildAndStartSynchronizedAccessCache : M unit :=
  act RegisterAccessCacheMetrics (w_Register w) ;;;
  for_ eventHandlerObjects (λ o,
    act (GetInformer o) (w_GetInformerAgain w o) ;;;
    act (AddEventHandler o) (w_AddEventHandler w o)) ;;;
  act StartAccessCache None ;;;
  act FirstSynch (w_Synch w).

(** ** [run] (main.go) *)
Definition startMetricsServer (f : Flags) : M unit :=
  if enableMetrics f then
    act HTTPClientFor (w_HTTPClientFor w) ;;;
    act (NewMetricsServer (enableTLS f)) (w_NewMetricsServer w) ;;;
    act GoMetricsServerStart None
  else mret_ tt.

(** metrics.go: [MustRegister] of the process collector. *)
Definition InitRegistry : M unit := act (RegisterProcessCollector "namespace_lister") None.

Definition run (f : Flags) (s : APIServer) : M unit :=
  InitRegistry ;;;
  act NewAuthenticatorA (w_NewAuthenticator w) ;;;
  act NewConfigFromEnvA (w_NewConfigFromEnv w) ;;;
  BuildAndStart ;;;
  buildAndStartSynchronizedAccessCache ;;;
  startMetricsServer f ;;;
  let s := WithTLSOpts [loadTLSCert (tlsCertificatePath f) (tlsCertificateKeyPath f)]
             (WithTLS (enableTLS f) s) in
  act (ServeAPI (Start s).2) (w_Serve w).

(** [main]: the exit status when [run] returns an error. *)
Definition exit_status (r : error + unit) : option Z :=
  match r with
  | inl _ => Some 1%Z
  | inr _ => None
  end.
Definition main (f : Flags) (s : APIServer) : option Z := exit_status (run f s).2.

(** ** Runs as lists of checked steps *)
Fixpoint run_steps (l : list (Action * option error)) : M unit :=
  match l with
  | [] => mret_ tt
  | (a, o) :: l' => act a o ;;; run_steps l'
  end.

Lemma run_steps_app l k : run_steps (l ++ k) = (run_steps l ;;; run_steps k).
Proof.
  induction l as [|[a [e|]] l IH]; simpl.
  - by destruct (run_steps k) as [tr []].
  - done.
  - rewrite IH. destruct (run_steps l) as [tr [e|[]]]; simpl; [done|].
    by destruct (run_steps k).
Qed.

Lemma run_steps_one a o : act a o = run_steps [(a, o)].
Proof. by destruct o. Qed.

Lemma for_run_steps {A} (l : list A) body steps :
  (∀ x, body x = run_steps (steps x)) → for_ l body = run_steps (l ≫= steps).
Proof.
  intros H. induction l as [|x l IH]; csimpl; [done|]. by rewrite run_steps_app, H, IH.
Qed.

(** The steps before the API is served. *)
Definition startup_steps (f : Flags) : list (Action * option error) :=
  [(RegisterProcessCollector "namespace_lister", None);
   (NewAuthenticatorA, w_NewAuthenticator w); (NewConfigFromEnvA, w_NewConfigFromEnv w);
   (BuildResourceCache, w_build w)] ++
  (cachedObjects ≫= λ k, [(GetInformer k, informerError k (w_GetInformer w k))]) ++
  [(GoResourceCacheStart, None);
   (WaitForCacheSync,
    if w_WaitForCacheSync w then None else Some (ErrNew "error starting the cache"));
   (RegisterAccessCacheMetrics, w_Register w)] ++
  (eventHandlerObjects ≫= λ k, [(GetInformer k, w_GetInformerAgain w k);
                                (AddEventHandler k, w_AddEventHandler w k)]) ++
  [(StartAccessCache, None); (FirstSynch, w_Synch w)] ++
  (if enableMetrics f then
     [(HTTPClientFor, w_HTTPClientFor w); (NewMetricsServer (enableTLS f), w_NewMetricsServer w);
      (GoMetricsServerStart, None)]
   else []).

(** The call [Start] blocks in. *)
Definition serving (f : Flags) : Serving :=
  if enableTLS f then ListenAndServeTLS "" "" else ListenAndServe.

Lemma mbind_assoc {A B C} (m : M A) (k : A → M B) (k' : B → M C) :
  mbind_ (mbind_ m k) k' = mbind_ m (λ a, mbind_ (k a) k').
Proof.
  destruct m as [tr [e|a]]; simpl; [done|]. destruct (k a) as [tr' [e|b]]; simpl; [done|].
  destruct (k' b) as [tr'' r]. by rewrite app_assoc.
Qed.

Lemma run_eq f s :
  run f s = run_steps (startup_steps f ++ [(ServeAPI (serving f), w_Serve w)]).
Proof.
  unfold run, InitRegistry, BuildAndStart, start, buildAndStartSynchronizedAccessCache, startMetricsServer.
  rewrite (for_run_steps cachedObjects _
             (λ k, [(GetInformer k, informerError k (w_GetInformer w k))]))
    by (intros; apply run_steps_one).
  rewrite (for_run_steps eventHandlerObjects _
             (λ k, [(GetInformer k, w_GetInformerAgain w k); (AddEventHandler k, w_AddEventHandler w k)])).
  2: { intros k. rewrite (run_steps_one (GetInformer k)), (run_steps_one (AddEventHandler k)).
       by rewrite <-run_steps_app. }
  assert ((Start (WithTLSOpts [loadTLSCert (tlsCertificatePath f) (tlsCertificateKeyPath f)]
             (WithTLS (enableTLS f) s))).2 = serving f) as Hs
    by (unfold Start, serving; simpl; by destruct (enableTLS f)).
  cbv zeta. rewrite Hs. unfold startup_steps. rewrite !run_steps_one.
  destruct (enableMetrics f); change (@mret_ unit tt) with (run_steps []);
    rewrite <-!run_steps_app; by rewrite <-?app_assoc.
Qed.

Lemma run_steps_ok l : Forall (λ p, p.2 = None) l → run_steps l = (l.*1, inr tt).
Proof.
  induction 1 as [|[a o] l Ho _ IH]; csimpl; [done|]. simpl in Ho. subst o. by rewrite IH.
Qed.

Lemma run_steps_fail l a e k :
  Forall (λ p, p.2 = None) l → run_steps (l ++ (a, Some e) :: k) = (l.*1 ++ [a], inl e).
Proof. intros Hl. rewrite run_steps_app, run_steps_ok by done. done. Qed.

(** Every list of steps either succeeds or has a first failure. *)
Lemma first_failure (l : list (Action * option error)) :
  Forall (λ p, p.2 = None) l ∨
  ∃ l1 a e l2, l = l1 ++ (a, Some e) :: l2 ∧ Forall (λ p, p.2 = None) l1.
Proof.
  induction l as [|[a [e|]] l IH]; [by left| |].
  - right. by exists [], a, e, l.
  - destruct IH as [IH|(l1 & a' & e & l2 & -> & IH)]; [left; by constructor|].
    right. exists ((a, None) :: l1), a', e, l2. split; [done|by constructor].
Qed.

Lemma startup_steps_not_serve f c : ServeAPI c ∉ (startup_steps f).*1.
Proof.
  unfold startup_steps. rewrite !fmap_app. simpl. destruct (enableMetrics f); simpl; set_solver.
Qed.

(** Every call that can fail before the API is served answered without error. *)
Record all_succeeded (f : Flags) : Prop := {
  ok_authenticator : w_NewAuthenticator w = None;
  ok_config : w_NewConfigFromEnv w = None;
  ok_build : w_build w = None;
  ok_informers k : w_GetInformer w k = None;
  ok_sync : w_WaitForCacheSync w = true;
  ok_register : w_Register w = None;
  ok_informers_again k : w_GetInformerAgain w k = None;
  ok_handlers k : w_AddEventHandler w k = None;
  ok_synch : w_Synch w = None;
  ok_client : enableMetrics f = true → w_HTTPClientFor w = None;
  ok_metrics : enableMetrics f = true → w_NewMetricsServer w = None;
}.

Lemma startup_steps_ok f : Forall (λ p, p.2 = None) (startup_steps f) → all_succeeded f.
Proof.
  unfold startup_steps, informerError, cachedObjects, eventHandlerObjects. intros H.
  rewrite !Forall_app in H. destruct H as (Hfirst & Hinf & Hsync & Hev & Hsynch & Hms).
  csimpl in *. decompose_Forall_hyps. rewrite ?fmap_None in *.
  split; try done; try (by intros []); try (by destruct (w_WaitForCacheSync w)).
  all: intros Em; rewrite Em in Hms; by decompose_Forall_hyps.
Qed.

(** ** Properties *)

(** C15: the API is served only by a process that is ready.  If [run] gets to
    serving, then every call made before it that can fail returned without
    error (the authenticator, the configuration, the resource cache and each of
    its informers, the wait for its sync, the registration of the metrics, each
    event handler, the first synchronization, and the metrics server when it is
    enabled), the calls were made in the order of the code, and serving is the
    last of them, over TLS exactly when the flag says so. *)
Theorem serves_only_when_ready f s tr r c :
  run f s = (tr, r) → ServeAPI c ∈ tr →
  all_succeeded f ∧
  tr = [RegisterProcessCollector "namespace_lister"; NewAuthenticatorA; NewConfigFromEnvA;
        BuildResourceCache; GetInformer KNamespace; GetInformer KRoleBinding;
        GetInformer KClusterRole; GetInformer KClusterRoleBinding; GetInformer KRole;
        GoResourceCacheStart; WaitForCacheSync; RegisterAccessCacheMetrics;
        GetInformer KNamespace; AddEventHandler KNamespace;
        GetInformer KClusterRoleBinding; AddEventHandler KClusterRoleBinding;
        GetInformer KRoleBinding; AddEventHandler KRoleBinding;
        GetInformer KClusterRole; AddEventHandler KClusterRole;
        GetInformer KRole; AddEventHandler KRole;
        StartAccessCache; FirstSynch] ++
       (if enableMetrics f then [HTTPClientFor; NewMetricsServer (enableTLS f); GoMetricsServerStart]
        else []) ++
       [ServeAPI c] ∧
  c = (if enableTLS f then ListenAndServeTLS "" "" else ListenAndServe).
Proof.
  rewrite run_eq. intros Hrun Hin.
  destruct (first_failure (startup_steps f)) as [Hok|(l1 & a & e & l2 & Hl & Hok)].
  - rewrite run_steps_app, run_steps_ok in Hrun by done.
    assert (tr = (startup_steps f).*1 ++ [ServeAPI (serving f)]) as ->
      by (simpl in Hrun; by destruct (w_Serve w); simplify_eq/=).
    assert (c = serving f) as ->.
    { apply elem_of_app in Hin as [Hin|Hin]; [by destruct (startup_steps_not_serve f c)|].
      by apply list_elem_of_singleton in Hin as [= ->]. }
    split; [by apply startup_steps_ok|]. split; [|done].
    unfold startup_steps. by destruct (enableMetrics f).
  - rewrite Hl, <-app_assoc in Hrun. simpl in Hrun. rewrite run_steps_fail in Hrun by done.
    simplify_eq. exfalso. apply (startup_steps_not_serve f c). rewrite Hl, fmap_app. simpl. set_solver.
Qed.

(** The first step that fails ends the process: nothing after it runs, its
    error is the one [run] returns, and the process exits with status 1.  When
    no step fails, serving is reached. *)
Theorem startup_failure f s :
  (∃ l1 a e l2, startup_steps f = l1 ++ (a, Some e) :: l2 ∧
     run f s = (l1.*1 ++ [a], inl e) ∧ main f s = Some 1%Z) ∨
  (Forall (λ p, p.2 = None) (startup_steps f) ∧ ServeAPI (serving f) ∈ (run f s).1 ∧
   main f s = (if w_Serve w then Some 1%Z else None)).
Proof.
  unfold main, exit_status. rewrite run_eq.
  destruct (first_failure (startup_steps f)) as [Hok|(l1 & a & e & l2 & Hl & Hok)].
  - right. rewrite run_steps_app, run_steps_ok by done. split; [done|].
    destruct (w_Serve w); simpl; set_solver.
  - left. exists l1, a, e, l2. rewrite Hl, <-app_assoc. simpl. by rewrite run_steps_fail.
Qed.
End startup.

(** Every kind of object whose change can alter access is both cached and
    watched: the kinds with an informer and the kinds with an event handler are
    the same, and are all the kinds the transforms are configured for. *)
Theorem watched_kinds_are_cached k :
  k ∈ cachedObjects ∧ k ∈ eventHandlerObjects ∧ NoDup eventHandlerObjects.
Proof.
  split_and!; [destruct k; unfold cachedObjects; set_solver
              |destruct k; unfold eventHandlerObjects; set_solver|].
  apply (bool_decide_unpack _). by vm_compute.
Qed.

(** ** Witnesses *)
Definition ready : World :=
  mkWorld None None None (λ _, None) true None (λ _, None) (λ _, None) None None None None.

Lemma serves_only_when_ready_witness :
  all_succeeded ready defaultFlags ∧
  last (run ready (λ _, "") defaultFlags (mkAPIServer "" [] 0 None false [])).1 =
    Some (ServeAPI (ListenAndServeTLS "" "")).
Proof.
  split; [|reflexivity].
  apply (serves_only_when_ready ready (λ _, "") defaultFlags (mkAPIServer "" [] 0 None false [])
           (run ready (λ _, "") defaultFlags (mkAPIServer "" [] 0 None false [])).1
           (inr tt) (ListenAndServeTLS "" "")); [reflexivity|].
  apply list_elem_of_In. vm_compute. tauto.
Defined.
