(* ===== verification/Lifecycle.v ===== *)
(** * The running process (main.go, http_api_server.go, internal/resourcecache/cache.go)

    What happens after startup: the main goroutine blocks in [Start] of the API
    server, one goroutine waits for the context and shuts the server down, one
    runs the metrics server and cancels the context when it ends, and one runs
    the resource cache and panics when it fails.  The step relation interleaves
    them with the signals, the connections and what net/http documents: a
    server returns from [ListenAndServe] as soon as [Shutdown] is called,
    always with an error, and [Shutdown] waits for the requests in flight. *)

From stdpp Require Import base strings list relations.
From S2P Require Import Prelude ApiServer Startup.

(** ** State *)
Inductive main_pc :=
| MServing                    (* in ListenAndServe or ListenAndServeTLS *)
| MReturned (err : error).    (* run has returned err *)
Inductive shutdown_pc :=
| SWaiting                    (* at <-ctx.Done() *)
| SShutting                   (* in s.Shutdown *)
| SDone.                      (* Shutdown returned nil *)

Record process := mkProcess {
  p_exit : option Z;          (* the status, once the process has exited *)
  p_ctx : bool;               (* ctx.Done() is closed *)
  p_main : main_pc;
  p_shutdown : shutdown_pc;
  p_metrics : bool;           (* the metrics server runs *)
  p_cache : bool;             (* the resource cache runs *)
  p_inflight : nat;           (* requests being served *)
}.

Definition set_exit (c : option Z) (p : process) : process :=
  mkProcess c (p_ctx p) (p_main p) (p_shutdown p) (p_metrics p) (p_cache p) (p_inflight p).
Definition set_ctx (p : process) : process :=
  mkProcess (p_exit p) true (p_main p) (p_shutdown p) (p_metrics p) (p_cache p) (p_inflight p).
Definition set_main (m : main_pc) (p : process) : process :=
  mkProcess (p_exit p) (p_ctx p) m (p_shutdown p) (p_metrics p) (p_cache p) (p_inflight p).
Definition set_shutdown (s : shutdown_pc) (p : process) : process :=
  mkProcess (p_exit p) (p_ctx p) (p_main p) s (p_metrics p) (p_cache p) (p_inflight p).
Definition end_metrics (p : process) : process :=
  mkProcess (p_exit p) (p_ctx p) (p_main p) (p_shutdown p) false (p_cache p) (p_inflight p).
Definition end_cache (p : process) : process :=
  mkProcess (p_exit p) (p_ctx p) (p_main p) (p_shutdown p) (p_metrics p) false (p_inflight p).
Definition set_inflight (n : nat) (p : process) : process :=
  mkProcess (p_exit p) (p_ctx p) (p_main p) (p_shutdown p) (p_metrics p) (p_cache p) n.

Definition ErrServerClosed : error := ErrNew "http: Server closed".

(** ** Steps of a process that has not exited *)
Inductive pstep : process → process → Prop :=
(* SIGTERM or an interrupt: signal.NotifyContext cancels the context *)
| ps_signal p :
    p_exit p = None → p_ctx p = false → pstep p (set_ctx p)
(* a request arrives while the listener is open; a request is answered *)
| ps_accept p :
    p_exit p = None → p_main p = MServing → p_shutdown p = SWaiting →
    pstep p (set_inflight (S (p_inflight p)) p)
| ps_finish p n :
    p_exit p = None → p_inflight p = S n → pstep p (set_inflight n p)
(* ms.Start returned, with an error at any time or without one after the
   context was cancelled; the deferred cancel runs *)
| ps_metrics_fail p :
    p_exit p = None → p_metrics p = true → pstep p (set_ctx (end_metrics p))
| ps_metrics_end p :
    p_exit p = None → p_metrics p = true → p_ctx p = true → pstep p (set_ctx (end_metrics p))
(* c.Start returned: nil after the context was cancelled, else panic(err),
   which ends the process with status 2 *)
| ps_cache_end p :
    p_exit p = None → p_cache p = true → p_ctx p = true → pstep p (end_cache p)
| ps_cache_panic p :
    p_exit p = None → p_cache p = true → pstep p (set_exit (Some 2%Z) p)
(* the goroutine of Start: <-ctx.Done(), then Shutdown, which closes the
   listener and waits for the requests in flight *)
| ps_shutdown p :
    p_exit p = None → p_shutdown p = SWaiting → p_ctx p = true → pstep p (set_shutdown SShutting p)
| ps_shutdown_ok p :
    p_exit p = None → p_shutdown p = SShutting → p_inflight p = 0 →
    pstep p (set_shutdown SDone p)
(* Shutdown returned an error, that of its two-minute timeout among them; the
   relation has no clock, so it may do so at any time *)
| ps_shutdown_fail p err :
    p_exit p = None → p_shutdown p = SShutting →
    pstep p (set_exit (shutdownRoutine (λ _, Some err)) p)
(* the main goroutine: the listener fails, or Shutdown was called *)
| ps_listener_fail p err :
    p_exit p = None → p_main p = MServing → pstep p (set_main (MReturned err) p)
| ps_closed p :
    p_exit p = None → p_main p = MServing → p_shutdown p ≠ SWaiting →
    pstep p (set_main (MReturned ErrServerClosed) p)
(* run's deferred cancel, then main *)
| ps_main_exit p err :
    p_exit p = None → p_main p = MReturned err →
    pstep p (set_exit (exit_status (inl err)) (set_ctx p)).

(** After startup, with or without the metrics server. *)
Definition started (metrics : bool) : process := mkProcess None false MServing SWaiting metrics true 0.
Definition preachable (p : process) : Prop := ∃ metrics, rtc pstep (started metrics) p.

(** What an exited process looks like. *)
Definition exit_inv (p : process) : Prop :=
  p_exit p = None ∨ p_exit p = Some 1%Z ∨ (p_exit p = Some 2%Z ∧ p_cache p = true).

Lemma exit_invariant p : preachable p → exit_inv p.
Proof.
  intros [b Hr]. revert p Hr. apply rtc_ind_r; [by left|].
  intros p p' _ Hst _. unfold exit_inv. destruct Hst; simpl; auto.
Qed.

(** ** Properties *)

(** C19: no exit is clean.  However the process ends, its status is not zero: it
    is 2 when the resource cache panicked and 1 in every other case, a
    graceful shutdown included, because [run] always returns the error of the
    server.  And a shutdown does not wait for the requests in flight: from every
    state in which the server serves, a signal can lead to an exit that cuts all
    of them off, with no error anywhere and [Shutdown] still waiting. *)
Theorem exits_nonzero_and_cut_off p :
  preachable p →
  (∀ c, p_exit p = Some c → c = 1%Z ∨ c = 2%Z ∧ p_cache p = true) ∧
  (p_exit p = None → p_main p = MServing → p_shutdown p = SWaiting →
   ∃ p', rtc pstep p p' ∧ p_exit p' = Some 1%Z ∧ p_shutdown p' = SShutting ∧
         p_inflight p' = p_inflight p ∧ p_main p' = MReturned ErrServerClosed).
Proof.
  intros Hr. split.
  - intros c Hc. destruct (exit_invariant p Hr) as [H|[H|[H Hcache]]];
      rewrite H in Hc; simplify_eq; auto.
  - intros He Hm Hs.
    assert (∃ p1, rtc pstep p p1 ∧ p_ctx p1 = true ∧ p_exit p1 = None ∧ p_main p1 = MServing ∧
                  p_shutdown p1 = SWaiting ∧ p_inflight p1 = p_inflight p)
      as (p1 & Hr1 & Hc1 & He1 & Hm1 & Hs1 & Hi1).
    { destruct (p_ctx p) eqn:Hc; [by exists p|].
      exists (set_ctx p). split; [by apply rtc_once, ps_signal|done]. }
    eexists. split.
    { etrans; [exact Hr1|]. eapply rtc_l; [by apply ps_shutdown|].
      eapply rtc_l; [by apply ps_closed|]. by eapply rtc_once, ps_main_exit. }
    done.
Qed.

(** ** Witnesses *)
Definition busy : process := mkProcess None false MServing SWaiting true true 2.
Lemma busy_reachable : preachable busy.
Proof.
  exists true. eapply rtc_l; [by apply ps_accept|]. simpl. eapply rtc_l; [by apply ps_accept|].
  apply rtc_refl.
Qed.

Lemma exits_nonzero_and_cut_off_witness :
  ∃ p', rtc pstep busy p' ∧ p_exit p' = Some 1%Z ∧ p_shutdown p' = SShutting ∧
        p_inflight p' = 2 ∧ p_main p' = MReturned ErrServerClosed.
Proof. by apply (exits_nonzero_and_cut_off busy busy_reachable). Defined.
