(* ===== verification/MetricsUtil.v ===== *)
(** * Reading metrics back (pkg/metricsutil/metrics.go)

    Lookups of metric families and histogram samples by name and labels.  The
    registry and the sample extraction are the Prometheus libraries'. *)

From stdpp Require Import base gmap strings list.
From S2P Require Import Prelude.

(** [model.Metric]: the label set, the name included; [Sample]: a value. *)
Abbreviation Metric := (gmap string string).
Record Sample (V : Type) := mkSample { sm_Metric : Metric; sm_Value : V }.
Arguments mkSample {V} _ _.
Arguments sm_Metric {V} _.
Arguments sm_Value {V} _.
Definition MetricNameLabel : string := "__name__".
(** [metric[l]]: the empty string for an absent label. *)
Definition metric_label (m : Metric) (l : string) : string := default "" (m !! l).

Section util.
Context {Collector Family V : Type} `{!MapRange string string}.
(** A fresh registry: [Register], then [Gather]. *)
Variable Register : Collector → option error.
Variable Gather : Collector → error + list Family.
Variable GetName : Family → string.
(** [expfmt.ExtractSamples] *)
Variable ExtractSamples : Family → error + list (Sample V).

Fixpoint find_family (name : string) (mff : list Family) : error + Family :=
  match mff with
  | [] => inl (ErrNew "metric family not found")
  | mf :: mff' => if decide (GetName mf = name) then inr mf else find_family name mff'
  end.

Definition GetMetricFamilyFromCollector (collector : Collector) (name : string) : error + Family :=
  match Register collector with
  | Some err => inl err
  | None =>
      match Gather collector with
      | inl err => inl err
      | inr mff => find_family name mff
      end
  end.

Definition GetVector (collector : Collector) (name : string) : error + list (Sample V) :=
  match GetMetricFamilyFromCollector collector name with
  | inl err => inl err
  | inr mf => ExtractSamples mf
  end.

(** The loop over the matchers, in the order the map is visited. *)
Fixpoint matches_loop (metric : Metric) (l : list (string * string)) : bool :=
  match l with
  | [] => true
  | (key, value) :: l' =>
      if decide (metric_label metric key ≠ value) then false else matches_loop metric l'
  end.
Definition matchesLabels (metric : Metric) (matchers : gmap string string) : bool :=
  matches_loop metric (map_range matchers).

Fixpoint find_sample (sampleName : string) (labelMatchers : gmap string string)
    (notFound : error) (vec : list (Sample V)) : error + V :=
  match vec with
  | [] => inl notFound
  | sample :: vec' =>
      let sn := metric_label (sm_Metric sample) MetricNameLabel in
      if bool_decide (sn = sampleName) && matchesLabels (sm_Metric sample) labelMatchers
      then inr (sm_Value sample)
      else find_sample sampleName labelMatchers notFound vec'
  end.

Definition GetHistogramSum (collector : Collector) (name : string)
    (labelMatchers : gmap string string) : error + V :=
  match GetVector collector name with
  | inl err => inl err
  | inr vec => find_sample (name +:+ "_sum") labelMatchers
                 (ErrNew "histogram sum not found with matching labels") vec
  end.

Definition GetHistogramCount (collector : Collector) (name : string)
    (labelMatchers : gmap string string) : error + V :=
  match GetVector collector name with
  | inl err => inl err
  | inr vec => find_sample (name +:+ "_count") labelMatchers
                 (ErrNew "histogram count not found with matching labels") vec
  end.

(** ** Lemmas *)
Context `{!MapRangeLaws string string}.

Lemma matches_loop_Forall metric l :
  matches_loop metric l = true ↔ Forall (λ p, metric_label metric p.1 = p.2) l.
Proof.
  induction l as [|[k v] l IH]; simpl; [by rewrite Forall_nil|]. rewrite Forall_cons. simpl.
  case_decide; naive_solver.
Qed.

(** Matching does not depend on the order in which the map is visited. *)
Lemma matchesLabels_spec metric matchers :
  matchesLabels metric matchers = true ↔
  ∀ k v, matchers !! k = Some v → metric_label metric k = v.
Proof.
  unfold matchesLabels. rewrite matches_loop_Forall, map_range_perm, Forall_forall. split.
  - intros H k v Hk. apply (H (k, v)). by apply elem_of_map_to_list.
  - intros H [k v] Hk%elem_of_map_to_list. by apply H.
Qed.

(** The sample a lookup returns: the first one with the name and the labels. *)
Definition selects (sampleName : string) (labelMatchers : gmap string string) (s : Sample V) : Prop :=
  metric_label (sm_Metric s) MetricNameLabel = sampleName ∧
  ∀ k v, labelMatchers !! k = Some v → metric_label (sm_Metric s) k = v.

Lemma find_sample_spec n lm nf vec :
  (∃ pre s post, vec = pre ++ s :: post ∧ selects n lm s ∧ Forall (λ x, ¬ selects n lm x) pre ∧
                 find_sample n lm nf vec = inr (sm_Value s)) ∨
  (Forall (λ x, ¬ selects n lm x) vec ∧ find_sample n lm nf vec = inl nf).
Proof.
  induction vec as [|s vec IH]; simpl; [by right|].
  destruct (bool_decide _ && _) eqn:E.
  - left. apply andb_true_iff in E as [E1%bool_decide_eq_true E2]. exists [], s, vec.
    split_and!; [done| |done|done]. split; [done|]. by apply matchesLabels_spec.
  - assert (¬ selects n lm s) as Hs.
    { intros [H1 H2]. rewrite bool_decide_true in E by done. simpl in E.
      apply matchesLabels_spec in H2. congruence. }
    destruct IH as [(pre & s' & post & -> & Hsel & Hpre & Hf)|[Hall Hf]].
    + left. exists (s :: pre), s', post. by split_and!; [..|constructor|].
    + right. by split; [constructor|].
Qed.

(** The histogram lookups return the value of the first sample that carries
    the suffixed name and agrees with every matcher (an absent label counts as
    the empty string), and fail when there is none; the order in which the
    matchers are visited does not matter. *)
Theorem GetHistogramSum_spec collector name lm vec :
  GetVector collector name = inr vec →
  (∃ pre s post, vec = pre ++ s :: post ∧ selects (name +:+ "_sum") lm s ∧
     Forall (λ x, ¬ selects (name +:+ "_sum") lm x) pre ∧
     GetHistogramSum collector name lm = inr (sm_Value s)) ∨
  (Forall (λ x, ¬ selects (name +:+ "_sum") lm x) vec ∧
     GetHistogramSum collector name lm =
       inl (ErrNew "histogram sum not found with matching labels")).
Proof. intros Hv. unfold GetHistogramSum. rewrite Hv. apply find_sample_spec. Qed.
End util.

(** ** Witness *)
Lemma GetHistogramSum_spec_witness :
  ∃ r, @GetHistogramSum unit unit Z (sorted_range _ _) (λ _, None) (λ _, inr [tt]) (λ _, "d")
         (λ _, inr [mkSample {[MetricNameLabel := "d_count"]} 1%Z;
                    mkSample (<["status" := "completed"]> {[MetricNameLabel := "d_sum"]}) 7%Z])
         tt "d" {["status" := "completed"]} = inr r ∧ r = 7%Z.
Proof.
  destruct (@GetHistogramSum_spec unit unit Z (sorted_range _ _) (λ _, None) (λ _, inr [tt]) (λ _, "d")
         (λ _, inr [mkSample {[MetricNameLabel := "d_count"]} 1%Z;
                    mkSample (<["status" := "completed"]> {[MetricNameLabel := "d_sum"]}) 7%Z])
         (sorted_range_laws _ _) tt "d" {["status" := "completed"]} _ eq_refl)
    as [(pre & s & post & Hv & Hsel & _ & Heq)|[_ Heq]].
  - eexists. split; [exact Heq|]. cut (inr (A := error) (sm_Value s) = inr 7%Z); [congruence|].
    rewrite <-Heq. vm_compute. reflexivity.
  - exfalso. vm_compute in Heq. discriminate Heq.
Defined.
