(* ===== verification/AcceptContext.v ===== *)
(** * The context and the clients of the acceptance suites
    (acceptance/pkg/context/context.go, acceptance/pkg/rest/config.go and
    client.go, acceptance/pkg/suite/env.go)

    The steps of a scenario hand their data to each other through the Go
    context: typed values under string keys.  Clients are built from the kube
    configuration, adjusted by the environment. *)

From stdpp Require Import base gmap strings list.
From S2P Require Import Prelude GoStrings KubeTypes NamespaceLister GoHTTP Authn.

(** ** The typed context (context.go) *)

(** A key is a value of the string type [ContextKey]. *)
Record ContextKey := mkContextKey { key_string : string }.
#[export] Instance ContextKey_eq_dec : EqDecision ContextKey.
Proof. solve_decision. Defined.

Definition ContextKeyNamespaces : ContextKey := mkContextKey "namespaces".
Definition ContextKeyRunId : ContextKey := mkContextKey "run-id".
Definition ContextKeyUserInfo : ContextKey := mkContextKey "user-info".
Definition ContextKeyBuildUserClient : ContextKey := mkContextKey "build-user-client".
Definition ContextKeyNamespaceListerAddress : ContextKey := mkContextKey "namespace-lister-address".
Definition ContextKeyTLSConfig : ContextKey := mkContextKey "tls-config".

(** [tls.Config], with the field the suite sets. *)
Record tls_Config := mkTLSConfig { InsecureSkipVerify : bool }.

Module tcontext.
Section context.
(** The functions of the type [BuildUserClientFunc], by name: the suites
    define them, and a context that holds a function of contexts is not an
    inductive type. *)
Context {Builder : Type}.

(** The dynamic types stored in a context; a nil function or pointer is
    [None]. *)
Inductive value :=
| VString (s : string)
| VUserInfo (u : UserInfo)
| VNamespaces (nn : slice NamespaceView)
| VTLSConfig (cfg : option tls_Config)
| VBuilder (b : option Builder).

(** The chain of [context.WithValue], the innermost first. *)
Abbreviation Context_ := (list (ContextKey * value)).

Definition WithValue (ctx : Context_) (key : ContextKey) (v : value) : Context_ := (key, v) :: ctx.
(** [ctx.Value(key)]: the innermost value of the key, or nil. *)
Definition Value (ctx : Context_) (key : ContextKey) : option value :=
  snd <$> (snd <$> list_find (λ e, e.1 = key) ctx).

(** A Go type that is stored: its injection into the dynamic values, the type
    assertion, and its zero value. *)
Class GoType (T : Type) := {
  box : T → value;
  assert_type : value → option T;
  zero_value : T;
  assert_box x : assert_type (box x) = Some x;
}.

#[export] Instance GoType_string : GoType string := {|
  box := VString;
  assert_type := λ v, match v with VString s => Some s | _ => None end;
  zero_value := "";
  assert_box := λ _, eq_refl;
|}.
#[export] Instance GoType_UserInfo : GoType UserInfo := {|
  box := VUserInfo;
  assert_type := λ v, match v with VUserInfo u => Some u | _ => None end;
  zero_value := mkUserInfo "" "" "" "" "" [];
  assert_box := λ _, eq_refl;
|}.
#[export] Instance GoType_Namespaces : GoType (slice NamespaceView) := {|
  box := VNamespaces;
  assert_type := λ v, match v with VNamespaces nn => Some nn | _ => None end;
  zero_value := None;
  assert_box := λ _, eq_refl;
|}.
#[export] Instance GoType_TLSConfig : GoType (option tls_Config) := {|
  box := VTLSConfig;
  assert_type := λ v, match v with VTLSConfig c => Some c | _ => None end;
  zero_value := None;
  assert_box := λ _, eq_refl;
|}.
#[export] Instance GoType_Builder : GoType (option Builder) := {|
  box := VBuilder;
  assert_type := λ v, match v with VBuilder b => Some b | _ => None end;
  zero_value := None;
  assert_box := λ _, eq_refl;
|}.

Definition into {T} `{!GoType T} (ctx : Context_) (key : ContextKey) (v : T) : Context_ :=
  WithValue ctx key (box v).
(** A nil interface fails the assertion as a value of another type does. *)
Definition get (T : Type) `{!GoType T} (ctx : Context_) (key : ContextKey) : T :=
  match Value ctx key ≫= assert_type with
  | Some v => v
  | None => zero_value
  end.

Definition WithUser (ctx : Context_) (u : UserInfo) : Context_ := into ctx ContextKeyUserInfo u.
Definition User (ctx : Context_) : UserInfo := get UserInfo ctx ContextKeyUserInfo.
Definition WithNamespaces (ctx : Context_) (nn : slice NamespaceView) : Context_ :=
  into ctx ContextKeyNamespaces nn.
Definition Namespaces (ctx : Context_) : slice NamespaceView :=
  get (slice NamespaceView) ctx ContextKeyNamespaces.
Definition WithRunId (ctx : Context_) (runId : string) : Context_ := into ctx ContextKeyRunId runId.
Definition RunId (ctx : Context_) : string := get string ctx ContextKeyRunId.
Definition WithNamespaceListerAddress (ctx : Context_) (address : string) : Context_ :=
  into ctx ContextKeyNamespaceListerAddress address.
Definition NamespaceListerAddress (ctx : Context_) : string :=
  get string ctx ContextKeyNamespaceListerAddress.
Definition WithTLSConfig (ctx : Context_) (cfg : option tls_Config) : Context_ :=
  into ctx ContextKeyTLSConfig cfg.
Definition TLSConfig (ctx : Context_) : option tls_Config :=
  get (option tls_Config) ctx ContextKeyTLSConfig.
Definition WithBuildUserClientFunc (ctx : Context_) (builder : option Builder) : Context_ :=
  into ctx ContextKeyBuildUserClient builder.
(** Calling the function of the context; a nil function panics.  [call] runs
    the named function on a context. *)
Definition InvokeBuildUserClientFunc {A} (call : Builder → Context_ → A) (ctx : Context_) : GoRes A :=
  match get (option Builder) ctx ContextKeyBuildUserClient with
  | Some b => Ret (call b ctx)
  | None => Panic "invalid memory address or nil pointer dereference"
  end.

(** *** Lemmas *)
Lemma get_into {T} `{!GoType T} ctx key (v : T) : get T (into ctx key v) key = v.
Proof. unfold get, into, Value, WithValue. simpl. rewrite decide_True by done. simpl. by rewrite assert_box. Qed.

Lemma Value_into_ne {T} `{!GoType T} ctx key key' (v : T) :
  key ≠ key' → Value (into ctx key v) key' = Value ctx key'.
Proof.
  intros Hk. unfold Value, into, WithValue. simpl. rewrite decide_False by done.
  by destruct (list_find _ ctx) as [[]|].
Qed.

Lemma get_into_ne {T U} `{!GoType T, !GoType U} ctx key key' (v : T) :
  key ≠ key' → get U (into ctx key v) key' = get U ctx key'.
Proof. intros Hk. unfold get. by rewrite Value_into_ne. Qed.

Lemma get_missing {T} `{!GoType T} ctx key : Value ctx key = None → get T ctx key = zero_value.
Proof. intros Hv. unfold get. by rewrite Hv. Qed.
End context.
Arguments value Builder : clear implicits.
#[export] Hint Rewrite @get_into : golib.

(** The innermost value wins, and the other keys are untouched: each reader
    returns what the last writer of its own key stored and is blind to the
    writers of the other keys; a reader whose key was never written returns
    the zero value, and calling a user client builder that was never written
    panics. *)
Theorem context_roundtrip {Builder A} (call : Builder → list (ContextKey * value Builder) → A)
    (ctx : list (ContextKey * value Builder)) u nn run addr cfg b :
  let ctx' := WithBuildUserClientFunc (WithTLSConfig (WithNamespaceListerAddress
                (WithRunId (WithNamespaces (WithUser ctx u) nn) run) addr) cfg) b in
  User ctx' = u ∧ Namespaces ctx' = nn ∧ RunId ctx' = run ∧ NamespaceListerAddress ctx' = addr ∧
  TLSConfig ctx' = cfg ∧
  InvokeBuildUserClientFunc call ctx' =
    match b with
    | Some f => Ret (call f ctx')
    | None => Panic "invalid memory address or nil pointer dereference"
    end ∧
  User (Builder := Builder) [] = mkUserInfo "" "" "" "" "" [] ∧
  Namespaces (Builder := Builder) [] = None ∧ RunId (Builder := Builder) [] = "" ∧
  InvokeBuildUserClientFunc call [] = Panic "invalid memory address or nil pointer dereference".
Proof. cbv zeta. split_and!; by repeat first [apply get_into|rewrite get_into_ne by done]. Qed.
End tcontext.

(** ** The configuration of a client (rest/config.go)

    [rest.Config], with the fields that are written; the others are carried
    as an opaque encoding. *)
Record rest_Config := mkRestConfig {
  cfg_Insecure : bool;
  cfg_CAData : option string;
  cfg_CAFile : string;
  cfg_Other : string;
}.

Definition envVarUseInsecure : string := "E2E_USE_INSECURE_TLS".

Definition setTLSFromEnv (e : Environ) (cfg : rest_Config) : rest_Config :=
  if decide (Getenv e envVarUseInsecure = "true")
  then {| cfg_Insecure := true; cfg_CAData := None; cfg_CAFile := ""; cfg_Other := cfg_Other cfg |}
  else cfg.

Definition mutationFuncs : list (Environ → rest_Config → rest_Config) := [setTLSFromEnv].
(** The functions mutate the configuration in turn. *)
Definition mutateConfig (e : Environ) (cfg : rest_Config) : rest_Config :=
  foldl (λ cfg f, f e cfg) cfg mutationFuncs.

(** ** Building clients (rest/client.go) *)
(** The library: loading the kube configuration, resolving it, the scheme of
    the core types, and the constructors of clients, HTTP clients and
    mappers. *)
Class RestLib (Client : Type) := {
  ApiConfig : Type;
  Scheme : Type;
  Options : Type;
  HTTPClient : Type;
  Mapper : Type;
  Load : error + ApiConfig;
  ClientConfig : ApiConfig → error + rest_Config;
  Options_Scheme : Options → option Scheme;
  Options_zero : Options;
  NewScheme : Scheme;
  AddToScheme : Scheme → Scheme * option error;
  client_New : rest_Config → Options → error + Client;
  HTTPClientFor : rest_Config → error + HTTPClient;
  NewDynamicRESTMapper : rest_Config → HTTPClient → error + Mapper;
}.

Section client.
Context {Client : Type} `{!RestLib Client}.
Variable e : Environ.

(** [fmt.Errorf] with the verb v: the cause is formatted, not wrapped. *)
Definition configError (err : error) : error := ErrNew ("error building config: " +:+ error_Error err).

Definition NewDefaultClientConfig : error + rest_Config :=
  match Load with
  | inl err => inl (configError err)
  | inr apiConfig =>
      match ClientConfig apiConfig with
      | inl err => inl (configError err)
      | inr cfg => inr (mutateConfig e cfg)
      end
  end.

(** [utilruntime.Must] *)
Definition Must (err : option error) : GoRes unit :=
  match err with Some err => Panic (error_Error err) | None => Ret tt end.

(** The scheme that is built for empty options is not put into them. *)
Definition BuildClientWithOptions (cfg : rest_Config) (options : Options) : GoRes (error + Client) :=
  let! _ := match Options_Scheme options with
            | None => let '(_, err) := AddToScheme NewScheme in Must err
            | Some _ => Ret tt
            end in
  Ret (client_New cfg options).

Definition BuildClient (cfg : rest_Config) : GoRes (error + Client) :=
  BuildClientWithOptions cfg Options_zero.

Definition BuildDefaultHostClient : GoRes (error + Client) :=
  match NewDefaultClientConfig with
  | inl err => Ret (inl (configError err))
  | inr cfg => BuildClient cfg
  end.

Definition BuildRESTMapper (cfg : rest_Config) : error + Mapper :=
  match HTTPClientFor cfg with
  | inl err => inl err
  | inr hc =>
      match NewDynamicRESTMapper cfg hc with
      | inl err => inl err
      | inr m => inr m
      end
  end.

Definition BuildDefaultRESTMapper : error + Mapper :=
  match NewDefaultClientConfig with
  | inl err => inl err
  | inr cfg => BuildRESTMapper cfg
  end.
End client.

(** ** The environment of the suite (env.go) *)
Definition EnvKonfluxAddress : string := "KONFLUX_ADDRESS".
Definition EnvKonfluxAddressOrDefault (e : Environ) (address : string) : string :=
  cmp_Or "" [Getenv e EnvKonfluxAddress; address].

(** A pointer to a fresh configuration. *)
Definition BuildTLSConfig (e : Environ) : option tls_Config :=
  if decide (Getenv e "E2E_USE_INSECURE_TLS" = "true")
  then Some {| InsecureSkipVerify := true |}
  else Some {| InsecureSkipVerify := false |}.

Definition InjectServiceAddresses {Builder} (e : Environ) (defaultAddress : string)
    (ctx : list (ContextKey * tcontext.value Builder)) :
    list (ContextKey * tcontext.value Builder) * option error :=
  let address := EnvKonfluxAddressOrDefault e defaultAddress in
  let ctx := tcontext.WithNamespaceListerAddress ctx address in
  let ctx := tcontext.WithTLSConfig ctx (BuildTLSConfig e) in
  (ctx, None).

(** ** Properties *)

(** One variable decides for both kinds of clients: the host client gets an
    insecure configuration exactly when the configuration was insecure before
    or the variable is set, and never one that is insecure and names a
    certificate authority (which the client library refuses) unless it was so
    before; the user client of the same environment skips the verification
    exactly when the variable is set; and the address is never empty unless
    the variable and the default are. *)
Theorem insecure_from_env {Builder} e cfg defaultAddress (ctx : list (ContextKey * tcontext.value Builder)) :
  let cfg' := mutateConfig e cfg in
  let '(ctx', err) := InjectServiceAddresses e defaultAddress ctx in
  (cfg_Insecure cfg' = true ↔ cfg_Insecure cfg = true ∨ e !! envVarUseInsecure = Some "true") ∧
  (cfg_Insecure cfg' = true → cfg_CAData cfg' ≠ None ∨ cfg_CAFile cfg' ≠ "" → cfg' = cfg) ∧
  cfg_Other cfg' = cfg_Other cfg ∧
  (∃ t, tcontext.TLSConfig ctx' = Some t ∧
        (InsecureSkipVerify t = true ↔ e !! envVarUseInsecure = Some "true")) ∧
  tcontext.NamespaceListerAddress ctx' =
    (if decide (Getenv e EnvKonfluxAddress = "") then defaultAddress else Getenv e EnvKonfluxAddress) ∧
  err = None.
Proof.
  assert (Getenv e envVarUseInsecure = "true" ↔ e !! envVarUseInsecure = Some "true") as Hg.
  { unfold Getenv. destruct (e !! _); naive_solver. }
  unfold InjectServiceAddresses, mutateConfig, mutationFuncs. cbn [foldl].
  unfold setTLSFromEnv, BuildTLSConfig, EnvKonfluxAddressOrDefault.
  change "E2E_USE_INSECURE_TLS" with envVarUseInsecure.
  split; [|split; [|split; [|split; [|split]]]].
  - case_decide; simpl; naive_solver.
  - case_decide; simpl; naive_solver.
  - by case_decide.
  - case_decide; (eexists; split; [apply tcontext.get_into|]); simpl; naive_solver.
  - unfold tcontext.NamespaceListerAddress, tcontext.WithTLSConfig.
    rewrite tcontext.get_into_ne by done.
    unfold tcontext.WithNamespaceListerAddress. rewrite tcontext.get_into, !cmp_Or_cons, cmp_Or_nil.
    repeat case_decide; congruence.
  - done.
Qed.
