(* ===== verification/AcceptSteps.v ===== *)
(** * The hooks and steps of the acceptance suites
    (acceptance/pkg/suite/hooks.go, steps.go, steps_errors.go,
    steps_metrics.go, steps_response.go)

    A step takes the context of the scenario, acts on the cluster through a
    client, and returns a context and an error.  The cluster is the state [W]
    of a state monad whose computations may panic; what the clients do to it,
    and how long [wait.PollUntilContextTimeout] polls, is library code and
    stays a parameter.  Lines written by [log.Printf] are not modelled. *)

From Stdlib Require Import Ascii.
From stdpp Require Import base gmap strings list pretty.
From S2P Require Import Prelude GoStrings GoSlices KubeTypes NamespaceLister GoHTTP Authn Rbac AcceptContext.

(** ** The monad of the steps *)
Definition M (W A : Type) : Type := W → W * GoRes A.
#[export] Instance M_ret W : MRet (M W) := λ A a w, (w, Ret a).
#[export] Instance M_bind W : MBind (M W) := λ A B k m w,
  match m w with
  | (w', Ret a) => k a w'
  | (w', Panic p) => (w', Panic p)
  end.
Definition lift {W A} (r : GoRes A) : M W A := λ w, (w, r).

(** ** The library *)
Record ServiceAccount := mkServiceAccount {
  sa_Name : string;
  sa_Namespace : string;
  sa_Labels : gomap;
}.

(** [client.Client], on the objects the steps use.  A create call writes what
    the server answered back into the object, a get call fills the object. *)
Class ClientOps (C W : Type) := {
  Create_Namespace : C → NamespaceView → M W (NamespaceView * option error);
  Create_RoleBinding : C → RoleBinding → M W (option error);
  Create_ClusterRoleBinding : C → ClusterRoleBinding → M W (option error);
  Create_ServiceAccount : C → ServiceAccount → M W (ServiceAccount * option error);
  (** [SubResource("token").Create]: the token of the answer's status *)
  Create_Token : C → ServiceAccount → M W (string * option error);
  Get_ClusterRole_cli : C → ObjectKey → M W (ClusterRole * option error);
  (** the ports of the service *)
  Get_Service : C → ObjectKey → M W (list Z * option error);
  List_Namespaces : C → M W (list NamespaceView * option error);
}.

(** [errors.IsUnauthorized], [errors.IsAlreadyExists], the clock, and
    [wait.PollUntilContextTimeout] on an interval, a timeout (in seconds), the
    immediate flag and the condition. *)
Class SuiteLib (W : Type) := {
  IsUnauthorized : error → bool;
  IsAlreadyExists : error → bool;
  now_Unix : W → Z;
  PollUntilContextTimeout : Z → Z → bool → M W (bool * option error) → M W (option error);
}.

(** [strings.ReplaceAll] for one byte. *)
Fixpoint ReplaceAll (old new : ascii) (s : string) : string :=
  match s with
  | EmptyString => EmptyString
  | String c s' => String (if decide (c = old) then new else c) (ReplaceAll old new s')
  end.

(** [m[k]] on the labels, which may be nil. *)
Definition label_of (n : NamespaceView) (k : string) : string :=
  default "" (default ∅ (nv_Labels n) !! k).

Section suite.
Context {Builder C W : Type} `{!RestLib C, !ClientOps C W, !SuiteLib W}.
(** The functions the suites store to build the client of the user. *)
Variable call : Builder → list (ContextKey * tcontext.value Builder) → M W (error + C).
(** The environment of the process. *)
Variable e : Environ.

Abbreviation Ctx := (list (ContextKey * tcontext.value Builder)).
Abbreviation Step := (M W (Ctx * option error)).

Definition hostClient : M W (error + C) := lift (BuildDefaultHostClient e).
Definition userClient (ctx : Ctx) : M W (error + C) :=
  m ← lift (tcontext.InvokeBuildUserClientFunc call ctx); m.

(** ** The hooks (hooks.go); [id] is the identifier of the scenario *)
Definition InjectRunId (ctx : Ctx) (id : string) : Step :=
  mret (tcontext.WithRunId ctx id, None).

Definition PrepareTestRunServiceAccount (ctx : Ctx) (id : string) : Step :=
  r ← hostClient;
  match r with
  | inl err => mret (ctx, Some err)
  | inr cli =>
      let sa := {| sa_Name := "user-" +:+ id; sa_Namespace := "acceptance-tests";
                   sa_Labels := {["namespace-lister/scope" := "acceptance-tests";
                                  "namespace-lister/test-run" := id]} |} in
      '(sa, err) ← Create_ServiceAccount cli sa;
      match (match err with
             | Some err => if IsAlreadyExists err then None else Some err
             | None => None
             end) with
      | Some err => mret (ctx, Some err)
      | None =>
          '(token, err) ← Create_Token cli sa;
          match err with
          | Some err => mret (ctx, Some err)
          | None =>
              let ui := UserInfoFromServiceAccount (sa_Namespace sa) (sa_Name sa) token in
              mret (tcontext.WithUser ctx ui, None)
          end
      end
  end.

(** The hooks run in the order they are registered. *)
Definition InjectBaseHooks : list (Ctx → string → Step) :=
  [InjectRunId; PrepareTestRunServiceAccount].

(** ** The steps (steps.go) *)
Definition theUserRequestReturnsUnauthorized (ctx : Ctx) : Step :=
  r ← userClient ctx;
  match r with
  | inl err => mret (ctx, Some err)
  | inr cli =>
      '(items, err) ← List_Namespaces cli;
      match err with
      | Some err =>
          if IsUnauthorized err then mret (ctx, None)
          else mret (ctx, Some (ErrNew ("expected unauthorized error, got: " +:+ error_Error err)))
      | None =>
          mret (ctx, Some (ErrNew ("expected unauthorized error, but request succeeded with " +:+
                                   pretty (length items) +:+ " items")))
      end
  end.

Definition run_labels (run : string) : gomap :=
  {["konflux.ci/type" := "user"; "namespace-lister/scope" := "acceptance-tests";
    "namespace-lister/test-run" := run]}.
Definition run_namespace (name run : string) : NamespaceView :=
  mkView name (Some (run_labels run)) None None "" "".

Definition tenant_name (run : string) (tn : Z) (i : nat) : string :=
  "run-" +:+ run +:+ "-" +:+ pretty tn +:+ "-" +:+ pretty i.
Fixpoint tenant_loop (cli : C) (run : string) (tn : Z) (ii : list nat) : M W (option error) :=
  match ii with
  | [] => mret None
  | i :: ii' =>
      let n := run_namespace (tenant_name run tn i) run in
      '(_, err) ← Create_Namespace cli n;
      match err with
      | Some err => mret (Some err)
      | None => tenant_loop cli run tn ii'
      end
  end.
(** [for i := range limit] runs no iteration for a negative limit. *)
Definition NTenantNamespacesExist (ctx : Ctx) (limit : Z) : Step :=
  let run := tcontext.RunId ctx in
  tn ← (λ w, (w, Ret (now_Unix w)));
  r ← hostClient;
  match r with
  | inl err => mret (ctx, Some err)
  | inr cli =>
      err ← tenant_loop cli run tn (seq 0 (Z.to_nat limit));
      mret (ctx, err)
  end.

(** The errors of the create calls of the two next steps are dropped, as in
    the code. *)
Definition UserInfoHasLabeledClusterScopedListPermissionOnNamespaces (ctx : Ctx) : Step :=
  let user := tcontext.User ctx in
  r ← hostClient;
  match r with
  | inl err => mret (ctx, Some err)
  | inr cli =>
      '(cr, err) ← Get_ClusterRole_cli cli (mkKey "" "namespace-get");
      match err with
      | Some err => mret (ctx, Some err)
      | None =>
          _ ← Create_ClusterRoleBinding cli
                (mkClusterRoleBinding
                   (mkMeta ("test-" +:+ ui_Name user +:+ "-get-namespaces") ""
                      (Some {["namespace-lister.konflux-ci.dev/use-for-access" := "true"]}) None None)
                   [AsSubject user] (mkRoleRef rbac_GroupName "ClusterRole" (om_Name (cr_Meta cr))));
          mret (ctx, None)
      end
  end.

Definition UserInfoHasClusterScopedGetPermissionOnNamespaces (ctx : Ctx) : Step :=
  let user := tcontext.User ctx in
  r ← hostClient;
  match r with
  | inl err => mret (ctx, Some err)
  | inr cli =>
      '(cr, err) ← Get_ClusterRole_cli cli (mkKey "" "namespace-get");
      match err with
      | Some err => mret (ctx, Some err)
      | None =>
          _ ← Create_ClusterRoleBinding cli
                (mkClusterRoleBinding
                   (mkMeta ("test-" +:+ ui_Name user +:+ "-get-namespaces") "" None None None)
                   [AsSubject user] (mkRoleRef rbac_GroupName "ClusterRole" (om_Name (cr_Meta cr))));
          mret (ctx, None)
      end
  end.

Definition UserIsPartOfGroup (ctx : Ctx) (group : string) : Step :=
  let user := tcontext.User ctx in
  let user := {| ui_Token := ui_Token user; ui_Namespace := ui_Namespace user;
                 ui_Name := ui_Name user; ui_APIGroup := ui_APIGroup user;
                 ui_Kind := ui_Kind user; ui_Groups := ui_Groups user ++ [group] |} in
  mret (tcontext.WithUser ctx user, None).

(** The name of the [i]-th namespace of a subject, and of its binding. *)
Definition access_name (run : string) (subject : Subject) (i : nat) : string :=
  "run-" +:+ run +:+ "-" +:+ ReplaceAll ":"%char "-"%char (Name subject) +:+ "-" +:+ pretty i.

Fixpoint access_loop (cli : C) (run : string) (subject : Subject) (ii : list nat)
    (nn : slice NamespaceView) : M W (error + slice NamespaceView) :=
  match ii with
  | [] => mret (inr nn)
  | i :: ii' =>
      '(n, err) ← Create_Namespace cli (run_namespace (access_name run subject i) run);
      match err with
      | Some err => mret (inl err)
      | None =>
          err ← Create_RoleBinding cli
                  (mkRoleBinding (mkMeta (access_name run subject i) (access_name run subject i)
                                    None None None)
                     [subject] (mkRoleRef rbac_GroupName "ClusterRole" "namespace-get"));
          match err with
          | Some err => mret (inl err)
          | None => access_loop cli run subject ii' (go_append nn n)
          end
      end
  end.

Definition subjectHasAccessToNNamespaces (ctx : Ctx) (subject : Subject) (number : Z) : Step :=
  let run := tcontext.RunId ctx in
  r ← hostClient;
  match r with
  | inl err => mret (ctx, Some err)
  | inr cli =>
      r ← access_loop cli run subject (seq 0 (Z.to_nat number)) (tcontext.Namespaces ctx);
      match r with
      | inl err => mret (ctx, Some err)
      | inr nn => mret (tcontext.WithNamespaces ctx nn, None)
      end
  end.

Definition GroupHasAccessToNNamespaces (ctx : Ctx) (group : string) (number : Z) : Step :=
  let sub := {| Kind := GroupKind; APIGroup := rbac_GroupName; Name := group; Namespace_ := "" |} in
  subjectHasAccessToNNamespaces ctx sub number.

Definition UserInfoHasAccessToNNamespaces (ctx : Ctx) (number : Z) : Step :=
  let user := tcontext.User ctx in
  subjectHasAccessToNNamespaces ctx (AsSubject user) number.

Definition UserHasAccessToNNamespaces (ctx : Ctx) (number : Z) : Step :=
  let runId := tcontext.RunId ctx in
  let username := "user-" +:+ runId in
  let user := UserInfoFromUsername username in
  let ctx := tcontext.WithUser ctx user in
  UserInfoHasAccessToNNamespaces ctx number.

(** The conditions that are polled; an error of the listing is logged and the
    condition is not met.  The context a condition receives is derived from
    [ctx] and has its values. *)
Definition TheUserRetrievesNamespaces (ctx : Ctx) : Step :=
  r ← userClient ctx;
  match r with
  | inl err => mret (ctx, Some err)
  | inr cli =>
      err ← PollUntilContextTimeout 2 60 false
              ('(items, err) ← List_Namespaces cli;
               match err with
               | Some _ => mret (false, None)
               | None => mret (bool_decide (0 < length items), None)
               end);
      mret (ctx, err)
  end.

Definition TheUserRetrievesNoNamespaces (ctx : Ctx) : Step :=
  r ← userClient ctx;
  match r with
  | inl err => mret (ctx, Some err)
  | inr cli =>
      err ← PollUntilContextTimeout 2 60 false
              ('(items, err) ← List_Namespaces cli;
               match err with
               | Some _ => mret (false, None)
               | None => mret (bool_decide (length items = 0), None)
               end);
      mret (ctx, err)
  end.

(** The comparison of the last step: the items of the run against the expected
    namespaces. *)
Definition runItems (run : string) (items : list NamespaceView) : list NamespaceView :=
  foldl (λ acc n, if decide (label_of n "namespace-lister/test-run" = run) then acc ++ [n] else acc)
        [] items.

Definition matches_expected (run : string) (enn items : list NamespaceView) : bool :=
  let actual := runItems run items in
  if decide (length enn ≠ length actual) then false
  else forallb (λ en, ContainsFunc actual (λ an, bool_decide (nv_Name en = nv_Name an))) enn.

Definition TheUserCanRetrieveOnlyTheNamespacesTheyHaveAccessTo (ctx : Ctx) : Step :=
  let run := tcontext.RunId ctx in
  r ← userClient ctx;
  match r with
  | inl err => mret (ctx, Some err)
  | inr cli =>
      err ← PollUntilContextTimeout 2 60 true
              ('(items, err) ← List_Namespaces cli;
               match err with
               | Some _ => mret (false, None)
               | None => mret (matches_expected run (elems (tcontext.Namespaces ctx)) items, None)
               end);
      mret (ctx, err)
  end.

(** ** steps_errors.go, steps_metrics.go, steps_response.go *)
Definition theUserGetsAnEmptyNamespaceList (ctx : Ctx) : Step :=
  r ← userClient ctx;
  match r with
  | inl err => mret (ctx, Some err)
  | inr cli =>
      '(items, err) ← List_Namespaces cli;
      match err with
      | Some err => mret (ctx, Some (ErrNew ("expected successful response, got error: " +:+ error_Error err)))
      | None =>
          if decide (length items ≠ 0)
          then mret (ctx, Some (ErrNew ("expected empty namespace list, got " +:+
                                        pretty (length items) +:+ " items")))
          else mret (ctx, None)
      end
  end.

Fixpoint port_found (ports : list Z) : bool :=
  match ports with
  | [] => false
  | p :: ports' => if decide (p = 9100%Z) then true else port_found ports'
  end.

Definition metricsServiceIsAvailable (ctx : Ctx) : Step :=
  r ← hostClient;
  match r with
  | inl err => mret (ctx, Some err)
  | inr cli =>
      '(ports, err) ← Get_Service cli (mkKey "namespace-lister" "namespace-lister-metrics");
      match err with
      | Some err => mret (ctx, Some (ErrWrap ("metrics service not found: " +:+ error_Error err) [err]))
      | None =>
          if port_found ports then mret (ctx, None)
          else mret (ctx, Some (ErrNew "metrics service does not expose port 9100"))
      end
  end.

Fixpoint empty_name_at (i : nat) (items : list NamespaceView) : option nat :=
  match items with
  | [] => None
  | item :: items' => if decide (nv_Name item = "") then Some i else empty_name_at (S i) items'
  end.

Definition theResponseIsAValidNamespaceList (ctx : Ctx) : Step :=
  r ← userClient ctx;
  match r with
  | inl err => mret (ctx, Some (ErrWrap ("error building user client: " +:+ error_Error err) [err]))
  | inr cli =>
      '(items, err) ← List_Namespaces cli;
      match err with
      | Some err => mret (ctx, Some (ErrWrap ("error listing namespaces: " +:+ error_Error err) [err]))
      | None =>
          match empty_name_at 0 items with
          | Some i => mret (ctx, Some (ErrNew ("item[" +:+ pretty i +:+ "] has empty metadata.name")))
          | None => mret (ctx, None)
          end
      end
  end.

(** ** The registered steps ([InjectSteps] and its siblings)

    A step function with the parameters its pattern captures; godog matches
    the patterns against the text of the scenario. *)
Inductive StepFunc :=
| SF (f : Ctx → Step)
| SF_int (f : Ctx → Z → Step)
| SF_string (f : Ctx → string → Step)
| SF_string_int (f : Ctx → string → Z → Step).
Inductive Keyword := Given | Then.

(** A quoted argument of a pattern. *)
Definition dquote : string := String (ascii_of_nat 34) EmptyString.
Definition quoted : string := dquote +:+ "([^" +:+ dquote +:+ "]*)" +:+ dquote.

Definition InjectSteps : list (Keyword * string * StepFunc) :=
  [(Given, "^ServiceAccount has access to " +:+ quoted +:+ " namespaces$",
     SF_int UserInfoHasAccessToNNamespaces);
   (Given, "^User has access to " +:+ quoted +:+ " namespaces$", SF_int UserHasAccessToNNamespaces);
   (Given, "^Group " +:+ quoted +:+ " has access to " +:+ quoted +:+ " namespaces$",
     SF_string_int GroupHasAccessToNNamespaces);
   (Given, "^User is part of group " +:+ quoted +:+ "$", SF_string UserIsPartOfGroup);
   (Given, "^the ServiceAccount has Cluster-scoped get permission on namespaces$",
     SF UserInfoHasClusterScopedGetPermissionOnNamespaces);
   (Given, "^the ServiceAccount has labeled Cluster-scoped get permission on namespaces$",
     SF UserInfoHasLabeledClusterScopedListPermissionOnNamespaces);
   (Given, "^(\d+) tenant namespaces exist$", SF_int NTenantNamespacesExist);
   (Then, "^the ServiceAccount can retrieve the namespaces they and their groups have access to$",
     SF TheUserCanRetrieveOnlyTheNamespacesTheyHaveAccessTo);
   (Then, "^the User can retrieve the namespaces they and their groups have access to$",
     SF TheUserCanRetrieveOnlyTheNamespacesTheyHaveAccessTo);
   (Then, "^the ServiceAccount can retrieve only the namespaces they have access to$",
     SF TheUserCanRetrieveOnlyTheNamespacesTheyHaveAccessTo);
   (Then, "^the User can retrieve only the namespaces they have access to$",
     SF TheUserCanRetrieveOnlyTheNamespacesTheyHaveAccessTo);
   (Then, "^the ServiceAccount retrieves namespaces$", SF TheUserRetrievesNamespaces);
   (Then, "^the ServiceAccount retrieves no namespaces$", SF TheUserRetrievesNoNamespaces);
   (Then, "^the User request is rejected with unauthorized error$", SF theUserRequestReturnsUnauthorized);
   (Then, "^the user request returns unauthorized$", SF theUserRequestReturnsUnauthorized)].
Definition InjectErrorSteps : list (Keyword * string * StepFunc) :=
  [(Then, "^the user gets an empty namespace list$", SF theUserGetsAnEmptyNamespaceList)].
Definition InjectMetricsSteps : list (Keyword * string * StepFunc) :=
  [(Then, "^the metrics service is available in the cluster$", SF metricsServiceIsAvailable)].
Definition InjectResponseSteps : list (Keyword * string * StepFunc) :=
  [(Then, "^the response is a valid NamespaceList$", SF theResponseIsAValidNamespaceList)].
End suite.
