(* ===== verification/AcceptSpec.v ===== *)
(** * What the acceptance suites check

    The steps against an API server that stores what is created: the names the
    steps generate never collide, a step that grants access creates exactly
    the namespaces and bindings it records, and the comparison the suites end
    with accepts exactly the correct answers; the steps that ask once pass
    exactly on the answers they describe. *)

From Stdlib Require Import Ascii.
From stdpp Require Import base gmap strings list pretty relations.
From S2P Require Import Prelude GoStrings GoSlices KubeTypes AtomicCache AccessSync AccessSpec Samples NamespaceLister GoHTTP Authn Rbac Transform Config AccessChain AcceptContext AcceptSteps.

(** ** Names *)

Lemma no_sep_app sep s t : no_sep sep (s +:+ t) = no_sep sep s && no_sep sep t.
Proof. induction s as [|c s IH]; [done|]. simpl. by rewrite IH, andb_assoc. Qed.

(** The last separator splits a string in one way. *)
Lemma last_sep_inj sep a b x y :
  no_sep sep x = true → no_sep sep y = true →
  a +:+ String sep x = b +:+ String sep y → a = b ∧ x = y.
Proof.
  intros Hx Hy. revert b. induction a as [|c a IH]; intros [|d b] Heq; simplify_eq/=; [done| | |].
  - by rewrite no_sep_app in Hx; simpl in Hx; rewrite bool_decide_true, andb_false_r in Hx.
  - by rewrite no_sep_app in Hy; simpl in Hy; rewrite bool_decide_true, andb_false_r in Hy.
  - by destruct (IH b) as [-> ->].
Qed.

Lemma pretty_N_char_no_dash x : pretty_N_char x ≠ "-"%char.
Proof. by destruct x as [|[[[[]|[]|]|[[]|[]|]|]|[[[]|[]|]|[[]|[]|]|]|]]. Qed.

Lemma pretty_N_go_no_dash x s : no_sep "-"%char s = true → no_sep "-"%char (pretty_N_go x s) = true.
Proof.
  revert s. induction (N.lt_wf_0 x) as [x _ IH]. intros s Hs.
  destruct (decide (x = 0)%N) as [->|Hx]; [by rewrite pretty_N_go_0|].
  rewrite pretty_N_go_step by lia. apply IH; [by apply N.div_lt; lia|].
  simpl. rewrite Hs, andb_true_r. rewrite bool_decide_false; [done|]. apply pretty_N_char_no_dash.
Qed.

Lemma pretty_nat_no_dash (i : nat) : no_sep "-"%char (pretty i) = true.
Proof.
  unfold pretty, pretty_nat, pretty, pretty_N. case_decide; [done|]. by apply pretty_N_go_no_dash.
Qed.

Lemma string_app_inj (s t u : string) : s +:+ t = s +:+ u → t = u.
Proof. induction s as [|c s IH]; [done|]. intros [=]. auto. Qed.

(** Two generated names of a run are equal only for the same index and subject
    names that differ in colons and dashes at most. *)
Lemma access_name_inj run s s' i j :
  access_name run s i = access_name run s' j →
  ReplaceAll ":"%char "-"%char (Name s) = ReplaceAll ":"%char "-"%char (Name s') ∧ i = j.
Proof.
  unfold access_name. intros H%string_app_inj%string_app_inj%string_app_inj.
  apply (last_sep_inj "-"%char) in H as [H1 H2%(inj pretty)]; auto using pretty_nat_no_dash.
Qed.

Lemma access_names_NoDup run s ii : NoDup ii → NoDup (access_name run s <$> ii).
Proof.
  intros Hii. apply NoDup_fmap_2_strong; [|done].
  by intros i j _ _ [_ ->]%access_name_inj.
Qed.

(** ** The comparison *)

Lemma runItems_filter run items :
  runItems run items = filter (λ n, label_of n "namespace-lister/test-run" = run) items.
Proof.
  unfold runItems.
  assert (∀ acc, foldl (λ acc n, if decide (label_of n "namespace-lister/test-run" = run)
                                 then acc ++ [n] else acc) acc items =
    acc ++ filter (λ n, label_of n "namespace-lister/test-run" = run) items) as H; [|by rewrite H].
  induction items as [|n items IH]; intros acc; csimpl; [by rewrite app_nil_r|].
  rewrite IH, filter_cons. case_decide; [by rewrite <-app_assoc|done].
Qed.

Lemma contained_names enn (l : list NamespaceView) :
  forallb (λ en, ContainsFunc l (λ an, bool_decide (nv_Name en = nv_Name an))) enn = true ↔
  ∀ name, name ∈ nv_Name <$> enn → name ∈ nv_Name <$> l.
Proof.
  rewrite forallb_forall. setoid_rewrite <-list_elem_of_In. unfold ContainsFunc.
  setoid_rewrite existsb_elem_of. setoid_rewrite bool_decide_eq_true. split.
  - intros H name (en & -> & Hen)%list_elem_of_fmap.
    destruct (H en Hen) as (an & Han & ->). by apply list_elem_of_fmap_2.
  - intros H en Hen. destruct (proj1 (list_elem_of_fmap _ _ _) (H _ (list_elem_of_fmap_2 _ _ _ Hen)))
      as (an & ? & ?). eauto.
Qed.

Lemma matches_expected_spec run enn items :
  NoDup (nv_Name <$> enn) →
  matches_expected run enn items = true ↔
  nv_Name <$> filter (λ n, label_of n "namespace-lister/test-run" = run) items ≡ₚ nv_Name <$> enn.
Proof.
  intros Hnd. unfold matches_expected. rewrite runItems_filter.
  set (l := filter _ items). case_decide as Hlen.
  - split; [done|]. intros Hp%Permutation_length. rewrite !length_fmap in Hp. congruence.
  - rewrite contained_names. split.
    + intros Hsub. symmetry. apply submseteq_length_Permutation.
      * by apply NoDup_submseteq.
      * rewrite !length_fmap. lia.
    + intros Hp name. by rewrite Hp.
Qed.

(** ** The API server

    What creating an object documents, for a client with the rights to do so:
    a new name is stored (the server may complete the object, but keeps its
    name and the labels it was given), nothing else changes. *)
Definition add_binding (o : Objects) (rb : RoleBinding) : Objects :=
  mkStaticRoles (sr_Roles o) (sr_RoleBindings o ++ [rb]) (sr_ClusterRoles o) (sr_ClusterRoleBindings o).

Class ClusterLaws (C W : Type) `{!ClientOps C W} := {
  namespaces_of : W → list NamespaceView;
  objects_of : W → Objects;
  create_namespace_ok cli n w :
    nv_Name n ∉ nv_Name <$> namespaces_of w →
    ∃ w' n', Create_Namespace cli n w = (w', Ret (n', None)) ∧
      nv_Name n' = nv_Name n ∧
      (∀ k v, default ∅ (nv_Labels n) !! k = Some v → label_of n' k = v) ∧
      namespaces_of w' = namespaces_of w ++ [n'] ∧ objects_of w' = objects_of w;
  create_binding_ok cli rb w :
    (∀ rb', rb' ∈ sr_RoleBindings (objects_of w) →
       om_Namespace (rb_Meta rb') ≠ om_Namespace (rb_Meta rb)) →
    om_Namespace (rb_Meta rb) ∈ nv_Name <$> namespaces_of w →
    ∃ w', Create_RoleBinding cli rb w = (w', Ret None) ∧
      namespaces_of w' = namespaces_of w ∧ objects_of w' = add_binding (objects_of w) rb;
}.

Definition access_binding (run : string) (subject : Subject) (i : nat) : RoleBinding :=
  mkRoleBinding (mkMeta (access_name run subject i) (access_name run subject i) None None None)
    [subject] (mkRoleRef rbac_GroupName "ClusterRole" "namespace-get").

Section cluster.
Context {Builder C W : Type} `{!RestLib C, !ClientOps C W, !SuiteLib W, !ClusterLaws C W}.
Variable e : Environ.
Abbreviation Ctx := (list (ContextKey * tcontext.value Builder)).

(** The cluster has neither the namespace nor bindings in it. *)
Definition unused (w : W) (name : string) : Prop :=
  name ∉ nv_Name <$> namespaces_of w ∧
  ∀ rb, rb ∈ sr_RoleBindings (objects_of w) → om_Namespace (rb_Meta rb) ≠ name.

(** [w'] is [w] with the namespaces [created] of the run for the indexes [ii],
    and the bindings of [subject] in them. *)
Record granted (run : string) (subject : Subject) (ii : list nat) (w w' : W)
    (created : list NamespaceView) : Prop := {
  gr_names : nv_Name <$> created = access_name run subject <$> ii;
  gr_run : Forall (λ n, label_of n "namespace-lister/test-run" = run) created;
  gr_namespaces : namespaces_of w' = namespaces_of w ++ created;
  gr_roles : sr_Roles (objects_of w') = sr_Roles (objects_of w);
  gr_clusterroles : sr_ClusterRoles (objects_of w') = sr_ClusterRoles (objects_of w);
  gr_clusterrolebindings :
    sr_ClusterRoleBindings (objects_of w') = sr_ClusterRoleBindings (objects_of w);
  gr_bindings : sr_RoleBindings (objects_of w') =
    sr_RoleBindings (objects_of w) ++ (access_binding run subject <$> ii);
}.

(** One iteration of the loop. *)
Lemma access_iteration cli run subject i w :
  unused w (access_name run subject i) →
  ∃ w1 w2 n, Create_Namespace cli (run_namespace (access_name run subject i) run) w =
               (w1, Ret (n, None)) ∧
    Create_RoleBinding cli (access_binding run subject i) w1 = (w2, Ret None) ∧
    granted run subject [i] w w2 [n].
Proof.
  intros [Hns Hrb].
  destruct (create_namespace_ok cli (run_namespace (access_name run subject i) run) w Hns)
    as (w1 & n & H1 & Hname & Hlab & Hns1 & Ho1).
  destruct (create_binding_ok cli (access_binding run subject i) w1) as (w2 & H2 & Hns2 & Ho2).
  { intros rb. rewrite Ho1. apply Hrb. }
  { rewrite Hns1, fmap_app, elem_of_app. right. simpl. rewrite Hname. by left. }
  exists w1, w2, n. split_and!; [done|done|].
  split; rewrite ?Ho2, ?Ho1, ?Hns2, ?Hns1; simpl; try done.
  - by rewrite Hname.
  - constructor; [|done]. by apply Hlab.
Qed.

(** Iterations for other indexes of the same names stay possible. *)
Lemma granted_unused run subject i w w' n j :
  granted run subject [i] w w' [n] → i ≠ j →
  unused w (access_name run subject j) → unused w' (access_name run subject j).
Proof.
  intros [Hn _ Hns _ _ _ Hb] Hij [H1 H2].
  assert (access_name run subject i ≠ access_name run subject j) as Hne
    by (by intros [_ ?]%access_name_inj).
  split.
  - rewrite Hns, fmap_app, Hn. set_solver.
  - intros rb. rewrite Hb. set_solver.
Qed.

Lemma granted_cons run subject i ii w w1 w2 n created :
  granted run subject [i] w w1 [n] → granted run subject ii w1 w2 created →
  granted run subject (i :: ii) w w2 (n :: created).
Proof.
  intros [Hn Hr Hns H1 H2 H3 Hb] [Hn' Hr' Hns' H1' H2' H3' Hb'].
  split; rewrite ?H1', ?H2', ?H3', ?Hns', ?Hb', ?Hns, ?Hb, <-?app_assoc; try done.
  - rewrite !fmap_cons, Hn'. by injection Hn as ->.
  - by apply Forall_cons; split; [by inversion Hr|].
Qed.

Lemma access_loop_spec cli run subject ii nn w :
  NoDup ii → (∀ i, i ∈ ii → unused w (access_name run subject i)) →
  ∃ w' created r, access_loop cli run subject ii nn w = (w', Ret (inr r)) ∧
    elems r = elems nn ++ created ∧ granted run subject ii w w' created.
Proof.
  revert nn w. induction ii as [|i ii IH]; intros nn w Hnd Hun; simpl.
  { exists w, [], nn. rewrite app_nil_r. split_and!; [done|done|].
    split; by rewrite ?fmap_nil, ?app_nil_r. }
  apply NoDup_cons in Hnd as [Hi Hnd].
  destruct (access_iteration cli run subject i w) as (w1 & w2 & n & H1 & H2 & Hg); [apply Hun; by left|].
  destruct (IH (go_append nn n) w2) as (w' & created & r & Hl & Hr & Hg'); [done| |].
  { intros j Hj. eapply granted_unused; [done|by intros ->|]. apply Hun. by right. }
  exists w', (n :: created), r. split_and!.
  - unfold mbind, M_bind. rewrite H1. cbn. fold (access_binding run subject i). by rewrite H2.
  - rewrite Hr. simpl. by rewrite <-app_assoc.
  - by eapply granted_cons.
Qed.

(** *** The books of a scenario

    [enn], the namespaces the scenario expects, are the namespaces of the run
    that one of [subs], the subjects of the user, is bound to. *)
Record accounted (run : string) (subs : list Subject) (w : W) (enn : list NamespaceView) : Prop := {
  ac_names : NoDup (nv_Name <$> namespaces_of w);
  ac_enn : NoDup (nv_Name <$> enn);
  ac_expected n : n ∈ enn ↔
    n ∈ namespaces_of w ∧ label_of n "namespace-lister/test-run" = run ∧
    ∃ sub, sub ∈ subs ∧ bound (objects_of w) sub (nv_Name n);
}.

(** Nothing is expected before the first step of a run. *)
Lemma accounted_fresh run subs w :
  NoDup (nv_Name <$> namespaces_of w) →
  (∀ n, n ∈ namespaces_of w → label_of n "namespace-lister/test-run" ≠ run) →
  accounted run subs w [].
Proof.
  intros Hnd Hl. split; [done|constructor|]. intros n.
  split; [by intros ?%not_elem_of_nil|]. intros (Hn & Hr & _). by destruct (Hl n Hn).
Qed.

(** What a grant changes for the bindings. *)
Lemma bound_granted run subject ii w w' created sub name :
  granted run subject ii w w' created →
  name ∉ access_name run subject <$> ii →
  bound (objects_of w') sub name ↔ bound (objects_of w) sub name.
Proof.
  intros [_ _ _ Hr Hc Hcb Hb] Hn.
  assert (∀ rb, rb ∈ sr_RoleBindings (objects_of w') ∧ om_Namespace (rb_Meta rb) = name ↔
                rb ∈ sr_RoleBindings (objects_of w) ∧ om_Namespace (rb_Meta rb) = name) as Hrb.
  { intros rb. rewrite Hb, elem_of_app. split; [|naive_solver].
    intros [[?|(i & -> & Hi)%list_elem_of_fmap] Hname]; [done|]. simpl in Hname.
    destruct Hn. rewrite <-Hname. by apply list_elem_of_fmap_2. }
  assert (∀ role, role_grants (objects_of w') role name ↔ role_grants (objects_of w) role name) as Hrg.
  { intros role. unfold role_grants. by rewrite Hr. }
  assert (∀ role, clusterrole_grants (objects_of w') role name ↔
                  clusterrole_grants (objects_of w) role name) as Hcg.
  { intros role. unfold clusterrole_grants. by rewrite Hc. }
  split; intros [rb H1 H2 H3 H4 H5|rb H1 H2 H3 H4 H5|crb H1 H2 H3 H4 H5].
  all: first [rewrite Hcb in H1|rewrite <-Hcb in H1|
              destruct (proj1 (Hrb rb) (conj H1 H2))|destruct (proj2 (Hrb rb) (conj H1 H2))].
  all: first [apply Hrg in H5|apply Hcg in H5].
  all: first [by eapply bound_role|by eapply bound_clusterrole|by eapply bound_cluster].
Qed.

(** In a granted namespace the subject is bound. *)
Lemma bound_created run subject ii w w' created n :
  granted run subject ii w w' created → n ∈ created →
  clusterrole_grants (objects_of w) "namespace-get" (nv_Name n) →
  bound (objects_of w') subject (nv_Name n).
Proof.
  intros [Hn _ _ _ Hc _ Hb] Hin Hg.
  pose proof (list_elem_of_fmap_2 nv_Name _ _ Hin) as Hname. rewrite Hn in Hname.
  apply list_elem_of_fmap in Hname as (i & Hi & Hii).
  apply (bound_clusterrole _ _ _ (access_binding run subject i)); simpl; [|done|by left|done|].
  - rewrite Hb, elem_of_app. right. by apply list_elem_of_fmap_2.
  - unfold clusterrole_grants. by rewrite Hc.
Qed.

Lemma accounted_granted run subs subject ii w w' enn created :
  accounted run subs w enn → granted run subject ii w w' created → subject ∈ subs → NoDup ii →
  (∀ i, i ∈ ii → unused w (access_name run subject i)) →
  (∀ name, clusterrole_grants (objects_of w) "namespace-get" name) →
  accounted run subs w' (enn ++ created).
Proof.
  intros [Hnd He Hexp] Hg Hs Hii Hun Hrole. pose proof Hg as [Hn Hr Hns _ _ _ _].
  assert (∀ name, name ∈ nv_Name <$> namespaces_of w → name ∉ access_name run subject <$> ii) as Hdisj.
  { intros name Hname (i & -> & Hi)%list_elem_of_fmap. by destruct (Hun i Hi). }
  assert (∀ n, n ∈ enn → n ∈ namespaces_of w) as Hsub by (intros n; by intros (? & _)%Hexp).
  split.
  - rewrite Hns, fmap_app, Hn. apply NoDup_app. split_and!; auto using access_names_NoDup.
  - rewrite fmap_app, Hn. apply NoDup_app. split_and!; auto using access_names_NoDup.
    intros name (n & -> & Hin)%list_elem_of_fmap. apply Hdisj, list_elem_of_fmap_2, Hsub, Hin.
  - intros n. rewrite elem_of_app, Hns, elem_of_app. split.
    + intros [(Hin & Hl & sub & Hsub' & Hbd)%Hexp|Hin].
      * split_and!; [by left|done|]. exists sub. split; [done|].
        apply (bound_granted run subject ii w w' created); [done| |done].
        by apply Hdisj, list_elem_of_fmap_2.
      * split_and!; [by right|by eapply (proj1 (list.Forall_forall _ _) Hr)|].
        exists subject. split; [done|]. by eapply bound_created.
    + intros ([Hin|Hin] & Hl & sub & Hsub' & Hbd); [left|by right].
      apply Hexp. split_and!; [done|done|]. exists sub. split; [done|].
      apply (bound_granted run subject ii w w' created) in Hbd; [done|done|].
      by apply Hdisj, list_elem_of_fmap_2.
Qed.

(** *** Namespaces nobody is bound to *)




Lemma access_step_lemma (ctx : Ctx) subject number w cli :
  BuildDefaultHostClient e = Ret (inr cli) →
  (∀ i, i < Z.to_nat number → unused w (access_name (tcontext.RunId ctx) subject i)) →
  ∃ w' created ctx',
    subjectHasAccessToNNamespaces e ctx subject number w = (w', Ret (ctx', None)) ∧
    granted (tcontext.RunId ctx) subject (seq 0 (Z.to_nat number)) w w' created ∧
    elems (tcontext.Namespaces ctx') = elems (tcontext.Namespaces ctx) ++ created ∧
    tcontext.RunId ctx' = tcontext.RunId ctx ∧ tcontext.User ctx' = tcontext.User ctx.
Proof.
  intros Hcli Hun. set (run := tcontext.RunId ctx) in *.
  destruct (access_loop_spec cli run subject (seq 0 (Z.to_nat number)) (tcontext.Namespaces ctx) w)
    as (w' & created & r & Hl & Hr & Hg); [apply NoDup_seq| |].
  { intros i Hi%elem_of_seq. apply Hun. lia. }
  exists w', created, (tcontext.WithNamespaces ctx r). split_and!.
  - unfold subjectHasAccessToNNamespaces, hostClient, lift, mbind, M_bind. rewrite Hcli.
    fold run. by rewrite Hl.
  - done.
  - unfold tcontext.Namespaces at 1, tcontext.WithNamespaces. by rewrite tcontext.get_into.
  - by apply tcontext.get_into_ne.
  - by apply tcontext.get_into_ne.
Qed.

(** C17: granting access keeps the books.  On a cluster whose role namespace-get
    grants reading every namespace and that does not have the names of the
    run yet, the step that gives a subject of the user access to [number]
    namespaces succeeds; it creates that many namespaces under distinct names,
    each with the run's label and one binding of the subject; and afterwards
    the expected namespaces recorded in the context are again exactly the
    namespaces of the run the user is bound to. *)
Theorem access_step_accounts (ctx : Ctx) subject number w cli subs :
  BuildDefaultHostClient e = Ret (inr cli) →
  (∀ i, i < Z.to_nat number → unused w (access_name (tcontext.RunId ctx) subject i)) →
  (∀ name, clusterrole_grants (objects_of w) "namespace-get" name) →
  subject ∈ subs →
  accounted (tcontext.RunId ctx) subs w (elems (tcontext.Namespaces ctx)) →
  ∃ w' ctx',
    subjectHasAccessToNNamespaces e ctx subject number w = (w', Ret (ctx', None)) ∧
    length (namespaces_of w') = length (namespaces_of w) + Z.to_nat number ∧
    sr_RoleBindings (objects_of w') = sr_RoleBindings (objects_of w) ++
      (access_binding (tcontext.RunId ctx) subject <$> seq 0 (Z.to_nat number)) ∧
    tcontext.RunId ctx' = tcontext.RunId ctx ∧ tcontext.User ctx' = tcontext.User ctx ∧
    accounted (tcontext.RunId ctx') subs w' (elems (tcontext.Namespaces ctx')).
Proof.
  intros Hcli Hun Hrole Hs Hac.
  destruct (access_step_lemma ctx subject number w cli Hcli Hun)
    as (w' & created & ctx' & Hstep & Hg & Hnn & Hrun & Huser).
  exists w', ctx'. pose proof Hg as [Hn _ Hns _ _ _ Hb]. split_and!; [done| |done|done|done|].
  - rewrite Hns, length_app. f_equal.
    by rewrite <-(length_fmap nv_Name), Hn, length_fmap, length_seq.
  - rewrite Hrun, Hnn. eapply accounted_granted; [done|done|done|apply NoDup_seq| |done].
    intros i Hi%elem_of_seq. apply Hun. lia.
Qed.
End cluster.

(** ** Polling

    [wait.PollUntilContextTimeout] evaluates the condition, waiting between
    evaluations ([elapses] is what happens to the cluster meanwhile), until
    the condition holds or fails or the time is up. *)
Section polling.
Context {W : Type} (elapses : W → W → Prop).

Inductive polled (cond : M W (bool * option error)) : W → W → option error → Prop :=
| polled_done w w' : cond w = (w', Ret (true, None)) → polled cond w w' None
| polled_error w w' b err : cond w = (w', Ret (b, Some err)) → polled cond w w' (Some err)
| polled_again w w1 w' r : cond w = (w1, Ret (false, None)) → polled cond w1 w' r → polled cond w w' r
| polled_wait w w1 w' r : elapses w w1 → polled cond w1 w' r → polled cond w w' r
| polled_timeout w err : polled cond w w (Some err).

Class PollLaws `{!SuiteLib W} : Prop := {
  poll_polled i t im cond w w' r :
    PollUntilContextTimeout i t im cond w = (w', Ret r) → polled cond w w' r;
  poll_immediate i t cond w w' :
    cond w = (w', Ret (true, None)) → PollUntilContextTimeout i t true cond w = (w', Ret None);
}.

Lemma polled_None cond w w' :
  polled cond w w' None →
  ∃ w0, rtc (λ a b, elapses a b ∨ cond a = (b, Ret (false, None))) w w0 ∧ cond w0 = (w', Ret (true, None)).
Proof.
  remember None as r eqn:Er. intros Hp. induction Hp as [w w' Hc|w w' b err Hc|w w1 w' r Hc Hp IH
    |w w1 w' r He Hp IH|w err]; simplify_eq; [by exists w| |];
    destruct (IH eq_refl) as (w0 & Hr & H0); exists w0; (split; [|done]); eapply rtc_l; eauto.
Qed.
End polling.

Section verdict.
Context {Builder C W : Type} `{!RestLib C, !ClientOps C W, !SuiteLib W} (elapses : W → W → Prop).
Context `{!PollLaws elapses}.
Variable call : Builder → list (ContextKey * tcontext.value Builder) → M W (error + C).

(** The condition of the last step. *)
Definition verdict_cond (cli : C) (run : string) (enn : list NamespaceView) : M W (bool * option error) :=
  '(items, err) ← List_Namespaces cli;
  match err with
  | Some _ => mret (false, None)
  | None => mret (matches_expected run enn items, None)
  end.

Lemma verdict_cond_inv cli run enn w w' b :
  verdict_cond cli run enn w = (w', Ret (b, None)) →
  ∃ items err, List_Namespaces cli w = (w', Ret (items, err)) ∧
    b = match err with Some _ => false | None => matches_expected run enn items end.
Proof.
  unfold verdict_cond, mbind, M_bind. destruct (List_Namespaces cli w) as [w1 [[items err]|p]]; [|done].
  exists items, err. destruct err; simpl in *; unfold mret, M_ret in *; by simplify_eq.
Qed.

Lemma verdict_step ctx w w1 cli :
  userClient call ctx w = (w1, Ret (inr cli)) →
  TheUserCanRetrieveOnlyTheNamespacesTheyHaveAccessTo call ctx w =
  match PollUntilContextTimeout 2 60 true
          (verdict_cond cli (tcontext.RunId ctx) (elems (tcontext.Namespaces ctx))) w1 with
  | (w', Ret err) => (w', Ret (ctx, err))
  | (w', Panic p) => (w', Panic p)
  end.
Proof.
  intros Hcli. unfold TheUserCanRetrieveOnlyTheNamespacesTheyHaveAccessTo.
  unfold mbind at 1, M_bind at 1. by rewrite Hcli.
Qed.

(** C18: the verdict of a scenario is right.  When the final step passes, then at
    some moment of the polling the server answered the user's request with a
    list whose namespaces of the run are, by name and once each, the expected
    ones; and the step passes at once when the first answer is such a list. *)
Theorem verdict_exact ctx w w1 cli :
  userClient call ctx w = (w1, Ret (inr cli)) →
  NoDup (nv_Name <$> elems (tcontext.Namespaces ctx)) →
  let exact items :=
    nv_Name <$> filter (λ n, label_of n "namespace-lister/test-run" = tcontext.RunId ctx) items ≡ₚ
    nv_Name <$> elems (tcontext.Namespaces ctx) in
  (∀ w' ctx', TheUserCanRetrieveOnlyTheNamespacesTheyHaveAccessTo call ctx w = (w', Ret (ctx', None)) →
     ctx' = ctx ∧
     ∃ w0 items, rtc (λ a b, elapses a b ∨ ∃ r, List_Namespaces cli a = (b, r)) w1 w0 ∧
                 List_Namespaces cli w0 = (w', Ret (items, None)) ∧ exact items) ∧
  (∀ w2 items, List_Namespaces cli w1 = (w2, Ret (items, None)) → exact items →
     TheUserCanRetrieveOnlyTheNamespacesTheyHaveAccessTo call ctx w = (w2, Ret (ctx, None))).
Proof.
  intros Hcli Hnd exact. rewrite (verdict_step ctx w w1 cli Hcli).
  set (cond := verdict_cond cli (tcontext.RunId ctx) (elems (tcontext.Namespaces ctx))). split.
  - intros w' ctx'.
    destruct (PollUntilContextTimeout 2 60 true cond w1) as [w2 [err|p]] eqn:Hp; [|done].
    intros [= <- <- ->]. split; [done|].
    apply (poll_polled elapses) in Hp.
    apply polled_None in Hp as (w0 & Hr & (items & [err|] & Hl & Hm)%verdict_cond_inv); [done|].
    exists w0, items. split_and!; [|done|by apply matches_expected_spec].
    eapply rtc_subrel; [|done]. intros a b [?|(? & ? & ? & _)%verdict_cond_inv]; eauto.
  - intros w2 items Hl Hex.
    rewrite (poll_immediate elapses _ _ cond w1 w2); [done|].
    unfold cond, verdict_cond, mbind, M_bind. rewrite Hl. unfold mret, M_ret.
    by rewrite (proj2 (matches_expected_spec _ _ _ Hnd)).
Qed.
End verdict.

(** ** The steps that ask once *)
Section once.
Context {Builder C W : Type} `{!RestLib C, !ClientOps C W, !SuiteLib W}.
Variable call : Builder → list (ContextKey * tcontext.value Builder) → M W (error + C).
Variable e : Environ.

Lemma port_found_spec ports : port_found ports = true ↔ 9100%Z ∈ ports.
Proof.
  induction ports as [|p ports IH]; simpl; [by split; [|intros ?%not_elem_of_nil]|].
  rewrite elem_of_cons. case_decide; naive_solver.
Qed.

Lemma empty_name_at_None i items : empty_name_at i items = None ↔ "" ∉ nv_Name <$> items.
Proof.
  revert i. induction items as [|n items IH]; intros i; csimpl.
  - split; [|done]. intros _. apply not_elem_of_nil.
  - rewrite not_elem_of_cons. case_decide as Hn; [|rewrite IH]; naive_solver.
Qed.

(** A step whose outcome is the error [err], which is nil exactly on [P]. *)
Definition passes_iff (r : W * GoRes (list (ContextKey * tcontext.value Builder) * option error))
    (w : W) (ctx : list (ContextKey * tcontext.value Builder)) (P : Prop) : Prop :=
  ∃ err, r = (w, Ret (ctx, err)) ∧ (err = None ↔ P).

#[local] Instance passes_iff_proper r w ctx : Proper (iff ==> iff) (passes_iff r w ctx).
Proof. intros P Q HPQ. unfold passes_iff. by setoid_rewrite HPQ. Qed.
Lemma passes_None w ctx (P : Prop) : P → passes_iff (w, Ret (ctx, None)) w ctx P.
Proof. intros. by exists None. Qed.
Lemma passes_Some w ctx err (P : Prop) : ¬ P → passes_iff (w, Ret (ctx, Some err)) w ctx P.
Proof. intros. by exists (Some err). Qed.

(** The steps that ask the server once pass exactly on the answers they
    describe: an unauthorized error, an empty list, a list whose items are all
    named, a metrics service with the port 9100; every other answer is an
    error of the step.  A step never changes the context. *)
Theorem single_request_steps ctx w w1 w2 w3 w4 cli host items lerr ports gerr :
  userClient call ctx w = (w1, Ret (inr cli)) →
  List_Namespaces cli w1 = (w2, Ret (items, lerr)) →
  hostClient e w = (w3, Ret (inr host)) →
  Get_Service host (mkKey "namespace-lister" "namespace-lister-metrics") w3 = (w4, Ret (ports, gerr)) →
  passes_iff (theUserRequestReturnsUnauthorized call ctx w) w2 ctx
    (∃ err, lerr = Some err ∧ IsUnauthorized err = true) ∧
  passes_iff (theUserGetsAnEmptyNamespaceList call ctx w) w2 ctx (lerr = None ∧ items = []) ∧
  passes_iff (theResponseIsAValidNamespaceList call ctx w) w2 ctx
    (lerr = None ∧ "" ∉ nv_Name <$> items) ∧
  passes_iff (metricsServiceIsAvailable e ctx w) w4 ctx (gerr = None ∧ 9100%Z ∈ ports).
Proof.
  intros Hc Hl Hh Hg.
  unfold theUserRequestReturnsUnauthorized, theUserGetsAnEmptyNamespaceList,
    theResponseIsAValidNamespaceList, metricsServiceIsAvailable, mbind, M_bind.
  rewrite Hc, Hl, Hh, Hg. clear Hc Hl Hh Hg. split_and!.
  - destruct lerr as [lerr|]; [destruct (IsUnauthorized lerr) eqn:Hu|].
    + apply passes_None. eauto.
    + apply passes_Some. intros (err & [= <-] & Hu'). congruence.
    + apply passes_Some. by intros (err & ? & _).
  - destruct lerr as [lerr|]; [by apply passes_Some; intros [? _]|].
    destruct items as [|n items]; [by apply passes_None|by apply passes_Some; intros [_ ?]].
  - rewrite <-(empty_name_at_None 0).
    destruct lerr as [lerr|]; [|destruct (empty_name_at 0 items) eqn:?];
      [apply passes_Some; by intros [? ?]..|by apply passes_None].
  - rewrite <-port_found_spec. destruct gerr as [gerr|]; [|destruct (port_found ports) eqn:?];
      [apply passes_Some; by intros [? ?]|by apply passes_None|apply passes_Some; by intros [? ?]].
Qed.



(** C33: the two steps that bind a cluster role do not notice when the binding is
    refused: with a server that refuses every cluster role binding, they report
    success and leave the cluster as the lookup of the role left it. *)
Theorem clusterscoped_steps_ignore_refusal (ctx : list (ContextKey * tcontext.value Builder))
    w w1 w2 cli cr refusal :
  hostClient e w = (w1, Ret (inr cli)) →
  Get_ClusterRole_cli cli (mkKey "" "namespace-get") w1 = (w2, Ret (cr, None)) →
  (∀ crb, Create_ClusterRoleBinding cli crb w2 = (w2, Ret (Some refusal))) →
  UserInfoHasClusterScopedGetPermissionOnNamespaces e ctx w = (w2, Ret (ctx, None)) ∧
  UserInfoHasLabeledClusterScopedListPermissionOnNamespaces e ctx w = (w2, Ret (ctx, None)).
Proof.
  intros Hh Hg Hc.
  unfold UserInfoHasClusterScopedGetPermissionOnNamespaces,
    UserInfoHasLabeledClusterScopedListPermissionOnNamespaces, mbind, M_bind.
  by rewrite Hh, Hg, !Hc.
Qed.
End once.
