(* ===== verification/AcceptScenario.v ===== *)
(** * A scenario on the program

    The steps of the acceptance suites composed with the server they test: on
    a cluster that a scenario has prepared, the answer the program computes
    for the user is one the final step accepts.  Then the concrete instances
    that show the hypotheses of the suites' theorems can hold together. *)

From Stdlib Require Import Ascii.
From stdpp Require Import base gmap strings list pretty relations.
From S2P Require Import Prelude GoStrings GoSlices KubeTypes AtomicCache AccessSync AccessSpec Samples NamespaceLister GoHTTP Authn Rbac Transform Config AccessChain AcceptContext AcceptSteps AcceptSpec.

Section scenario.
Context {C W : Type} `{!ClientOps C W, !ClusterLaws C W}.
Context {Selector Scheme : Type} `{!ObjectLib, !ObjectLaws}.
Context {R : Type} `{!Reader R}.
Context `{!UnicodeLower, !DeepCopyNs, !DeepCopyLaws}.
Context `{!MapRange string Namespace, !MapRangeLaws string Namespace}.
Variable Matches : Selector → gomap → bool.
Variable SelectorFromSet : gomap → Selector.
Hypothesis SelectorFromSet_spec : ∀ m labels, Matches (SelectorFromSet m) labels = true ↔ m ⊆ labels.
Variable RuleAllows : PolicyRule → string → bool.
Hypothesis RuleAllows_spec : ∀ r name,
  RuleAllows r name = true ↔
  ("get" ∈ pr_Verbs r ∨ "*" ∈ pr_Verbs r) ∧ ("" ∈ pr_APIGroups r ∨ "*" ∈ pr_APIGroups r) ∧
  ("namespaces" ∈ pr_Resources r ∨ "*" ∈ pr_Resources r) ∧
  (pr_ResourceNames r = [] ∨ name ∈ pr_ResourceNames r).
Variable AllowedSubjects : CRAuthRetriever R → AttributesRecord → list Subject * option error.
Hypothesis AllowedSubjects_spec : locator_spec RuleAllows AllowedSubjects.

Abbreviation run_label n := (label_of n "namespace-lister/test-run").

(** The virtual labels do not touch the label of the run. *)
Lemma access_view_run v subs sub : run_label (access_view v subs sub) = run_label v.
Proof.
  destruct (access_view_labels v subs sub) as (m & Hm & _ & _ & Hk).
  unfold label_of. rewrite Hm. simpl. rewrite Hk by done. by destruct (nv_Labels v).
Qed.

(** What the final step requires of an answer, from what the answer shows. *)
Lemma accounted_matches run subs (w : W) enn items :
  accounted run subs w enn → NoDup (nv_Name <$> items) →
  (∀ name, (∃ v, v ∈ items ∧ nv_Name v = name ∧ run_label v = run) ↔
           ∃ n, n ∈ namespaces_of w ∧ nv_Name n = name ∧ run_label n = run ∧
                ∃ sub, sub ∈ subs ∧ bound (objects_of w) sub name) →
  matches_expected run enn items = true.
Proof.
  intros [_ Henn Hexp] Hnd Hshow. apply matches_expected_spec; [done|].
  apply NoDup_Permutation; [|done|].
  { eapply sublist_NoDup; [apply Hnd|]. apply fmap_sublist, sublist_filter. }
  intros name. rewrite !list_elem_of_fmap. setoid_rewrite list_elem_of_filter.
  transitivity (∃ v, v ∈ items ∧ nv_Name v = name ∧ run_label v = run); [naive_solver|].
  rewrite Hshow. setoid_rewrite Hexp. naive_solver.
Qed.

(** C16: a scenario passes on the program.  Let the expected namespaces of a
    scenario be accounted for on a cluster, let the program's caches be
    filled from that cluster, and let the user log in as one of the subjects
    with the groups of the scenario (not the all-powerful one).  Then the
    answer of the program, after a synchronization, is accepted by the
    comparison of the final step. *)
Theorem scenario_passes (sch : Scheme) nsSel (w : W) run enn (reader : R) env h s h0 items
    username groups u :
  (* the scenario *)
  accounted run (user_subjects u groups) w enn →
  names_subject username u → "system:masters" ∉ groups →
  (* the resource cache *)
  Holds reader (stored_objects Matches (buildCacheOptions SelectorFromSet sch nsSel) (objects_of w)) →
  (∀ r, r ∈ sr_Roles (objects_of w) → om_Namespace (role_Meta r) ≠ "") →
  env_AllowedSubjects env = AllowedSubjects (NewCRAuthRetriever reader) →
  (* the synchronization, over the namespaces of the cluster *)
  idFunc (sac_cache s) = ns_Name →
  env_List env h = (h0, inr items) → items_ok h0 items →
  (λ ns, (ns_Name ns, run_label (view h0 ns))) <$> items ≡ₚ
    (λ n, (nv_Name n, run_label n)) <$> namespaces_of w →
  Forall (λ ns, ns_Name ns ≠ "") items →
  (∀ j, j < length items → env_ctxErr env j = None) →
  ∃ h' s' c nl, synch env h s = (h', s', Some c, None) ∧
    ListNamespaces s' username groups = Ret (nl, None) ∧
    matches_expected run enn (view h' <$> elems (nl_Items nl)) = true.
Proof.
  intros Hac Hu Hm Hh Hr Henv Hid Hl Hok Hitems Hne Hctx.
  assert (NoDup (ns_Name <$> items)) as Hnd.
  { change (ns_Name <$> items) with (fst ∘ (λ ns, (ns_Name ns, run_label (view h0 ns))) <$> items).
    rewrite list_fmap_compose, Hitems, <-list_fmap_compose. apply (ac_names _ _ _ _ Hac). }
  destruct (ListNamespaces_after_synch_lemma env h s h0 items username groups u Hid Hl Hok Hnd Hctx Hu)
    as (h' & s' & c & nn & Hs & Hnl & Hnd' & Hv).
  eexists h', s', c, _. split_and!; [done|done|]. simpl.
  eapply accounted_matches; [done|by rewrite <-list_fmap_compose|]. setoid_rewrite Hv.
  assert (∀ ns, ns ∈ items → is_Some (first_allowed env (user_subjects u groups) ns) ↔
    ∃ sub, sub ∈ user_subjects u groups ∧ bound (objects_of w) sub (ns_Name ns)) as Hfa.
  { intros ns Hin. rewrite first_allowed_is_Some. apply exist_proper. intros sub.
    unfold allowed. rewrite Henv.
    rewrite (AllowedSubjects_bound Matches SelectorFromSet SelectorFromSet_spec RuleAllows RuleAllows_spec
      sch nsSel (objects_of w) reader Hh Hr AllowedSubjects ns sub AllowedSubjects_spec).
    - split; [|naive_solver]. intros [Hsub [->|?]]; [|done].
      by apply (masters_user u username groups Hu) in Hsub.
    - by eapply (proj1 (list.Forall_forall _ _) Hne). }
  assert (∀ p, p ∈ (λ ns, (ns_Name ns, run_label (view h0 ns))) <$> items ↔
               p ∈ (λ n, (nv_Name n, run_label n)) <$> namespaces_of w) as Hp by (intros p; by rewrite Hitems).
  setoid_rewrite list_elem_of_fmap in Hp. intros name. split.
  - intros (v & (ns & sub & Hin & Hf & ->) & <- & Hrun). rewrite access_view_run in Hrun.
    destruct (proj1 (Hp (ns_Name ns, run))) as (n & [= Hn1 Hn2] & Hn); [exists ns; by rewrite Hrun|].
    exists n. split_and!; [done|by rewrite <-Hn1|done|]. apply Hfa; [done|by rewrite Hf].
  - intros (n & Hn & <- & Hrun & Hb).
    destruct (proj2 (Hp (nv_Name n, run))) as (ns & [= Hn1 Hn2] & Hin); [exists n; by rewrite Hrun|].
    rewrite Hn1 in Hb. apply (Hfa ns Hin) in Hb as [sub Hf].
    eexists. split_and!; [by exists ns, sub|by rewrite Hn1|by rewrite access_view_run].
Qed.
End scenario.

(** ** A cluster in memory, whose server refuses cluster role bindings *)
Record tcluster := mkCluster { tc_namespaces : list NamespaceView; tc_objects : Objects }.

#[local] Instance memory_client : ClientOps unit tcluster := {|
  Create_Namespace := λ _ n w,
    if decide (nv_Name n ∈ nv_Name <$> tc_namespaces w)
    then (w, Ret (n, Some (ErrStatus 409 "already exists")))
    else (mkCluster (tc_namespaces w ++ [n]) (tc_objects w), Ret (n, None));
  Create_RoleBinding := λ _ rb w, (mkCluster (tc_namespaces w) (add_binding (tc_objects w) rb), Ret None);
  Create_ClusterRoleBinding := λ _ crb w, (w, Ret (Some (ErrStatus 403 "forbidden")));
  Create_ServiceAccount := λ _ sa w, (w, Ret (sa, None));
  Create_Token := λ _ _ w, (w, Ret ("token", None));
  Get_ClusterRole_cli := λ _ k w,
    (w, Ret match findFunc (sr_ClusterRoles (tc_objects w))
                    (λ cr, bool_decide (om_Name (cr_Meta cr) = key_Name k)) with
            | Some cr => (cr, None)
            | None => (mkClusterRole (mkMeta "" "" None None None) [] None, Some (ErrStatus 404 "not found"))
            end);
  Get_Service := λ _ _ w, (w, Ret ([9100%Z], None));
  List_Namespaces := λ _ w, (w, Ret (tc_namespaces w, None));
|}.
#[local] Instance memory_laws : ClusterLaws unit tcluster.
Proof.
  refine {| namespaces_of := tc_namespaces; objects_of := tc_objects |}.
  - intros [] n w Hn. simpl. rewrite decide_False by done. do 2 eexists. split_and!; try done.
    intros k v Hk. unfold label_of. by rewrite Hk.
  - intros [] rb w _ _. by eexists.
Defined.

(** The condition is evaluated once. *)
#[local] Instance once_lib : SuiteLib tcluster := {|
  IsUnauthorized := λ err, match err with ErrStatus 401 _ => true | _ => false end;
  IsAlreadyExists := λ err, match err with ErrStatus 409 _ => true | _ => false end;
  now_Unix := λ _, 0%Z;
  PollUntilContextTimeout := λ _ _ _ cond w,
    match cond w with
    | (w', Ret (true, None)) => (w', Ret None)
    | (w', Ret (false, None)) => (w', Ret (Some ErrDeadlineExceeded))
    | (w', Ret (_, Some err)) => (w', Ret (Some err))
    | (w', Panic p) => (w', Panic p)
    end;
|}.
#[local] Instance once_laws : PollLaws (λ _ _ : tcluster, False).
Proof.
  split; simpl.
  - intros i t im cond w w' r H.
    destruct (cond w) as [w1 [[[] [err|]]|p]] eqn:Hc; simplify_eq;
      eauto using polled_done, polled_error.
    eapply polled_again; [done|]. apply polled_timeout.
  - intros i t cond w w' H. by rewrite H.
Qed.
#[local] Instance memory_rest : RestLib unit := {|
  ApiConfig := unit; Scheme := unit; Options := unit; HTTPClient := unit; Mapper := unit;
  Load := inr tt; ClientConfig := λ _, inr (mkRestConfig false None "" "");
  Options_Scheme := λ _, None; Options_zero := tt; NewScheme := tt;
  AddToScheme := λ s, (s, None); client_New := λ _ _, inr tt;
  HTTPClientFor := λ _, inr tt; NewDynamicRESTMapper := λ _ _, inr tt;
|}.

Definition get_role : ClusterRole :=
  mkClusterRole (mkMeta "namespace-get" "" None None None) [mkRule ["get"] [""] ["namespaces"] [] []] None.
Definition empty_cluster : tcluster := mkCluster [] (mkStaticRoles [] [] [get_role] []).
Definition run_ctx : list (ContextKey * tcontext.value unit) := tcontext.WithRunId [] "r1".
Definition run_user : Subject := AsSubject (UserInfoFromUsername "user-r1").

Lemma get_role_grants rs rbs crbs name :
  clusterrole_grants (mkStaticRoles rs rbs [get_role] crbs) "namespace-get" name.
Proof.
  exists get_role. split_and!; [by left|done|]. eexists. split_and!; [by left| |by left].
  split_and!; by left.
Qed.

Lemma access_step_accounts_witness :
  ∃ w' ctx',
    subjectHasAccessToNNamespaces (C := unit) ∅ run_ctx run_user 2 empty_cluster = (w', Ret (ctx', None)) ∧
    length (namespaces_of w') = length (namespaces_of empty_cluster) + Z.to_nat 2 ∧
    sr_RoleBindings (objects_of w') = sr_RoleBindings (objects_of empty_cluster) ++
      (access_binding (tcontext.RunId run_ctx) run_user <$> seq 0 (Z.to_nat 2)) ∧
    tcontext.RunId ctx' = tcontext.RunId run_ctx ∧ tcontext.User ctx' = tcontext.User run_ctx ∧
    accounted (tcontext.RunId ctx') [run_user] w' (elems (tcontext.Namespaces ctx')).
Proof.
  apply (access_step_accounts ∅ run_ctx run_user 2 empty_cluster tt [run_user]).
  - reflexivity.
  - intros i _. split; [apply not_elem_of_nil|by intros rb ?%not_elem_of_nil].
  - intros name. apply get_role_grants.
  - by left.
  - apply accounted_fresh; [constructor|by intros n ?%not_elem_of_nil].
Defined.

Definition done_ctx : list (ContextKey * tcontext.value unit) :=
  tcontext.WithBuildUserClientFunc
    (tcontext.WithNamespaces run_ctx (Some [run_namespace "team" "r1"])) (Some tt).
(** The namespace of the run, another one the user may see, and the binding. *)
Definition done_cluster : tcluster :=
  mkCluster [run_namespace "team" "r1"; mkView "old" None None None "" ""]
    (mkStaticRoles []
       [mkRoleBinding (mkMeta "b" "team" None None None) [run_user]
          (mkRoleRef rbac_GroupName "ClusterRole" "namespace-get")] [get_role] []).

Lemma verdict_exact_witness :
  TheUserCanRetrieveOnlyTheNamespacesTheyHaveAccessTo (λ _ _ w, (w, Ret (inr tt))) done_ctx done_cluster =
  (done_cluster, Ret (done_ctx, None)).
Proof.
  refine (proj2 (verdict_exact (λ _ _, False) (λ _ _ w, (w, Ret (inr tt))) done_ctx done_cluster
                   done_cluster tt _ _) done_cluster (tc_namespaces done_cluster) _ _).
  - reflexivity.
  - apply (bool_decide_unpack _). vm_compute. exact I.
  - reflexivity.
  - vm_compute. reflexivity.
Defined.


Lemma single_request_steps_witness :
  passes_iff (theResponseIsAValidNamespaceList (λ _ _ w, (w, Ret (inr tt))) done_ctx done_cluster)
    done_cluster done_ctx
    (@None error = None ∧ "" ∉ nv_Name <$> tc_namespaces done_cluster).
Proof.
  refine (proj1 (proj2 (proj2 (single_request_steps (λ _ _ w, (w, Ret (inr tt))) ∅ done_ctx done_cluster
    done_cluster done_cluster done_cluster done_cluster tt tt (tc_namespaces done_cluster) None [9100%Z]
    None _ _ _ _)))); reflexivity.
Defined.

Lemma clusterscoped_steps_ignore_refusal_witness :
  UserInfoHasClusterScopedGetPermissionOnNamespaces (C := unit) ∅ run_ctx empty_cluster =
  (empty_cluster, Ret (run_ctx, None)).
Proof.
  refine (proj1 (clusterscoped_steps_ignore_refusal ∅ run_ctx empty_cluster empty_cluster empty_cluster
    tt get_role (ErrStatus 403 "forbidden") _ _ _)); [reflexivity|reflexivity|intros; reflexivity].
Defined.

Definition done_stored : Objects :=
  @stored_objects _ _ sub_matches (@buildCacheOptions _ _ simple_lib id tt None) (tc_objects done_cluster).
Definition done_env : SynchEnv :=
  {| env_List := λ h, ([run_labels "r1"],
       inr [mkNamespace "old" None None None "" ""; mkNamespace "team" (Some 0) None None "" ""]);
     env_ctxErr := λ _, None;
     env_AllowedSubjects :=
       @locate _ (@CRAuthRetriever_source _ static_reader) (NewCRAuthRetriever done_stored) |}.

Lemma done_items_ok :
  items_ok [run_labels "r1"]
    [mkNamespace "old" None None None "" ""; mkNamespace "team" (Some 0) None None "" ""].
Proof.
  split.
  - intros ns [->| ->%list_elem_of_singleton]%elem_of_cons; split; intros l [= <-]. simpl. lia.
  - intros ns ns' l [->| ->%list_elem_of_singleton]%elem_of_cons
      [->| ->%list_elem_of_singleton]%elem_of_cons; done.
Qed.

Lemma done_accounted :
  accounted "r1" (user_subjects run_user []) done_cluster [run_namespace "team" "r1"].
Proof.
  split; [apply (bool_decide_unpack _); vm_compute; exact I..|]. intros n. split.
  - intros ->%list_elem_of_singleton. split_and!; [by left|reflexivity|].
    exists run_user. split; [by left|].
    eapply bound_clusterrole; [by left|done|by left|done|apply get_role_grants].
  - intros (Hn & Hl & _). apply elem_of_cons in Hn as [->| ->%list_elem_of_singleton]; [by left|].
    discriminate Hl.
Qed.



Lemma scenario_passes_witness :
  ∃ h' s' c nl, @synch sample_lower simple_deep_copy done_env [] sample_cache = (h', s', Some c, None) ∧
    @ListNamespaces _ (@SAC_lister (sorted_range _ _)) s' "user-r1" [] = Ret (nl, None) ∧
    matches_expected "r1" [run_namespace "team" "r1"] (view h' <$> elems (nl_Items nl)) = true.
Proof.
  eapply (@scenario_passes unit tcluster memory_client memory_laws _ _ simple_lib simple_lib_laws _
    static_reader sample_lower simple_deep_copy simple_deep_copy_laws (sorted_range _ _)
    (sorted_range_laws _ _) sub_matches id sub_matches_spec rule_allows rule_allows_spec _ locate_spec
    tt None done_cluster "r1" _ done_stored);
    [apply done_accounted|right; split; reflexivity|apply not_elem_of_nil| | |reflexivity|reflexivity
    |reflexivity| | | |intros; reflexivity].
  - apply static_reader_holds; apply (bool_decide_unpack _); vm_compute; exact I.
  - by intros r ?%not_elem_of_nil.
  - apply done_items_ok.
  - apply (bool_decide_unpack _). vm_compute. exact I.
  - apply (bool_decide_unpack _). vm_compute. exact I.
Defined.
